(* ===== verification/_CoqProject ===== *)
-Q . S2P
Prelude.v
CStr.v
BlockDev.v
Bcache.v
Pmm.v
Fat.v
FsFormat.v
BlockStore.v
Vfs.v
VfsDisk.v
VfsData.v
VfsInv.v
VfsOps.v
VfsSpec.v
VfsMount.v
VfsProps.v
Sha256.v
Fips180.v
Hmac.v
Aes.v
CryptoFs.v
Keyslot.v
Entropy.v
Chacha20.v
Security.v
Passwd.v
DiskKey.v
Pipe.v
Fd.v
Access.v
Sysfs.v
SysfsProps.v
CryptoVfs.v
Kheap.v
EsdTime.v
Rtc.v
Paging.v
PagingInv.v
PagingOps.v
PagingFork.v
PagingShare.v
PagingExit.v
PagingMem.v
PagingInit.v
PagingSpec.v
