(* ===== verification/Prelude.v ===== *)
(** * esdumanOS: a verification development beside the kernel

    (header to be completed) *)

From stdpp Require Export base numbers list gmap.
From Stdlib Require Export ZArith Lia Bool.

#[global] Open Scope Z_scope.

(** ** Notations of the development

    [c_scope] holds what makes a definition read like the C line it comes from:
    array reads and writes, and the truncation to the width of an unsigned type. *)

Declare Scope c_scope.
Delimit Scope c_scope with C.

(** The value a zeroed object of the type has: what static storage and
    [ft_memset(p, 0, n)] leave behind. *)
Class CZero (A : Type) := czero : A.
#[export] Instance Z_czero : CZero Z := 0.
#[export] Instance bool_czero : CZero bool := false.
#[export] Instance list_czero {A} : CZero (list A) := [].

(** Arrays are lists; an index is a C integer.  A read outside the array gives
    the zero value and a write outside it changes nothing: neither is what C
    does, so every component proves separately that its indices stay inside. *)
Definition alen {A} (a : list A) : Z := Z.of_nat (length a).
Definition aget {A} `{CZero A} (a : list A) (i : Z) : A := nth (Z.to_nat i) a czero.
Definition aset {A} (a : list A) (i : Z) (x : A) : list A :=
  if i <? 0 then a else <[Z.to_nat i := x]> a.

Notation "a .[ i ]" := (aget a i) (at level 1, left associativity, format "a .[ i ]") : c_scope.
Notation "a .[ i <- x ]" := (aset a i x) (at level 1, left associativity, format "a .[ i <- x ]") : c_scope.
#[global] Open Scope c_scope.

(** Truncation to the unsigned types of types.h. *)
Definition u8 (x : Z) : Z := x mod 2 ^ 8.
Definition u16 (x : Z) : Z := x mod 2 ^ 16.
Definition u32 (x : Z) : Z := x mod 2 ^ 32.
(** Conversion to [int], as the compilers the Makefile names implement it. *)
Definition s32 (x : Z) : Z := (x + 2 ^ 31) mod 2 ^ 32 - 2 ^ 31.

Definition is_u8 (x : Z) : Prop := 0 <= x < 2 ^ 8.
Definition is_u32 (x : Z) : Prop := 0 <= x < 2 ^ 32.

(** ** Error numbers (include/errno.h) *)

Definition E_OK : Z := 0.
Definition E_PERM : Z := -1.
Definition E_NOENT : Z := -2.
Definition E_SRCH : Z := -3.
Definition E_INTR : Z := -4.
Definition E_IO : Z := -5.
Definition E_NXIO : Z := -6.
Definition E_2BIG : Z := -7.
Definition E_NOEXEC : Z := -8.
Definition E_BADF : Z := -9.
Definition E_CHILD : Z := -10.
Definition E_AGAIN : Z := -11.
Definition E_NOMEM : Z := -12.
Definition E_ACCES : Z := -13.
Definition E_FAULT : Z := -14.
Definition E_BUSY : Z := -16.
Definition E_EXIST : Z := -17.
Definition E_XDEV : Z := -18.
Definition E_NODEV : Z := -19.
Definition E_NOTDIR : Z := -20.
Definition E_ISDIR : Z := -21.
Definition E_INVAL : Z := -22.
Definition E_NFILE : Z := -23.
Definition E_MFILE : Z := -24.
Definition E_NOTTY : Z := -25.
Definition E_FBIG : Z := -27.
Definition E_NOSPC : Z := -28.
Definition E_SPIPE : Z := -29.
Definition E_ROFS : Z := -30.
Definition E_MLINK : Z := -31.
Definition E_PIPE : Z := -32.
Definition E_NAMETOOLONG : Z := -36.
Definition E_NOSYS : Z := -38.
Definition E_NOTEMPTY : Z := -39.

(** ** Tactics *)

(** Case analysis on every boolean comparison of the goal and the context. *)
Ltac bool_to_prop :=
  repeat match goal with
  | H : (_ && _) = true |- _ => apply andb_true_iff in H; destruct H
  | H : (_ || _) = false |- _ => apply orb_false_iff in H; destruct H
  | H : negb _ = true |- _ => apply negb_true_iff in H
  | H : negb _ = false |- _ => apply negb_false_iff in H
  | H : (_ =? _) = true |- _ => apply Z.eqb_eq in H
  | H : (_ =? _) = false |- _ => apply Z.eqb_neq in H
  | H : (_ <? _) = true |- _ => apply Z.ltb_lt in H
  | H : (_ <? _) = false |- _ => apply Z.ltb_ge in H
  | H : (_ <=? _) = true |- _ => apply Z.leb_le in H
  | H : (_ <=? _) = false |- _ => apply Z.leb_gt in H
  end.

Ltac case_bool :=
  match goal with
  | |- context [if ?b then _ else _] => destruct b eqn:?; bool_to_prop
  | H : context [if ?b then _ else _] |- _ => destruct b eqn:?; bool_to_prop
  end.

(** Linear arithmetic with division and modulo by constants. *)
Ltac zlia := Z.div_mod_to_equations; lia.

(** ** Arrays *)

Section arrays.
Context {A : Type} `{CZero A}.
Implicit Types (a : list A) (x : A) (i j : Z).

Lemma alen_nonneg a : 0 <= alen a.
Proof. unfold alen. lia. Qed.

Lemma alen_pos a : a <> [] -> 0 < alen a.
Proof. unfold alen. destruct a; [done|]. cbn. lia. Qed.

Lemma alen_aset a i x : alen (aset a i x) = alen a.
Proof. unfold alen, aset. case_bool; [done|]. by rewrite length_insert. Qed.

Lemma alen_app a1 a2 : alen (a1 ++ a2) = alen a1 + alen a2.
Proof. unfold alen. rewrite length_app. lia. Qed.

Lemma alen_replicate n x : 0 <= n -> alen (replicate (Z.to_nat n) x) = n.
Proof. unfold alen. rewrite length_replicate. lia. Qed.

Lemma aget_lookup a i : 0 <= i < alen a -> a !! Z.to_nat i = Some (aget a i).
Proof.
  unfold alen, aget. intros Hi.
  destruct (nth_lookup_or_length a (Z.to_nat i) czero); [done|lia].
Qed.

Lemma lookup_aget a (n : nat) x : a !! n = Some x -> aget a (Z.of_nat n) = x.
Proof. unfold aget. rewrite Nat2Z.id. apply nth_lookup_Some. Qed.

Lemma aget_oob a i : alen a <= i -> aget a i = czero.
Proof. unfold alen, aget. intros. apply nth_overflow. lia. Qed.

Lemma aget_aset_eq a i x : 0 <= i < alen a -> aget (aset a i x) i = x.
Proof.
  unfold alen, aget, aset. intros. destruct (Z.ltb_spec i 0); [lia|].
  apply nth_lookup_Some, list_lookup_insert_eq. lia.
Qed.

Lemma aget_aset_ne a i j x : 0 <= i -> 0 <= j -> i <> j -> aget (aset a i x) j = aget a j.
Proof.
  unfold aget, aset. intros. destruct (Z.ltb_spec i 0); [lia|].
  rewrite !nth_lookup, list_lookup_insert_ne; [done|lia].
Qed.

Lemma aget_aset a i j x :
  0 <= i < alen a -> 0 <= j ->
  aget (aset a i x) j = if i =? j then x else aget a j.
Proof.
  intros. destruct (Z.eqb_spec i j) as [->|].
  - by apply aget_aset_eq.
  - apply aget_aset_ne; lia.
Qed.

Lemma aget_replicate n x i : 0 <= i < n -> aget (replicate (Z.to_nat n) x) i = x.
Proof.
  intros. unfold aget. apply nth_lookup_Some, lookup_replicate_2. lia.
Qed.

(** Two arrays of one length with the same elements are equal. *)
Lemma aget_ext a b :
  alen a = alen b -> (forall i, 0 <= i < alen a -> aget a i = aget b i) -> a = b.
Proof.
  unfold alen. intros Hlen Heq. apply (list_eq_same_length _ _ (length a)); [lia|done|].
  intros i x y Hi Hx Hy.
  specialize (Heq (Z.of_nat i) ltac:(lia)).
  by rewrite (lookup_aget _ _ _ Hx), (lookup_aget _ _ _ Hy) in Heq.
Qed.

Lemma aset_aset a i x y : aset (aset a i x) i y = aset a i y.
Proof. unfold aset. destruct (i <? 0); [done|]. apply list_insert_insert_eq. Qed.

Lemma aget_take a n i : 0 <= i < n -> aget (take (Z.to_nat n) a) i = aget a i.
Proof.
  unfold aget. intros. rewrite !nth_lookup, lookup_take.
  rewrite decide_True by lia. done.
Qed.

Lemma alen_take a n : 0 <= n <= alen a -> alen (take (Z.to_nat n) a) = n.
Proof. unfold alen. rewrite length_take. lia. Qed.

Lemma aget_aset_self a i : 0 <= i < alen a -> aset a i (aget a i) = a.
Proof.
  intros. apply aget_ext; [apply alen_aset|].
  rewrite alen_aset. intros j Hj. rewrite aget_aset by lia.
  by destruct (Z.eqb_spec i j) as [->|].
Qed.
End arrays.

Create HintDb carr.
Create Rewrite HintDb carr.
#[export] Hint Rewrite @alen_aset @alen_app : carr.
#[export] Hint Resolve alen_nonneg : carr.

(** ** Bits of machine words *)

Lemma testbit_u32_high (w i : Z) : is_u32 w -> 32 <= i -> Z.testbit w i = false.
Proof.
  unfold is_u32. intros Hw Hi.
  rewrite <- (Z.mod_small w (2 ^ 32)) by done. by apply Z.mod_pow2_bits_high.
Qed.

Lemma u32_small x : 0 <= x < 2 ^ 32 -> u32 x = x.
Proof. apply Z.mod_small. Qed.

Lemma u32_range x : is_u32 (u32 x).
Proof. apply Z.mod_pos_bound. lia. Qed.

Lemma u8_small x : 0 <= x < 2 ^ 8 -> u8 x = x.
Proof. apply Z.mod_small. Qed.

Lemma u8_range x : is_u8 (u8 x).
Proof. apply Z.mod_pos_bound. lia. Qed.

(** The operations a bitmap uses: [w & (1 << k)], [w |= (1 << k)] and
    [w &= ~(1 << k)], the last with the complement of a 32-bit operand. *)
Definition bit32 (k : Z) : Z := Z.shiftl 1 k.
Definition not32 (x : Z) : Z := u32 (Z.lnot x).

Lemma testbit_bit32 k i : 0 <= k -> 0 <= i -> Z.testbit (bit32 k) i = (k =? i).
Proof.
  intros. unfold bit32. rewrite Z.shiftl_1_l.
  destruct (Z.eqb_spec k i) as [->|]; [by apply Z.pow2_bits_true|by apply Z.pow2_bits_false].
Qed.

Lemma bit32_test w k : 0 <= k -> (Z.land w (bit32 k) =? 0) = negb (Z.testbit w k).
Proof.
  intros Hk. destruct (Z.testbit w k) eqn:Hb; simpl.
  - apply Z.eqb_neq. intros H0.
    assert (Z.testbit (Z.land w (bit32 k)) k = true) as Ht.
    { rewrite Z.land_spec, Hb, testbit_bit32, Z.eqb_refl by done. done. }
    rewrite H0, Z.bits_0 in Ht. done.
  - apply Z.eqb_eq, Z.bits_inj'. intros i Hi.
    rewrite Z.land_spec, testbit_bit32, Z.bits_0 by done.
    destruct (Z.eqb_spec k i) as [->|]; [by rewrite Hb|apply andb_false_r].
Qed.

Lemma testbit_set w k i :
  0 <= k -> 0 <= i -> Z.testbit (Z.lor w (bit32 k)) i = Z.testbit w i || (k =? i).
Proof. intros. by rewrite Z.lor_spec, testbit_bit32. Qed.

Lemma testbit_not32 x i : 0 <= i < 32 -> Z.testbit (not32 x) i = negb (Z.testbit x i).
Proof.
  intros. unfold not32, u32. rewrite Z.mod_pow2_bits_low by lia. apply Z.lnot_spec. lia.
Qed.

(** Rounding down to a multiple of a power of two, as [x & ~(2^k - 1)] does. *)
Lemma land_not_ones a k : 0 <= k <= 32 -> is_u32 a -> Z.land a (not32 (Z.ones k)) = a / 2 ^ k * 2 ^ k.
Proof.
  intros Hk Ha. assert (H : Z.land a (not32 (Z.ones k)) = Z.land a (Z.lnot (Z.ones k))).
  { apply Z.bits_inj'. intros i Hi. rewrite !Z.land_spec. destruct (Z.lt_ge_cases i 32).
    - rewrite testbit_not32 by lia. by rewrite Z.lnot_spec.
    - by rewrite testbit_u32_high. }
  rewrite H, <- Z.ldiff_land, Z.ldiff_ones_r, Z.shiftl_mul_pow2, Z.shiftr_div_pow2 by lia. done.
Qed.

Lemma land_not15 a : is_u32 a -> Z.land a (not32 15) = a / 16 * 16.
Proof. intros Ha. by apply (land_not_ones a 4). Qed.

Lemma testbit_clear w k i :
  is_u32 w -> 0 <= k -> 0 <= i ->
  Z.testbit (Z.land w (not32 (bit32 k))) i = Z.testbit w i && negb (k =? i).
Proof.
  intros Hw Hk Hi. rewrite Z.land_spec. destruct (Z.lt_ge_cases i 32).
  - by rewrite testbit_not32, testbit_bit32 by lia.
  - by rewrite testbit_u32_high by done.
Qed.

(** A word whose bits from 32 up are zero is a 32-bit word. *)
Lemma is_u32_bits w : 0 <= w -> (forall i, 32 <= i -> Z.testbit w i = false) -> is_u32 w.
Proof.
  intros Hw Hbits. unfold is_u32. split; [done|].
  destruct (Z.eq_dec w 0) as [->|]; [lia|].
  apply Z.log2_lt_pow2; [lia|].
  destruct (Z.lt_ge_cases (Z.log2 w) 32); [done|].
  specialize (Hbits (Z.log2 w) ltac:(lia)). by rewrite Z.bit_log2 in Hbits by lia.
Qed.

Lemma is_u32_set w k : is_u32 w -> 0 <= k < 32 -> is_u32 (Z.lor w (bit32 k)).
Proof.
  intros Hw Hk. apply is_u32_bits.
  - apply Z.lor_nonneg. split; [apply Hw|apply Z.shiftl_nonneg; lia].
  - intros i Hi. rewrite testbit_set, testbit_u32_high by (done || lia).
    destruct (Z.eqb_spec k i); [lia|done].
Qed.

Lemma is_u32_clear w k : is_u32 w -> 0 <= k < 32 -> is_u32 (Z.land w (not32 (bit32 k))).
Proof.
  intros Hw Hk. apply is_u32_bits.
  - apply Z.land_nonneg. left. apply Hw.
  - intros i Hi. by rewrite testbit_clear, testbit_u32_high by (done || lia).
Qed.

(** A 32-bit word is all ones exactly when each of its 32 bits is. *)
Lemma word_full_iff w :
  is_u32 w -> (w =? 0xFFFFFFFF) = true <-> (forall i, 0 <= i < 32 -> Z.testbit w i = true).
Proof.
  intros Hw. rewrite Z.eqb_eq. split.
  - intros -> i Hi. change 0xFFFFFFFF with (Z.ones 32). apply Z.ones_spec_low. lia.
  - intros Hall. apply Z.bits_inj'. intros i Hi.
    change 0xFFFFFFFF with (Z.ones 32). destruct (Z.lt_ge_cases i 32).
    + by rewrite Hall, Z.ones_spec_low by lia.
    + by rewrite testbit_u32_high, Z.ones_spec_high by (done || lia).
Qed.

(** ** Counted loops

    [for (i = a; i < b; i++) body] without an early exit is a fold over the
    indices; its proof rule is the loop invariant. *)
Definition for_range {S} (a b : Z) (f : S -> Z -> S) (s : S) : S := foldl f s (seqZ a (b - a)).

Lemma for_range_empty {S} a b (f : S -> Z -> S) s : b <= a -> for_range a b f s = s.
Proof. intros. unfold for_range. by rewrite seqZ_nil by lia. Qed.

Lemma for_range_step {S} a b (f : S -> Z -> S) s :
  a < b -> for_range a b f s = for_range (a + 1) b f (f s a).
Proof.
  intros. unfold for_range. rewrite seqZ_cons by lia. simpl.
  f_equal. f_equal; lia.
Qed.

Lemma for_range_last {S} a b (f : S -> Z -> S) s :
  a <= b -> for_range a (b + 1) f s = f (for_range a b f s) b.
Proof.
  intros. unfold for_range. replace (b + 1 - a) with ((b - a) + 1) by lia.
  rewrite seqZ_app, foldl_app by lia. simpl.
  replace (a + (b - a)) with b by lia. done.
Qed.

Lemma for_range_split {S} a b c (f : S -> Z -> S) s :
  a <= b <= c -> for_range a c f s = for_range b c f (for_range a b f s).
Proof.
  intros. unfold for_range. replace (c - a) with ((b - a) + (c - b)) by lia.
  rewrite seqZ_app, foldl_app by lia. do 2 f_equal. lia.
Qed.

Lemma for_range_ind {S} (P : Z -> S -> Prop) a b (f : S -> Z -> S) s :
  a <= b -> P a s ->
  (forall i t, a <= i < b -> P i t -> P (i + 1) (f t i)) ->
  P b (for_range a b f s).
Proof.
  intros Hab Ha Hstep.
  assert (forall n : nat, a + Z.of_nat n <= b ->
            P (a + Z.of_nat n) (for_range a (a + Z.of_nat n) f s)) as Hn.
  { induction n as [|n IH]; intros Hle.
    - rewrite Z.add_0_r, for_range_empty by lia. done.
    - replace (a + Z.of_nat (Datatypes.S n)) with (a + Z.of_nat n + 1) by lia.
      rewrite for_range_last by lia. apply Hstep; [lia|]. apply IH. lia. }
  specialize (Hn (Z.to_nat (b - a)) ltac:(lia)).
  replace (a + Z.of_nat (Z.to_nat (b - a))) with b in Hn by lia. done.
Qed.

(** [for (i = a; i < b; i++) if (p(i)) return i;] *)
Fixpoint find_idx (p : Z -> bool) (l : list Z) : option Z :=
  match l with
  | [] => None
  | i :: l' => if p i then Some i else find_idx p l'
  end.
Definition for_find (a b : Z) (p : Z -> bool) : option Z := find_idx p (seqZ a (b - a)).

Lemma for_find_empty a b p : b <= a -> for_find a b p = None.
Proof. intros. unfold for_find. by rewrite seqZ_nil by lia. Qed.

Lemma for_find_step a b p :
  a < b -> for_find a b p = if p a then Some a else for_find (a + 1) b p.
Proof.
  intros. unfold for_find. rewrite seqZ_cons by lia. simpl.
  destruct (p a); [done|]. f_equal. f_equal; lia.
Qed.

Lemma for_find_spec a b p :
  match for_find a b p with
  | Some i => a <= i < b /\ p i = true /\ (forall j, a <= j < i -> p j = false)
  | None => forall i, a <= i < b -> p i = false
  end.
Proof.
  remember (Z.to_nat (b - a)) as n eqn:Hn. revert a Hn.
  induction n as [|n IH]; intros a Hn.
  - rewrite for_find_empty by lia. lia.
  - rewrite for_find_step by lia. destruct (p a) eqn:Hp.
    + repeat split; (done || lia).
    + specialize (IH (a + 1) ltac:(lia)). destruct (for_find (a + 1) b p) as [i|].
      * destruct IH as (? & ? & Hlt). repeat split; [lia|lia|done|].
        intros j Hj. destruct (Z.eq_dec j a) as [->|]; [done|]. apply Hlt. lia.
      * intros i Hi. destruct (Z.eq_dec i a) as [->|]; [done|]. apply IH. lia.
Qed.

Lemma for_find_Some a b p i :
  for_find a b p = Some i <->
  a <= i < b /\ p i = true /\ (forall j, a <= j < i -> p j = false).
Proof.
  pose proof (for_find_spec a b p) as Hs. split.
  - intros Hf. by rewrite Hf in Hs.
  - intros (Hi & Hp & Hlt). destruct (for_find a b p) as [k|].
    + destruct Hs as (Hk & Hpk & Hltk). f_equal.
      destruct (Z.lt_trichotomy i k) as [|[|]]; [|done|].
      * rewrite Hltk in Hp by lia. done.
      * rewrite Hlt in Hpk by lia. done.
    + rewrite Hs in Hp by done. done.
Qed.

Lemma for_find_None a b p :
  for_find a b p = None <-> (forall i, a <= i < b -> p i = false).
Proof.
  pose proof (for_find_spec a b p) as Hs. split.
  - intros Hf. by rewrite Hf in Hs.
  - intros Hall. destruct (for_find a b p) as [k|]; [|done].
    destruct Hs as (Hk & Hpk & _). by rewrite Hall in Hpk.
Qed.

(** [for (i = a; i < b; i++)] whose body returns a result or goes on. *)
Fixpoint first_some {R} (f : Z -> option R) (l : list Z) : option R :=
  match l with
  | [] => None
  | i :: l' => match f i with Some r => Some r | None => first_some f l' end
  end.
Definition for_first {R} (a b : Z) (f : Z -> option R) : option R := first_some f (seqZ a (b - a)).

Lemma for_first_empty {R} a b (f : Z -> option R) : b <= a -> for_first a b f = None.
Proof. intros. unfold for_first. by rewrite seqZ_nil by lia. Qed.

Lemma for_first_step {R} a b (f : Z -> option R) :
  a < b -> for_first a b f = match f a with Some r => Some r | None => for_first (a + 1) b f end.
Proof.
  intros. unfold for_first. rewrite seqZ_cons by lia. simpl.
  destruct (f a); [done|]. f_equal. f_equal; lia.
Qed.

Lemma for_first_spec {R} a b (f : Z -> option R) :
  match for_first a b f with
  | Some r => exists i, a <= i < b /\ f i = Some r /\ (forall j, a <= j < i -> f j = None)
  | None => forall i, a <= i < b -> f i = None
  end.
Proof.
  remember (Z.to_nat (b - a)) as n eqn:Hn. revert a Hn.
  induction n as [|n IH]; intros a Hn.
  - rewrite for_first_empty by lia. lia.
  - rewrite for_first_step by lia. destruct (f a) as [r|] eqn:Hf.
    + exists a. repeat split; (done || lia).
    + specialize (IH (a + 1) ltac:(lia)). destruct (for_first (a + 1) b f) as [r|].
      * destruct IH as (i & ? & ? & Hlt). exists i. repeat split; [lia|lia|done|].
        intros j Hj. destruct (Z.eq_dec j a) as [->|]; [done|]. apply Hlt. lia.
      * intros i Hi. destruct (Z.eq_dec i a) as [->|]; [done|]. apply IH. lia.
Qed.

(** ** While loops

    [while_loop n cond body s] runs the loop for at most [n] iterations.  That it
    has then really ended is the statement [cond (while_loop n cond body s) =
    false], which [while_loop_done] proves from a decreasing measure. *)
Fixpoint while_loop {S} (n : nat) (cond : S -> bool) (body : S -> S) (s : S) : S :=
  match n with
  | O => s
  | Datatypes.S n' => if cond s then while_loop n' cond body (body s) else s
  end.

Lemma while_loop_ind {S} (P : S -> Prop) n cond body s :
  P s -> (forall t, P t -> cond t = true -> P (body t)) -> P (while_loop n cond body s).
Proof.
  intros Hs Hstep. revert s Hs. induction n as [|n IH]; intros s Hs; simpl; [done|].
  destruct (cond s) eqn:Hc; [|done]. by apply IH, Hstep.
Qed.

Lemma while_loop_done {S} (P : S -> Prop) (m : S -> nat) n cond body s :
  P s -> (forall t, P t -> cond t = true -> P (body t) /\ (m (body t) < m t)%nat) ->
  (m s <= n)%nat -> cond (while_loop n cond body s) = false.
Proof.
  intros Hs Hstep. revert s Hs. induction n as [|n IH]; intros s Hs Hm; simpl.
  - destruct (cond s) eqn:Hc; [|done]. destruct (Hstep s Hs Hc). lia.
  - destruct (cond s) eqn:Hc; [|done]. destruct (Hstep s Hs Hc). apply IH; [done|lia].
Qed.

(** ** Sums *)

Definition zsum {A} (f : A -> Z) (l : list A) : Z := foldr (fun x acc => f x + acc) 0 l.

Lemma zsum_app {A} (f : A -> Z) l1 l2 : zsum f (l1 ++ l2) = zsum f l1 + zsum f l2.
Proof. induction l1 as [|x l1 IH]; cbn; [done|]. unfold zsum in *. lia. Qed.

Lemma zsum_nonneg {A} (f : A -> Z) l : (forall x, 0 <= f x) -> 0 <= zsum f l.
Proof. intros Hf. induction l as [|x l IH]; cbn; [done|]. specialize (Hf x). unfold zsum in *. lia. Qed.

Lemma zsum_zero {A} (f : A -> Z) l : (forall x, x ∈ l -> f x = 0) -> zsum f l = 0.
Proof.
  intros Hf. induction l as [|x l IH]; cbn; [done|]. rewrite (Hf x) by (by left).
  unfold zsum in IH. rewrite IH; [done|]. intros y Hy. apply Hf. by right.
Qed.

Lemma zsum_aset {A} `{CZero A} (f : A -> Z) l i x :
  0 <= i < alen l -> zsum f (aset l i x) = zsum f l - f (aget l i) + f x.
Proof.
  intros Hi. pose proof (aget_lookup l i Hi) as Hl. unfold aset. destruct (Z.ltb_spec i 0); [lia|].
  rewrite <- (take_drop_middle l _ _ Hl) at 2. rewrite insert_take_drop by (unfold alen in Hi; lia).
  rewrite !zsum_app. cbn. unfold zsum. lia.
Qed.

Lemma zsum_ge {A} `{CZero A} (f : A -> Z) l i : (forall x, 0 <= f x) -> 0 <= i < alen l -> f (aget l i) <= zsum f l.
Proof.
  intros Hf Hi. pose proof (aget_lookup l i Hi) as Hl. rewrite <- (take_drop_middle l _ _ Hl) at 2.
  rewrite zsum_app. cbn. fold (zsum f (drop (S (Z.to_nat i)) l)).
  pose proof (zsum_nonneg f (take (Z.to_nat i) l) Hf). pose proof (zsum_nonneg f (drop (S (Z.to_nat i)) l) Hf). lia.
Qed.

Lemma zsum_pos {A} `{CZero A} (f : A -> Z) l : 0 < zsum f l -> exists i, 0 <= i < alen l /\ 0 < f (aget l i).
Proof.
  intros Hpos. destruct (decide (Exists (fun x => 0 < f x) l)) as [Hex|Hno].
  - apply Exists_exists in Hex as (x & (i & Hi)%list_elem_of_lookup & Hx). exists (Z.of_nat i).
    rewrite (lookup_aget _ _ _ Hi). apply lookup_lt_Some in Hi. unfold alen. lia.
  - exfalso. clear H. induction l as [|x l IH]; cbn in Hpos; [done|]. unfold zsum in IH. rewrite Exists_cons in Hno.
    destruct (Z.lt_ge_cases 0 (f x)); [tauto|]. apply IH; [lia|tauto].
Qed.

(** ** Finite maps *)

(** ** Buffers of bytes *)

(** A loop of stores keeps the size of its array. *)
Lemma alen_for_aset {A} (f : Z -> Z) (g : list A -> Z -> A) a b (l : list A) :
  alen (for_range a b (fun t i => aset t (f i) (g t i)) l) = alen l.
Proof.
  destruct (Z.le_gt_cases a b); [|by rewrite for_range_empty by lia].
  apply (for_range_ind (fun _ t => alen t = alen l)); [done|done|]. intros i t _ <-. apply alen_aset.
Qed.

Definition bytes (l : list Z) : Prop := Forall is_u8 l.

Lemma bytes_app l1 l2 : bytes (l1 ++ l2) <-> bytes l1 /\ bytes l2.
Proof. apply Forall_app. Qed.

Lemma bytes_replicate n x : is_u8 x -> bytes (replicate n x).
Proof. intros. by apply Forall_replicate. Qed.

Lemma bytes_take n l : bytes l -> bytes (take n l).
Proof. apply Forall_take. Qed.

Lemma bytes_drop n l : bytes l -> bytes (drop n l).
Proof. apply Forall_drop. Qed.

Lemma aget_bytes l i : bytes l -> is_u8 (aget l i).
Proof.
  intros Hl. unfold aget. rewrite nth_lookup. destruct (l !! Z.to_nat i) eqn:E; simpl.
  - by eapply Forall_lookup_1.
  - unfold is_u8, czero, Z_czero. lia.
Qed.

Lemma bytes_aset l i x : bytes l -> is_u8 x -> bytes (aset l i x).
Proof. intros. unfold aset. case_match; [done|by apply Forall_insert]. Qed.

Lemma bytes_dec l : forallb (fun x => (0 <=? x) && (x <? 256)) l = true -> bytes l.
Proof.
  rewrite forallb_forall. intros H. apply Forall_forall. intros x Hx. apply list_elem_of_In in Hx.
  specialize (H x Hx). unfold is_u8. bool_to_prop. lia.
Qed.

(** Every byte passes a test that the 256 byte values pass. *)
Lemma byte_forall (p : Z -> bool) : forallb p (seqZ 0 256) = true -> forall x, is_u8 x -> p x = true.
Proof. rewrite forallb_forall. intros Hp x Hx. apply Hp, list_elem_of_In, elem_of_seqZ. unfold is_u8 in Hx. lia. Qed.

Lemma testbit_u8_high x i : is_u8 x -> 8 <= i -> Z.testbit x i = false.
Proof.
  intros Hx Hi. destruct (Z.eq_dec x 0) as [->|]; [apply Z.bits_0|].
  unfold is_u8 in Hx. apply Z.bits_above_log2; [lia|].
  assert (Z.log2 x < 8) by (apply Z.log2_lt_pow2; lia). lia.
Qed.

Lemma is_u8_bits x : 0 <= x -> (forall i, 8 <= i -> Z.testbit x i = false) -> is_u8 x.
Proof.
  intros H0 Hb. unfold is_u8. destruct (Z.eq_dec x 0) as [->|]; [lia|].
  split; [done|]. apply Z.log2_lt_pow2; [lia|].
  destruct (Z.lt_ge_cases (Z.log2 x) 8) as [|Hge]; [done|].
  pose proof (Z.bit_log2 x ltac:(lia)) as Hbit. by rewrite Hb in Hbit.
Qed.

Lemma is_u8_lxor x y : is_u8 x -> is_u8 y -> is_u8 (Z.lxor x y).
Proof.
  intros Hx Hy. apply is_u8_bits.
  - apply Z.lxor_nonneg. unfold is_u8 in *. lia.
  - intros i Hi. by rewrite Z.lxor_spec, !testbit_u8_high.
Qed.


(** A map whose keys lie in [0, n) has at most [n] entries. *)
Lemma gmap_size_le {A} (m : gmap Z A) n :
  0 <= n -> (forall k, is_Some (m !! k) -> 0 <= k < n) -> Z.of_nat (size m) <= n.
Proof.
  intros Hn Hrange.
  assert (dom m ⊆ list_to_set (C := gset Z) (seqZ 0 n)) as Hsub.
  { intros f Hf. apply elem_of_dom, Hrange in Hf.
    apply elem_of_list_to_set, elem_of_seqZ. lia. }
  apply subseteq_size in Hsub. rewrite size_dom in Hsub.
  rewrite size_list_to_set in Hsub by apply NoDup_seqZ.
  rewrite length_seqZ in Hsub. lia.
Qed.
