(* ===== verification/CStr.v ===== *)
(** * C strings (lib/ft_strlen.c, ft_strcmp.c, ft_strlcpy.c; safe_strcpy of fs/vfs.c)

    A string is the list of bytes found from a pointer on.  Its value, [cstr],
    ends at the first zero byte; the end of the list reads as that zero, so a
    list without zeroes stands for the string literal of the same bytes. *)

From S2P Require Import Prelude.

(** The bytes before the terminator. *)
Fixpoint cstr (s : list Z) : list Z :=
  match s with
  | [] => []
  | c :: s' => if c =? 0 then [] else c :: cstr s'
  end.

Fixpoint ft_strlen (s : list Z) : Z :=
  match s with
  | [] => 0
  | c :: s' => if c =? 0 then 0 else 1 + ft_strlen s'
  end.

Fixpoint ft_strcmp (s1 s2 : list Z) : Z :=
  match s1, s2 with
  | [], [] => 0
  | a :: _, [] => a
  | [], b :: _ => 0 - b
  | a :: s1', b :: s2' =>
      if (a =? 0) || (b =? 0) then a - b
      else if negb (a =? b) then a - b
      else ft_strcmp s1' s2'
  end.

(** [while (j < size - 1 && src[j]) { dst[j] = src[j]; j++; } dst[j] = 0;]
    from index [j] on, with [src] the bytes from [src + j] on. *)
Fixpoint copy_bounded (dst src : list Z) (j limit : Z) : list Z :=
  match src with
  | c :: src' =>
      if (j <? limit) && negb (c =? 0) then copy_bounded (aset dst j c) src' (j + 1) limit
      else aset dst j 0
  | [] => aset dst j 0
  end.

Definition ft_strlcpy (dst src : list Z) (size : Z) : Z * list Z :=
  (ft_strlen src, if 0 <? size then copy_bounded dst src 0 (size - 1) else dst).

(** [static void safe_strcpy(char *dest, const char *src, size_t max_len)] *)
Definition safe_strcpy (dest src : list Z) (max_len : Z) : list Z :=
  if max_len =? 0 then dest else copy_bounded dest src 0 (max_len - 1).

(** [ft_memset(s, c, n)] on the first [n] bytes of a buffer. *)
Definition ft_memset (s : list Z) (c n : Z) : list Z :=
  for_range 0 n (fun s i => aset s i (u8 c)) s.

(** [ft_memcpy(dst + off, src, n)] on distinct buffers. *)
Definition ft_memcpy (dst : list Z) (off : Z) (src : list Z) (n : Z) : list Z :=
  for_range 0 n (fun d i => aset d (off + i) (aget src i)) dst.

(** ** Properties *)

Lemma ft_strlen_cstr s : ft_strlen s = alen (cstr s).
Proof.
  unfold alen. induction s as [|c s IH]; simpl; [done|].
  destruct (c =? 0); simpl; lia.
Qed.

Lemma alen_cstr_le s : alen (cstr s) <= alen s.
Proof. unfold alen. induction s as [|c s IH]; simpl; [lia|]. destruct (c =? 0); simpl; lia. Qed.

Lemma cstr_nonzero s : Forall (fun c => c <> 0) (cstr s).
Proof.
  induction s as [|c s IH]; simpl; [constructor|].
  destruct (Z.eqb_spec c 0); [constructor|by constructor].
Qed.

(** A list without zero bytes is its own value. *)
Lemma cstr_id s : Forall (fun c => c <> 0) s -> cstr s = s.
Proof.
  induction 1 as [|c s Hc Hs IH]; simpl; [done|].
  destruct (Z.eqb_spec c 0); [done|]. by rewrite IH.
Qed.

Lemma cstr_cstr s : cstr (cstr s) = cstr s.
Proof. apply cstr_id, cstr_nonzero. Qed.

Lemma cstr_app_nonzero s t : Forall (fun c => c <> 0) s -> cstr (s ++ t) = s ++ cstr t.
Proof.
  induction 1 as [|c s Hc Hs IH]; simpl; [done|].
  destruct (Z.eqb_spec c 0); [done|]. by rewrite IH.
Qed.

Lemma cstr_app_zero s t : Forall (fun c => c <> 0) s -> cstr (s ++ 0 :: t) = s.
Proof. intros. rewrite cstr_app_nonzero by done. simpl. apply app_nil_r. Qed.

Lemma ft_strcmp_eq s1 s2 : ft_strcmp s1 s2 = 0 <-> cstr s1 = cstr s2.
Proof.
  revert s2. induction s1 as [|a s1 IH]; intros [|b s2]; cbn [ft_strcmp cstr].
  - done.
  - destruct (Z.eqb_spec b 0); (split; intros; (done || lia || congruence)).
  - destruct (Z.eqb_spec a 0); (split; intros; (done || lia || congruence)).
  - destruct (Z.eqb_spec a 0) as [->|Ha]; cbn [orb].
    + destruct (Z.eqb_spec b 0); (split; intros; (done || lia || congruence)).
    + destruct (Z.eqb_spec b 0) as [->|Hb]; cbn [orb].
      * split; [lia|congruence].
      * destruct (Z.eqb_spec a b) as [->|Hab]; cbn [negb].
        -- rewrite IH. split; congruence.
        -- split; [lia|congruence].
Qed.

Lemma ft_strcmp_eqb s1 s2 : (ft_strcmp s1 s2 =? 0) = bool_decide (cstr s1 = cstr s2).
Proof.
  destruct (Z.eqb_spec (ft_strcmp s1 s2) 0) as [H|H]; symmetry.
  - by apply bool_decide_eq_true_2, ft_strcmp_eq.
  - apply bool_decide_eq_false_2. by rewrite <- ft_strcmp_eq.
Qed.

Lemma alen_copy_bounded src : forall dst j limit, alen (copy_bounded dst src j limit) = alen dst.
Proof.
  induction src as [|c src IH]; intros; simpl; [apply alen_aset|].
  case_bool; [by rewrite IH, alen_aset|apply alen_aset].
Qed.

(** The bounded copy leaves the prefix written so far, the copied bytes, a
    terminator and the rest of the buffer. *)
Lemma copy_bounded_eq src : forall dst j limit,
  0 <= j <= limit -> limit < alen dst ->
  let n := Z.min (alen (cstr src)) (limit - j) in
  copy_bounded dst src j limit =
  take (Z.to_nat j) dst ++ take (Z.to_nat n) (cstr src) ++ 0 :: drop (Z.to_nat (j + n + 1)) dst.
Proof.
  induction src as [|c src IH]; intros dst j limit Hj Hl n; subst n; unfold alen in *.
  - simpl. unfold aset. destruct (Z.ltb_spec j 0); [lia|].
    rewrite insert_take_drop by lia. rewrite Z.min_l, Z.add_0_r by lia.
    by replace (Z.to_nat (j + 1)) with (S (Z.to_nat j)) by lia.
  - simpl. destruct (Z.eqb_spec c 0) as [->|Hc]; simpl.
    { rewrite andb_false_r. unfold aset. destruct (Z.ltb_spec j 0); [lia|].
      rewrite insert_take_drop by lia. rewrite Z.min_l, Z.add_0_r by lia.
      by replace (Z.to_nat (j + 1)) with (S (Z.to_nat j)) by lia. }
    destruct (Z.ltb_spec j limit); simpl.
    + rewrite IH by (rewrite ?length_insert; lia || (pose proof (alen_aset dst j c); unfold alen in *; lia)).
      unfold aset. destruct (Z.ltb_spec j 0); [lia|].
      rewrite insert_take_drop by lia. replace (Z.to_nat (j + 1)) with (S (Z.to_nat j)) by lia.
      rewrite take_app_ge by (rewrite length_take; lia).
      rewrite length_take, Nat.min_l by lia.
      replace (S (Z.to_nat j) - Z.to_nat j)%nat with 1%nat by lia. simpl. rewrite take_0.
      rewrite <- app_assoc. simpl.
      replace (Z.to_nat (Z.min (Z.of_nat (S (length (cstr src)))) (limit - j)))
        with (S (Z.to_nat (Z.min (Z.of_nat (length (cstr src))) (limit - (j + 1))))) by lia.
      simpl. do 4 f_equal.
      rewrite drop_app_ge by (rewrite length_take; lia). rewrite length_take, Nat.min_l by lia.
      replace (Z.to_nat _ - Z.to_nat j)%nat
        with (S (Z.to_nat (Z.min (Z.of_nat (length (cstr src))) (limit - (j + 1)) + 1))) by lia.
      simpl. rewrite drop_drop. f_equal. lia.
    + unfold aset. destruct (Z.ltb_spec j 0); [lia|].
      rewrite insert_take_drop by lia. rewrite Z.min_r by lia.
      replace (limit - j) with 0 by lia. rewrite Z.add_0_r.
      by replace (Z.to_nat (j + 1)) with (S (Z.to_nat j)) by lia.
Qed.

(** The copied string: all of the source, or as much as fits. *)
Lemma cstr_copy_bounded dst src limit :
  0 <= limit < alen dst ->
  cstr (copy_bounded dst src 0 limit) = take (Z.to_nat limit) (cstr src).
Proof.
  intros Hl. rewrite copy_bounded_eq by lia. simpl.
  rewrite cstr_app_zero by apply Forall_take, cstr_nonzero.
  rewrite Z.sub_0_r. unfold alen. destruct (Z.le_gt_cases (Z.of_nat (length (cstr src))) limit).
  - rewrite Z.min_l, !take_ge by lia. done.
  - by rewrite Z.min_r by lia.
Qed.

Lemma cstr_safe_strcpy dst src max_len :
  0 < max_len <= alen dst ->
  cstr (safe_strcpy dst src max_len) = take (Z.to_nat (max_len - 1)) (cstr src).
Proof.
  intros. unfold safe_strcpy. destruct (Z.eqb_spec max_len 0); [lia|].
  apply cstr_copy_bounded. lia.
Qed.

(** A source that fits is copied whole. *)
Lemma cstr_safe_strcpy_fits dst src max_len :
  0 < max_len <= alen dst -> ft_strlen src < max_len -> cstr (safe_strcpy dst src max_len) = cstr src.
Proof.
  intros Hm Hlen. rewrite cstr_safe_strcpy by done. rewrite ft_strlen_cstr in Hlen.
  apply take_ge. unfold alen in Hlen. lia.
Qed.

Lemma alen_safe_strcpy dst src max_len : alen (safe_strcpy dst src max_len) = alen dst.
Proof. unfold safe_strcpy. case_bool; [done|apply alen_copy_bounded]. Qed.

Lemma alen_ft_memset s c n : alen (ft_memset s c n) = alen s.
Proof.
  unfold ft_memset. destruct (Z.le_gt_cases 0 n); [|by rewrite for_range_empty by lia].
  apply (for_range_ind (fun _ t => alen t = alen s)); [done|done|].
  intros i t Hi <-. apply alen_aset.
Qed.

Lemma aget_ft_memset s c n i :
  0 <= n <= alen s -> 0 <= i -> aget (ft_memset s c n) i = if i <? n then u8 c else aget s i.
Proof.
  intros Hn Hi. unfold ft_memset.
  apply (for_range_ind (fun k t => alen t = alen s /\ aget t i = if i <? k then u8 c else aget s i));
    [lia|split; [done|by destruct (Z.ltb_spec i 0); [lia|]]|].
  intros k t Hk [Hlen Ht]. rewrite alen_aset, aget_aset by lia. split; [done|].
  destruct (Z.eqb_spec k i) as [->|]; [by destruct (Z.ltb_spec i (i + 1)); [|lia]|].
  rewrite Ht. by destruct (Z.ltb_spec i k), (Z.ltb_spec i (k + 1)); (done || lia).
Qed.

(** Clearing a whole buffer leaves the empty string. *)
Lemma ft_memset_zero s : ft_memset s 0 (alen s) = replicate (length s) 0.
Proof.
  apply aget_ext.
  - rewrite alen_ft_memset. unfold alen. by rewrite length_replicate.
  - rewrite alen_ft_memset. intros i Hi. pose proof (alen_nonneg s).
    rewrite aget_ft_memset by lia. destruct (Z.ltb_spec i (alen s)); [|lia].
    unfold alen in *. rewrite <- (Nat2Z.id (length s)), aget_replicate by lia. done.
Qed.

Lemma alen_ft_memcpy dst off src n : alen (ft_memcpy dst off src n) = alen dst.
Proof.
  unfold ft_memcpy. destruct (Z.le_gt_cases 0 n); [|by rewrite for_range_empty by lia].
  apply (for_range_ind (fun _ t => alen t = alen dst)); [done|done|].
  intros i t Hi <-. apply alen_aset.
Qed.

Lemma aget_ft_memcpy dst off src n i :
  0 <= off -> 0 <= n -> off + n <= alen dst -> 0 <= i ->
  aget (ft_memcpy dst off src n) i =
  if (off <=? i) && (i <? off + n) then aget src (i - off) else aget dst i.
Proof.
  intros Ho Hn Hd Hi. unfold ft_memcpy.
  apply (for_range_ind (fun k t => alen t = alen dst /\
    aget t i = if (off <=? i) && (i <? off + k) then aget src (i - off) else aget dst i)); [lia| |].
  - split; [done|]. destruct (Z.leb_spec off i), (Z.ltb_spec i (off + 0)); (done || lia).
  - intros k t Hk [Hlen Ht]. rewrite alen_aset, aget_aset by lia. split; [done|].
    destruct (Z.eqb_spec (off + k) i) as [<-|].
    + destruct (Z.leb_spec off (off + k)), (Z.ltb_spec (off + k) (off + (k + 1))); try lia. simpl. f_equal. lia.
    + rewrite Ht. destruct (Z.leb_spec off i), (Z.ltb_spec i (off + k)), (Z.ltb_spec i (off + (k + 1))); (done || lia).
Qed.

Lemma ft_memcpy_eq dst off src n :
  0 <= off -> 0 <= n <= alen src -> off + n <= alen dst ->
  ft_memcpy dst off src n
  = take (Z.to_nat off) dst ++ take (Z.to_nat n) src ++ drop (Z.to_nat (off + n)) dst.
Proof.
  intros Ho Hn Hd.
  assert (Hl : alen (take (Z.to_nat off) dst ++ take (Z.to_nat n) src ++ drop (Z.to_nat (off + n)) dst) = alen dst).
  { unfold alen in *. rewrite !length_app, !length_take, length_drop. lia. }
  apply aget_ext; [by rewrite alen_ft_memcpy, Hl|].
  rewrite alen_ft_memcpy. intros i Hi. rewrite aget_ft_memcpy by lia.
  unfold aget, alen in *.
  destruct (Z.leb_spec off i); simpl.
  - rewrite app_nth2 by (rewrite length_take; lia).
    rewrite length_take, Nat.min_l by lia.
    destruct (Z.ltb_spec i (off + n)).
    + rewrite app_nth1 by (rewrite length_take; lia).
      rewrite !nth_lookup, lookup_take_lt by lia. by replace (Z.to_nat i - Z.to_nat off)%nat with (Z.to_nat (i - off)) by lia.
    + rewrite app_nth2 by (rewrite length_take; lia).
      rewrite length_take, Nat.min_l, !nth_lookup, lookup_drop by lia. do 2 f_equal. lia.
  - rewrite app_nth1 by (rewrite length_take; lia). by rewrite !nth_lookup, lookup_take_lt by lia.
Qed.

Lemma bytes_ft_memcpy dst off src n : bytes dst -> bytes src -> bytes (ft_memcpy dst off src n).
Proof.
  intros Hd Hs. unfold ft_memcpy. destruct (Z.le_gt_cases 0 n); [|by rewrite for_range_empty by lia].
  apply (for_range_ind (fun _ t => bytes t)); [done|done|].
  intros i t _ Ht. apply bytes_aset; [done|by apply aget_bytes].
Qed.
