(* ===== verification/BlockDev.v ===== *)
(** * The block device layer (drivers/blockdev.c)

    The registry of devices and the bounds check every sector access goes
    through.  A device is named by its pointer ([0] is the null pointer); the
    structure it points to is read through [dmem].  The driver behind a device
    is the interface [DriverOps]: what [dev->read] and [dev->write] do to the
    hardware.  [DriverLaws] states what the callers rely on. *)

From S2P Require Import Prelude CStr.

Module BlockDev.

Definition BLOCKDEV_MAX : Z := 4.

Record blockdev : Type := mk_blockdev {
  bd_name : option (list Z);
  bd_sector_size : Z;
  bd_sector_count : Z;
  bd_read : bool;
  bd_write : bool
}.

(** ** The drivers' side of the interface *)

(** [dev->read(dev->ctx, lba, buf)] gives a status, the bytes left in the buffer
    and the new state of the hardware; [dev->write] a status and a state. *)
Class DriverOps (H : Type) := {
  drv_read : H -> Z -> Z -> Z * list Z * H;
  drv_write : H -> Z -> Z -> list Z -> Z * H
}.

(** What a driver promises: there is a medium behind every device pointer; a
    read does not change it and, when it succeeds, returns what is there; a
    write changes at most the sector it names, and leaves the given bytes there
    when it succeeds.  Nothing is promised of the sector a failed write named. *)
Class DriverLaws (H : Type) `{DriverOps H} := {
  medium : H -> Z -> Z -> list Z;
  drv_read_ok h d l data h' : drv_read h d l = (E_OK, data, h') -> data = medium h d l;
  drv_read_pure h d l r data h' d' l' :
    drv_read h d l = (r, data, h') -> medium h' d' l' = medium h d' l';
  drv_write_ok h d l x h' : drv_write h d l x = (E_OK, h') -> medium h' d l = x;
  drv_write_other h d l x r h' d' l' :
    drv_write h d l x = (r, h') -> (d, l) <> (d', l') -> medium h' d' l' = medium h d' l'
}.

Section blockdev.
Context {HW : Type} {ops : DriverOps HW} (dmem : Z -> blockdev).

(** The static variables of blockdev.c: the first [device_count] entries of
    [devices], and [root_dev]. *)
Record registry : Type := mk_registry { devices : list Z; root_dev : Z }.

Definition device_is_usable (dev : Z) : bool :=
  if dev =? 0 then false
  else if negb (bd_read (dmem dev)) then false
  else if (bd_sector_size (dmem dev) =? 0) || (bd_sector_count (dmem dev) =? 0) then false
  else match bd_name (dmem dev) with
       | None => false
       | Some name => negb (ft_strlen name =? 0)
       end.

Definition dev_name (dev : Z) : list Z := default [] (bd_name (dmem dev)).

Definition blockdev_register (r : registry) (dev : Z) : Z * registry :=
  if negb (device_is_usable dev) then (E_INVAL, r)
  else
    let clash d := if d =? dev then Some E_OK
                   else if ft_strcmp (dev_name d) (dev_name dev) =? 0 then Some E_EXIST else None in
    match first_some clash (devices r) with
    | Some res => (res, r)
    | None =>
        if BLOCKDEV_MAX <=? alen (devices r) then (E_NOMEM, r)
        else (E_OK, mk_registry (devices r ++ [dev]) (if root_dev r =? 0 then dev else root_dev r))
    end.

Definition blockdev_set_root (r : registry) (dev : Z) : Z * registry :=
  if dev =? 0 then (E_OK, mk_registry (devices r) 0)
  else if negb (device_is_usable dev) then (E_INVAL, r)
  else (E_OK, mk_registry (devices r) dev).

Definition blockdev_root (r : registry) : Z := root_dev r.

Definition blockdev_find (r : registry) (name : option (list Z)) : Z :=
  match name with
  | None => 0
  | Some name =>
      if ft_strlen name =? 0 then 0
      else default 0 (first_some (fun d => if ft_strcmp (dev_name d) name =? 0 then Some d else None) (devices r))
  end.

Definition blockdev_get (r : registry) (index : Z) : Z :=
  if (index <? 0) || (alen (devices r) <=? index) then 0 else (devices r).[index].

Definition blockdev_count (r : registry) : Z := alen (devices r).

(** ** Sector access *)

Definition blockdev_check (dev lba : Z) : Z :=
  if dev =? 0 then E_NODEV
  else if bd_sector_count (dmem dev) <=? lba then E_INVAL
  else E_OK.

Definition blockdev_check_read (dev lba : Z) (buf_null : bool) : Z :=
  let res := blockdev_check dev lba in
  if negb (res =? E_OK) then res
  else if buf_null then E_INVAL
  else if negb (bd_read (dmem dev)) then E_NODEV
  else E_OK.

Definition blockdev_check_write (dev lba : Z) (buf_null : bool) : Z :=
  let res := blockdev_check dev lba in
  if negb (res =? E_OK) then res
  else if buf_null then E_INVAL
  else if negb (bd_write (dmem dev)) then E_ROFS
  else E_OK.

(** The buffer is the caller's: on a refused request it is returned as it was. *)
Definition blockdev_read (h : HW) (dev lba : Z) (buf : list Z) : Z * list Z * HW :=
  let res := blockdev_check_read dev lba false in
  if negb (res =? E_OK) then (res, buf, h) else drv_read h dev lba.

Definition blockdev_write (h : HW) (dev lba : Z) (buf : list Z) : Z * HW :=
  let res := blockdev_check_write dev lba false in
  if negb (res =? E_OK) then (res, h) else drv_write h dev lba buf.

(** ** The registry keeps one device per name *)

Definition registry_ok (r : registry) : Prop :=
  alen (devices r) <= BLOCKDEV_MAX /\
  Forall (fun d => device_is_usable d = true) (devices r) /\
  NoDup (map (fun d => cstr (dev_name d)) (devices r)).

Lemma first_some_spec {R} (f : Z -> option R) l :
  match first_some f l with
  | Some v => exists i, i ∈ l /\ f i = Some v
  | None => forall i, i ∈ l -> f i = None
  end.
Proof.
  induction l as [|x l IH]; simpl.
  - intros i Hi. by apply elem_of_nil in Hi.
  - destruct (f x) eqn:Hx; [exists x; split; [left|done]|].
    destruct (first_some f l).
    + destruct IH as (i & ? & ?). exists i. split; [by right|done].
    + intros i Hi. apply elem_of_cons in Hi as [->|Hi]; [done|by apply IH].
Qed.

Lemma usable_named dev : device_is_usable dev = true -> dev <> 0 /\ cstr (dev_name dev) <> [].
Proof.
  unfold device_is_usable, dev_name. destruct (Z.eqb_spec dev 0); [done|].
  destruct (bd_read (dmem dev)); [|done]. simpl. destruct (_ || _); [done|].
  destruct (bd_name (dmem dev)) as [name|]; [|done]. simpl. intros Hn. split; [done|].
  intros Hc. rewrite ft_strlen_cstr, Hc in Hn. done.
Qed.

(** Registering keeps the registry consistent. *)
Lemma register_ok r dev : registry_ok r -> registry_ok (blockdev_register r dev).2.
Proof.
  intros (Hlen & Hus & Hnd). unfold blockdev_register.
  destruct (device_is_usable dev) eqn:Hu; [simpl|done].
  pose proof (first_some_spec (fun d => if d =? dev then Some E_OK
    else if ft_strcmp (dev_name d) (dev_name dev) =? 0 then Some E_EXIST else None) (devices r)) as Hs.
  destruct (first_some _ _); [done|]. destruct (Z.leb_spec BLOCKDEV_MAX (alen (devices r))); [done|].
  split; [|split]; simpl.
  - rewrite alen_app. unfold alen at 2. simpl. lia.
  - apply Forall_app. by repeat constructor.
  - rewrite map_app. simpl. apply NoDup_app. split; [done|]. split; [|apply NoDup_singleton].
    intros x Hx Hx'. apply list_elem_of_singleton in Hx' as ->.
    apply list_elem_of_fmap in Hx as (d & Heq & Hd). specialize (Hs d Hd). simpl in Hs.
    destruct (d =? dev); [done|]. rewrite ft_strcmp_eqb in Hs.
    rewrite bool_decide_eq_true_2 in Hs by done. done.
Qed.

(** A device of a consistent registry is the one its name finds. *)
Lemma find_registered r d : registry_ok r -> d ∈ devices r -> blockdev_find r (bd_name (dmem d)) = d.
Proof.
  intros (_ & Hus & Hnd) Hd. pose proof (proj1 (Forall_forall _ _) Hus d Hd) as Hu.
  destruct (usable_named d Hu) as [Hd0 Hname]. unfold blockdev_find.
  assert (exists nm, bd_name (dmem d) = Some nm /\ dev_name d = nm) as (nm & -> & Hnm).
  { unfold dev_name in *. destruct (bd_name (dmem d)); [by eexists|done]. }
  rewrite ft_strlen_cstr, <- Hnm.
  destruct (Z.eqb_spec (alen (cstr (dev_name d))) 0) as [H0|_].
  { unfold alen in H0. destruct (cstr (dev_name d)); [done|simpl in H0; lia]. }
  clear Hus Hu. induction (devices r) as [|x l IH]; [by apply elem_of_nil in Hd|].
  apply NoDup_cons in Hnd as [Hx Hnd]. cbn [first_some]. rewrite ft_strcmp_eqb.
  case_bool_decide as Heq.
  - simpl. apply elem_of_cons in Hd as [->|Hd]; [done|]. exfalso. apply Hx. rewrite Heq.
    apply list_elem_of_fmap. by exists d.
  - apply elem_of_cons in Hd as [->|Hd]; [done|]. by apply IH.
Qed.

(** the registry answers by name.  Starting from an empty registry the
    devices always have pairwise different names, and after a successful
    registration every device registered so far, the new one included, is the
    one that [blockdev_find] returns for its name; the first device ever
    registered is the root. *)
Theorem blockdev_register_find r dev r' :
  registry_ok r -> blockdev_register r dev = (E_OK, r') ->
  registry_ok r' /\ dev ∈ devices r' /\
  (forall d, d ∈ devices r' -> blockdev_find r' (bd_name (dmem d)) = d) /\
  (root_dev r = 0 -> dev ∉ devices r -> root_dev r' = dev) /\
  (root_dev r <> 0 -> root_dev r' = root_dev r).
Proof.
  intros Hok Hreg. pose proof (register_ok r dev Hok) as Hok'. rewrite Hreg in Hok'. simpl in Hok'.
  split; [done|]. split; [|split; [intros; by apply find_registered|]];
  unfold blockdev_register in Hreg; destruct (device_is_usable dev); try done; simpl in Hreg;
  match type of Hreg with context [first_some ?f ?l] => pose proof (first_some_spec f l) as Hs end;
  destruct (first_some _ _) as [res|].
  - destruct Hs as (d & Hd & Hf). injection Hreg as -> ->.
    destruct (Z.eqb_spec d dev) as [<-|]; [done|]. by destruct (_ =? 0).
  - destruct (_ <=? _); [done|]. injection Hreg as <-. simpl. set_solver.
  - destruct Hs as (d & Hd & Hf). injection Hreg as -> ->.
    destruct (Z.eqb_spec d dev) as [<-|]; [done|]. by destruct (_ =? 0).
  - destruct (_ <=? _); [done|]. injection Hreg as <-. simpl. by destruct (Z.eqb_spec (root_dev r) 0).
Qed.

End blockdev.

(** Two disks, at the addresses 0x100 and 0x200. *)
Definition two_disks (d : Z) : blockdev :=
  mk_blockdev (Some (if d =? 0x100 then [104; 100; 48] else [117; 115; 98; 48])) 512 4096 true true.

Lemma blockdev_register_find_witness :
  exists r', blockdev_register two_disks (mk_registry [0x100] 0x100) 0x200 = (E_OK, r') /\
             blockdev_find two_disks r' (Some [117; 115; 98; 48]) = 0x200.
Proof.
  exists (mk_registry [0x100; 0x200] 0x100). split; [reflexivity|].
  assert (registry_ok two_disks (mk_registry [0x100] 0x100)) as Hok.
  { split; [vm_compute; congruence|]. split; [by repeat constructor|].
    apply NoDup_cons. split; [apply not_elem_of_nil|apply NoDup_nil_2]. }
  destruct (blockdev_register_find two_disks _ 0x200 (mk_registry [0x100; 0x200] 0x100) Hok eq_refl)
    as (_ & Hin & Hfind & _).
  apply (Hfind 0x200 Hin).
Defined.

End BlockDev.
