(* ===== verification/Bcache.v ===== *)
(** * The block cache (fs/bcache.c)

    A write-back cache of 64 sectors in front of the block devices.  [bcache] is
    the file's static state; every function of the file is a definition of the
    same name, passing that state and the hardware's.  What the cache promises
    its clients is [view], the contents a sector has for a reader: the cached
    bytes if the sector is in the cache, the medium's otherwise.  The theorems
    say that reads return the view, writes update it, and that nothing else ever
    changes it: not an eviction, not a flush, and not a device that fails. *)

From S2P Require Import Prelude CStr BlockDev.
Import BlockDev.

Module Bcache.

Definition BCACHE_SIZE : Z := 64.
Definition BCACHE_DIRTY_HIGH_WATER : Z := BCACHE_SIZE / 2.
Definition TIMER_HZ : Z := 100.
Definition BCACHE_FLUSH_INTERVAL_TICKS : Z := TIMER_HZ * 5.

Record bcache_node : Type := mk_node {
  n_dev : Z;
  n_sector : Z;
  n_data : list Z;
  n_valid : bool;
  n_dirty : bool;
  n_last_access : Z
}.

#[export] Instance node_czero : CZero bcache_node := mk_node 0 0 [] false false 0.

(** The static variables of bcache.c. *)
Record bcache : Type := mk_bcache {
  cache : list bcache_node;
  bcache_ticks : Z;
  dirty_count : Z;
  oldest_dirty_tick : Z
}.

Definition set_dirty (n : bcache_node) (b : bool) : bcache_node :=
  mk_node (n_dev n) (n_sector n) (n_data n) (n_valid n) b (n_last_access n).
Definition set_last (n : bcache_node) (t : Z) : bcache_node :=
  mk_node (n_dev n) (n_sector n) (n_data n) (n_valid n) (n_dirty n) t.
Definition set_data (n : bcache_node) (d : list Z) : bcache_node :=
  mk_node (n_dev n) (n_sector n) d (n_valid n) (n_dirty n) (n_last_access n).
Definition set_valid (n : bcache_node) (b : bool) : bcache_node :=
  mk_node (n_dev n) (n_sector n) (n_data n) b (n_dirty n) (n_last_access n).

Definition with_slot (c : bcache) (i : Z) (n : bcache_node) : bcache :=
  mk_bcache (cache c).[i <- n] (bcache_ticks c) (dirty_count c) (oldest_dirty_tick c).
Definition with_ticks (c : bcache) (t : Z) : bcache :=
  mk_bcache (cache c) t (dirty_count c) (oldest_dirty_tick c).
Definition with_dirty_count (c : bcache) (n : Z) : bcache :=
  mk_bcache (cache c) (bcache_ticks c) n (oldest_dirty_tick c).
Definition with_oldest (c : bcache) (t : Z) : bcache :=
  mk_bcache (cache c) (bcache_ticks c) (dirty_count c) t.

(** [now] is what [timer_get_ticks] returns at the call. *)
Definition mark_dirty (now : Z) (c : bcache) (slot : Z) : bcache :=
  if n_dirty (cache c).[slot] then c
  else
    let c := with_slot c slot (set_dirty (cache c).[slot] true) in
    let c := if dirty_count c =? 0 then with_oldest c now else c in
    with_dirty_count c (u32 (dirty_count c + 1)).

Definition mark_clean (c : bcache) (slot : Z) : bcache :=
  if negb (n_dirty (cache c).[slot]) then c
  else
    let c := with_slot c slot (set_dirty (cache c).[slot] false) in
    if 0 <? dirty_count c then with_dirty_count c (dirty_count c - 1) else c.

Definition zero_sector : list Z := replicate 512 0.
Arguments zero_sector : simpl never.

Definition bcache_init : bcache :=
  mk_bcache (replicate (Z.to_nat BCACHE_SIZE) (mk_node 0 0 zero_sector false false 0)) 0 0 0.

Definition bcache_dirty_count (c : bcache) : Z := dirty_count c.

Definition bcache_flush_is_due (now : Z) (c : bcache) : bool :=
  if dirty_count c =? 0 then false
  else BCACHE_FLUSH_INTERVAL_TICKS <=? u32 (now - oldest_dirty_tick c).

(** The first loop of [bcache_get_lru_slot]: an unused slot ends it; otherwise
    the oldest clean slot seen so far is carried along. *)
Inductive lru_scan : Type :=
| LruEmpty (i : Z)
| LruClean (clean clean_age : Z).

Definition lru_scan_slot (c : bcache) (acc : lru_scan) (i : Z) : lru_scan :=
  match acc with
  | LruEmpty _ => acc
  | LruClean clean clean_age =>
      let n := (cache c).[i] in
      if negb (n_valid n) then LruEmpty i
      else
        let age := u32 (bcache_ticks c - n_last_access n) in
        if negb (n_dirty n) && ((clean <? 0) || (clean_age <? age)) then LruClean i age else acc
  end.

Definition lru_clean_scan (c : bcache) : lru_scan :=
  for_range 0 BCACHE_SIZE (lru_scan_slot c) (LruClean (-1) 0).

(** The oldest slot not tried yet. *)
Definition lru_oldest_untried (c : bcache) (tried : list bool) : Z :=
  (for_range 0 BCACHE_SIZE
     (fun '(oldest, oldest_age) i =>
        let age := u32 (bcache_ticks c - n_last_access (cache c).[i]) in
        if negb tried.[i] && ((oldest <? 0) || (oldest_age <? age)) then (i, age)
        else (oldest, oldest_age)) (-1, 0)).1.

Section bcache.
Context {HW : Type} {ops : DriverOps HW} (dmem : Z -> blockdev).

Fixpoint lru_write_out (attempts : nat) (tried : list bool) (c : bcache) (h : HW) : Z * bcache * HW :=
  match attempts with
  | O => (-1, c, h)
  | S attempts' =>
      let oldest := lru_oldest_untried c tried in
      if oldest <? 0 then (-1, c, h)
      else
        let n := (cache c).[oldest] in
        let '(res, h) := blockdev_write dmem h (n_dev n) (n_sector n) (n_data n) in
        if res =? E_OK then (oldest, mark_clean c oldest, h)
        else lru_write_out attempts' tried.[oldest <- true] c h
  end.

Definition bcache_get_lru_slot (c : bcache) (h : HW) : Z * bcache * HW :=
  match lru_clean_scan c with
  | LruEmpty i => (i, c, h)
  | LruClean clean _ =>
      if 0 <=? clean then (clean, c, h)
      else lru_write_out (Z.to_nat BCACHE_SIZE) (replicate (Z.to_nat BCACHE_SIZE) false) c h
  end.

(** [cache[i].is_valid && cache[i].dev == dev && cache[i].sector == sector] *)
Definition slot_matches (c : bcache) (dev sector i : Z) : bool :=
  n_valid (cache c).[i] && (n_dev (cache c).[i] =? dev) && (n_sector (cache c).[i] =? sector).

Definition bcache_lookup (c : bcache) (dev sector : Z) : option Z :=
  for_find 0 BCACHE_SIZE (slot_matches c dev sector).

(** The buffer is the caller's; [None] is the null pointer. *)
Definition bcache_read_sector (c : bcache) (h : HW) (dev sector : Z) (buffer : option (list Z))
    : Z * option (list Z) * bcache * HW :=
  let check := blockdev_check_read dmem dev sector (bool_decide (buffer = None)) in
  if negb (check =? E_OK) then (check, buffer, c, h)
  else if negb (bd_sector_size (dmem dev) =? 512) then (E_INVAL, buffer, c, h)
  else
    let c := with_ticks c (u32 (bcache_ticks c + 1)) in
    match bcache_lookup c dev sector with
    | Some i =>
        (E_OK, Some (n_data (cache c).[i]), with_slot c i (set_last (cache c).[i] (bcache_ticks c)), h)
    | None =>
        let '(slot, c, h) := bcache_get_lru_slot c h in
        if slot <? 0 then (E_IO, buffer, c, h)
        else
          let '(res, data, h) := blockdev_read dmem h dev sector (n_data (cache c).[slot]) in
          let c := with_slot c slot (set_data (cache c).[slot] data) in
          if negb (res =? E_OK) then
            (res, Some zero_sector, with_slot c slot (set_valid (cache c).[slot] false), h)
          else
            let n := (cache c).[slot] in
            let c := with_slot c slot (mk_node dev sector (n_data n) true (n_dirty n) (bcache_ticks c)) in
            let c := mark_clean c slot in
            (E_OK, Some (n_data (cache c).[slot]), c, h)
    end.

(** One slot of the loop of [bcache_flush_reporting]. *)
Definition flush_slot (st : bcache * HW * Z * Z) (i : Z) : bcache * HW * Z * Z :=
  let '(c, h, flushed, failed) := st in
  let n := (cache c).[i] in
  if n_valid n && n_dirty n then
    let '(res, h) := blockdev_write dmem h (n_dev n) (n_sector n) (n_data n) in
    if negb (res =? E_OK) then (c, h, flushed, failed + 1)
    else (mark_clean c i, h, flushed + 1, failed)
  else st.

Definition bcache_flush_reporting (c : bcache) (h : HW) : Z * bcache * HW :=
  let '(c, h, _, failed) := for_range 0 BCACHE_SIZE flush_slot (c, h, 0, 0) in
  (if 0 <? failed then E_IO else E_OK, c, h).

Definition bcache_flush (c : bcache) (h : HW) : Z * bcache * HW := bcache_flush_reporting c h.
Strategy expand [bcache_flush].

Definition bcache_write_sector (now : Z) (c : bcache) (h : HW) (dev sector : Z) (buffer : option (list Z))
    : Z * bcache * HW :=
  let check := blockdev_check_write dmem dev sector (bool_decide (buffer = None)) in
  if negb (check =? E_OK) then (check, c, h)
  else if negb (bd_sector_size (dmem dev) =? 512) then (E_INVAL, c, h)
  else
    let c := with_ticks c (u32 (bcache_ticks c + 1)) in
    let '(slot, c, h) :=
      match bcache_lookup c dev sector with
      | Some i => (i, c, h)
      | None => bcache_get_lru_slot c h
      end in
    if slot <? 0 then (E_IO, c, h)
    else
      let n := (cache c).[slot] in
      let c := with_slot c slot (mk_node dev sector (take 512 (default [] buffer)) true (n_dirty n) (bcache_ticks c)) in
      let c := mark_dirty now c slot in
      if BCACHE_DIRTY_HIGH_WATER <=? dirty_count c then
        let '(_, c, h) := bcache_flush_reporting c h in (E_OK, c, h)
      else (E_OK, c, h).

(** One slot of the loop of [bcache_flush_dev]. *)
Definition flush_dev_slot (dev : Z) (st : bcache * HW * Z) (i : Z) : bcache * HW * Z :=
  let '(c, h, failed) := st in
  let n := (cache c).[i] in
  let drop c := with_slot c i (mk_node 0 (n_sector n) (n_data n) false (n_dirty (cache c).[i]) (n_last_access n)) in
  if negb (n_valid n) || negb (n_dev n =? dev) then st
  else if n_dirty n then
    let '(res, h) := blockdev_write dmem h (n_dev n) (n_sector n) (n_data n) in
    if negb (res =? E_OK) then (c, h, failed + 1) else (drop (mark_clean c i), h, failed)
  else (drop c, h, failed).

Definition bcache_flush_dev (c : bcache) (h : HW) (dev : Z) : Z * bcache * HW :=
  if dev =? 0 then (E_NODEV, c, h)
  else
    let '(c, h, failed) := for_range 0 BCACHE_SIZE (flush_dev_slot dev) (c, h, 0) in
    (if 0 <? failed then E_IO else E_OK, c, h).

Definition bcache_flush_if_due (now : Z) (c : bcache) (h : HW) : bcache * HW :=
  if bcache_flush_is_due now c then
    let '(_, c, h) := bcache_flush_reporting c h in (c, h)
  else (c, h).

End bcache.

(** ** The invariant and the view *)

Definition ndirty (l : list bcache_node) : Z := Z.of_nat (length (filter (fun n => n_dirty n = true) l)).

Lemma ndirty_nonneg l : 0 <= ndirty l.
Proof. unfold ndirty. lia. Qed.

Lemma ndirty_cons n l : ndirty (n :: l) = Z.b2z (n_dirty n) + ndirty l.
Proof.
  unfold ndirty. rewrite filter_cons. destruct (n_dirty n) eqn:E; case_decide; try done.
  simpl length. simpl. lia.
Qed.

Lemma ndirty_aset l i n :
  0 <= i < alen l -> ndirty l.[i <- n] = ndirty l - Z.b2z (n_dirty l.[i]) + Z.b2z (n_dirty n).
Proof.
  unfold aset, aget, alen. intros Hi. destruct (Z.ltb_spec i 0); [lia|].
  assert (Z.to_nat i < length l)%nat as Hlt by lia. revert Hlt. generalize (Z.to_nat i). clear.
  induction l as [|m l IH]; intros k Hk; simpl in Hk; [lia|].
  destruct k as [|k]; simpl.
  - rewrite !ndirty_cons. lia.
  - rewrite !ndirty_cons, IH by lia. lia.
Qed.

Lemma ndirty_le l : ndirty l <= alen l.
Proof.
  induction l as [|n l IH]; [done|]. rewrite ndirty_cons. unfold alen in *. simpl.
  destruct (n_dirty n); simpl; lia.
Qed.

Lemma ndirty_zero l i : ndirty l = 0 -> 0 <= i < alen l -> n_dirty l.[i] = false.
Proof.
  intros H0 Hi. pose proof (ndirty_aset l i (set_dirty l.[i] false) Hi) as Ha.
  pose proof (ndirty_nonneg l.[i <- set_dirty l.[i] false]).
  destruct (n_dirty l.[i]); simpl in *; [lia|done].
Qed.

Lemma ndirty_all_dirty l : (forall i, 0 <= i < alen l -> n_dirty l.[i] = true) -> ndirty l = alen l.
Proof.
  induction l as [|n l IH]; intros Hall; [done|]. rewrite ndirty_cons, IH.
  - assert (n_dirty n = true) as -> by (apply (Hall 0); unfold alen; simpl; lia). unfold alen. simpl. lia.
  - intros i Hi. specialize (Hall (i + 1) ltac:(unfold alen in *; simpl; lia)).
    unfold aget in *. by rewrite Z2Nat.inj_add, Nat.add_comm in Hall by lia.
Qed.

Lemma ndirty_all_clean l : Forall (fun n => n_dirty n = false) l -> ndirty l = 0.
Proof. induction 1 as [|n l Hn _ IH]; [done|]. by rewrite ndirty_cons, Hn, IH. Qed.

Section proofs.
Context {HW : Type} {ops : DriverOps HW} {laws : DriverLaws HW} (dmem : Z -> blockdev).

(** A slot holds sector [l] of device [d]. *)
Definition holds (n : bcache_node) (d l : Z) : Prop := n_valid n = true /\ n_dev n = d /\ n_sector n = l.

Record bc_inv (c : bcache) (h : HW) : Prop := {
  bc_len : alen (cache c) = BCACHE_SIZE;
  bc_dirty_valid : forall i, 0 <= i < BCACHE_SIZE -> n_dirty (cache c).[i] = true -> n_valid (cache c).[i] = true;
  bc_clean : forall i, 0 <= i < BCACHE_SIZE -> n_valid (cache c).[i] = true -> n_dirty (cache c).[i] = false ->
      n_data (cache c).[i] = medium h (n_dev (cache c).[i]) (n_sector (cache c).[i]);
  bc_unique : forall i j d l, 0 <= i < BCACHE_SIZE -> 0 <= j < BCACHE_SIZE ->
      holds (cache c).[i] d l -> holds (cache c).[j] d l -> i = j;
  bc_count : dirty_count c = ndirty (cache c)
}.

(** What a reader sees in a sector. *)
Definition view (c : bcache) (h : HW) (d l : Z) : list Z :=
  match bcache_lookup c d l with
  | Some i => n_data (cache c).[i]
  | None => medium h d l
  end.

Lemma slot_matches_holds c d l i : slot_matches c d l i = true <-> holds (cache c).[i] d l.
Proof. unfold slot_matches, holds. rewrite !andb_true_iff, !Z.eqb_eq. tauto. Qed.

Lemma lookup_Some_holds c d l i :
  bcache_lookup c d l = Some i -> 0 <= i < BCACHE_SIZE /\ holds (cache c).[i] d l.
Proof.
  intros Hl. apply for_find_Some in Hl as (? & Hm & _). by apply slot_matches_holds in Hm.
Qed.

Lemma lookup_None_holds c d l i :
  bcache_lookup c d l = None -> 0 <= i < BCACHE_SIZE -> ~ holds (cache c).[i] d l.
Proof.
  intros Hl Hi Hh. apply slot_matches_holds in Hh. unfold bcache_lookup in Hl.
  rewrite for_find_None in Hl. rewrite Hl in Hh by done. done.
Qed.

Lemma lookup_holds c h d l i :
  bc_inv c h -> 0 <= i < BCACHE_SIZE -> holds (cache c).[i] d l -> bcache_lookup c d l = Some i.
Proof.
  intros Hinv Hi Hh. destruct (bcache_lookup c d l) as [j|] eqn:Hl.
  - apply lookup_Some_holds in Hl as [Hj Hhj]. f_equal. by apply (bc_unique _ _ Hinv _ _ d l).
  - by apply (lookup_None_holds _ _ _ _ Hl Hi) in Hh.
Qed.

(** The view, from the slots rather than from the search. *)
Lemma view_held c h d l i :
  bc_inv c h -> 0 <= i < BCACHE_SIZE -> holds (cache c).[i] d l -> view c h d l = n_data (cache c).[i].
Proof. intros Hinv Hi Hh. unfold view. by rewrite (lookup_holds _ _ _ _ _ Hinv Hi Hh). Qed.

Lemma view_not_held c h d l :
  (forall i, 0 <= i < BCACHE_SIZE -> ~ holds (cache c).[i] d l) -> view c h d l = medium h d l.
Proof.
  intros Hn. unfold view. destruct (bcache_lookup c d l) as [i|] eqn:Hl; [|done].
  apply lookup_Some_holds in Hl as [Hi Hh]. by apply Hn in Hh.
Qed.

Lemma holds_dec n d l : {holds n d l} + {~ holds n d l}.
Proof.
  unfold holds. destruct (n_valid n); [|right; intuition congruence].
  destruct (Z.eq_dec (n_dev n) d), (Z.eq_dec (n_sector n) l); (left; tauto) || (right; tauto).
Qed.

(** ** Replacing one slot

    Everything the cache does to its slots is an instance of this: slot [i] gets
    the contents [n], whose sector no other slot holds. *)
Lemma replace_inv c h i n k :
  bc_inv c h -> 0 <= i < BCACHE_SIZE ->
  (n_dirty n = true -> n_valid n = true) ->
  (n_valid n = true -> n_dirty n = false -> n_data n = medium h (n_dev n) (n_sector n)) ->
  (n_valid n = true -> forall j, 0 <= j < BCACHE_SIZE -> j <> i -> ~ holds (cache c).[j] (n_dev n) (n_sector n)) ->
  k = ndirty (cache c) - Z.b2z (n_dirty (cache c).[i]) + Z.b2z (n_dirty n) ->
  bc_inv (with_dirty_count (with_slot c i n) k) h.
Proof.
  intros Hinv Hi Hdv Hcl Hun ->. pose proof (bc_len _ _ Hinv) as Hlen.
  assert (forall j, 0 <= j -> (cache c).[i <- n].[j] = if i =? j then n else (cache c).[j]) as Hget
    by (intros j Hj; apply aget_aset; lia).
  constructor; simpl.
  - by rewrite alen_aset.
  - intros j Hj. rewrite Hget by lia. case_bool; [done|]. by apply (bc_dirty_valid _ _ Hinv).
  - intros j Hj. rewrite Hget by lia. case_bool; [done|]. by apply (bc_clean _ _ Hinv).
  - intros j k d l Hj Hk. rewrite !Hget by lia.
    destruct (Z.eqb_spec i j) as [<-|], (Z.eqb_spec i k) as [<-|]; [done| | |].
    + intros (Hv & <- & <-) Hh. exfalso. by apply (Hun Hv k Hk ltac:(lia)).
    + intros Hh (Hv & <- & <-). exfalso. by apply (Hun Hv j Hj ltac:(lia)).
    + by apply (bc_unique _ _ Hinv).
  - symmetry. apply ndirty_aset. lia.
Qed.

Lemma replace_view c h i n k d l :
  bc_inv c h -> 0 <= i < BCACHE_SIZE -> bc_inv (with_dirty_count (with_slot c i n) k) h ->
  view (with_dirty_count (with_slot c i n) k) h d l =
  if holds_dec n d l then n_data n
  else if holds_dec (cache c).[i] d l then medium h d l else view c h d l.
Proof.
  intros Hinv Hi Hinv'. pose proof (bc_len _ _ Hinv) as Hlen.
  set (c' := with_dirty_count (with_slot c i n) k) in *.
  assert (forall j, 0 <= j -> (cache c').[j] = if i =? j then n else (cache c).[j]) as Hget
    by (intros j Hj; apply aget_aset; lia).
  assert ((cache c').[i] = n) as Hgi by (rewrite Hget, Z.eqb_refl by lia; done).
  destruct (holds_dec n d l) as [Hn|Hn].
  { rewrite (view_held c' h d l i) by (rewrite ?Hgi; done). by rewrite Hgi. }
  destruct (holds_dec (cache c).[i] d l) as [Ho|Ho].
  - apply view_not_held. intros j Hj. rewrite Hget by lia. case_bool; [done|].
    intros Hh. pose proof (bc_unique _ _ Hinv i j d l Hi Hj Ho Hh). lia.
  - unfold view at 2. destruct (bcache_lookup c d l) as [j|] eqn:Hl.
    + apply lookup_Some_holds in Hl as [Hj Hh].
      assert (i <> j) as Hij by (intros ->; done).
      assert ((cache c').[j] = (cache c).[j]) as Hgj
        by (rewrite Hget by lia; by destruct (Z.eqb_spec i j)).
      rewrite (view_held c' h d l j) by (rewrite ?Hgj; done). by rewrite Hgj.
    + apply view_not_held. intros j Hj. rewrite Hget by lia. case_bool; [done|].
      by apply lookup_None_holds.
Qed.

(** ** Steps that change no slot *)

Lemma inv_same_slots c c' h :
  cache c' = cache c -> dirty_count c' = dirty_count c -> bc_inv c h -> bc_inv c' h.
Proof. intros Hc Hd [? ? ? ? ?]. constructor; rewrite ?Hc, ?Hd; done. Qed.

Lemma view_same_slots c c' h d l : cache c' = cache c -> view c' h d l = view c h d l.
Proof. intros Hc. unfold view, bcache_lookup, slot_matches. by rewrite Hc. Qed.

Lemma inv_same_medium c h h' :
  (forall d l, medium h' d l = medium h d l) -> bc_inv c h -> bc_inv c h'.
Proof. intros Hm [? ? Hcl ? ?]. constructor; try done. intros. rewrite Hm. by apply Hcl. Qed.

Lemma view_same_medium c h h' d l :
  (forall d l, medium h' d l = medium h d l) -> view c h' d l = view c h d l.
Proof. intros Hm. unfold view. by rewrite Hm. Qed.

(** What the bounds check leaves of the drivers' promises. *)
Lemma blockdev_read_medium h d l buf r data h' d' l' :
  blockdev_read dmem h d l buf = (r, data, h') -> medium h' d' l' = medium h d' l'.
Proof.
  unfold blockdev_read. case_bool; [by intros [= <- <- <-]|]. apply drv_read_pure.
Qed.

Lemma blockdev_read_ok h d l buf data h' :
  blockdev_read dmem h d l buf = (E_OK, data, h') -> data = medium h d l.
Proof.
  unfold blockdev_read. case_bool; [intros [= Hc _ _]; congruence|]. apply drv_read_ok.
Qed.

Lemma blockdev_write_other h d l x r h' d' l' :
  blockdev_write dmem h d l x = (r, h') -> (d, l) <> (d', l') -> medium h' d' l' = medium h d' l'.
Proof.
  unfold blockdev_write. case_bool; [by intros [= <- <-]|]. apply drv_write_other.
Qed.

Lemma blockdev_write_ok h d l x h' :
  blockdev_write dmem h d l x = (E_OK, h') -> medium h' d l = x.
Proof.
  unfold blockdev_write. case_bool; [intros [= Hc _]; congruence|]. apply drv_write_ok.
Qed.

(** ** Writing a dirty slot out

    Whatever the device answers, the view stays: a failed write leaves the slot
    dirty and still in front of the medium. *)
Lemma write_dirty_keeps c h i r h' :
  bc_inv c h -> 0 <= i < BCACHE_SIZE -> n_dirty (cache c).[i] = true ->
  blockdev_write dmem h (n_dev (cache c).[i]) (n_sector (cache c).[i]) (n_data (cache c).[i]) = (r, h') ->
  bc_inv c h' /\ forall d l, view c h' d l = view c h d l.
Proof.
  intros Hinv Hi Hd Hw. pose proof (bc_dirty_valid _ _ Hinv i Hi Hd) as Hv.
  assert (holds (cache c).[i] (n_dev (cache c).[i]) (n_sector (cache c).[i])) as Hhold by done.
  assert (forall d l, ~ holds (cache c).[i] d l -> medium h' d l = medium h d l) as Hm.
  { intros d l Hn. apply (blockdev_write_other _ _ _ _ _ _ _ _ Hw). intros [= <- <-]. done. }
  split.
  - destruct Hinv as [Hlen Hdv Hcl Hun Hcnt]. constructor; try done.
    intros j Hj Hvj Hdj. rewrite Hm; [by apply Hcl|]. intros Hh.
    assert (i = j) as -> by (apply (Hun i j _ _ Hi Hj Hh); done). congruence.
  - intros d l. destruct (holds_dec (cache c).[i] d l) as [Hh|Hh].
    + unfold view. by rewrite (lookup_holds _ _ _ _ _ Hinv Hi Hh).
    + unfold view. destruct (bcache_lookup c d l); [done|]. by apply Hm.
Qed.

Lemma mark_clean_eq c h i :
  bc_inv c h -> 0 <= i < BCACHE_SIZE -> n_dirty (cache c).[i] = true ->
  mark_clean c i = with_dirty_count (with_slot c i (set_dirty (cache c).[i] false)) (dirty_count c - 1).
Proof.
  intros Hinv Hi Hd. unfold mark_clean. rewrite Hd. simpl.
  pose proof (bc_len _ _ Hinv) as Hlen. rewrite (bc_count _ _ Hinv).
  destruct (Z.ltb_spec 0 (ndirty (cache c))) as [|Hle]; [done|].
  rewrite ndirty_zero in Hd by (pose proof (ndirty_nonneg (cache c)); lia). done.
Qed.

Lemma write_out_ok c h i h' :
  bc_inv c h -> 0 <= i < BCACHE_SIZE -> n_dirty (cache c).[i] = true ->
  blockdev_write dmem h (n_dev (cache c).[i]) (n_sector (cache c).[i]) (n_data (cache c).[i]) = (E_OK, h') ->
  bc_inv (mark_clean c i) h' /\ forall d l, view (mark_clean c i) h' d l = view c h d l.
Proof.
  intros Hinv Hi Hd Hw. destruct (write_dirty_keeps _ _ _ _ _ Hinv Hi Hd Hw) as [Hinv' Hview].
  pose proof (blockdev_write_ok _ _ _ _ _ Hw) as Hmed.
  rewrite (mark_clean_eq _ _ _ Hinv Hi Hd).
  assert (bc_inv (with_dirty_count (with_slot c i (set_dirty (cache c).[i] false)) (dirty_count c - 1)) h') as Hinv''.
  { apply replace_inv; simpl; try done.
    - intros Hv j Hj Hne Hh. apply Hne.
      by apply (bc_unique _ _ Hinv j i (n_dev (cache c).[i]) (n_sector (cache c).[i])).
    - rewrite (bc_count _ _ Hinv), Hd. simpl. lia. }
  split; [done|]. intros d l. rewrite replace_view by done. rewrite <- Hview.
  destruct (holds_dec (set_dirty (cache c).[i] false) d l) as [Hh|Hh].
  - symmetry. by rewrite (view_held c h' d l i).
  - destruct (holds_dec (cache c).[i] d l); [done|done].
Qed.

(** ** Choosing a slot *)

(** The age the replacement policy compares: ticks since the last access. *)
Definition slot_age (c : bcache) (i : Z) : Z := u32 (bcache_ticks c - n_last_access (cache c).[i]).

(** The scan after [n] slots. *)
Definition scan_inv (c : bcache) (n : Z) (acc : lru_scan) : Prop :=
  match acc with
  | LruEmpty i => 0 <= i < BCACHE_SIZE /\ n_valid (cache c).[i] = false
  | LruClean k age =>
      (forall i, 0 <= i < n -> n_valid (cache c).[i] = true) /\
      (k < 0 -> forall i, 0 <= i < n -> n_dirty (cache c).[i] = true) /\
      (0 <= k -> k < n /\ n_dirty (cache c).[k] = false /\ age = slot_age c k /\
         forall i, 0 <= i < n -> n_dirty (cache c).[i] = false -> slot_age c i <= slot_age c k)
  end.

Lemma below_succ (P : Z -> Prop) i :
  (forall j, 0 <= j < i -> P j) -> P i -> forall j, 0 <= j < i + 1 -> P j.
Proof. intros HP HPi j Hj. destruct (Z.eq_dec j i) as [->|]; [done|]. apply HP. lia. Qed.

Lemma scan_inv_step c i acc :
  0 <= i < BCACHE_SIZE -> scan_inv c i acc -> scan_inv c (i + 1) (lru_scan_slot c acc i).
Proof.
  intros Hi. destruct acc as [e|k age]; [done|]. intros (Hval & Hneg & Hpos). simpl.
  destruct (n_valid (cache c).[i]) eqn:Hvi; [simpl|by split].
  pose proof (below_succ _ _ Hval Hvi) as Hval'. fold (slot_age c i). destruct (n_dirty (cache c).[i]) eqn:Hdi; simpl.
  - split; [done|]. split; [intros Hk; apply below_succ; [by apply Hneg|done]|].
    intros Hk. destruct (Hpos Hk) as (? & ? & ? & Hmax). repeat split; [lia|done|done|].
    apply (below_succ (fun j => n_dirty (cache c).[j] = false -> _)); [done|by rewrite Hdi].
  - destruct ((k <? 0) || (age <? slot_age c i)) eqn:Hsel.
    + split; [done|]. split; [lia|]. intros _. repeat split; [lia|done|].
      apply (below_succ (fun j => n_dirty (cache c).[j] = false -> _)); [|lia]. intros j Hj Hdj.
      destruct (Z.lt_ge_cases k 0) as [Hk|Hk]; [by rewrite Hneg in Hdj|].
      destruct (Hpos Hk) as (_ & _ & -> & Hmax). specialize (Hmax j Hj Hdj).
      apply orb_true_iff in Hsel as [?|?]; bool_to_prop; lia.
    + bool_to_prop. split; [done|]. split; [lia|]. intros Hk.
      destruct (Hpos Hk) as (? & ? & -> & Hmax). repeat split; [lia|done|].
      apply (below_succ (fun j => n_dirty (cache c).[j] = false -> _)); [done|lia].
Qed.

Lemma clean_scan_spec c : scan_inv c BCACHE_SIZE (lru_clean_scan c).
Proof.
  apply (for_range_ind (scan_inv c)); [done|repeat split; lia|].
  intros i acc Hi. by apply scan_inv_step.
Qed.

Lemma oldest_untried_range c tried : -1 <= lru_oldest_untried c tried < BCACHE_SIZE.
Proof.
  unfold lru_oldest_untried.
  match goal with |- _ <= (for_range 0 ?b ?f ?st).1 < _ =>
    pose proof (for_range_ind (fun n acc => -1 <= acc.1 < n) 0 b f st) as Hind end.
  apply Hind; [done|simpl; lia|]. intros i [o a] Hi Ho. simpl in *. case_bool; simpl; lia.
Qed.

(** Two states with the same sectors in the same slots. *)
Definition same_keys (c c' : bcache) : Prop :=
  forall i d l, 0 <= i < BCACHE_SIZE -> holds (cache c').[i] d l <-> holds (cache c).[i] d l.

Lemma same_keys_refl c : same_keys c c.
Proof. done. Qed.

Lemma mark_clean_slot c h i j :
  bc_inv c h -> 0 <= i < BCACHE_SIZE -> n_dirty (cache c).[i] = true -> 0 <= j ->
  (cache (mark_clean c i)).[j] = if i =? j then set_dirty (cache c).[i] false else (cache c).[j].
Proof.
  intros Hinv Hi Hd Hj. rewrite (mark_clean_eq _ _ _ Hinv Hi Hd). simpl.
  pose proof (bc_len _ _ Hinv). apply aget_aset; lia.
Qed.

Lemma same_keys_mark_clean c h i :
  bc_inv c h -> 0 <= i < BCACHE_SIZE -> n_dirty (cache c).[i] = true -> same_keys c (mark_clean c i).
Proof.
  intros Hinv Hi Hd j d l Hj. rewrite (mark_clean_slot _ _ _ _ Hinv Hi Hd) by lia.
  by destruct (Z.eqb_spec i j) as [<-|].
Qed.

Lemma lru_write_out_spec attempts : forall tried c h slot c' h',
  bc_inv c h -> (forall i, 0 <= i < BCACHE_SIZE -> n_dirty (cache c).[i] = true) ->
  lru_write_out dmem attempts tried c h = (slot, c', h') ->
  bc_inv c' h' /\ (forall d l, view c' h' d l = view c h d l) /\ same_keys c c' /\
  (slot = -1 /\ c' = c \/ 0 <= slot < BCACHE_SIZE /\ n_dirty (cache c').[slot] = false).
Proof.
  induction attempts as [|attempts IH]; intros tried c h slot c' h' Hinv Hall; cbn [lru_write_out].
  { intros [= <- <- <-]. auto 10 using same_keys_refl. }
  pose proof (oldest_untried_range c tried) as Hr. set (o := lru_oldest_untried c tried) in *.
  destruct (Z.ltb_spec o 0) as [|Ho]; [intros [= <- <- <-]; auto 10 using same_keys_refl|].
  destruct (blockdev_write _ _ _ _ _) as [res h1] eqn:Hw.
  destruct (Z.eqb_spec res E_OK) as [->|Hres].
  - intros [= <- <- <-]. destruct (write_out_ok _ _ o _ Hinv ltac:(lia) (Hall o ltac:(lia)) Hw) as [Hinv' Hv].
    split; [done|]. split; [done|]. split; [by apply (same_keys_mark_clean _ h); [|lia|apply Hall; lia]|].
    right. split; [lia|].
    rewrite (mark_clean_slot _ _ o _ Hinv ltac:(lia) (Hall o ltac:(lia))) by lia. by rewrite Z.eqb_refl.
  - intros Hrun. destruct (write_dirty_keeps _ _ o _ _ Hinv ltac:(lia) (Hall o ltac:(lia)) Hw) as [Hinv1 Hv1].
    destruct (IH _ _ _ _ _ _ Hinv1 Hall Hrun) as (Hinv' & Hv' & Hs).
    split; [done|]. split; [|done]. intros d l. by rewrite Hv', Hv1.
Qed.

Lemma get_lru_slot_spec c h slot c' h' :
  bc_inv c h -> bcache_get_lru_slot dmem c h = (slot, c', h') ->
  bc_inv c' h' /\ (forall d l, view c' h' d l = view c h d l) /\ same_keys c c' /\
  (slot = -1 \/ 0 <= slot < BCACHE_SIZE /\ n_dirty (cache c').[slot] = false).
Proof.
  intros Hinv. unfold bcache_get_lru_slot. pose proof (clean_scan_spec c) as Hscan.
  destruct (lru_clean_scan c) as [i|k age].
  - intros [= <- <- <-]. split; [done|]. split; [done|]. split; [done|]. right. destruct Hscan as [Hi Hv].
    split; [done|]. destruct (n_dirty (cache c).[i]) eqn:Hd; [|done].
    apply (bc_dirty_valid _ _ Hinv) in Hd; [congruence|done].
  - destruct Hscan as (_ & Hneg & Hpos). destruct (Z.leb_spec 0 k) as [Hk|Hk].
    + intros [= <- <- <-]. destruct (Hpos Hk) as (? & ? & _). split; [done|]. split; [done|]. split; [done|]. by right.
    + intros Hrun.
      destruct (lru_write_out_spec _ _ _ _ _ _ _ Hinv (Hneg Hk) Hrun) as (? & ? & ? & [[? _]|?]); eauto.
Qed.

(** ** Refilling a clean slot, overwriting a slot *)

Lemma lookup_None_same_keys c c' d l :
  same_keys c c' -> bcache_lookup c d l = None -> forall i, 0 <= i < BCACHE_SIZE -> ~ holds (cache c').[i] d l.
Proof. intros Hk Hn i Hi Hh. apply (lookup_None_holds _ _ _ i Hn Hi). by apply Hk. Qed.

(** A clean slot may be given up, or refilled with a sector no slot holds: the
    medium has what it held, and what it now holds. *)
Lemma refill_clean c h i n :
  bc_inv c h -> 0 <= i < BCACHE_SIZE -> n_dirty (cache c).[i] = false -> n_dirty n = false ->
  (n_valid n = true -> n_data n = medium h (n_dev n) (n_sector n)) ->
  (n_valid n = true -> forall j, 0 <= j < BCACHE_SIZE -> ~ holds (cache c).[j] (n_dev n) (n_sector n)) ->
  bc_inv (with_slot c i n) h /\ forall d l, view (with_slot c i n) h d l = view c h d l.
Proof.
  intros Hinv Hi Hd Hnd Hdata Hun.
  assert (bc_inv (with_dirty_count (with_slot c i n) (dirty_count c)) h) as Hinv'.
  { apply replace_inv; try done; [by rewrite Hnd|by intros; apply Hdata|by intros; apply Hun|].
    rewrite Hnd, Hd, (bc_count _ _ Hinv). simpl. lia. }
  split; [by eapply inv_same_slots; [| |exact Hinv']|]. intros d l.
  rewrite (view_same_slots (with_dirty_count (with_slot c i n) (dirty_count c))) by done.
  rewrite replace_view by done. destruct (holds_dec n d l) as [(Hv & <- & <-)|Hn].
  - rewrite (view_not_held c) by (intros; by apply Hun). by apply Hdata.
  - destruct (holds_dec (cache c).[i] d l) as [Hh|]; [|done].
    rewrite (view_held _ _ _ _ _ Hinv Hi Hh). destruct Hh as (Hv & <- & <-). symmetry. by apply (bc_clean _ _ Hinv).
Qed.

(** The slot a write fills, once marked. *)
Lemma mark_dirty_filled now c h i dev sector data t :
  bc_inv c h -> 0 <= i < BCACHE_SIZE ->
  let c' := mark_dirty now (with_slot c i (mk_node dev sector data true (n_dirty (cache c).[i]) t)) i in
  cache c' = (cache c).[i <- mk_node dev sector data true true t] /\
  dirty_count c' = ndirty (cache c) - Z.b2z (n_dirty (cache c).[i]) + 1.
Proof.
  intros Hinv Hi. pose proof (bc_len _ _ Hinv) as Hlen. unfold mark_dirty. simpl.
  rewrite aget_aset_eq by lia. simpl. pose proof (bc_count _ _ Hinv) as Hc.
  destruct (n_dirty (cache c).[i]) eqn:Hd; simpl; [split; [done|lia]|].
  pose proof (ndirty_aset (cache c) i (mk_node 0 0 [] true true 0) ltac:(lia)) as Ha.
  rewrite Hd in Ha. simpl in Ha. pose proof (ndirty_le (cache c).[i <- mk_node 0 0 [] true true 0]) as Hle.
  rewrite alen_aset in Hle. pose proof (ndirty_nonneg (cache c)). unfold BCACHE_SIZE in *.
  destruct (dirty_count c =? 0); simpl; (split; [by rewrite aset_aset|]); rewrite u32_small; lia.
Qed.

Lemma overwrite_slot now c h i dev sector data t :
  bc_inv c h -> 0 <= i < BCACHE_SIZE ->
  (forall j, 0 <= j < BCACHE_SIZE -> j <> i -> ~ holds (cache c).[j] dev sector) ->
  (n_dirty (cache c).[i] = true -> holds (cache c).[i] dev sector) ->
  let c' := mark_dirty now (with_slot c i (mk_node dev sector data true (n_dirty (cache c).[i]) t)) i in
  bc_inv c' h /\
  forall d l, view c' h d l = if bool_decide ((d, l) = (dev, sector)) then data else view c h d l.
Proof.
  intros Hinv Hi Hun Hdirty c'.
  destruct (mark_dirty_filled now c h i dev sector data t Hinv Hi) as [Hcache Hcount].
  fold c' in Hcache, Hcount. set (n := mk_node dev sector data true true t) in *.
  assert (bc_inv (with_dirty_count (with_slot c i n) (dirty_count c')) h) as Hinv'
    by (apply replace_inv; try done; by rewrite Hcount).
  split; [by eapply inv_same_slots; [| |exact Hinv']|]. intros d l.
  rewrite (view_same_slots (with_dirty_count (with_slot c i n) (dirty_count c'))) by done.
  rewrite replace_view by done. case_bool_decide as Heq.
  - injection Heq as -> ->. by destruct (holds_dec n dev sector) as [|[]].
  - destruct (holds_dec n d l) as [(_ & <- & <-)|_]; [done|].
    destruct (holds_dec (cache c).[i] d l) as [Hh|]; [|done].
    rewrite (view_held _ _ _ _ _ Hinv Hi Hh). destruct Hh as (Hv & <- & <-). symmetry.
    apply (bc_clean _ _ Hinv); [done|done|]. destruct (n_dirty (cache c).[i]); [|done].
    destruct (Hdirty eq_refl) as (_ & ? & ?). congruence.
Qed.

(** ** The operations on the view *)

Lemma with_ticks_keeps c h t :
  bc_inv c h -> bc_inv (with_ticks c t) h /\ forall d l, view (with_ticks c t) h d l = view c h d l.
Proof. intros Hinv. split; [by apply (inv_same_slots c)|]. intros. by apply view_same_slots. Qed.

Lemma touch_keeps c h i t :
  bc_inv c h -> 0 <= i < BCACHE_SIZE ->
  bc_inv (with_slot c i (set_last (cache c).[i] t)) h /\
  forall d l, view (with_slot c i (set_last (cache c).[i] t)) h d l = view c h d l.
Proof.
  intros Hinv Hi. set (n := set_last (cache c).[i] t).
  assert (bc_inv (with_dirty_count (with_slot c i n) (dirty_count c)) h) as Hinv'.
  { apply replace_inv; try done; [by apply (bc_dirty_valid _ _ Hinv)|by apply (bc_clean _ _ Hinv)| |].
    - intros Hv j Hj Hne Hh. by apply Hne, (bc_unique _ _ Hinv j i _ _ Hj Hi Hh).
    - rewrite (bc_count _ _ Hinv). simpl. lia. }
  split; [by eapply inv_same_slots; [| |exact Hinv']|]. intros d l.
  rewrite (view_same_slots (with_dirty_count (with_slot c i n) (dirty_count c))) by done.
  rewrite replace_view by done. destruct (holds_dec n d l) as [Hh|Hn].
  - symmetry. by apply (view_held _ _ _ _ i).
  - by destruct (holds_dec (cache c).[i] d l).
Qed.

Lemma read_ok c h dev sector buf r out c' h' :
  bc_inv c h -> bcache_read_sector dmem c h dev sector buf = (r, out, c', h') ->
  bc_inv c' h' /\ (forall d l, view c' h' d l = view c h d l) /\
  (r = E_OK -> out = Some (view c h dev sector)).
Proof.
  intros Hinv. unfold bcache_read_sector.
  destruct (Z.eqb_spec (blockdev_check_read dmem dev sector (bool_decide (buf = None))) E_OK) as [_|Hc];
    cbn [negb]; [|by intros [= <- <- <- <-]].
  destruct (_ =? 512); cbn [negb]; [|by intros [= <- <- <- <-]].
  destruct (with_ticks_keeps c h (u32 (bcache_ticks c + 1)) Hinv) as [Hinv1 Hv1].
  set (c1 := with_ticks c _) in *. destruct (bcache_lookup c1 dev sector) as [i|] eqn:Hl.
  - intros [= <- <- <- <-]. apply lookup_Some_holds in Hl as [Hi Hh].
    destruct (touch_keeps c1 h i (bcache_ticks c1) Hinv1 Hi) as [Hinv2 Hv2].
    split; [done|]. split; [intros; by rewrite Hv2, Hv1|]. intros _. f_equal.
    rewrite <- Hv1. symmetry. by apply (view_held _ _ _ _ i Hinv1).
  - destruct (bcache_get_lru_slot dmem c1 h) as [[slot c2] h2] eqn:Hs.
    destruct (get_lru_slot_spec _ _ _ _ _ Hinv1 Hs) as (Hinv2 & Hv2 & Hk & Hslot).
    destruct Hslot as [->|[Hslot Hclean]]; [intros [= <- <- <- <-]; split; [done|]; split; [|done];
      intros; by rewrite Hv2, Hv1|].
    destruct (Z.ltb_spec slot 0); [lia|].
    destruct (blockdev_read dmem h2 dev sector _) as [[res data] h3] eqn:Hr.
    assert (forall d l, medium h3 d l = medium h2 d l) as Hm by (intros; by eapply blockdev_read_medium).
    apply (inv_same_medium _ _ _ Hm) in Hinv2 as Hinv3. pose proof (bc_len _ _ Hinv2) as Hlen.
    assert (forall d l, view c2 h3 d l = view c h d l) as Hv3
      by (intros; by rewrite (view_same_medium _ _ _ _ _ Hm), Hv2, Hv1).
    destruct (Z.eqb_spec res E_OK) as [->|Hres]; simpl.
    + rewrite !aget_aset_eq by lia. unfold mark_clean. simpl. rewrite aget_aset_eq by (rewrite alen_aset; lia).
      simpl. rewrite Hclean. simpl. intros [= <- <- <- <-]. rewrite aget_aset_eq by (rewrite alen_aset; lia).
      unfold with_slot at 1 3. simpl. rewrite aset_aset.
      apply blockdev_read_ok in Hr as ->.
      destruct (refill_clean c2 h3 slot (mk_node dev sector (medium h2 dev sector) true false (bcache_ticks c2)))
        as [Hinv4 Hv4]; [done..|by simpl; rewrite Hm| |].
      { intros _. by apply (lookup_None_same_keys c1). }
      split; [done|]. split; [intros; by rewrite <- Hv3, <- Hv4|]. intros _. f_equal.
      rewrite <- Hv3, <- Hm. symmetry. apply view_not_held. by apply (lookup_None_same_keys c1).
    + rewrite !aget_aset_eq by lia. intros [= <- <- <- <-]. unfold with_slot at 1 3. simpl. rewrite aset_aset.
      destruct (refill_clean c2 h3 slot (set_valid (set_data (cache c2).[slot] data) false)) as [Hinv4 Hv4];
        [done..|].
      split; [done|]. split; [intros; by rewrite <- Hv3, <- Hv4|done].
Qed.

(** The flush loop after [n] slots. *)
Definition flush_inv (c0 : bcache) (h0 : HW) (n : Z) (st : bcache * HW * Z * Z) : Prop :=
  let '(c, h, _, failed) := st in
  bc_inv c h /\ (forall d l, view c h d l = view c0 h0 d l) /\ 0 <= failed /\
  (failed = 0 -> forall i, 0 <= i < n -> n_dirty (cache c).[i] = false).

Lemma flush_inv_step c0 h0 i st :
  0 <= i < BCACHE_SIZE -> flush_inv c0 h0 i st -> flush_inv c0 h0 (i + 1) (flush_slot dmem st i).
Proof.
  intros Hi. destruct st as [[[c h] fl] failed]. intros (Hinv & Hv & Hf & Hclean). unfold flush_slot.
  destruct (n_dirty (cache c).[i]) eqn:Hd.
  - rewrite (bc_dirty_valid _ _ Hinv i Hi Hd). cbn [andb].
    destruct (blockdev_write _ _ _ _ _) as [res h1] eqn:Hw.
    destruct (Z.eqb_spec res E_OK) as [->|Hres]; cbn [negb].
    + destruct (write_out_ok _ _ _ _ Hinv Hi Hd Hw) as [Hinv1 Hv1].
      split; [done|]. split; [intros; by rewrite Hv1, Hv|]. split; [done|]. intros H0.
      apply below_succ; [|by rewrite (mark_clean_slot _ _ _ _ Hinv Hi Hd), Z.eqb_refl by lia].
      intros j Hj. rewrite (mark_clean_slot _ _ _ _ Hinv Hi Hd) by lia. case_bool; [done|by apply Hclean].
    + destruct (write_dirty_keeps _ _ _ _ _ Hinv Hi Hd Hw) as [Hinv1 Hv1].
      split; [done|]. split; [intros; by rewrite Hv1, Hv|]. lia.
  - rewrite andb_false_r. split; [done|]. split; [done|]. split; [done|]. intros H0.
    by apply below_succ; [apply Hclean|].
Qed.

Lemma all_clean_count c h :
  bc_inv c h -> (forall i, 0 <= i < BCACHE_SIZE -> n_dirty (cache c).[i] = false) -> dirty_count c = 0.
Proof.
  intros Hinv Hc. rewrite (bc_count _ _ Hinv). pose proof (bc_len _ _ Hinv) as Hlen.
  apply ndirty_all_clean, Forall_forall. intros n Hn. apply list_elem_of_lookup_1 in Hn as (k & Hk).
  pose proof (lookup_lt_Some _ _ _ Hk). apply lookup_aget in Hk as <-. apply Hc. unfold alen in Hlen. lia.
Qed.

Lemma clean_view_medium c h d l :
  bc_inv c h -> (forall i, 0 <= i < BCACHE_SIZE -> holds (cache c).[i] d l -> n_dirty (cache c).[i] = false) ->
  view c h d l = medium h d l.
Proof.
  intros Hinv Hc. unfold view. destruct (bcache_lookup c d l) as [i|] eqn:Hl; [|done].
  apply lookup_Some_holds in Hl as [Hi Hh]. pose proof (Hc i Hi Hh). destruct Hh as (Hv & <- & <-).
  by apply (bc_clean _ _ Hinv).
Qed.

Lemma flush_ok c h r c' h' :
  bc_inv c h -> bcache_flush_reporting dmem c h = (r, c', h') ->
  bc_inv c' h' /\ (forall d l, view c' h' d l = view c h d l) /\
  (r = E_OK -> dirty_count c' = 0 /\ forall d l, medium h' d l = view c h d l).
Proof.
  intros Hinv. unfold bcache_flush_reporting.
  assert (flush_inv c h BCACHE_SIZE (for_range 0 BCACHE_SIZE (flush_slot dmem) (c, h, 0, 0))) as Hend.
  { apply (for_range_ind (flush_inv c h)); [done|split; [done|]; repeat split; lia|].
    intros. by apply flush_inv_step. }
  destruct (for_range _ _ _ _) as [[[c1 h1] fl] failed]. destruct Hend as (Hinv1 & Hv1 & Hf & Hclean).
  intros [= <- <- <-]. split; [done|]. split; [done|].
  destruct (Z.ltb_spec 0 failed); [done|]. intros _. specialize (Hclean ltac:(lia)).
  split; [by apply (all_clean_count _ h1)|]. intros d l. rewrite <- Hv1. symmetry.
  apply clean_view_medium; [done|]. intros. by apply Hclean.
Qed.

Lemma write_ok now c h dev sector buf r c' h' :
  bc_inv c h -> bcache_write_sector dmem now c h dev sector buf = (r, c', h') ->
  bc_inv c' h' /\
  forall d l, view c' h' d l =
    if bool_decide (r = E_OK /\ (d, l) = (dev, sector)) then take 512 (default [] buf) else view c h d l.
Proof.
  intros Hinv. unfold bcache_write_sector.
  assert (forall r, r <> E_OK -> bc_inv c h /\ forall d l, view c h d l =
    if bool_decide (r = E_OK /\ (d, l) = (dev, sector)) then take 512 (default [] buf) else view c h d l) as Hfail.
  { intros r0 Hr. split; [done|]. intros. case_bool_decide; [tauto|done]. }
  destruct (Z.eqb_spec (blockdev_check_write dmem dev sector (bool_decide (buf = None))) E_OK) as [_|Hc];
    cbn [negb]; [|intros [= <- <- <-]; by apply Hfail].
  destruct (_ =? 512); cbn [negb]; [|intros [= <- <- <-]; by apply Hfail].
  destruct (with_ticks_keeps c h (u32 (bcache_ticks c + 1)) Hinv) as [Hinv1 Hv1].
  set (c1 := with_ticks c _) in *. clear Hfail.
  destruct (match bcache_lookup c1 dev sector with Some i => _ | None => _ end) as [[slot c2] h2] eqn:Hs.
  assert (bc_inv c2 h2 /\ (forall d l, view c2 h2 d l = view c h d l) /\
    (slot = -1 \/ 0 <= slot < BCACHE_SIZE /\
     (forall j, 0 <= j < BCACHE_SIZE -> j <> slot -> ~ holds (cache c2).[j] dev sector) /\
     (n_dirty (cache c2).[slot] = true -> holds (cache c2).[slot] dev sector))) as (Hinv2 & Hv2 & Hslot).
  { destruct (bcache_lookup c1 dev sector) as [i|] eqn:Hl.
    - injection Hs as <- <- <-. apply lookup_Some_holds in Hl as [Hi Hh].
      split; [done|]. split; [done|]. right. split; [done|]. split; [|done].
      intros j Hj Hne Hh'. by apply Hne, (bc_unique _ _ Hinv1 j i dev sector).
    - destruct (get_lru_slot_spec _ _ _ _ _ Hinv1 Hs) as (? & Hv & Hk & [->|[? Hcl]]);
        (split; [done|]; split; [intros; by rewrite Hv, Hv1|]); [by left|].
      right. split; [done|]. split; [|by rewrite Hcl]. intros. by apply (lookup_None_same_keys c1). }
  clear Hs. destruct Hslot as [->|(Hslot & Hun & Hdirty)].
  { intros [= <- <- <-]. split; [done|]. intros. rewrite Hv2. case_bool_decide as Hb; [by destruct Hb|done]. }
  destruct (Z.ltb_spec slot 0); [lia|].
  destruct (overwrite_slot now c2 h2 slot dev sector (take 512 (default [] buf)) (bcache_ticks c2) Hinv2 Hslot Hun Hdirty)
    as [Hinv3 Hv3].
  set (c3 := mark_dirty _ _ _) in *.
  assert (forall d l, view c3 h2 d l =
    if bool_decide (E_OK = E_OK /\ (d, l) = (dev, sector)) then take 512 (default [] buf) else view c h d l) as Hv4.
  { intros. rewrite Hv3, Hv2. repeat case_bool_decide; tauto. }
  destruct (_ <=? _).
  - destruct (bcache_flush_reporting dmem c3 h2) as [[r0 c4] h4] eqn:Hf.
    destruct (flush_ok _ _ _ _ _ Hinv3 Hf) as (Hinv4 & Hvf & _). intros [= <- <- <-].
    split; [done|]. intros. by rewrite Hvf.
  - intros [= <- <- <-]. by split.
Qed.

(** The device flush after [n] slots: every slot of the device seen so far is
    gone from the cache, unless its write failed. *)
Definition flush_dev_inv (dev : Z) (c0 : bcache) (h0 : HW) (n : Z) (st : bcache * HW * Z) : Prop :=
  let '(c, h, failed) := st in
  bc_inv c h /\ (forall d l, view c h d l = view c0 h0 d l) /\ 0 <= failed /\
  (failed = 0 -> forall i, 0 <= i < n -> forall l, ~ holds (cache c).[i] dev l).

Lemma drop_slot_step dev c0 h0 c h i failed n :
  0 <= i < BCACHE_SIZE -> bc_inv c h -> (forall d l, view c h d l = view c0 h0 d l) -> 0 <= failed ->
  (failed = 0 -> forall j, 0 <= j < i -> forall l, ~ holds (cache c).[j] dev l) ->
  n_dirty (cache c).[i] = false -> n_valid n = false -> n_dirty n = false ->
  flush_dev_inv dev c0 h0 (i + 1) (with_slot c i n, h, failed).
Proof.
  intros Hi Hinv Hv Hf Hgone Hd Hnv Hnd. pose proof (bc_len _ _ Hinv) as Hlen.
  destruct (refill_clean c h i n) as [Hinv1 Hv1]; try done; [by rewrite Hnv..|].
  split; [done|]. split; [intros; by rewrite Hv1, Hv|]. split; [done|]. intros H0. simpl.
  apply (below_succ (fun j => forall l, ~ holds _ dev l)).
  2: { intros l [Hv' _]. rewrite aget_aset_eq in Hv' by lia. congruence. }
  intros j Hj l. rewrite aget_aset_ne by lia. by apply Hgone.
Qed.

Lemma flush_dev_inv_step dev c0 h0 i st :
  0 <= i < BCACHE_SIZE -> flush_dev_inv dev c0 h0 i st -> flush_dev_inv dev c0 h0 (i + 1) (flush_dev_slot dmem dev st i).
Proof.
  intros Hi. destruct st as [[c h] failed]. intros (Hinv & Hv & Hf & Hgone). unfold flush_dev_slot.
  destruct (negb (n_valid (cache c).[i]) || negb (n_dev (cache c).[i] =? dev)) eqn:Hskip.
  { split; [done|]. split; [done|]. split; [done|]. intros H0.
    apply (below_succ (fun j => forall l, ~ holds _ dev l)); [by apply Hgone|]. intros l (Hval & Hdev & _). rewrite Hval, Hdev, Z.eqb_refl in Hskip. done. }
  destruct (n_dirty (cache c).[i]) eqn:Hd; [|by apply drop_slot_step].
  destruct (blockdev_write _ _ _ _ _) as [res h1] eqn:Hw.
  destruct (Z.eqb_spec res E_OK) as [->|Hres]; cbn [negb].
  - destruct (write_out_ok _ _ _ _ Hinv Hi Hd Hw) as [Hinv1 Hv1].
    pose proof (mark_clean_slot _ _ i i Hinv Hi Hd ltac:(lia)) as Hmc. rewrite Z.eqb_refl in Hmc.
    apply drop_slot_step; rewrite ?Hmc; try done; [intros; by rewrite Hv1, Hv|].
    intros H0 j Hj l Hh. apply (same_keys_mark_clean _ _ _ Hinv Hi Hd) in Hh; [|lia].
    by apply (Hgone H0 j Hj l).
  - destruct (write_dirty_keeps _ _ _ _ _ Hinv Hi Hd Hw) as [Hinv1 Hv1].
    split; [done|]. split; [intros; by rewrite Hv1, Hv|]. lia.
Qed.

Lemma flush_dev_ok c h dev r c' h' :
  bc_inv c h -> bcache_flush_dev dmem c h dev = (r, c', h') ->
  bc_inv c' h' /\ (forall d l, view c' h' d l = view c h d l) /\
  (r = E_OK -> (forall i l, 0 <= i < BCACHE_SIZE -> ~ holds (cache c').[i] dev l) /\
               forall l, medium h' dev l = view c h dev l).
Proof.
  intros Hinv. unfold bcache_flush_dev. destruct (Z.eqb_spec dev 0); [by intros [= <- <- <-]|].
  assert (flush_dev_inv dev c h BCACHE_SIZE (for_range 0 BCACHE_SIZE (flush_dev_slot dmem dev) (c, h, 0))) as Hend.
  { apply (for_range_ind (flush_dev_inv dev c h)); [done|split; [done|]; repeat split; lia|].
    intros. by apply flush_dev_inv_step. }
  destruct (for_range _ _ _ _) as [[c1 h1] failed]. destruct Hend as (Hinv1 & Hv1 & Hf & Hgone).
  intros [= <- <- <-]. split; [done|]. split; [done|].
  destruct (Z.ltb_spec 0 failed); [done|]. intros _. specialize (Hgone ltac:(lia)).
  split; [intros; by apply Hgone|]. intros l. rewrite <- Hv1. symmetry.
  apply view_not_held. intros. by apply Hgone.
Qed.

Lemma flush_if_due_ok now c h c' h' :
  bc_inv c h -> bcache_flush_if_due dmem now c h = (c', h') ->
  bc_inv c' h' /\ forall d l, view c' h' d l = view c h d l.
Proof.
  intros Hinv. unfold bcache_flush_if_due. destruct (bcache_flush_is_due now c); [|by intros [= <- <-]].
  destruct (bcache_flush_reporting dmem c h) as [[r c1] h1] eqn:Hf. intros [= <- <-].
  destruct (flush_ok _ _ _ _ _ Hinv Hf) as (? & ? & _). done.
Qed.

Lemma init_slot i : 0 <= i < BCACHE_SIZE -> (cache bcache_init).[i] = mk_node 0 0 zero_sector false false 0.
Proof. intros. by apply aget_replicate. Qed.

Lemma init_inv h : bc_inv bcache_init h /\ forall d l, view bcache_init h d l = medium h d l.
Proof.
  split.
  - constructor.
    + by apply alen_replicate.
    + intros i Hi. by rewrite init_slot.
    + intros i Hi. by rewrite init_slot.
    + intros i j d l Hi Hj [Hh _]. by rewrite init_slot in Hh.
    + symmetry. apply ndirty_all_clean. by apply Forall_replicate.
  - intros. apply view_not_held. intros i Hi [Hh _]. by rewrite init_slot in Hh.
Qed.

(** ** The cache refines a store of sectors *)

(** The calls a client or the timer makes. *)
Inductive bcall : Type :=
| CallRead (dev sector : Z)
| CallWrite (now dev sector : Z) (data : list Z)
| CallFlush
| CallFlushDev (dev : Z)
| CallTick (now : Z).

(** A status, and the buffer of a read. *)
Definition bcall_run (c : bcache) (h : HW) (call : bcall) : Z * list Z * bcache * HW :=
  match call with
  | CallRead dev sector =>
      let '(r, out, c, h) := bcache_read_sector dmem c h dev sector (Some []) in (r, default [] out, c, h)
  | CallWrite now dev sector data =>
      let '(r, c, h) := bcache_write_sector dmem now c h dev sector (Some data) in (r, [], c, h)
  | CallFlush => let '(r, c, h) := bcache_flush dmem c h in (r, [], c, h)
  | CallFlushDev dev => let '(r, c, h) := bcache_flush_dev dmem c h dev in (r, [], c, h)
  | CallTick now => let '(c, h) := bcache_flush_if_due dmem now c h in (E_OK, [], c, h)
  end.

Fixpoint bcalls_run (c : bcache) (h : HW) (calls : list bcall) : list (Z * list Z) * bcache * HW :=
  match calls with
  | [] => ([], c, h)
  | call :: calls =>
      let '(r, out, c, h) := bcall_run c h call in
      let '(rest, c, h) := bcalls_run c h calls in ((r, out) :: rest, c, h)
  end.

(** The specification: a map from sectors to contents.  A successful read
    returns the contents, a successful write replaces them, and no other call,
    and no failing one, changes them. *)
Definition store := Z -> Z -> list Z.

Definition store_write (st : store) (dev sector : Z) (data : list Z) : store :=
  fun d l => if bool_decide ((d, l) = (dev, sector)) then data else st d l.

Definition store_after (st : store) (call : bcall) (r : Z) : store :=
  match call with
  | CallWrite _ dev sector data => if r =? E_OK then store_write st dev sector (take 512 data) else st
  | _ => st
  end.

Fixpoint store_allows (st : store) (calls : list bcall) (outs : list (Z * list Z)) : Prop :=
  match calls, outs with
  | [], [] => True
  | call :: calls, (r, out) :: outs =>
      match call with CallRead dev sector => r = E_OK -> out = st dev sector | _ => True end /\
      store_allows (store_after st call r) calls outs
  | _, _ => False
  end.

Fixpoint store_final (st : store) (calls : list bcall) (outs : list (Z * list Z)) : store :=
  match calls, outs with
  | call :: calls, (r, _) :: outs => store_final (store_after st call r) calls outs
  | _, _ => st
  end.

Lemma bcall_simulates c h st call r out c' h' :
  bc_inv c h -> (forall d l, view c h d l = st d l) -> bcall_run c h call = (r, out, c', h') ->
  bc_inv c' h' /\ (forall d l, view c' h' d l = store_after st call r d l) /\
  match call with CallRead dev sector => r = E_OK -> out = st dev sector | _ => True end.
Proof.
  intros Hinv Hv. destruct call as [dev sector|now dev sector data| |dev|now]; cbn [bcall_run store_after].
  - destruct (bcache_read_sector _ _ _ _ _ _) as [[[r0 o] c1] h1] eqn:Hc. intros [= <- <- <- <-].
    destruct (read_ok _ _ _ _ _ _ _ _ _ Hinv Hc) as (Hi & Hv1 & Ho).
    split; [done|]. split; [intros; by rewrite Hv1|]. intros Hr. by rewrite (Ho Hr), <- Hv.
  - destruct (bcache_write_sector _ _ _ _ _ _ _) as [[r0 c1] h1] eqn:Hc. intros [= <- <- <- <-].
    destruct (write_ok _ _ _ _ _ _ _ _ _ Hinv Hc) as [Hi Hv1]. split; [done|]. split; [|done].
    intros d l. rewrite Hv1, Hv. destruct (Z.eqb_spec r0 E_OK) as [->|]; unfold store_write;
      repeat case_bool_decide; tauto.
  - unfold bcache_flush. destruct (bcache_flush_reporting _ _ _) as [[r0 c1] h1] eqn:Hc. intros [= <- <- <- <-].
    destruct (flush_ok _ _ _ _ _ Hinv Hc) as (Hi & Hv1 & _). split; [done|]. split; [intros; by rewrite Hv1|done].
  - destruct (bcache_flush_dev _ _ _ _) as [[r0 c1] h1] eqn:Hc. intros [= <- <- <- <-].
    destruct (flush_dev_ok _ _ _ _ _ _ Hinv Hc) as (Hi & Hv1 & _). split; [done|]. split; [intros; by rewrite Hv1|done].
  - destruct (bcache_flush_if_due _ _ _ _) as [c1 h1] eqn:Hc. intros [= <- <- <- <-].
    destruct (flush_if_due_ok _ _ _ _ _ Hinv Hc) as (Hi & Hv1). split; [done|]. split; [intros; by rewrite Hv1|done].
Qed.

Lemma bcalls_simulate calls : forall c h st outs c' h',
  bc_inv c h -> (forall d l, view c h d l = st d l) -> bcalls_run c h calls = (outs, c', h') ->
  bc_inv c' h' /\ store_allows st calls outs /\ forall d l, view c' h' d l = store_final st calls outs d l.
Proof.
  induction calls as [|call calls IH]; intros c h st outs c' h' Hinv Hv; cbn [bcalls_run].
  { intros [= <- <- <-]. done. }
  destruct (bcall_run c h call) as [[[r out] c1] h1] eqn:Hc.
  destruct (bcalls_run c1 h1 calls) as [[rest c2] h2] eqn:Hcs. intros [= <- <- <-].
  destruct (bcall_simulates _ _ _ _ _ _ _ _ Hinv Hv Hc) as (Hinv1 & Hv1 & Hout).
  destruct (IH _ _ _ _ _ _ Hinv1 Hv1 Hcs) as (? & ? & ?). done.
Qed.

(** C6: the block cache refines a plain store of sectors.  From the state
    [bcache_init] leaves, whatever sequence of reads, writes, flushes, device
    flushes and timer ticks is made, with evictions and device errors occurring
    anywhere, every read that succeeds returns what was last successfully
    written to that sector (or what was on the medium), and a final flush that
    reports success leaves exactly that store on the medium with no slot dirty. *)
Theorem bcache_refines_store calls h outs c' h' r c'' h'' :
  bcalls_run bcache_init h calls = (outs, c', h') ->
  bcache_flush dmem c' h' = (r, c'', h'') ->
  store_allows (medium h) calls outs /\
  (r = E_OK -> bcache_dirty_count c'' = 0 /\
     forall d l, medium h'' d l = store_final (medium h) calls outs d l).
Proof.
  intros Hrun Hf. destruct (init_inv h) as [Hinv Hv].
  destruct (bcalls_simulate _ _ _ _ _ _ _ Hinv Hv Hrun) as (Hinv' & Hallow & Hv').
  unfold bcache_flush in Hf. split; [done|]. intros Hr. destruct (flush_ok _ _ _ _ _ Hinv' Hf) as (_ & _ & Hok).
  destruct (Hok Hr) as [Hd Hm]. split; [done|]. intros. by rewrite Hm, Hv'.
Qed.

(** C12: flushing a device for removal.  When [bcache_flush_dev] reports success,
    everything written to the device is on its medium, no slot names the device
    any more, and what the other devices hold is unchanged; when it reports an
    error nothing a reader could see has been lost. *)
Theorem bcache_flush_dev_persists c h dev r c' h' :
  bc_inv c h -> bcache_flush_dev dmem c h dev = (r, c', h') ->
  bc_inv c' h' /\ (forall d l, view c' h' d l = view c h d l) /\
  (r = E_OK -> (forall i l, 0 <= i < BCACHE_SIZE -> ~ holds (cache c').[i] dev l) /\
               forall l, medium h' dev l = view c h dev l).
Proof. apply flush_dev_ok. Qed.

(** the replacement policy.  If some slot is unused it is chosen; otherwise
    if some slot is clean, the chosen one is the least recently used of the
    clean ones, by the wrapping tick counter; in both cases nothing is written.
    Only when every slot is dirty is the device asked to write, and then the
    slot given back, if any, is clean. *)
Theorem bcache_lru_choice c h slot c' h' :
  bc_inv c h -> bcache_get_lru_slot dmem c h = (slot, c', h') ->
  if bool_decide (ndirty (cache c) = BCACHE_SIZE) then
    slot = -1 \/ 0 <= slot < BCACHE_SIZE /\ n_dirty (cache c').[slot] = false
  else
    c' = c /\ h' = h /\ 0 <= slot < BCACHE_SIZE /\ n_dirty (cache c).[slot] = false /\
    (n_valid (cache c).[slot] = true -> forall i, 0 <= i < BCACHE_SIZE ->
       n_valid (cache c).[i] = true /\ (n_dirty (cache c).[i] = false -> slot_age c i <= slot_age c slot)).
Proof.
  intros Hinv Hs. case_bool_decide as Hall; [by destruct (get_lru_slot_spec _ _ _ _ _ Hinv Hs) as (_ & _ & _ & ?)|].
  revert Hs. unfold bcache_get_lru_slot. pose proof (clean_scan_spec c) as Hscan.
  destruct (lru_clean_scan c) as [i|k age].
  - intros [= <- <- <-]. destruct Hscan as [Hi Hv]. rewrite Hv.
    split; [done|]. split; [done|]. split; [done|]. split; [|done]. destruct (n_dirty (cache c).[i]) eqn:Hd; [|done].
    apply (bc_dirty_valid _ _ Hinv) in Hd; [congruence|done].
  - destruct Hscan as (Hval & Hneg & Hpos). destruct (Z.leb_spec 0 k) as [Hk|Hk].
    + intros [= <- <- <-]. destruct (Hpos Hk) as (? & ? & _ & Hmax). auto 10.
    + exfalso. apply Hall. rewrite <- (bc_len _ _ Hinv). apply ndirty_all_dirty.
      intros i Hi. apply Hneg; [done|]. by rewrite (bc_len _ _ Hinv) in Hi.
Qed.

End proofs.

(** the periodic flush.  With the tick counter wrapping at 2^32, the oldest
    unwritten data is never held back: once [BCACHE_FLUSH_INTERVAL_TICKS] ticks
    have really passed since the cache became dirty (and fewer than 2^32), the
    next tick flushes; before that, or with nothing dirty, it does nothing. *)
Theorem bcache_flush_due_wraps c elapsed :
  0 <= elapsed < 2 ^ 32 -> is_u32 (oldest_dirty_tick c) ->
  bcache_flush_is_due (u32 (oldest_dirty_tick c + elapsed)) c =
  negb (dirty_count c =? 0) && (BCACHE_FLUSH_INTERVAL_TICKS <=? elapsed).
Proof.
  intros He Ho. unfold bcache_flush_is_due. destruct (dirty_count c =? 0); [done|]. cbn [negb andb].
  f_equal. unfold u32. rewrite Zminus_mod_idemp_l. replace (_ + _ - _) with elapsed by lia. by apply Z.mod_small.
Qed.

Lemma bcache_flush_due_wraps_witness :
  bcache_flush_is_due (u32 (0xFFFFFF00 + 600)) (mk_bcache [] 7 1 0xFFFFFF00) = true.
Proof.
  apply (bcache_flush_due_wraps (mk_bcache [] 7 1 0xFFFFFF00) 600); [lia|unfold is_u32; simpl; lia].
Defined.

(** ** A disk to run it on

    A disk held in memory, of which sector 7 cannot be written. *)
Definition ramdisk : Type := Z -> Z -> list Z.

#[export] Instance ramdisk_ops : DriverOps ramdisk := {
  drv_read h d l := (E_OK, h d l, h);
  drv_write h d l x := if l =? 7 then (E_IO, h) else (E_OK, store_write h d l x)
}.

#[export, refine] Instance ramdisk_laws : DriverLaws ramdisk := { medium h := h }.
Proof.
  - by intros h d l data h' [= <- <-].
  - by intros h d l r data h' d' l' [= <- <- <-].
  - intros h d l x h'. simpl. destruct (l =? 7); [done|]. intros [= <-]. unfold store_write.
    by case_bool_decide.
  - intros h d l x r h' d' l'. simpl. destruct (l =? 7); [by intros [= <- <-]|]. intros [= <- <-] Hne.
    unfold store_write. case_bool_decide; [congruence|done].
Defined.

Definition one_disk (d : Z) : blockdev := mk_blockdev (Some [104; 100; 48]) 512 16 true true.
Definition blank_disk : ramdisk := fun _ _ => [].

(** A sector written, the device flushed, the sector read back. *)
Definition sample_calls : list bcall := [CallWrite 5 256 3 [1; 2; 3]; CallFlushDev 256; CallRead 256 3].

Lemma bcache_refines_store_witness :
  exists outs c' h' r c'' h'',
    bcalls_run one_disk bcache_init blank_disk sample_calls = (outs, c', h') /\
    bcache_flush one_disk c' h' = (r, c'', h'') /\ r = E_OK /\
    outs = [(0, []); (0, []); (0, [1; 2; 3])] /\ medium h'' 256 3 = [1; 2; 3].
Proof.
  destruct (bcalls_run one_disk bcache_init blank_disk sample_calls) as [[outs c'] h'] eqn:Hrun.
  destruct (bcache_flush one_disk c' h') as [[r c''] h''] eqn:Hf.
  assert (outs = [(0, []); (0, []); (0, [1; 2; 3])] /\ r = E_OK) as [Houts Hr].
  { assert (let '(o, c1, h1) := bcalls_run one_disk bcache_init blank_disk sample_calls in
            (o, (bcache_flush one_disk c1 h1).1.1) = ([(0, []); (0, []); (0, [1; 2; 3])], E_OK)) as Hev
      by (vm_compute; reflexivity).
    rewrite Hrun, Hf in Hev. clear Hrun Hf. injection Hev as -> ->. split; reflexivity. }
  exists outs, c', h', r, c'', h''. split; [reflexivity|]. split; [exact Hf|]. split; [exact Hr|]. split; [exact Houts|].
  destruct (bcache_refines_store one_disk sample_calls blank_disk outs c' h' r c'' h'' Hrun Hf) as [_ Hfin].
  destruct (Hfin Hr) as [_ Hm]. rewrite Hm, Houts. vm_compute. reflexivity.
Defined.

Lemma bcache_flush_dev_persists_witness :
  exists r c' h', bcache_flush_dev one_disk bcache_init blank_disk 256 = (r, c', h') /\ bc_inv c' h'.
Proof.
  destruct (bcache_flush_dev one_disk bcache_init blank_disk 256) as [[r c'] h'] eqn:Hf.
  exists r, c', h'. split; [reflexivity|]. destruct (init_inv one_disk blank_disk) as [Hinv _].
  apply (bcache_flush_dev_persists one_disk bcache_init blank_disk 256 r c' h' Hinv Hf).
Defined.

Lemma bcache_lru_choice_witness :
  exists slot c' h', bcache_get_lru_slot one_disk bcache_init blank_disk = (slot, c', h') /\ 0 <= slot < 64.
Proof.
  destruct (bcache_get_lru_slot one_disk bcache_init blank_disk) as [[slot c'] h'] eqn:Hs.
  exists slot, c', h'. split; [reflexivity|]. destruct (init_inv one_disk blank_disk) as [Hinv _].
  pose proof (bcache_lru_choice one_disk bcache_init blank_disk slot c' h' Hinv Hs) as Hc.
  rewrite bool_decide_eq_false_2 in Hc by (vm_compute; congruence). apply Hc.
Defined.

End Bcache.
