(* ===== verification/Pmm.v ===== *)
(** * The physical memory manager (mm/pmm.c)

    One bit per 4 KB frame says whether the frame is in use and one byte per
    frame counts its owners.  [pmm] is the file's static state, each function of
    the file is a definition of the same name, and the abstract view of the
    whole state is a finite map from the frames in use to their owner counts
    ([pmm_inv]).  The spinlock and the log lines are left out: the lock protects
    a critical section that the definitions perform as one step, and logging
    writes nothing the allocator reads. *)

From S2P Require Import Prelude.

Module Pmm.

Definition PAGE_SIZE : Z := 4096.
Definition PMM_LOW_MEMORY_FRAMES : Z := 0x100000 / PAGE_SIZE.
Definition PMM_FALLBACK_MEMORY : Z := 16 * 1024 * 1024.
Definition MULTIBOOT_FLAG_MEMORY : Z := 1.
Definition MULTIBOOT_FLAG_MMAP : Z := 64.

(** The static variables of pmm.c. *)
Record pmm : Type := mk_pmm {
  pmm_bitmap : list Z;
  pmm_bitmap_size_words : Z;
  pmm_frames_count : Z;
  used_memory : Z;
  actual_total_memory : Z;
  pmm_refcount : list Z;
  lowest_free_idx : Z
}.

Definition with_bitmap (s : pmm) (b : list Z) : pmm :=
  mk_pmm b (pmm_bitmap_size_words s) (pmm_frames_count s) (used_memory s)
    (actual_total_memory s) (pmm_refcount s) (lowest_free_idx s).
Definition with_refcount (s : pmm) (r : list Z) : pmm :=
  mk_pmm (pmm_bitmap s) (pmm_bitmap_size_words s) (pmm_frames_count s) (used_memory s)
    (actual_total_memory s) r (lowest_free_idx s).
Definition with_used (s : pmm) (u : Z) : pmm :=
  mk_pmm (pmm_bitmap s) (pmm_bitmap_size_words s) (pmm_frames_count s) u
    (actual_total_memory s) (pmm_refcount s) (lowest_free_idx s).
Definition with_lowest (s : pmm) (i : Z) : pmm :=
  mk_pmm (pmm_bitmap s) (pmm_bitmap_size_words s) (pmm_frames_count s) (used_memory s)
    (actual_total_memory s) (pmm_refcount s) i.

(** [pmm_bitmap[f / 32] & (1U << (f % 32))] and the two updates. *)
Definition bm_test (b : list Z) (f : Z) : bool := negb (Z.land b.[f / 32] (bit32 (f mod 32)) =? 0).
Definition bm_set (b : list Z) (f : Z) : list Z := b.[f / 32 <- Z.lor b.[f / 32] (bit32 (f mod 32))].
Definition bm_clear (b : list Z) (f : Z) : list Z := b.[f / 32 <- Z.land b.[f / 32] (not32 (bit32 (f mod 32)))].

(** The inner loop: the first clear bit of word [i], when the word is not full. *)
Definition word_free_bit (b : list Z) (i : Z) : option (Z * Z) :=
  if b.[i] =? 0xFFFFFFFF then None
  else match for_find 0 32 (fun j => Z.land b.[i] (bit32 j) =? 0) with
       | Some j => Some (i, j)
       | None => None
       end.

Definition pmm_find_first_free (s : pmm) : Z * pmm :=
  match for_first (lowest_free_idx s) (pmm_bitmap_size_words s) (word_free_bit (pmm_bitmap s)) with
  | Some (i, j) => (u32 (u32 (i * 32) + j), with_lowest s i)
  | None => (0xFFFFFFFF, s)
  end.

Definition pmm_alloc_frame (s : pmm) : Z * pmm :=
  let '(frame, s) := pmm_find_first_free s in
  if (frame =? 0xFFFFFFFF) || (pmm_frames_count s <=? frame) then (0xFFFFFFFF, s)
  else
    let s := with_bitmap s (bm_set (pmm_bitmap s) frame) in
    let s := with_refcount s (pmm_refcount s).[frame <- 1] in
    let s := with_used s (u32 (used_memory s + PAGE_SIZE)) in
    (u32 (frame * PAGE_SIZE), s).

Definition pmm_ref_frame (s : pmm) (addr : Z) : pmm :=
  let frame := addr / PAGE_SIZE in
  if frame <? PMM_LOW_MEMORY_FRAMES then s
  else if pmm_frames_count s <=? frame then s
  else if negb (bm_test (pmm_bitmap s) frame) then s
  else if (pmm_refcount s).[frame] =? 0xFF then s
  else
    let rc := (if (pmm_refcount s).[frame] =? 0 then 1 else (pmm_refcount s).[frame]) in
    with_refcount s (pmm_refcount s).[frame <- u8 (rc + 1)].

Definition pmm_frame_refcount (s : pmm) (addr : Z) : Z :=
  let frame := addr / PAGE_SIZE in
  if pmm_frames_count s <=? frame then 0 else (pmm_refcount s).[frame].

Definition pmm_get_shared_frames (s : pmm) : Z :=
  for_range 0 (pmm_frames_count s)
    (fun count i => if 1 <? (pmm_refcount s).[i] then u32 (count + 1) else count) 0.

Definition pmm_free_frame (s : pmm) (addr : Z) : pmm :=
  let frame := addr / PAGE_SIZE in
  if frame <? PMM_LOW_MEMORY_FRAMES then s
  else if pmm_frames_count s <=? frame then s
  else if negb (bm_test (pmm_bitmap s) frame) then s
  else if 1 <? (pmm_refcount s).[frame] then
    with_refcount s (pmm_refcount s).[frame <- (pmm_refcount s).[frame] - 1]
  else
    let s := with_refcount s (pmm_refcount s).[frame <- 0] in
    let s := with_bitmap s (bm_clear (pmm_bitmap s) frame) in
    let s := with_used s (u32 (used_memory s - PAGE_SIZE)) in
    if frame / 32 <? lowest_free_idx s then with_lowest s (frame / 32) else s.

Definition pmm_get_total_memory (s : pmm) : Z := actual_total_memory s.

Definition pmm_get_free_memory (s : pmm) : Z :=
  if actual_total_memory s <? used_memory s then 0
  else u32 (actual_total_memory s - used_memory s).

(** ** Initialisation from the boot loader's memory map *)

Record mmap_entry : Type := mk_mmap_entry {
  me_size : Z;
  me_addr_low : Z;
  me_addr_high : Z;
  me_len_low : Z;
  me_len_high : Z;
  me_type : Z
}.

Record multiboot_info : Type := mk_multiboot_info {
  mb_flags : Z;
  mb_mem_upper : Z;
  mb_mmap_length : Z;
  mb_mmap_addr : Z
}.

(** [while ((uint32_t)mmap < mmap_addr + mmap_length)]: [mem] reads the entry
    that lies at an address.  [None] is a walk that has not ended when the fuel
    has. *)
Fixpoint mmap_walk {S} (fuel : nat) (mem : Z -> mmap_entry) (cur stop : Z)
    (body : S -> mmap_entry -> option S) (s : S) : option S :=
  if cur <? stop then
    match fuel with
    | O => None
    | Datatypes.S fuel' =>
        match body s (mem cur) with
        | Some s' => mmap_walk fuel' mem (u32 (cur + me_size (mem cur) + 4)) stop body s'
        | None => None
        end
    end
  else Some s.

Definition mmap_fuel (mb : multiboot_info) : nat := Z.to_nat (mb_mmap_length mb / 4 + 1).

Definition highest_addr (mb : multiboot_info) (mem : Z -> mmap_entry) : option Z :=
  mmap_walk (mmap_fuel mb) mem (mb_mmap_addr mb) (u32 (mb_mmap_addr mb + mb_mmap_length mb))
    (fun highest e =>
       Some (if me_type e =? 1 then
               let end_addr := u32 (me_addr_low e + me_len_low e) in
               if highest <? end_addr then end_addr else highest
             else highest)) 0.

(** [for (i = 0; i < length; i += PAGE_SIZE)], clearing the bit of each frame. *)
Fixpoint mark_region_free (fuel : nat) (frames start len i : Z) (b : list Z) : option (list Z) :=
  if i <? len then
    match fuel with
    | O => None
    | S fuel' =>
        let frame := u32 (start + i) / PAGE_SIZE in
        mark_region_free fuel' frames start len (u32 (i + PAGE_SIZE))
          (if frame <? frames then bm_clear b frame else b)
    end
  else Some b.

Definition free_from_mmap (mb : multiboot_info) (mem : Z -> mmap_entry) (frames : Z) (b : list Z)
    : option (list Z) :=
  mmap_walk (mmap_fuel mb) mem (mb_mmap_addr mb) (u32 (mb_mmap_addr mb + mb_mmap_length mb))
    (fun b e =>
       if me_type e =? 1 then
         mark_region_free (Z.to_nat (me_len_low e / PAGE_SIZE + 1)) frames (me_addr_low e) (me_len_low e) 0 b
       else Some b) b.

(** [actual_total_memory] and [memory_map_found]. *)
Definition detect_memory (mboot : option multiboot_info) (mem : Z -> mmap_entry) : option (bool * Z) :=
  match mboot with
  | None => Some (false, 0)
  | Some mb =>
      match (if negb (Z.land (mb_flags mb) MULTIBOOT_FLAG_MMAP =? 0) then highest_addr mb mem else Some 0) with
      | None => None
      | Some highest =>
          if 0 <? highest then Some (true, highest)
          else if negb (Z.land (mb_flags mb) MULTIBOOT_FLAG_MEMORY =? 0) then
            Some (true, u32 (u32 (mb_mem_upper mb * 1024) + 1024 * 1024))
          else Some (false, 0)
      end
  end.

Definition choose_total (memory_map_found : bool) (detected : Z) : Z :=
  if negb memory_map_found || (detected =? 0) then PMM_FALLBACK_MEMORY else detected.

(** The first frame past everything the kernel already owns: its image, the
    1 MB margin, the bitmap and the reference table. *)
Definition kernel_end_frame (kernel_end words frames : Z) : Z :=
  let kernel_end_phys :=
    u32 (u32 (u32 (u32 (kernel_end - 0xC0000000) + 0x100000) + u32 (words * 4)) + frames) in
  u32 (kernel_end_phys + PAGE_SIZE - 1) / PAGE_SIZE.

(** The bits of usable memory cleared, by the map or, without one, for every frame. *)
Definition clear_usable (memory_map_found : bool) (mboot : option multiboot_info)
    (mem : Z -> mmap_entry) (frames : Z) (b : list Z) : option (list Z) :=
  match mboot with
  | Some mb =>
      if memory_map_found && negb (Z.land (mb_flags mb) MULTIBOOT_FLAG_MMAP =? 0)
      then free_from_mmap mb mem frames b
      else Some (for_range 0 frames bm_clear b)
  | None => Some (for_range 0 frames bm_clear b)
  end.

(** [used_memory] and the reference counts, seeded from the bitmap. *)
Definition seed_counts (b : list Z) (frames : Z) : Z * list Z :=
  for_range 0 frames
    (fun '(used, rc) i =>
       if bm_test b i then (u32 (used + PAGE_SIZE), rc.[i <- 1]) else (used, rc))
    (0, replicate (Z.to_nat frames) 0).

Definition init_pmm (kernel_end : Z) (mboot : option multiboot_info) (mem : Z -> mmap_entry) : option pmm :=
  match detect_memory mboot mem with
  | None => None
  | Some (memory_map_found, detected) =>
      let total := choose_total memory_map_found detected in
      let frames := total / PAGE_SIZE in
      let words := u32 (frames + 31) / 32 in
      match clear_usable memory_map_found mboot mem frames (replicate (Z.to_nat words) 0xFFFFFFFF) with
      | None => None
      | Some bitmap =>
          let kend := kernel_end_frame kernel_end words frames in
          let bitmap := for_range 0 kend bm_set bitmap in
          let '(used, refcount) := seed_counts bitmap frames in
          Some (mk_pmm bitmap words frames used total refcount (kend / 32))
      end
  end.

(** ** The bitmap as a set of frames *)

Section bitmap.
Implicit Types (b : list Z) (f g : Z).

Definition bm_wf b : Prop := forall i, 0 <= i < alen b -> is_u32 b.[i].

Lemma bm_test_testbit b f : bm_test b f = Z.testbit b.[f / 32] (f mod 32).
Proof. unfold bm_test. rewrite bit32_test by zlia. apply negb_involutive. Qed.

Lemma bm_len_set b f : alen (bm_set b f) = alen b.
Proof. apply alen_aset. Qed.
Lemma bm_len_clear b f : alen (bm_clear b f) = alen b.
Proof. apply alen_aset. Qed.

Lemma bm_test_set b f g :
  0 <= f < 32 * alen b -> 0 <= g -> bm_test (bm_set b f) g = bm_test b g || (f =? g).
Proof.
  intros Hf Hg. rewrite !bm_test_testbit. unfold bm_set.
  rewrite aget_aset by zlia.
  destruct (Z.eqb_spec (f / 32) (g / 32)) as [Heq|Hne].
  - rewrite testbit_set, Heq by zlia. f_equal.
    destruct (Z.eqb_spec f g) as [->|]; [by rewrite Z.eqb_refl|].
    apply Z.eqb_neq. zlia.
  - destruct (Z.eqb_spec f g) as [->|]; [done|]. by rewrite orb_false_r.
Qed.

Lemma bm_test_clear b f g :
  bm_wf b -> 0 <= f < 32 * alen b -> 0 <= g ->
  bm_test (bm_clear b f) g = bm_test b g && negb (f =? g).
Proof.
  intros Hwf Hf Hg. rewrite !bm_test_testbit. unfold bm_clear.
  rewrite aget_aset by zlia.
  destruct (Z.eqb_spec (f / 32) (g / 32)) as [Heq|Hne].
  - rewrite testbit_clear; [|apply Hwf; zlia|zlia|zlia]. rewrite Heq. f_equal. f_equal.
    destruct (Z.eqb_spec f g) as [->|]; [by rewrite Z.eqb_refl|].
    apply Z.eqb_neq. zlia.
  - destruct (Z.eqb_spec f g) as [->|]; [done|]. by rewrite andb_true_r.
Qed.

Lemma bm_wf_set b f : bm_wf b -> 0 <= f < 32 * alen b -> bm_wf (bm_set b f).
Proof.
  intros Hwf Hf i. rewrite bm_len_set. intros Hi. unfold bm_set.
  rewrite aget_aset by zlia. case_bool; [|by apply Hwf].
  apply is_u32_set; [apply Hwf|]; zlia.
Qed.

Lemma bm_wf_clear b f : bm_wf b -> 0 <= f < 32 * alen b -> bm_wf (bm_clear b f).
Proof.
  intros Hwf Hf i. rewrite bm_len_clear. intros Hi. unfold bm_clear.
  rewrite aget_aset by zlia. case_bool; [|by apply Hwf].
  apply is_u32_clear; [apply Hwf|]; zlia.
Qed.

(** A word equal to 0xFFFFFFFF is one whose 32 frames are all in use. *)
Lemma bm_full_word b i :
  bm_wf b -> 0 <= i < alen b ->
  (b.[i] =? 0xFFFFFFFF) = true <-> (forall f, 32 * i <= f < 32 * i + 32 -> bm_test b f = true).
Proof.
  intros Hwf Hi. rewrite word_full_iff by (by apply Hwf). split.
  - intros Hall f Hf. rewrite bm_test_testbit. replace (f / 32) with i by zlia.
    apply Hall. zlia.
  - intros Hall j Hj. specialize (Hall (32 * i + j) ltac:(lia)).
    rewrite bm_test_testbit in Hall.
    replace ((32 * i + j) / 32) with i in Hall by zlia.
    by replace ((32 * i + j) mod 32) with j in Hall by zlia.
Qed.
End bitmap.

(** ** The invariant

    [pmm_inv s m] ties the allocator's state to [m], the map from the frames in
    use to the number of their owners. *)
Record pmm_inv (s : pmm) (m : gmap Z Z) : Prop := {
  inv_words : pmm_bitmap_size_words s = alen (pmm_bitmap s);
  inv_words_frames : alen (pmm_bitmap s) = (pmm_frames_count s + 31) / 32;
  inv_rc_len : alen (pmm_refcount s) = pmm_frames_count s;
  inv_bm : bm_wf (pmm_bitmap s);
  inv_tail : forall f, pmm_frames_count s <= f < 32 * alen (pmm_bitmap s) -> bm_test (pmm_bitmap s) f = true;
  inv_map : forall f c, m !! f = Some c <->
      0 <= f < pmm_frames_count s /\ bm_test (pmm_bitmap s) f = true /\ c = (pmm_refcount s).[f];
  inv_rc : forall f, 0 <= f < pmm_frames_count s ->
      if bm_test (pmm_bitmap s) f then 1 <= (pmm_refcount s).[f] <= 255 else (pmm_refcount s).[f] = 0;
  inv_low : forall f, 0 <= f < PMM_LOW_MEMORY_FRAMES -> f < pmm_frames_count s -> bm_test (pmm_bitmap s) f = true;
  inv_hint : forall f, 0 <= f < 32 * lowest_free_idx s -> f < 32 * alen (pmm_bitmap s) -> bm_test (pmm_bitmap s) f = true;
  inv_hint_nonneg : 0 <= lowest_free_idx s;
  inv_used : used_memory s = PAGE_SIZE * Z.of_nat (size m);
  inv_frames : pmm_frames_count s = actual_total_memory s / PAGE_SIZE;
  inv_total : is_u32 (actual_total_memory s)
}.

Section invariant.
Context (s : pmm) (m : gmap Z Z) (Hinv : pmm_inv s m).

Lemma frames_bound : 0 <= pmm_frames_count s < 2 ^ 20.
Proof using Hinv.
  rewrite (inv_frames _ _ Hinv). pose proof (inv_total _ _ Hinv) as Ht.
  unfold is_u32, PAGE_SIZE in *. zlia.
Qed.

Lemma map_in_range f : is_Some (m !! f) -> 0 <= f < pmm_frames_count s.
Proof using Hinv. intros [c Hc]. apply (inv_map _ _ Hinv) in Hc as [? _]. done. Qed.

Lemma map_test f :
  0 <= f < pmm_frames_count s ->
  m !! f = if bm_test (pmm_bitmap s) f then Some (pmm_refcount s).[f] else None.
Proof using Hinv.
  intros Hf. destruct (bm_test (pmm_bitmap s) f) eqn:Hb.
  - by apply (inv_map _ _ Hinv).
  - destruct (m !! f) as [c|] eqn:Hc; [|done].
    apply (inv_map _ _ Hinv) in Hc as (_ & ? & _). congruence.
Qed.

Lemma map_size_le : Z.of_nat (size m) <= pmm_frames_count s.
Proof using Hinv. apply gmap_size_le; [apply frames_bound|apply map_in_range]. Qed.

Lemma map_size_lt f :
  0 <= f < pmm_frames_count s -> m !! f = None -> Z.of_nat (size m) < pmm_frames_count s.
Proof using Hinv.
  intros Hf Hnone.
  assert (Z.of_nat (size (<[f := 0]> m)) <= pmm_frames_count s) as Hle.
  { apply gmap_size_le; [lia|]. intros k Hk. destruct (Z.eq_dec f k) as [->|]; [done|].
    rewrite lookup_insert_ne in Hk by done. by apply map_in_range. }
  rewrite map_size_insert_None in Hle by done. lia.
Qed.

Lemma total_memory_bound : PAGE_SIZE * pmm_frames_count s <= actual_total_memory s < 2 ^ 32.
Proof using Hinv.
  rewrite (inv_frames _ _ Hinv). pose proof (inv_total _ _ Hinv) as Ht.
  unfold is_u32, PAGE_SIZE in *. zlia.
Qed.
End invariant.

(** ** The search for a free frame *)

Lemma word_free_bit_spec b i :
  bm_wf b -> 0 <= i < alen b ->
  match word_free_bit b i with
  | Some (i', j) => i' = i /\ 0 <= j < 32 /\ bm_test b (32 * i + j) = false /\
      forall f, 32 * i <= f < 32 * i + j -> bm_test b f = true
  | None => forall f, 32 * i <= f < 32 * i + 32 -> bm_test b f = true
  end.
Proof.
  intros Hwf Hi. unfold word_free_bit.
  assert (forall j, 0 <= j < 32 -> bm_test b (32 * i + j) = Z.testbit b.[i] j) as Hword.
  { intros j Hj. rewrite bm_test_testbit.
    replace ((32 * i + j) / 32) with i by zlia. by replace ((32 * i + j) mod 32) with j by zlia. }
  destruct (b.[i] =? 0xFFFFFFFF) eqn:Hfull; [by apply bm_full_word|].
  pose proof (for_find_spec 0 32 (fun j => Z.land b.[i] (bit32 j) =? 0)) as Hj.
  destruct (for_find _ _ _) as [j|].
  - destruct Hj as (Hj & Hclear & Hbelow). rewrite bit32_test in Hclear by lia.
    repeat split; [lia|lia| |].
    + rewrite Hword by lia. by apply negb_true_iff.
    + intros f Hf. replace f with (32 * i + (f - 32 * i)) by lia. rewrite Hword by lia.
      specialize (Hbelow (f - 32 * i) ltac:(lia)). rewrite bit32_test in Hbelow by lia.
      by apply negb_false_iff.
  - intros f Hf. replace f with (32 * i + (f - 32 * i)) by lia. rewrite Hword by lia.
    specialize (Hj (f - 32 * i) ltac:(lia)). simpl in Hj. rewrite bit32_test in Hj by lia.
    by apply negb_false_iff.
Qed.

Lemma find_first_free_spec s m :
  pmm_inv s m ->
  let '(frame, s') := pmm_find_first_free s in
  (frame = 0xFFFFFFFF /\ s' = s /\ forall f, 0 <= f < pmm_frames_count s -> bm_test (pmm_bitmap s) f = true)
  \/ (0 <= frame < pmm_frames_count s /\ s' = with_lowest s (frame / 32) /\
      bm_test (pmm_bitmap s) frame = false /\
      forall f, 0 <= f < frame -> bm_test (pmm_bitmap s) f = true).
Proof.
  intros Hinv. unfold pmm_find_first_free. set (b := pmm_bitmap s).
  pose proof (frames_bound _ _ Hinv) as Hfb.
  pose proof (inv_words_frames _ _ Hinv) as Hwords.
  pose proof (inv_hint_nonneg _ _ Hinv) as Hlow.
  rewrite (inv_words _ _ Hinv). fold b in Hwords |- *.
  assert (forall f i, 32 * i <= f -> f < 32 * i + 32 -> 0 <= f < 32 * alen b ->
            (lowest_free_idx s <= i -> word_free_bit b i = None) -> bm_test b f = true) as Hword.
  { intros f i Hf1 Hf2 Hf Hnone. destruct (Z.lt_ge_cases i (lowest_free_idx s)).
    - apply (inv_hint _ _ Hinv); fold b; lia.
    - pose proof (word_free_bit_spec b i (inv_bm _ _ Hinv) ltac:(lia)) as Hw.
      rewrite Hnone in Hw by lia. apply Hw. lia. }
  pose proof (for_first_spec (lowest_free_idx s) (alen b) (word_free_bit b)) as Hs.
  destruct (for_first _ _ _) as [[i j]|].
  - right. destruct Hs as (i' & Hi & Hw & Hbefore).
    pose proof (word_free_bit_spec b i' (inv_bm _ _ Hinv) ltac:(lia)) as Hspec.
    rewrite Hw in Hspec. destruct Hspec as (<- & Hj & Hfree & Hbelow).
    rewrite (u32_small (i * 32)), u32_small by zlia.
    replace (i * 32 + j) with (32 * i + j) by lia.
    assert (32 * i + j < pmm_frames_count s) as Hlt.
    { destruct (Z.lt_ge_cases (32 * i + j) (pmm_frames_count s)); [done|].
      rewrite (inv_tail _ _ Hinv) in Hfree by (fold b; lia). done. }
    repeat split; [lia|done|f_equal; zlia|done|].
    intros f Hf. destruct (Z.lt_ge_cases f (32 * i)); [|apply Hbelow; lia].
    apply (Hword f (f / 32)); [zlia..|]. intros. apply Hbefore. zlia.
  - left. repeat split; [done..|]. intros f Hf.
    apply (Hword f (f / 32)); [zlia..|]. intros. apply Hs. zlia.
Qed.

(** ** Every operation preserves the invariant *)

(** What a change of one frame's bit and count does to the abstract map. *)
Definition set_owners (m : gmap Z Z) (f : Z) (used : bool) (c : Z) : gmap Z Z :=
  if used then <[f := c]> m else delete f m.

Lemma inv_update s m s' f (used : bool) c :
  pmm_inv s m ->
  0 <= f < pmm_frames_count s ->
  pmm_bitmap_size_words s' = pmm_bitmap_size_words s ->
  pmm_frames_count s' = pmm_frames_count s ->
  actual_total_memory s' = actual_total_memory s ->
  alen (pmm_bitmap s') = alen (pmm_bitmap s) ->
  alen (pmm_refcount s') = alen (pmm_refcount s) ->
  bm_wf (pmm_bitmap s') ->
  (forall g, 0 <= g -> bm_test (pmm_bitmap s') g = if f =? g then used else bm_test (pmm_bitmap s) g) ->
  (forall g, 0 <= g -> (pmm_refcount s').[g] = if f =? g then c else (pmm_refcount s).[g]) ->
  (if used then 1 <= c <= 255 else c = 0 /\ PMM_LOW_MEMORY_FRAMES <= f) ->
  0 <= lowest_free_idx s' ->
  (forall g, 0 <= g < 32 * lowest_free_idx s' -> g < 32 * alen (pmm_bitmap s) -> bm_test (pmm_bitmap s') g = true) ->
  used_memory s' = PAGE_SIZE * Z.of_nat (size (set_owners m f used c)) ->
  pmm_inv s' (set_owners m f used c).
Proof.
  intros Hinv Hf Hw Hfr Htot Hblen Hrlen Hwf Htest Hrc Hc Hlow Hhint Hused.
  constructor.
  - rewrite Hw, Hblen. apply (inv_words _ _ Hinv).
  - rewrite Hblen, Hfr. apply (inv_words_frames _ _ Hinv).
  - rewrite Hrlen, Hfr. apply (inv_rc_len _ _ Hinv).
  - done.
  - rewrite Hfr, Hblen. intros g Hg. rewrite Htest by lia.
    destruct (Z.eqb_spec f g); [lia|]. by apply (inv_tail _ _ Hinv).
  - intros g d. rewrite Hfr. unfold set_owners.
    assert (0 <= g -> f <> g -> m !! g = Some d <->
      0 <= g < pmm_frames_count s /\ bm_test (pmm_bitmap s') g = true /\ d = (pmm_refcount s').[g]) as Hother.
    { intros Hg Hne. rewrite (inv_map _ _ Hinv), Htest, Hrc by done.
      by destruct (Z.eqb_spec f g). }
    destruct (Z.eq_dec f g) as [->|Hne].
    + rewrite Htest, Hrc, Z.eqb_refl by lia. destruct used.
      * rewrite lookup_insert_eq. split; [by intros [= <-]|by intros (_ & _ & ->)].
      * rewrite lookup_delete_eq. split; [done|by intros (_ & ? & _)].
    + destruct (Z.lt_ge_cases g 0) as [Hneg|].
      * assert (m !! g = None) as Hnone.
        { apply eq_None_not_Some. intros Hs. apply (map_in_range _ _ Hinv) in Hs. lia. }
        destruct used; rewrite ?lookup_insert_ne, ?lookup_delete_ne, Hnone by done;
          (split; [done|lia]).
      * destruct used; rewrite ?lookup_insert_ne, ?lookup_delete_ne by done; by apply Hother.
  - rewrite Hfr. intros g Hg. rewrite Htest, Hrc by lia.
    destruct (Z.eqb_spec f g); [|by apply (inv_rc _ _ Hinv)]. destruct used; [done|apply Hc].
  - rewrite Hfr. intros g Hg Hg'. rewrite Htest by lia.
    destruct (Z.eqb_spec f g); [|by apply (inv_low _ _ Hinv)]. destruct used; [done|lia].
  - rewrite Hblen. done.
  - done.
  - done.
  - rewrite Hfr, Htot. apply (inv_frames _ _ Hinv).
  - rewrite Htot. apply (inv_total _ _ Hinv).
Qed.

Lemma rc_update s m f c g :
  pmm_inv s m -> 0 <= f < pmm_frames_count s -> 0 <= g ->
  (pmm_refcount s).[f <- c].[g] = if f =? g then c else (pmm_refcount s).[g].
Proof. intros Hinv Hf Hg. apply aget_aset; [rewrite (inv_rc_len _ _ Hinv)|]; lia. Qed.

Lemma frame_in_bitmap s m f :
  pmm_inv s m -> 0 <= f < pmm_frames_count s -> 0 <= f < 32 * alen (pmm_bitmap s).
Proof. intros Hinv Hf. rewrite (inv_words_frames _ _ Hinv). zlia. Qed.

(** What [pmm_alloc_frame] promises of its result and its effect on the map. *)
Definition alloc_spec (frames : Z) (m : gmap Z Z) (r : Z) (m' : gmap Z Z) : Prop :=
  (r = 0xFFFFFFFF /\ m' = m /\ forall f, 0 <= f < frames -> is_Some (m !! f))
  \/ (exists f, r = f * PAGE_SIZE /\ PMM_LOW_MEMORY_FRAMES <= f < frames /\ m !! f = None /\
        m' = <[f := 1]> m /\ forall g, 0 <= g < f -> is_Some (m !! g)).

Lemma alloc_frame_inv s m :
  pmm_inv s m ->
  let '(r, s') := pmm_alloc_frame s in
  exists m', pmm_inv s' m' /\ alloc_spec (pmm_frames_count s) m r m' /\
             pmm_frames_count s' = pmm_frames_count s.
Proof.
  intros Hinv. unfold pmm_alloc_frame. pose proof (find_first_free_spec s m Hinv) as Hfind.
  destruct (pmm_find_first_free s) as [f s1].
  pose proof (frames_bound _ _ Hinv) as Hfb.
  destruct Hfind as [(-> & -> & Hall)|(Hf & -> & Hfree & Hbelow)].
  - simpl. exists m. split; [done|]. split; [|done]. left. do 2 (split; [done|]).
    intros f Hf. rewrite (map_test _ _ Hinv), Hall by done. by eexists.
  - destruct (Z.eqb_spec f 0xFFFFFFFF); [lia|]. simpl.
    destruct (Z.leb_spec (pmm_frames_count s) f); [lia|]. simpl.
    assert (m !! f = None) as Hnone by (rewrite (map_test _ _ Hinv), Hfree by done; done).
    assert (PMM_LOW_MEMORY_FRAMES <= f) as Hlow.
    { destruct (Z.lt_ge_cases f PMM_LOW_MEMORY_FRAMES); [|done].
      rewrite (inv_low _ _ Hinv) in Hfree by lia. done. }
    pose proof (frame_in_bitmap _ _ _ Hinv Hf) as Hfb'.
    assert (Z.of_nat (size (<[f:=1]> m)) = Z.of_nat (size m) + 1) as Hsize
      by (rewrite map_size_insert_None by done; lia).
    exists (set_owners m f true 1). split; [|split; [|done]].
    + apply (inv_update s); simpl; try done.
      * apply bm_len_set.
      * apply alen_aset.
      * by apply bm_wf_set, Hfb'; apply (inv_bm _ _ Hinv).
      * intros g Hg. rewrite bm_test_set by done. case_bool; [apply orb_true_r|apply orb_false_r].
      * intros g Hg. by apply (rc_update _ m).
      * zlia.
      * intros g Hg _. rewrite bm_test_set, Hbelow by zlia. done.
      * rewrite Hsize, (inv_used _ _ Hinv), u32_small; [unfold PAGE_SIZE; lia|].
        pose proof (map_size_lt _ _ Hinv f Hf Hnone). pose proof (total_memory_bound _ _ Hinv).
        unfold PAGE_SIZE in *. lia.
    + right. exists f. rewrite u32_small by (unfold PAGE_SIZE; lia).
      repeat split; try done. intros g Hg.
      rewrite (map_test _ _ Hinv), Hbelow by lia. by eexists.
Qed.

(** The abstract effect of taking and dropping a reference. *)
Definition ref_spec (m : gmap Z Z) (f : Z) : gmap Z Z :=
  if f <? PMM_LOW_MEMORY_FRAMES then m
  else match m !! f with
       | Some c => if c =? 255 then m else <[f := c + 1]> m
       | None => m
       end.

Definition free_spec (m : gmap Z Z) (f : Z) : gmap Z Z :=
  if f <? PMM_LOW_MEMORY_FRAMES then m
  else match m !! f with
       | Some c => if 1 <? c then <[f := c - 1]> m else delete f m
       | None => m
       end.

Lemma map_out_of_range s m f : pmm_inv s m -> pmm_frames_count s <= f -> m !! f = None.
Proof.
  intros Hinv Hf. apply eq_None_not_Some. intros Hs.
  apply (map_in_range _ _ Hinv) in Hs. lia.
Qed.

(** A change of the count alone, of a frame that stays in use. *)
Lemma inv_recount s m f c c' :
  pmm_inv s m -> m !! f = Some c -> 1 <= c' <= 255 ->
  pmm_inv (with_refcount s (pmm_refcount s).[f <- c']) (<[f := c']> m).
Proof.
  intros Hinv Hc Hc'.
  pose proof (proj1 (inv_map _ _ Hinv f c) Hc) as (Hf & Htest & _).
  apply (inv_update s m _ f true c'); simpl; try done.
  - apply alen_aset.
  - apply (inv_bm _ _ Hinv).
  - intros g Hg. destruct (Z.eqb_spec f g) as [<-|]; done.
  - intros g Hg. by apply (rc_update _ m).
  - apply (inv_hint_nonneg _ _ Hinv).
  - apply (inv_hint _ _ Hinv).
  - rewrite (inv_used _ _ Hinv), map_size_insert_Some; [done|]. by eexists.
Qed.

Lemma ref_frame_inv s m addr :
  pmm_inv s m -> pmm_inv (pmm_ref_frame s addr) (ref_spec m (addr / PAGE_SIZE)) /\
  pmm_frames_count (pmm_ref_frame s addr) = pmm_frames_count s.
Proof.
  intros Hinv. unfold pmm_ref_frame, ref_spec. set (f := addr / PAGE_SIZE).
  destruct (Z.ltb_spec f PMM_LOW_MEMORY_FRAMES) as [|Hlow]; [done|].
  destruct (Z.leb_spec (pmm_frames_count s) f) as [Hout|Hin].
  { by rewrite (map_out_of_range _ _ _ Hinv Hout). }
  assert (0 <= f < pmm_frames_count s) as Hf by (unfold PMM_LOW_MEMORY_FRAMES, PAGE_SIZE in Hlow; zlia).
  pose proof (inv_rc _ _ Hinv f Hf) as Hrc. pose proof (map_test _ _ Hinv f Hf) as Hm.
  rewrite Hm. destruct (bm_test (pmm_bitmap s) f); [|done]. simpl.
  destruct (Z.eqb_spec (pmm_refcount s).[f] 255); [done|].
  destruct (Z.eqb_spec (pmm_refcount s).[f] 0); [lia|].
  rewrite u8_small by lia. split; [|done]. by apply (inv_recount _ _ _ _ _ Hinv Hm); lia.
Qed.

Lemma free_frame_inv s m addr :
  pmm_inv s m -> pmm_inv (pmm_free_frame s addr) (free_spec m (addr / PAGE_SIZE)) /\
  pmm_frames_count (pmm_free_frame s addr) = pmm_frames_count s.
Proof.
  intros Hinv. unfold pmm_free_frame, free_spec. set (f := addr / PAGE_SIZE).
  destruct (Z.ltb_spec f PMM_LOW_MEMORY_FRAMES) as [|Hlow]; [done|].
  destruct (Z.leb_spec (pmm_frames_count s) f) as [Hout|Hin].
  { by rewrite (map_out_of_range _ _ _ Hinv Hout). }
  assert (0 <= f < pmm_frames_count s) as Hf by (unfold PMM_LOW_MEMORY_FRAMES, PAGE_SIZE in Hlow; zlia).
  pose proof (inv_rc _ _ Hinv f Hf) as Hrc. pose proof (map_test _ _ Hinv f Hf) as Hm.
  rewrite Hm. destruct (bm_test (pmm_bitmap s) f) eqn:Htest; [|done]. simpl.
  destruct (Z.ltb_spec 1 (pmm_refcount s).[f]).
  { split; [|done]. by apply (inv_recount _ _ _ _ _ Hinv Hm); lia. }
  pose proof (frame_in_bitmap _ _ _ Hinv Hf) as Hfb.
  pose proof (inv_hint_nonneg _ _ Hinv) as Hlo.
  pose proof (total_memory_bound _ _ Hinv) as Htot. pose proof (map_size_le _ _ Hinv) as Hsz.
  assert (Z.of_nat (size m) = Z.of_nat (size (delete f m)) + 1) as Hsize.
  { rewrite (map_size_delete_Some (M := gmap Z) f m) by (by eexists).
    assert (size m <> 0%nat) by (rewrite map_size_non_empty_iff; intros ->; done). lia. }
  split; [|by destruct (_ <? _)].
  apply (inv_update s m _ f false 0); destruct (Z.ltb_spec (f / 32) (lowest_free_idx s)); simpl; try done.
  all: rewrite ?bm_len_clear, ?alen_aset; try done.
  all: try (apply bm_wf_clear; [apply (inv_bm _ _ Hinv)|done]).
  all: try (intros g Hg; by apply (rc_update _ m)).
  all: try zlia.
  all: try (rewrite (inv_used _ _ Hinv), Hsize, u32_small; unfold PAGE_SIZE in *; lia).
  all: intros g Hg; rewrite bm_test_clear by (apply (inv_bm _ _ Hinv) || lia).
  all: try (destruct (Z.eqb_spec f g) as [->|]; [apply andb_false_r|apply andb_true_r]).
  all: intros Hg'; rewrite (inv_hint _ _ Hinv) by zlia; apply negb_true_iff, Z.eqb_neq; zlia.
Qed.

(** ** Initialisation establishes the invariant *)

(** What the multiboot specification promises of the map, and this walk relies
    on: entries that end inside the address space, and lengths that the loop
    over an entry can count up to. *)
Definition mmap_ok (mb : multiboot_info) (mem : Z -> mmap_entry) : Prop :=
  0 <= mb_mmap_addr mb /\ 0 <= mb_mmap_length mb /\ mb_mmap_addr mb + mb_mmap_length mb < 2 ^ 32 /\
  forall a, mb_mmap_addr mb <= a < mb_mmap_addr mb + mb_mmap_length mb ->
    0 <= me_size (mem a) /\ a + me_size (mem a) + 4 < 2 ^ 32 /\
    0 <= me_len_low (mem a) <= 0xFFFFF000.

Lemma mmap_walk_inv {S} (P : S -> Prop) mb mem body (s : S) :
  mmap_ok mb mem -> P s ->
  (forall t e, P t -> 0 <= me_len_low e <= 0xFFFFF000 -> exists t', body t e = Some t' /\ P t') ->
  exists t, mmap_walk (mmap_fuel mb) mem (mb_mmap_addr mb)
              (u32 (mb_mmap_addr mb + mb_mmap_length mb)) body s = Some t /\ P t.
Proof.
  intros (Ha & Hl & Hsum & Hok) HP Hbody. unfold mmap_fuel. rewrite u32_small by lia.
  assert (forall fuel cur s, P s -> mb_mmap_addr mb <= cur ->
    (mb_mmap_addr mb + mb_mmap_length mb - cur < 4 * Z.of_nat fuel) ->
    exists t, mmap_walk fuel mem cur (mb_mmap_addr mb + mb_mmap_length mb) body s = Some t /\ P t) as Hgen.
  { induction fuel as [|fuel IH]; intros cur t Ht Hcur Hfuel; simpl;
      destruct (Z.ltb_spec cur (mb_mmap_addr mb + mb_mmap_length mb)); [lia|eauto| |eauto].
    destruct (Hok cur ltac:(lia)) as (Hs & Hs' & Hlen).
    destruct (Hbody t (mem cur) Ht Hlen) as (t' & -> & Ht').
    apply IH; [done|rewrite u32_small; lia..]. }
  apply Hgen; [done|lia|]. zlia.
Qed.

(** The entries of a map, one behind the other, by themselves. *)
Inductive map_entries (mem : Z -> mmap_entry) (stop : Z) : Z -> list mmap_entry -> Prop :=
| map_entries_end cur : stop <= cur -> map_entries mem stop cur []
| map_entries_next cur es : cur < stop -> map_entries mem stop (cur + me_size (mem cur) + 4) es ->
    map_entries mem stop cur (mem cur :: es).

Fixpoint over_entries {S} (body : S -> mmap_entry -> option S) (es : list mmap_entry) (s : S) : option S :=
  match es with
  | [] => Some s
  | e :: es => match body s e with Some s' => over_entries body es s' | None => None end
  end.

Lemma mmap_walk_entries mb mem : mmap_ok mb mem ->
  exists es, map_entries mem (mb_mmap_addr mb + mb_mmap_length mb) (mb_mmap_addr mb) es /\
    Forall (fun e => 0 <= me_len_low e <= 0xFFFFF000) es /\
    forall S body (s : S), mmap_walk (mmap_fuel mb) mem (mb_mmap_addr mb)
      (u32 (mb_mmap_addr mb + mb_mmap_length mb)) body s = over_entries body es s.
Proof.
  intros (Ha & Hl & Hsum & Hok). unfold mmap_fuel. rewrite u32_small by lia.
  assert (forall fuel cur, mb_mmap_addr mb <= cur -> mb_mmap_addr mb + mb_mmap_length mb - cur < 4 * Z.of_nat fuel ->
    exists es, map_entries mem (mb_mmap_addr mb + mb_mmap_length mb) cur es /\
      Forall (fun e => 0 <= me_len_low e <= 0xFFFFF000) es /\
      forall S body (s : S), mmap_walk fuel mem cur (mb_mmap_addr mb + mb_mmap_length mb) body s = over_entries body es s) as Hgen.
  { induction fuel as [|fuel IH]; intros cur Hcur Hfuel;
      destruct (Z.ltb_spec cur (mb_mmap_addr mb + mb_mmap_length mb)) as [Hlt|Hge]; try lia.
    1,3: exists []; split; [by constructor|split; [constructor|]]; intros; simpl;
      by destruct (Z.ltb_spec cur (mb_mmap_addr mb + mb_mmap_length mb)); [lia|].
    destruct (Hok cur ltac:(lia)) as (Hs & Hs' & Hlen).
    destruct (IH (cur + me_size (mem cur) + 4)) as (es & Hes & Hall & Hrun); [lia..|].
    exists (mem cur :: es). split; [by constructor|]. split; [by constructor|]. intros S body s. simpl.
    destruct (Z.ltb_spec cur (mb_mmap_addr mb + mb_mmap_length mb)); [|lia].
    destruct (body s (mem cur)); [|done]. rewrite u32_small by lia. apply Hrun. }
  apply Hgen; [lia|]. zlia.
Qed.

(** The map says that memory starts a page of the frame, or there is no map. *)
Definition region_touches (e : mmap_entry) (f : Z) : Prop :=
  me_type e = 1 /\ exists j, 0 <= j /\ PAGE_SIZE * j < me_len_low e /\ f = u32 (me_addr_low e + PAGE_SIZE * j) / PAGE_SIZE.

Definition usable (found : bool) (mboot : option multiboot_info) (mem : Z -> mmap_entry) (f : Z) : Prop :=
  match mboot with
  | Some mb =>
      if found && negb (Z.land (mb_flags mb) MULTIBOOT_FLAG_MMAP =? 0) then
        exists es e, map_entries mem (mb_mmap_addr mb + mb_mmap_length mb) (mb_mmap_addr mb) es /\ e ∈ es /\ region_touches e f
      else True
  | None => True
  end.

Lemma map_entries_unique mem stop cur es es' : map_entries mem stop cur es -> map_entries mem stop cur es' -> es = es'.
Proof.
  intros H. revert es'. induction H as [cur Hc|cur es Hc _ IH]; intros es' H'; inversion H'; subst; try lia; [done|].
  f_equal. by apply IH.
Qed.

Lemma bm_clear_or_skip_ok frames (b : list Z) f :
  bm_wf b -> 0 <= f -> frames <= 32 * alen b ->
  let b' := if f <? frames then bm_clear b f else b in
  bm_wf b' /\ alen b' = alen b /\ (forall g, frames <= g -> bm_test b' g = bm_test b g).
Proof.
  intros Hwf Hf Hfr. simpl. destruct (Z.ltb_spec f frames); [|done].
  split; [apply bm_wf_clear; [done|lia]|]. split; [apply bm_len_clear|].
  intros g Hg. rewrite bm_test_clear by (done || lia).
  destruct (Z.eqb_spec f g); [lia|apply andb_true_r].
Qed.

(** The state of the bitmap while usable memory is being cleared: of the right
    size, with every bit past the last frame still set and those of [F] cleared. *)
Definition clearing (words frames : Z) (F : Z -> Prop) (b : list Z) : Prop :=
  bm_wf b /\ alen b = words /\ (forall f, frames <= f < 32 * words -> bm_test b f = true) /\
  forall f, 0 <= f < frames -> (bm_test b f = false <-> F f).

Lemma clearing_iff words frames F G b : (forall f, 0 <= f < frames -> F f <-> G f) -> clearing words frames F b -> clearing words frames G b.
Proof. intros H (? & ? & ? & Hf). do 3 (split; [done|]). intros f Hr. rewrite <- H by done. by apply Hf. Qed.

Lemma clearing_step words frames F b f :
  clearing words frames F b -> 0 <= f -> frames <= 32 * words ->
  clearing words frames (fun g => F g \/ g = f) (if f <? frames then bm_clear b f else b).
Proof.
  intros (Hwf & Hlen & Htail & HF) Hf Hfr.
  destruct (bm_clear_or_skip_ok frames b f) as (? & ? & Ht); [done|done|lia|].
  split; [done|]. split; [lia|]. split; [intros g Hg; rewrite Ht by lia; by apply Htail|].
  intros g Hg. rewrite <- HF by done. destruct (Z.ltb_spec f frames); [|intuition lia].
  rewrite bm_test_clear by (done || lia). destruct (Z.eqb_spec f g) as [->|]; [rewrite andb_false_r; tauto|].
  rewrite andb_true_r. intuition lia.
Qed.

Lemma mark_region_free_ok words frames F start len b :
  0 <= len <= 0xFFFFF000 -> frames <= 32 * words -> clearing words frames F b ->
  exists b', mark_region_free (Z.to_nat (len / PAGE_SIZE + 1)) frames start len 0 b = Some b' /\
    clearing words frames (fun f => F f \/ exists j, 0 <= j /\ PAGE_SIZE * j < len /\ f = u32 (start + PAGE_SIZE * j) / PAGE_SIZE) b'.
Proof.
  intros Hlen Hfr Hb.
  assert (forall fuel j0 F b, clearing words frames F b -> 0 <= j0 ->
    len - PAGE_SIZE * j0 <= PAGE_SIZE * Z.of_nat fuel ->
    exists b', mark_region_free fuel frames start len (PAGE_SIZE * j0) b = Some b' /\
      clearing words frames (fun f => F f \/ exists j, j0 <= j /\ PAGE_SIZE * j < len /\ f = u32 (start + PAGE_SIZE * j) / PAGE_SIZE) b') as Hgen.
  { unfold PAGE_SIZE. induction fuel as [|fuel IH]; intros j0 G c Hc Hi Hfuel; cbn [mark_region_free];
      destruct (Z.ltb_spec (4096 * j0) len); [lia| | |].
    1,3: eexists; split; [done|]; apply (clearing_iff _ _ G); [|done]; intros f _; split; [by left|];
      intros [?|(j & Hj & Hl & _)]; [done|lia].
    unfold PAGE_SIZE in *. rewrite (u32_small (4096 * j0 + 4096)) by lia. replace (4096 * j0 + 4096) with (4096 * (j0 + 1)) by lia.
    pose proof (u32_range (start + 4096 * j0)) as Hr. unfold is_u32 in Hr.
    destruct (IH (j0 + 1) _ _ (clearing_step words frames G c (u32 (start + 4096 * j0) / 4096) Hc ltac:(zlia) Hfr)) as (b' & -> & Hb');
      [lia..|]. exists b'. split; [done|]. revert Hb'. apply clearing_iff. intros f _. split.
    - intros [[?| ->]|(j & Hj & Hl & ->)]; [by left|right; by exists j0|right; exists j; split; [lia|done]].
    - intros [?|(j & Hj & Hl & ->)]; [by left; left|]. destruct (Z.eq_dec j j0) as [->|]; [by left; right|].
      right. exists j. split; [lia|done]. }
  apply (Hgen _ 0 F b); [done|lia|]. unfold PAGE_SIZE. zlia.
Qed.

(** A region whose length is within a page of 4 GB is never done: the counter
    of the loop wraps to zero before it reaches the length. *)
Lemma mark_region_free_endless frames start len : 0xFFFFF000 < len ->
  forall fuel j b, 0 <= j < 2 ^ 20 -> mark_region_free fuel frames start len (PAGE_SIZE * j) b = None.
Proof.
  unfold PAGE_SIZE. intros Hlen fuel. induction fuel as [|fuel IH]; intros j b Hj; cbn [mark_region_free];
    (destruct (Z.ltb_spec (4096 * j) len); [|lia]); [done|].
  unfold PAGE_SIZE. destruct (Z.eq_dec j (2 ^ 20 - 1)) as [->|].
  - change (u32 (4096 * (2 ^ 20 - 1) + 4096)) with (4096 * 0). apply IH. lia.
  - rewrite u32_small by lia. replace (4096 * j + 4096) with (4096 * (j + 1)) by lia. apply IH. lia.
Qed.

Lemma free_entries_ok words frames es : forall F b,
  Forall (fun e => 0 <= me_len_low e <= 0xFFFFF000) es -> frames <= 32 * words -> clearing words frames F b ->
  exists b', over_entries (fun b e =>
       if me_type e =? 1 then
         mark_region_free (Z.to_nat (me_len_low e / PAGE_SIZE + 1)) frames (me_addr_low e) (me_len_low e) 0 b
       else Some b) es b = Some b' /\
    clearing words frames (fun f => F f \/ exists e, e ∈ es /\ region_touches e f) b'.
Proof.
  induction es as [|e es IH]; intros F b Hall Hfr Hb; cbn [over_entries].
  { exists b. split; [done|]. revert Hb. apply clearing_iff. intros f _. split; [by left|].
    intros [?|(e & He & _)]; [done|]. by apply elem_of_nil in He. }
  inversion_clear Hall as [|? ? He Hes]. destruct (Z.eqb_spec (me_type e) 1) as [Ht|Ht].
  - destruct (mark_region_free_ok words frames F (me_addr_low e) (me_len_low e) b He Hfr Hb) as (b1 & -> & Hb1).
    destruct (IH _ b1 Hes Hfr Hb1) as (b' & -> & Hb'). exists b'. split; [done|]. revert Hb'. apply clearing_iff. intros f _. split.
    + intros [[?|Hj]|(e' & Hin & Hr)]; [by left| |].
      * right. exists e. split; [apply elem_of_cons; by left|done].
      * right. exists e'. split; [apply elem_of_cons; by right|done].
    + intros [?|(e' & [-> | Hin]%elem_of_cons & Hr)]; [by left; left|left; right; apply Hr|]. right. by exists e'.
  - destruct (IH F b Hes Hfr Hb) as (b' & -> & Hb'). exists b'. split; [done|]. revert Hb'. apply clearing_iff. intros f _. split.
    + intros [?|(e' & Hin & Hr)]; [by left|]. right. exists e'. split; [apply elem_of_cons; by right|done].
    + intros [?|(e' & [-> | Hin]%elem_of_cons & Hr)]; [by left|by destruct Hr|]. right. by exists e'.
Qed.

Lemma clear_usable_ok found mboot mem words frames b :
  (forall mb, mboot = Some mb -> mmap_ok mb mem) ->
  0 <= frames <= 32 * words -> clearing words frames (fun _ => False) b ->
  exists b', clear_usable found mboot mem frames b = Some b' /\ clearing words frames (usable found mboot mem) b'.
Proof.
  intros Hmb Hfr Hb.
  assert (clearing words frames (fun _ => True) (for_range 0 frames bm_clear b)) as Hall.
  { apply (clearing_iff _ _ (fun f => 0 <= f < frames)); [intros f ?; intuition lia|].
    apply (for_range_ind (fun i => clearing words frames (fun f => 0 <= f < i))); [lia| |].
    - revert Hb. apply clearing_iff. intros f ?. intuition lia.
    - intros i t Hi Ht. pose proof (clearing_step words frames _ t i Ht ltac:(lia) ltac:(lia)) as Hs.
      destruct (Z.ltb_spec i frames); [|lia]. revert Hs. apply clearing_iff. intros f ?. intuition lia. }
  unfold clear_usable, usable. destruct mboot as [mb|]; [|eauto].
  destruct (found && _); [|eauto]. unfold free_from_mmap.
  destruct (mmap_walk_entries mb mem (Hmb mb eq_refl)) as (es & Hes & Hlen & Hrun). rewrite Hrun.
  destruct (free_entries_ok words frames es _ b Hlen ltac:(lia) Hb) as (b' & Hb' & Hc). exists b'. split; [done|].
  revert Hc. apply clearing_iff. intros f _. split.
  - intros [[]|(e & Hin & Hr)]. by exists es, e.
  - intros (es' & e & Hes' & Hin & Hr). right. rewrite (map_entries_unique _ _ _ _ _ Hes' Hes) in Hin. by exists e.
Qed.

(** The seeding loop after [i] frames: the frames in use below [i] are counted
    and have one owner each. *)
Definition seeded (b : list Z) (frames i : Z) (st : Z * list Z) : Prop :=
  exists m : gmap Z Z, st.1 = PAGE_SIZE * Z.of_nat (size m) /\ alen st.2 = frames /\
    (forall f c, m !! f = Some c <-> 0 <= f < i /\ bm_test b f = true /\ c = 1) /\
    (forall f, 0 <= f < frames -> st.2.[f] = if (f <? i) && bm_test b f then 1 else 0).

Lemma seeded_used b frames i st :
  seeded b frames i st -> 0 <= i < frames -> PAGE_SIZE * frames < 2 ^ 32 -> bm_test b i = true ->
  seeded b frames (i + 1) (u32 (st.1 + PAGE_SIZE), st.2.[i <- 1]).
Proof.
  intros (m & Hu & Hlen & Hm & Hr) Hi Hbound Hb.
  assert (m !! i = None) as Hnone by (destruct (m !! i) eqn:E; [apply Hm in E; lia|done]).
  assert (Z.of_nat (size m) <= i) as Hsz.
  { apply gmap_size_le; [lia|]. intros k [c Hk]. apply Hm in Hk. lia. }
  exists (<[i := 1]> m). simpl. rewrite map_size_insert_None, alen_aset by done.
  split; [rewrite Hu, u32_small; unfold PAGE_SIZE in *; lia|]. split; [done|]. split.
  - intros f c. destruct (Z.eq_dec i f) as [<-|Hne].
    + rewrite lookup_insert_eq. split; [|by intros (_ & _ & ->)].
      intros [= <-]. repeat split; (lia || done).
    + rewrite lookup_insert_ne, Hm by done. intuition lia.
  - intros f Hf. rewrite aget_aset by lia. destruct (Z.eqb_spec i f) as [<-|Hne].
    + rewrite Hb. by destruct (Z.ltb_spec i (i + 1)); [|lia].
    + rewrite Hr by done. by destruct (Z.ltb_spec f i), (Z.ltb_spec f (i + 1)); (done || lia).
Qed.

Lemma seeded_free b frames i st :
  seeded b frames i st -> 0 <= i < frames -> bm_test b i = false -> seeded b frames (i + 1) st.
Proof.
  intros (m & Hu & Hlen & Hm & Hr) Hi Hb. exists m. split; [done|]. split; [done|]. split.
  - intros f c. rewrite Hm. split; [intuition lia|].
    intros (Hf & Ht & ->). destruct (Z.eq_dec f i) as [->|]; [congruence|]. repeat split; (lia || done).
  - intros f Hf. rewrite Hr by done.
    destruct (Z.eq_dec f i) as [->|]; [by rewrite Hb, !andb_false_r|].
    by destruct (Z.ltb_spec f i), (Z.ltb_spec f (i + 1)); (done || lia).
Qed.

Lemma seed_counts_ok b frames :
  0 <= frames -> PAGE_SIZE * frames < 2 ^ 32 -> seeded b frames frames (seed_counts b frames).
Proof.
  intros Hfr Hbound. apply (for_range_ind (seeded b frames)); [done| |].
  - exists ∅. split; [done|]. split; [by apply alen_replicate|]. split.
    + intros f c. rewrite lookup_empty. split; [done|lia].
    + intros f Hf. simpl. rewrite aget_replicate by done. destruct (Z.ltb_spec f 0); [lia|done].
  - intros i [u r] Hi Hst. destruct (bm_test b i) eqn:Hb.
    + by apply (seeded_used b frames i (u, r)).
    + by apply seeded_free.
Qed.

Lemma kernel_frames_set words frames kend F b :
  clearing words frames F b -> 0 <= kend <= frames -> frames <= 32 * words ->
  clearing words frames (fun f => kend <= f /\ F f) (for_range 0 kend bm_set b).
Proof.
  intros Hb Hk Hfr.
  apply (for_range_ind (fun i c => clearing words frames (fun f => i <= f /\ F f) c)); [lia| |].
  { revert Hb. apply clearing_iff. intros f ?. intuition lia. }
  intros i c Hi (Hwf & Hlen & Htail & HF). unfold clearing.
  rewrite bm_len_set. split; [apply bm_wf_set; [done|lia]|]. split; [done|]. split.
  - intros f Hf. rewrite bm_test_set by lia. by rewrite Htail.
  - intros f Hf. rewrite bm_test_set by lia. destruct (Z.eqb_spec i f) as [->|]; [rewrite orb_true_r; intuition (done || lia)|].
    rewrite orb_false_r, HF by done. intuition lia.
Qed.

(** The bound on the kernel's image that makes its frames part of the map. *)
Definition kernel_fits (kernel_end : Z) (frames : Z) : Prop :=
  0xC0000000 <= kernel_end < 2 ^ 32 /\
  kernel_end - 0xC0000000 + 0x100000 + 4 * ((frames + 31) / 32) + frames + PAGE_SIZE - 1 < 2 ^ 32 /\
  kernel_end_frame kernel_end ((frames + 31) / 32) frames <= frames.

Lemma kernel_end_frame_low kernel_end frames :
  0 <= frames < 2 ^ 20 -> kernel_fits kernel_end frames ->
  PMM_LOW_MEMORY_FRAMES <= kernel_end_frame kernel_end ((frames + 31) / 32) frames.
Proof.
  intros Hfr (Hk & Hsum & _). unfold kernel_end_frame.
  rewrite (u32_small (kernel_end - _)), (u32_small (_ * 4)) by zlia.
  rewrite (u32_small (kernel_end - _ + _)) by zlia.
  rewrite (u32_small (_ + _ * 4)) by zlia. rewrite (u32_small (_ + frames)) by zlia.
  unfold PMM_LOW_MEMORY_FRAMES, PAGE_SIZE in *. rewrite u32_small by zlia. zlia.
Qed.

Lemma detect_memory_ok mboot mem :
  (forall mb, mboot = Some mb -> mmap_ok mb mem) ->
  exists found detected, detect_memory mboot mem = Some (found, detected) /\ is_u32 detected.
Proof.
  intros Hmb. unfold detect_memory. destruct mboot as [mb|]; [|by exists false, 0].
  assert (exists h, (if negb (Z.land (mb_flags mb) MULTIBOOT_FLAG_MMAP =? 0)
                     then highest_addr mb mem else Some 0) = Some h /\ is_u32 h) as (h & -> & Hh).
  { case_bool; [|by exists 0]. unfold highest_addr. apply mmap_walk_inv; [by apply Hmb|done|].
    intros t e Ht He. eexists. split; [done|]. case_bool; [|done]. case_bool; [|done]. apply u32_range. }
  case_bool; [by exists true, h|]. case_bool; [|by exists false, 0].
  eexists true, _. split; [done|]. apply u32_range.
Qed.

Lemma choose_total_u32 found detected : is_u32 detected -> is_u32 (choose_total found detected).
Proof. intros. unfold choose_total. by case_bool. Qed.

Lemma total_frames_bound total :
  is_u32 total -> 0 <= total / PAGE_SIZE < 2 ^ 20 /\ PAGE_SIZE * (total / PAGE_SIZE) < 2 ^ 32.
Proof. unfold is_u32, PAGE_SIZE. zlia. Qed.

Lemma init_state_inv b words frames total kend F :
  is_u32 total -> frames = total / PAGE_SIZE -> words = (frames + 31) / 32 ->
  clearing words frames (fun f => kend <= f /\ F f) b -> PMM_LOW_MEMORY_FRAMES <= kend <= frames ->
  let '(used, rc) := seed_counts b frames in
  exists m, pmm_inv (mk_pmm b words frames used total rc (kend / 32)) m /\
            forall f, 0 <= f < frames -> (m !! f = None \/ m !! f = Some 1) /\ (m !! f = None <-> kend <= f /\ F f).
Proof.
  intros Ht -> -> (Hwf & Hlen & Htail & HF) Hk. set (frames := total / PAGE_SIZE) in *.
  destruct (total_frames_bound total Ht) as [Hfr Hbound]. fold frames in Hfr, Hbound.
  pose proof (seed_counts_ok b frames ltac:(lia) Hbound) as Hseed.
  destruct (seed_counts b frames) as [used rc]. destruct Hseed as (m & Hu & Hrlen & Hm & Hr).
  assert (forall f, 0 <= f < frames -> rc.[f] = if bm_test b f then 1 else 0) as Hrc.
  { intros f Hf. specialize (Hr f Hf). simpl in Hr. rewrite Hr. by destruct (Z.ltb_spec f frames); [|lia]. }
  assert (Hset : forall f, 0 <= f < kend -> bm_test b f = true).
  { intros f Hf. destruct (bm_test b f) eqn:E; [done|]. apply HF in E; lia. }
  exists m. split.
  - constructor; simpl; try done.
    + by rewrite Hlen.
    + intros f c. rewrite Hm. split; intros (Hf & Hb & Hc); specialize (Hrc f Hf); rewrite Hb in Hrc;
        repeat split; (lia || done).
    + intros f Hf. rewrite Hrc by done. by destruct (bm_test b f).
    + intros f Hf _. apply Hset. lia.
    + intros f Hf _. apply Hset. zlia.
    + unfold PMM_LOW_MEMORY_FRAMES, PAGE_SIZE in *. zlia.
  - intros f Hf. rewrite <- HF by done. destruct (bm_test b f) eqn:Hb.
    + assert (m !! f = Some 1) as -> by (apply Hm; done). split; [by right|done].
    + assert (m !! f = None) as ->; [|split; [by left|done]].
      destruct (m !! f) eqn:E; [|done]. apply Hm in E as (_ & E & _). congruence.
Qed.

(** The core of [init_pmm]'s correctness. *)
Lemma init_pmm_ok kernel_end mboot mem :
  (forall mb, mboot = Some mb -> mmap_ok mb mem) ->
  exists found detected, detect_memory mboot mem = Some (found, detected) /\
    let frames := choose_total found detected / PAGE_SIZE in
    (kernel_fits kernel_end frames ->
     exists s m, init_pmm kernel_end mboot mem = Some s /\ pmm_inv s m /\
       forall f, 0 <= f < frames -> (m !! f = None \/ m !! f = Some 1) /\
         (m !! f = None <-> kernel_end_frame kernel_end ((frames + 31) / 32) frames <= f /\ usable found mboot mem f)).
Proof.
  intros Hmb. destruct (detect_memory_ok mboot mem Hmb) as (found & detected & Hdet & Hu).
  exists found, detected. split; [done|]. intros frames Hfits.
  apply (choose_total_u32 found) in Hu. unfold init_pmm. rewrite Hdet.
  set (total := choose_total found detected) in *.
  destruct (total_frames_bound total Hu) as [Hfr _]. fold frames in Hfr |- *. rewrite (u32_small (frames + 31)) by lia. set (words := (frames + 31) / 32) in *.
  assert (0 <= words /\ frames <= 32 * words) as [Hw Hfw] by (subst words; zlia).
  assert (clearing words frames (fun _ => False) (replicate (Z.to_nat words) 0xFFFFFFFF)) as Hones.
  { assert (forall f, 0 <= f < 32 * words -> bm_test (replicate (Z.to_nat words) 0xFFFFFFFF) f = true) as Hset.
    { intros f Hf. rewrite bm_test_testbit, aget_replicate by zlia.
      change 0xFFFFFFFF with (Z.ones 32). apply Z.ones_spec_low. zlia. }
    split; [|split; [by apply alen_replicate|split]].
    - intros i. rewrite alen_replicate by done. intros Hi. by rewrite aget_replicate.
    - intros f Hf. apply Hset. lia.
    - intros f Hf. rewrite Hset by lia. done. }
  destruct (clear_usable_ok found mboot mem words frames _ Hmb ltac:(lia) Hones) as (b & -> & Hb).
  pose proof (kernel_end_frame_low kernel_end frames Hfr Hfits) as Hlow. fold words in Hlow.
  destruct Hfits as (_ & _ & Hle). fold words in Hle.
  set (kend := kernel_end_frame kernel_end words frames) in *.
  assert (0 <= kend) by (change PMM_LOW_MEMORY_FRAMES with 256 in Hlow; lia).
  pose proof (kernel_frames_set words frames kend _ b Hb ltac:(lia) Hfw) as Hb'.
  pose proof (init_state_inv _ words frames total kend _ Hu eq_refl eq_refl Hb' ltac:(lia)) as Hinit.
  destruct (seed_counts _ frames) as [used rc]. destruct Hinit as (m & Hinv & Hone). eauto.
Qed.

(** C11: booting.  From a memory map whose entries stay inside the address space
    and describe regions of at most 0xFFFFF000 bytes, and with a kernel image that
    fits in the memory found, [init_pmm] ends and leaves a consistent allocator: the
    bitmap, the reference counts, the usage counter and the search hint agree.
    The free frames are exactly those past the end of the kernel's own tables in
    which the map has a page of usable memory start (all of them without a map);
    every other frame has one owner, so none of them can be handed out. *)
Theorem init_pmm_establishes kernel_end mboot mem :
  (forall mb, mboot = Some mb -> mmap_ok mb mem) ->
  exists found detected, detect_memory mboot mem = Some (found, detected) /\
    let frames := choose_total found detected / PAGE_SIZE in
    (kernel_fits kernel_end frames ->
     exists s m, init_pmm kernel_end mboot mem = Some s /\ pmm_inv s m /\
       forall f, 0 <= f < frames -> (m !! f = None \/ m !! f = Some 1) /\
         (m !! f = None <-> kernel_end_frame kernel_end ((frames + 31) / 32) frames <= f /\ usable found mboot mem f)).
Proof. apply init_pmm_ok. Qed.

(** A machine without a memory map: 2 MB, and a kernel that ends at 1 MB. *)
Definition no_mmap : Z -> mmap_entry := fun _ => mk_mmap_entry 0 0 0 0 0 0.
Definition boot_mb : option multiboot_info := Some (mk_multiboot_info 1 1024 0 0).
Definition boot_pmm : pmm :=
  default (mk_pmm [] 0 0 0 0 [] 0) (init_pmm 0xC0000000 boot_mb no_mmap).

Lemma boot_mb_ok mb : boot_mb = Some mb -> mmap_ok mb no_mmap.
Proof. intros [= <-]. repeat split; simpl in *; lia. Qed.

Lemma boot_pmm_kernel : exists m, pmm_inv boot_pmm m /\ m !! 256 = Some 1.
Proof.
  destruct (init_pmm_ok 0xC0000000 boot_mb no_mmap) as (found & detected & Hdet & Hinit); [apply boot_mb_ok|].
  injection Hdet as <- <-. destruct Hinit as (s & m & Hs & Hinv & Hone).
  - unfold kernel_fits. vm_compute. intuition congruence.
  - exists m. unfold boot_pmm. rewrite Hs. split; [done|].
    destruct (Hone 256) as [[Hn|Hn] Hiff]; [vm_compute; intuition congruence| |done].
    apply Hiff in Hn as [Hn _]. exfalso. revert Hn. vm_compute. intuition congruence.
Qed.

Lemma boot_pmm_inv : exists m, pmm_inv boot_pmm m.
Proof. destruct boot_pmm_kernel as (m & Hm & _). by exists m. Qed.

(** A machine with a map: 640 KB, a reserved region, and memory from 1 MB to 3 MB. *)
Definition sample_mmap : Z -> mmap_entry := fun a =>
  if a =? 0x1000 then mk_mmap_entry 20 0 0 0x9FC00 0 1
  else if a =? 0x1018 then mk_mmap_entry 20 0xF0000 0 0x10000 0 2
  else mk_mmap_entry 20 0x100000 0 0x200000 0 1.
Definition sample_mb : multiboot_info := mk_multiboot_info 0x41 0 72 0x1000.

Lemma sample_mmap_ok : mmap_ok sample_mb sample_mmap.
Proof.
  unfold mmap_ok, sample_mb. cbn [mb_mmap_addr mb_mmap_length]. do 3 (split; [lia|]). intros a Ha. unfold sample_mmap.
  destruct (a =? 0x1000); [cbn; lia|]. destruct (a =? 0x1018); cbn; lia.
Qed.

Lemma sample_free : usable true (Some sample_mb) sample_mmap 0x280.
Proof.
  exists [mk_mmap_entry 20 0 0 0x9FC00 0 1; mk_mmap_entry 20 0xF0000 0 0x10000 0 2; mk_mmap_entry 20 0x100000 0 0x200000 0 1],
    (mk_mmap_entry 20 0x100000 0 0x200000 0 1). split; [|split].
  - apply (map_entries_next sample_mmap (0x1000 + 72) 0x1000); [reflexivity|].
    apply (map_entries_next sample_mmap (0x1000 + 72) 0x1018); [reflexivity|].
    apply (map_entries_next sample_mmap (0x1000 + 72) 0x1030); [reflexivity|]. constructor. vm_compute. discriminate.
  - apply elem_of_cons; right. apply elem_of_cons; right. apply elem_of_cons; by left.
  - split; [done|]. exists 0x180. split; [discriminate|]. split; reflexivity.
Qed.

Lemma init_pmm_establishes_witness :
  exists s m, init_pmm 0xC0000000 (Some sample_mb) sample_mmap = Some s /\ pmm_inv s m /\ m !! 0x280 = None /\ m !! 0x50 = Some 1.
Proof.
  destruct (init_pmm_establishes 0xC0000000 (Some sample_mb) sample_mmap) as (found & detected & Hdet & Hinit).
  { intros mb [= <-]. apply sample_mmap_ok. }
  injection Hdet as <- <-. destruct Hinit as (s & m & Hs & Hinv & Hone).
  { unfold kernel_fits. vm_compute. intuition congruence. }
  exists s, m. split; [done|]. split; [done|]. split.
  - apply Hone; [vm_compute; intuition congruence|]. split; [vm_compute; discriminate|apply sample_free].
  - destruct (Hone 0x50) as [[Hn|Hn] Hiff]; [vm_compute; intuition congruence| |done].
    apply Hiff in Hn as [Hn _]. exfalso. revert Hn. vm_compute. intuition congruence.
Defined.

(** ** Sequences of operations against the abstract allocator *)

Inductive pmm_op : Type :=
| OpAlloc
| OpRef (addr : Z)
| OpFree (addr : Z).

(** One call, with the value it returns ([void] calls return 0 here). *)
Definition pmm_step (s : pmm) (op : pmm_op) : Z * pmm :=
  match op with
  | OpAlloc => pmm_alloc_frame s
  | OpRef addr => (0, pmm_ref_frame s addr)
  | OpFree addr => (0, pmm_free_frame s addr)
  end.

Fixpoint pmm_run (s : pmm) (ops : list pmm_op) : list Z * pmm :=
  match ops with
  | [] => ([], s)
  | op :: ops' => let '(r, s1) := pmm_step s op in let '(rs, s2) := pmm_run s1 ops' in (r :: rs, s2)
  end.

(** The abstract allocator: a map from frames to owner counts, with no bitmap,
    no hint and no counter. *)
Inductive spec_step (frames : Z) : gmap Z Z -> pmm_op -> Z -> gmap Z Z -> Prop :=
| spec_alloc m r m' : alloc_spec frames m r m' -> spec_step frames m OpAlloc r m'
| spec_ref m addr : spec_step frames m (OpRef addr) 0 (ref_spec m (addr / PAGE_SIZE))
| spec_free m addr : spec_step frames m (OpFree addr) 0 (free_spec m (addr / PAGE_SIZE)).

Inductive spec_run (frames : Z) : gmap Z Z -> list pmm_op -> list Z -> gmap Z Z -> Prop :=
| spec_run_nil m : spec_run frames m [] [] m
| spec_run_cons m op r m1 ops rs m2 :
    spec_step frames m op r m1 -> spec_run frames m1 ops rs m2 ->
    spec_run frames m (op :: ops) (r :: rs) m2.

Create HintDb pmm.
#[export] Hint Constructors spec_step spec_run : pmm.

Lemma pmm_step_inv s m op :
  pmm_inv s m ->
  exists m', spec_step (pmm_frames_count s) m op (pmm_step s op).1 m' /\
    pmm_inv (pmm_step s op).2 m' /\ pmm_frames_count (pmm_step s op).2 = pmm_frames_count s.
Proof.
  intros Hinv. destruct op as [|addr|addr]; simpl.
  - pose proof (alloc_frame_inv s m Hinv) as Ha. destruct (pmm_alloc_frame s) as [r s'].
    destruct Ha as (m' & ? & ? & ?). eauto with pmm.
  - destruct (ref_frame_inv s m addr Hinv). eauto with pmm.
  - destruct (free_frame_inv s m addr Hinv). eauto with pmm.
Qed.

Lemma pmm_run_inv ops s m :
  pmm_inv s m ->
  exists m', spec_run (pmm_frames_count s) m ops (pmm_run s ops).1 m' /\ pmm_inv (pmm_run s ops).2 m'.
Proof.
  revert s m. induction ops as [|op ops IH]; intros s m Hinv; simpl; [eauto with pmm|].
  destruct (pmm_step_inv s m op Hinv) as (m1 & Hstep & Hinv1 & Hfr).
  destruct (pmm_step s op) as [r s1]. simpl in *.
  destruct (IH s1 m1 Hinv1) as (m2 & Hrun & Hinv2). rewrite Hfr in Hrun.
  destruct (pmm_run s1 ops) as [rs s2]. eauto with pmm.
Qed.

(** C5: the bitmap allocator refines the abstract one.  Whatever sequence of
    [pmm_alloc_frame], [pmm_ref_frame] and [pmm_free_frame] runs, from any
    consistent state, the results are those of an allocator that keeps only a
    map from frames to owner counts: an allocation returns the lowest frame
    nobody owns (never one below 1 MB) or 0xFFFFFFFF when every frame has an
    owner, a reference adds an owner up to the byte's ceiling, and a free drops
    one and releases the frame with the last. *)
Theorem pmm_refines s m ops :
  pmm_inv s m ->
  exists m', spec_run (pmm_frames_count s) m ops (pmm_run s ops).1 m' /\ pmm_inv (pmm_run s ops).2 m'.
Proof. apply pmm_run_inv. Qed.

Lemma pmm_refines_witness :
  exists m m', pmm_inv boot_pmm m /\
    spec_run (pmm_frames_count boot_pmm) m [OpAlloc; OpRef 0x101000; OpFree 0x101000]
      (pmm_run boot_pmm [OpAlloc; OpRef 0x101000; OpFree 0x101000]).1 m'.
Proof.
  destruct boot_pmm_inv as [m Hm].
  destruct (pmm_refines boot_pmm m [OpAlloc; OpRef 0x101000; OpFree 0x101000] Hm) as (m' & Hrun & _).
  eauto.
Defined.

(** A frame that nobody frees stays owned. *)
Lemma spec_run_keeps frames f m ops rs m' :
  spec_run frames m ops rs m' -> is_Some (m !! f) ->
  (forall addr, OpFree addr ∈ ops -> addr / PAGE_SIZE <> f) -> 0 <= f ->
  is_Some (m' !! f) /\ f * PAGE_SIZE ∉ (omap (fun '(op, r) => match op with OpAlloc => Some r | _ => None end) (zip ops rs)).
Proof.
  induction 1 as [m|m op r m1 ops rs m2 Hstep Hrun IH]; intros Hs Hnofree Hf.
  { split; [done|]. apply not_elem_of_nil. }
  assert (is_Some (m1 !! f) /\ (op = OpAlloc -> r <> f * PAGE_SIZE)) as [Hs1 Hr].
  { inversion Hstep as [m0 r0 m0' Ha|m0 addr|m0 addr]; subst; clear Hstep.
    - destruct Ha as [(-> & -> & _)|(g & -> & Hg & Hnone & -> & _)].
      + split; [done|]. intros _. unfold PAGE_SIZE. lia.
      + assert (g <> f) by (intros ->; rewrite Hnone in Hs; by destruct Hs).
        rewrite lookup_insert_ne by done. split; [done|]. intros _. unfold PAGE_SIZE. lia.
    - split; [|done]. unfold ref_spec. case_bool; [done|].
      destruct (m !! (addr / PAGE_SIZE)) as [c|] eqn:E; [|done]. case_bool; [done|].
      apply lookup_insert_is_Some. destruct (Z.eq_dec (addr / PAGE_SIZE) f); eauto.
    - split; [|done]. assert (addr / PAGE_SIZE <> f) as Hne by (apply Hnofree; left).
      unfold free_spec. case_bool; [done|]. destruct (m !! (addr / PAGE_SIZE)) as [c|] eqn:E; [|done].
      case_bool; [by rewrite lookup_insert_ne|by rewrite lookup_delete_ne]. }
  destruct IH as [Hend Hnotin]; [done|intros addr Ha; apply Hnofree; by right|done|].
  split; [done|]. simpl. destruct op; [|done|done].
  apply not_elem_of_cons. split; [|done]. specialize (Hr eq_refl). congruence.
Qed.

(** exclusive ownership.  A frame that [pmm_alloc_frame] has handed out is
    not handed out again by any later sequence of calls in which it is not
    freed, and it is still in use at the end of that sequence. *)
Theorem pmm_alloc_exclusive s m addr s1 ops :
  pmm_inv s m -> pmm_alloc_frame s = (addr, s1) -> addr <> 0xFFFFFFFF ->
  (forall a, OpFree a ∈ ops -> a / PAGE_SIZE <> addr / PAGE_SIZE) ->
  let '(rs, s2) := pmm_run s1 ops in
  bm_test (pmm_bitmap s2) (addr / PAGE_SIZE) = true /\
  addr ∉ omap (fun '(op, r) => match op with OpAlloc => Some r | _ => None end) (zip ops rs).
Proof.
  intros Hinv Halloc Hok Hnofree. pose proof (alloc_frame_inv s m Hinv) as Ha.
  rewrite Halloc in Ha. destruct Ha as (m1 & Hinv1 & [(-> & _)|(f & -> & Hf & _ & -> & _)] & _); [done|].
  rewrite Z.div_mul in * by done.
  destruct (pmm_run_inv ops s1 _ Hinv1) as (m2 & Hrun & Hinv2).
  destruct (pmm_run s1 ops) as [rs s2]. simpl in *.
  destruct (spec_run_keeps _ f _ _ _ _ Hrun) as [[c Hc] Hnotin].
  { rewrite lookup_insert_eq. eauto. } { done. } { change PMM_LOW_MEMORY_FRAMES with 256 in Hf. lia. }
  split; [|done]. by apply (inv_map _ _ Hinv2) in Hc as (_ & ? & _).
Qed.

Lemma pmm_alloc_exclusive_witness :
  pmm_alloc_frame boot_pmm = (0x101000, (pmm_alloc_frame boot_pmm).2) /\
  bm_test (pmm_bitmap (pmm_run (pmm_alloc_frame boot_pmm).2 [OpAlloc; OpFree 0x102000; OpAlloc]).2) 257 = true.
Proof.
  destruct boot_pmm_inv as [m Hm].
  assert (pmm_alloc_frame boot_pmm = (0x101000, (pmm_alloc_frame boot_pmm).2)) as Heq
    by (vm_compute; reflexivity).
  split; [exact Heq|].
  pose proof (pmm_alloc_exclusive boot_pmm m _ _ [OpAlloc; OpFree 0x102000; OpAlloc] Hm Heq) as H.
  destruct (pmm_run _ _) as [rs s2]. apply H; [lia|]. clear.
  intros a Ha. rewrite !elem_of_cons, elem_of_nil in Ha.
  destruct Ha as [Ha|[Ha|[Ha|Ha]]]; try done. injection Ha as ->. by vm_compute.
Defined.

(** ** What the allocator reports *)

Lemma shared_frames_count s m :
  pmm_inv s m ->
  pmm_get_shared_frames s = Z.of_nat (size (filter (fun '(_, c) => 1 < c) m)).
Proof.
  intros Hinv. pose proof (frames_bound _ _ Hinv) as Hfb. unfold pmm_get_shared_frames.
  pose (below := fun i => filter (fun '(f, c) => f < i /\ 1 < c) m).
  assert (forall i, Z.of_nat (size (below i)) <= pmm_frames_count s) as Hle.
  { intros i. apply gmap_size_le; [lia|]. intros k [c Hk].
    apply map_lookup_filter_Some in Hk as [Hk _]. apply (map_in_range _ _ Hinv). eauto. }
  replace (filter _ m) with (below (pmm_frames_count s)).
  2:{ apply map_filter_ext. intros f c Hc. apply (inv_map _ _ Hinv) in Hc. intuition lia. }
  apply (for_range_ind (fun i count => count = Z.of_nat (size (below i)))); [lia| |].
  - assert (below 0 = ∅) as ->; [|done]. apply map_empty. intros k.
    apply map_lookup_filter_None. right. intros c Hc [Hk _].
    apply (inv_map _ _ Hinv) in Hc. lia.
  - intros i count Hi ->. pose proof (inv_rc _ _ Hinv i Hi) as Hrc.
    pose proof (map_test _ _ Hinv i Hi) as Hm. destruct (Z.ltb_spec 1 (pmm_refcount s).[i]).
    + destruct (bm_test (pmm_bitmap s) i); [|lia].
      assert (below (i + 1) = <[i := (pmm_refcount s).[i]]> (below i)) as Heq.
      { apply map_eq. intros k. apply option_eq. intros c.
        unfold below. rewrite lookup_insert_Some, !map_lookup_filter_Some.
        destruct (Z.eq_dec i k) as [<-|]; [rewrite Hm|]; intuition (congruence || lia). }
      specialize (Hle (i + 1)). rewrite Heq in Hle |- *.
      rewrite map_size_insert_None in Hle |- *.
      * rewrite u32_small by lia. lia.
      * apply map_lookup_filter_None. right. lia.
      * apply map_lookup_filter_None. right. lia.
    + f_equal. f_equal. apply map_filter_ext. intros f c Hc.
      apply (inv_map _ _ Hinv) in Hc as (? & ? & ->).
      destruct (Z.eq_dec f i) as [->|]; intuition lia.
Qed.

(** the reports are true.  In every consistent state the free memory
    reported is the total less one page per frame in use, a frame's reported
    count is its number of owners (0 for a frame nobody owns), and the number of
    shared frames is the number with more than one owner. *)
Theorem pmm_reports s m :
  pmm_inv s m ->
  pmm_get_free_memory s = pmm_get_total_memory s - PAGE_SIZE * Z.of_nat (size m) /\
  (forall addr, 0 <= addr -> pmm_frame_refcount s addr = default 0 (m !! (addr / PAGE_SIZE))) /\
  pmm_get_shared_frames s = Z.of_nat (size (filter (fun '(_, c) => 1 < c) m)).
Proof.
  intros Hinv. split; [|split; [|by apply shared_frames_count]].
  - unfold pmm_get_free_memory, pmm_get_total_memory.
    pose proof (total_memory_bound _ _ Hinv). pose proof (map_size_le _ _ Hinv).
    rewrite (inv_used _ _ Hinv). unfold PAGE_SIZE in *. case_bool; [lia|]. rewrite u32_small; lia.
  - intros addr Ha. unfold pmm_frame_refcount. case_bool.
    + by rewrite (map_out_of_range _ _ _ Hinv).
    + assert (0 <= addr / PAGE_SIZE < pmm_frames_count s) as Hf by (unfold PAGE_SIZE in *; zlia).
      rewrite (map_test _ _ Hinv) by done. pose proof (inv_rc _ _ Hinv _ Hf) as Hrc.
      by destruct (bm_test _ _).
Qed.

Lemma pmm_reports_witness : pmm_get_shared_frames (pmm_ref_frame boot_pmm 0x100000) = 1.
Proof.
  destruct boot_pmm_inv as [m Hm]. destruct (ref_frame_inv _ _ 0x100000 Hm) as [Hm' _].
  destruct (pmm_reports _ _ Hm') as (_ & _ & ->).
  rewrite <- (shared_frames_count _ _ Hm'). vm_compute. reflexivity.
Defined.

(** ** Memory above 4 GB

    The walk reads the low halves of an entry's base and length only.  A region
    the map places above 4 GB is therefore taken for the memory of the same low
    address: here the megabyte from 2 MB up is reserved, and a 3 MB region at
    4 GB makes [init_pmm] mark it usable. *)
Definition high_region_mmap (a : Z) : mmap_entry :=
  if a =? 0x1000 then mk_mmap_entry 20 0x100000 0 0x100000 0 1
  else if a =? 0x1018 then mk_mmap_entry 20 0x200000 0 0x100000 0 2
  else mk_mmap_entry 20 0 1 0x300000 0 1.

Example high_region_frees_reserved_memory :
  (fun s => bm_test (pmm_bitmap s) (0x200000 / PAGE_SIZE)) <$>
    init_pmm 0xC0000000 (Some (mk_multiboot_info 64 0 72 0x1000)) high_region_mmap = Some false.
Proof. vm_compute. reflexivity. Qed.

End Pmm.
