(* ===== verification/Fat.v ===== *)
(** * The allocation table (fs/vfs.c)

    The file system keeps one word per cluster: free, end of a chain, or the
    next cluster.  The loops of [allocate_fat_chain] and [fs_delete] over that
    table are here, on the table alone; Vfs.v puts the disk around them. *)

From S2P Require Import Prelude.

Module Fat.

Definition FAT_EOF : Z := 0xFFFFFFFF.
Definition FAT_FREE : Z := 0.
Definition FS_FIRST_DATA_CLUSTER : Z := 2.
Definition FS_MAX_CLUSTERS_CAP : Z := 262144.

(** ** The loops *)

(** The variables of the allocation loop. *)
Record alloc_vars : Type := mk_alloc {
  av_start : Z;
  av_current : Z;
  av_allocated : Z;
  a_fat : list Z
}.

Definition alloc_step (count : Z) (v : alloc_vars) (i : Z) : alloc_vars :=
  if (av_allocated v <? count) && ((a_fat v).[i] =? FAT_FREE) then
    let first := av_start v =? FAT_EOF in
    let fat := if first then a_fat v else (a_fat v).[av_current v <- i] in
    mk_alloc (if first then i else av_start v) i (av_allocated v + 1) fat.[i <- FAT_EOF]
  else v.

Definition alloc_loop (total count : Z) (fat : list Z) : alloc_vars :=
  for_range FS_FIRST_DATA_CLUSTER total (alloc_step count) (mk_alloc FAT_EOF FAT_EOF 0 fat).

(** One turn of the loops that give clusters back. *)
Definition free_step (st : Z * list Z) : Z * list Z := (st.2.[st.1], st.2.[st.1 <- FAT_FREE]).

Definition rollback_loop (fat : list Z) (rollback : Z) : Z * list Z :=
  while_loop (length fat) (fun st => negb (st.1 =? FAT_EOF)) free_step (rollback, fat).

(** [allocate_fat_chain] up to the call that saves the table. *)
Definition fat_alloc (total count : Z) (fat : list Z) : Z * list Z :=
  if count =? 0 then (FAT_EOF, fat)
  else
    let v := alloc_loop total count fat in
    if av_allocated v <? count then (FAT_FREE, (rollback_loop (a_fat v) (av_start v)).2)
    else (av_start v, a_fat v).

(** The loop of [fs_delete]; the [break] is its last condition. *)
Definition delete_cond (total : Z) (st : Z * list Z) : bool :=
  negb (st.1 =? FAT_EOF) && negb (st.1 =? FAT_FREE) && (st.1 <? total).

Definition free_chain_loop (total : Z) (fat : list Z) (c : Z) : Z * list Z :=
  while_loop (S (length fat)) (delete_cond total) free_step (c, fat).

(** ** Chains *)

(** [is_chain total fat c l]: following the table from [c] visits exactly the
    clusters [l], all of them inside the file system, and reaches the end. *)
Fixpoint is_chain (total : Z) (fat : list Z) (c : Z) (l : list Z) : Prop :=
  match l with
  | [] => c = FAT_EOF
  | x :: l' => c = x /\ FS_FIRST_DATA_CLUSTER <= x < total /\ is_chain total fat fat.[x] l'
  end.

Lemma chain_range total fat l : forall c x, is_chain total fat c l -> x ∈ l -> FS_FIRST_DATA_CLUSTER <= x < total.
Proof.
  induction l as [|y l IH]; intros c x Hc Hx; [by apply elem_of_nil in Hx|].
  destruct Hc as (_ & Hy & Hc). apply elem_of_cons in Hx as [->|Hx]; [done|by apply (IH _ _ Hc)].
Qed.

Lemma chain_frame total fat fat' l : forall c,
  is_chain total fat c l -> (forall x, x ∈ l -> fat'.[x] = fat.[x]) -> is_chain total fat' c l.
Proof.
  induction l as [|x l IH]; intros c Hc Heq; [done|]. destruct Hc as (-> & Hx & Hc).
  split; [done|]. split; [done|]. rewrite Heq by (by left). apply IH; [done|]. intros. apply Heq. by right.
Qed.

(** The table determines the chain. *)
Lemma chain_functional total fat l1 : forall l2 c,
  total <= FS_MAX_CLUSTERS_CAP -> is_chain total fat c l1 -> is_chain total fat c l2 -> l1 = l2.
Proof.
  induction l1 as [|x l1 IH]; intros [|y l2] c Hcap H1 H2; [done| | |];
    unfold FS_MAX_CLUSTERS_CAP in *; simpl in H1, H2.
  - destruct H2 as (-> & ? & _). unfold FAT_EOF in H1. lia.
  - destruct H1 as (-> & ? & _). unfold FAT_EOF in H2. lia.
  - destruct H1 as (-> & ? & H1), H2 as (-> & ? & H2). f_equal. by apply (IH _ fat.[y]).
Qed.

Lemma chain_suffix total fat l1 x : forall l2 c,
  is_chain total fat c (l1 ++ x :: l2) -> is_chain total fat x (x :: l2).
Proof.
  induction l1 as [|y l1 IH]; intros l2 c Hc; simpl in Hc.
  - destruct Hc as (_ & ? & ?). simpl. auto.
  - destruct Hc as (_ & _ & Hc). by apply (IH _ _ Hc).
Qed.

(** A chain that ends visits no cluster twice. *)
Lemma chain_NoDup total fat l : forall c,
  total <= FS_MAX_CLUSTERS_CAP -> is_chain total fat c l -> NoDup l.
Proof.
  induction l as [|x l IH]; intros c Hcap Hc; [apply NoDup_nil_2|].
  pose proof Hc as (-> & ? & Hc'). apply NoDup_cons. split; [|by apply (IH _ Hcap Hc')].
  intros Hx. apply list_elem_of_split in Hx as (l1 & l2 & ->).
  pose proof (chain_suffix _ _ _ _ _ _ Hc') as Hs.
  pose proof (chain_functional _ _ _ _ _ Hcap Hc Hs) as Heq.
  apply (f_equal length) in Heq. simpl in Heq. rewrite length_app in Heq. simpl in Heq. lia.
Qed.

(** ** Giving clusters back *)

Definition clear_all (l : list Z) (fat : list Z) : list Z := foldl (fun f x => f.[x <- FAT_FREE]) fat l.

Lemma clear_all_cons x l fat : clear_all (x :: l) fat = clear_all l fat.[x <- FAT_FREE].
Proof. done. Qed.

Lemma alen_clear_all l : forall fat, alen (clear_all l fat) = alen fat.
Proof. induction l as [|x l IH]; intros fat; [done|]. rewrite clear_all_cons, IH. apply alen_aset. Qed.

Lemma aget_clear_all l : forall fat j,
  Forall (fun x => 0 <= x < alen fat) l -> 0 <= j ->
  (clear_all l fat).[j] = if bool_decide (j ∈ l) then FAT_FREE else fat.[j].
Proof.
  induction l as [|x l IH]; intros fat j Hl Hj; [done|]. apply Forall_cons in Hl as [Hx Hl].
  rewrite clear_all_cons, IH; [|by rewrite alen_aset|done]. rewrite aget_aset by lia.
  destruct (Z.eqb_spec x j); repeat case_bool_decide; set_solver.
Qed.

Lemma free_loop_chain total fat cond n : forall l c,
  total <= alen fat -> total <= FS_MAX_CLUSTERS_CAP -> is_chain total fat c l -> (length l < n)%nat ->
  (forall f, cond (FAT_EOF, f) = false) -> (forall x f, x ∈ l -> cond (x, f) = true) ->
  while_loop n cond free_step (c, fat) = (FAT_EOF, clear_all l fat).
Proof.
  revert fat. induction n as [|n IH]; intros fat l c Hlen Hcap Hc Hn Hend Hgo; [lia|].
  destruct l as [|x l]; simpl in Hc; cbn [while_loop].
  { subst c. by rewrite Hend. }
  destruct Hc as (-> & Hx & Hc). rewrite Hgo by (by left). unfold free_step. cbn [fst snd].
  rewrite clear_all_cons. rewrite <- IH with (c := fat.[x]) (l := l); [done|by rewrite alen_aset|done| |simpl in Hn; lia|done|].
  - apply (chain_frame _ fat); [done|]. intros y Hy. apply aget_aset_ne; [unfold FS_FIRST_DATA_CLUSTER in *; lia| |].
    + apply (chain_range _ _ _ _ _ Hc) in Hy. unfold FS_FIRST_DATA_CLUSTER in *. lia.
    + intros ->. assert (NoDup (y :: l)) as Hnd by (apply (chain_NoDup total fat _ y Hcap); simpl; auto).
      by apply NoDup_cons in Hnd as [].
  - intros y f Hy. apply Hgo. by right.
Qed.

Lemma chain_length total fat l c :
  0 <= total <= alen fat -> total <= FS_MAX_CLUSTERS_CAP -> is_chain total fat c l -> (length l <= length fat)%nat.
Proof.
  intros Hlen Hcap Hc. pose proof (chain_NoDup _ _ _ _ Hcap Hc) as Hnd.
  assert (l ⊆ seqZ 0 total) as Hsub.
  { intros x Hx. apply (chain_range _ _ _ _ _ Hc) in Hx. apply elem_of_seqZ. unfold FS_FIRST_DATA_CLUSTER in *. lia. }
  apply NoDup_submseteq in Hsub; [|done]. apply submseteq_length in Hsub.
  rewrite length_seqZ in Hsub. unfold alen in Hlen. lia.
Qed.

(** The rollback and the deletion of a chain end, having freed the chain and
    touched nothing else. *)
Lemma rollback_chain total fat l c :
  0 <= total <= alen fat -> total <= FS_MAX_CLUSTERS_CAP -> is_chain total fat c l ->
  (length l < length fat)%nat -> rollback_loop fat c = (FAT_EOF, clear_all l fat).
Proof.
  intros Hlen Hcap Hc Hl. apply (free_loop_chain total); try done; [lia|].
  intros x f Hx. apply (chain_range _ _ _ _ _ Hc) in Hx.
  unfold FAT_EOF, FS_MAX_CLUSTERS_CAP in *. simpl. lia.
Qed.

Lemma delete_chain total fat l c :
  0 <= total <= alen fat -> total <= FS_MAX_CLUSTERS_CAP -> is_chain total fat c l ->
  free_chain_loop total fat c = (FAT_EOF, clear_all l fat).
Proof.
  intros Hlen Hcap Hc. apply (free_loop_chain total); try done; [lia| |].
  - pose proof (chain_length _ _ _ _ Hlen Hcap Hc). lia.
  - intros x f Hx. apply (chain_range _ _ _ _ _ Hc) in Hx.
    unfold delete_cond, FAT_EOF, FAT_FREE, FS_FIRST_DATA_CLUSTER, FS_MAX_CLUSTERS_CAP in *. simpl. lia.
Qed.

(** The deletion loop ends on any table, a cyclic one included: every turn but
    the last frees an entry that was in use. *)
Definition in_use (fat : list Z) : nat := length (filter (fun w => w <> FAT_FREE) fat).

Lemma in_use_le fat : (in_use fat <= length fat)%nat.
Proof. apply length_filter. Qed.

Lemma in_use_clear fat i :
  0 <= i < alen fat -> fat.[i] <> FAT_FREE -> S (in_use fat.[i <- FAT_FREE]) = in_use fat.
Proof.
  unfold aset, aget, alen. intros Hi. destruct (Z.ltb_spec i 0); [lia|].
  assert (Z.to_nat i < length fat)%nat as Hlt by lia. revert Hlt. generalize (Z.to_nat i). clear.
  unfold in_use. induction fat as [|w fat IH]; intros k Hk Hw; simpl in Hk; [lia|].
  destruct k as [|k]; simpl in *; rewrite !filter_cons; repeat case_decide; try done; simpl.
  - rewrite (IH k); [done|lia|done].
  - apply IH; [lia|done].
Qed.

Lemma free_chain_loop_done total fat c :
  0 <= total <= alen fat -> 0 <= c -> Forall (fun w => 0 <= w) fat ->
  delete_cond total (free_chain_loop total fat c) = false.
Proof.
  intros Hlen Hc Hpos. unfold free_chain_loop.
  apply (while_loop_done
    (fun st => 0 <= st.1 /\ Forall (fun w => 0 <= w) st.2 /\ alen st.2 = alen fat)
    (fun st => in_use st.2 + if delete_cond total st then 1 else 0)%nat).
  - done.
  - intros [x f] (Hx & Hf & Hlf) Hcond. simpl in *. rewrite Hcond. unfold delete_cond in Hcond. simpl in Hcond.
    unfold FAT_EOF, FAT_FREE in *. bool_to_prop. assert (0 <= x < alen f) as Hin by lia.
    assert (0 <= f.[x]) as Hnext.
    { pose proof (aget_lookup f x Hin) as Hl. by apply (Forall_lookup_1 _ _ _ _ Hf Hl). }
    split.
    + split; [done|]. split; [|by rewrite alen_aset]. unfold aset. destruct (x <? 0); [done|].
      by apply Forall_insert.
    + unfold free_step. cbn [fst snd]. destruct (Z.eq_dec f.[x] FAT_FREE) as [Hfree|Hused].
      * unfold FAT_FREE in *. rewrite Hfree. unfold delete_cond at 1. simpl.
        pose proof (aget_aset_self f x Hin) as Hsame. rewrite Hfree in Hsame. rewrite Hsame. lia.
      * pose proof (in_use_clear f x Hin Hused). unfold FAT_FREE in *. destruct (delete_cond _ _); lia.
  - simpl. pose proof (in_use_le fat). destruct (delete_cond _ _); lia.
Qed.

(** ** Allocating *)

(** The free clusters of [a, b), in order. *)
Definition free_in (fat : list Z) (a b : Z) : list Z := filter (fun j => fat.[j] = FAT_FREE) (seqZ a (b - a)).

Lemma elem_of_free_in fat a b j : j ∈ free_in fat a b <-> a <= j < b /\ fat.[j] = FAT_FREE.
Proof. unfold free_in. rewrite list_elem_of_filter, elem_of_seqZ. lia. Qed.

Lemma NoDup_free_in fat a b : NoDup (free_in fat a b).
Proof. apply NoDup_filter, NoDup_seqZ. Qed.

Lemma free_in_succ fat a i :
  a <= i -> free_in fat a (i + 1) = free_in fat a i ++ (if fat.[i] =? FAT_FREE then [i] else []).
Proof.
  intros Hi. unfold free_in. replace (i + 1 - a) with (i - a + 1) by lia.
  rewrite seqZ_app by lia. rewrite filter_app. f_equal. replace (a + (i - a)) with i by lia.
  change (seqZ i 1) with [i]. rewrite filter_cons, filter_nil.
  destruct (Z.eqb_spec fat.[i] FAT_FREE); case_decide; done.
Qed.

(** Linking one more cluster to a chain. *)
Lemma chain_snoc total fat i x l : forall c,
  total <= alen fat -> NoDup (l ++ [x]) -> i ∉ l ++ [x] -> FS_FIRST_DATA_CLUSTER <= i < total ->
  is_chain total fat c (l ++ [x]) ->
  is_chain total fat.[x <- i].[i <- FAT_EOF] c (l ++ [x; i]).
Proof.
  induction l as [|y l IH]; intros c Hlen Hnd Hi Hr Hc; simpl in *; unfold FS_FIRST_DATA_CLUSTER in *.
  - destruct Hc as (-> & Hx & _). assert (x <> i) by set_solver.
    split; [done|]. split; [done|]. rewrite aget_aset_ne, aget_aset_eq by (rewrite ?alen_aset; lia).
    split; [done|]. split; [done|]. apply aget_aset_eq. rewrite alen_aset. lia.
  - destruct Hc as (-> & Hy & Hc). apply NoDup_cons in Hnd as [Hy' Hnd].
    pose proof (chain_range _ _ _ _ x Hc ltac:(set_solver)) as Hxr. unfold FS_FIRST_DATA_CLUSTER in Hxr.
    assert (y <> x /\ y <> i) as [? ?] by set_solver.
    split; [done|]. split; [done|]. rewrite !aget_aset_ne by lia. apply IH; [done|done|set_solver|done|done].
Qed.

(** The loop before slot [i]: it has linked the first free clusters, up to
    [count] of them, and changed nothing else. *)
Definition alloc_inv (total count : Z) (fat0 : list Z) (i : Z) (v : alloc_vars) : Prop :=
  let l := take (Z.to_nat count) (free_in fat0 FS_FIRST_DATA_CLUSTER i) in
  av_allocated v = alen l /\ alen (a_fat v) = alen fat0 /\
  is_chain total (a_fat v) (av_start v) l /\
  (forall j, 0 <= j -> j ∉ l -> (a_fat v).[j] = fat0.[j]) /\
  (forall l' x, l = l' ++ [x] -> av_current v = x).

Lemma alloc_step_inv total count fat0 i v :
  0 < count -> FS_FIRST_DATA_CLUSTER <= i < total -> total <= alen fat0 -> total <= FS_MAX_CLUSTERS_CAP ->
  alloc_inv total count fat0 i v -> alloc_inv total count fat0 (i + 1) (alloc_step count v i).
Proof.
  intros Hc Hi Hlen Hcap (Hall & Hal & Hch & Hframe & Hcur). unfold alloc_inv, alloc_step.
  set (l := take (Z.to_nat count) (free_in fat0 FS_FIRST_DATA_CLUSTER i)) in *.
  assert (i ∉ l) as Hil.
  { intros Hin. apply subseteq_take, elem_of_free_in in Hin. lia. }
  rewrite free_in_succ by lia. rewrite (Hframe i) by (unfold FS_FIRST_DATA_CLUSTER in *; lia || done).
  destruct (Z.ltb_spec (av_allocated v) count) as [Hlt|Hge]; cbn [andb].
  2: { assert (length l = Z.to_nat count) as Hfull
         by (pose proof (length_take (free_in fat0 FS_FIRST_DATA_CLUSTER i) (Z.to_nat count)); unfold alen, l in *; lia).
       rewrite take_app_le by (unfold l in Hfull; rewrite length_take in Hfull; lia). done. }
  assert (free_in fat0 FS_FIRST_DATA_CLUSTER i = l) as Hfl.
  { unfold l. rewrite take_ge; [done|]. unfold alen, l in *. rewrite length_take in *. lia. }
  rewrite Hfl. destruct (Z.eqb_spec fat0.[i] FAT_FREE) as [Hfree|Hused].
  2: { rewrite app_nil_r. rewrite (take_ge l) by (unfold alen in *; lia). done. }
  rewrite take_ge by (rewrite length_app; unfold alen in *; simpl; lia). cbn [av_start av_current av_allocated a_fat].
  assert (NoDup l) as Hnd by (rewrite <- Hfl; apply NoDup_free_in).
  assert (0 <= i < alen fat0) as Hir by (unfold FS_FIRST_DATA_CLUSTER in *; lia).
  split; [rewrite alen_app; unfold alen at 2; simpl; lia|].
  split; [by destruct (_ =? _); rewrite !alen_aset|].
  destruct (decide (l = [])) as [Hnil|Hne].
  - rewrite Hnil in *. simpl in Hch. rewrite Hch. change (FAT_EOF =? FAT_EOF) with true. cbn [app].
    split; [|split].
    + split; [done|]. split; [done|]. apply aget_aset_eq. lia.
    + intros j Hj Hj'. assert (i <> j) by (intros ->; apply Hj', list_elem_of_singleton; done).
      rewrite aget_aset_ne by lia. apply Hframe; [done|apply not_elem_of_nil].
    + intros l' x Hx. by apply (app_inj_tail [] l' i x) in Hx as [_ ->].
  - destruct (exists_last Hne) as (l0 & x & Hl0). rewrite Hl0 in *.
    specialize (Hcur l0 x eq_refl). subst x.
    pose proof (chain_range _ _ _ _ (av_current v) Hch ltac:(set_solver)) as Hcr.
    assert (av_start v =? FAT_EOF = false) as ->.
    { destruct l0 as [|y l1]; simpl in Hch; destruct Hch as (-> & ? & _);
        unfold FAT_EOF, FS_MAX_CLUSTERS_CAP in *; lia. }
    unfold FS_FIRST_DATA_CLUSTER in Hcr. rewrite <- app_assoc. split; [|split].
    + apply chain_snoc; [lia|done|done|done|done].
    + intros j Hj Hj'. assert (j <> i /\ j <> av_current v) as [? ?] by set_solver.
      rewrite !aget_aset_ne by lia. apply Hframe; [done|set_solver].
    + intros l' x Hx. change (l0 ++ [av_current v] ++ [i]) with (l0 ++ ([av_current v] ++ [i])) in Hx.
      rewrite app_assoc in Hx. by apply app_inj_tail in Hx as [_ ->].
Qed.

Lemma alloc_loop_inv total count fat :
  0 < count -> FS_FIRST_DATA_CLUSTER <= total -> total <= alen fat -> total <= FS_MAX_CLUSTERS_CAP ->
  alloc_inv total count fat total (alloc_loop total count fat).
Proof.
  intros Hc Ht Hlen Hcap. apply (for_range_ind (alloc_inv total count fat)); [done| |].
  - unfold alloc_inv. replace (free_in _ _ _) with (@nil Z) by (unfold free_in; by rewrite seqZ_nil by lia).
    rewrite take_nil. split; [done|]. split; [done|]. split; [done|]. split; [done|]. by intros [].
  - intros i v Hi. by apply alloc_step_inv.
Qed.

(** What [allocate_fat_chain] does to the table. *)
Lemma fat_alloc_spec total count fat c fat' :
  0 < count -> FS_FIRST_DATA_CLUSTER <= total -> total <= alen fat -> total <= FS_MAX_CLUSTERS_CAP ->
  fat_alloc total count fat = (c, fat') ->
  if alen (free_in fat FS_FIRST_DATA_CLUSTER total) <? count then c = FAT_FREE /\ fat' = fat
  else
    let l := take (Z.to_nat count) (free_in fat FS_FIRST_DATA_CLUSTER total) in
    alen l = count /\ is_chain total fat' c l /\ alen fat' = alen fat /\
    forall j, 0 <= j -> j ∉ l -> fat'.[j] = fat.[j].
Proof.
  intros Hc Ht Hlen Hcap. unfold fat_alloc. destruct (Z.eqb_spec count 0); [lia|].
  destruct (alloc_loop_inv total count fat Hc Ht Hlen Hcap) as (Hall & Hal & Hch & Hframe & _).
  set (v := alloc_loop total count fat) in *.
  set (fr := free_in fat FS_FIRST_DATA_CLUSTER total) in *. set (l := take (Z.to_nat count) fr) in *.
  assert (alen l = Z.min count (alen fr)) as Hl by (unfold l, alen; rewrite length_take; lia).
  destruct (Z.ltb_spec (av_allocated v) count), (Z.ltb_spec (alen fr) count); try lia; intros [= <- <-].
  - split; [done|].
    assert (length l <= length fr)%nat as Hle by (unfold alen in Hl; lia).
    assert (length fr <= Z.to_nat (total - 2))%nat as Hfr.
    { unfold fr, free_in. etransitivity; [apply length_filter|]. rewrite length_seqZ. unfold FS_FIRST_DATA_CLUSTER. lia. }
    assert (0 <= total <= alen (a_fat v)) as Ht' by (unfold FS_FIRST_DATA_CLUSTER in *; lia).
    rewrite (rollback_chain total _ l) by (done || unfold alen, FS_FIRST_DATA_CLUSTER in *; lia). cbn [snd].
    apply aget_ext; [by rewrite alen_clear_all|]. intros j Hj. rewrite alen_clear_all in Hj.
    rewrite aget_clear_all; [|apply Forall_forall; intros x Hx; apply (chain_range _ _ _ _ _ Hch) in Hx;
      unfold FS_FIRST_DATA_CLUSTER in *; lia|lia].
    case_bool_decide as Hin; [|apply Hframe; [lia|done]].
    apply subseteq_take, elem_of_free_in in Hin. by destruct Hin.
  - split; [lia|]. done.
Qed.

End Fat.
