(* ===== verification/FsFormat.v ===== *)
(** * The on-disk format (include/fs.h, fs/vfs.c)

    The structures of the disk as the kernel lays them over a sector: directory
    entries, the superblock and the partition table, with their byte encodings;
    the geometry [format_disk] chooses, the checks [load_superblock] and
    [load_partition] make before a disk is believed, and the consistency check
    of the directory table.  Everything here is about bytes and tables; the
    functions that read and write sectors are in Vfs.v. *)

From S2P Require Import Prelude CStr Fat.
Import Fat.

Module FsFormat.

Definition MAX_FILENAME : Z := 64.
Definition FS_MAX_ENTRIES_CAP : Z := 8192.
Definition FS_DIR_START_SECTOR : Z := 1.
Definition FS_DATA_START_SECTOR : Z := 200.
Definition FS_CLUSTER_SECTORS : Z := 8.
Definition FS_PART_START_LBA : Z := 64.
Definition FS_PART_TYPE : Z := 0x7F.
Definition FT_REGULAR : Z := 0.
Definition FT_DIR : Z := 1.
Definition FS_MODE_DEFAULT_FILE : Z := 0x1A4.  (* 0644 *)
Definition FS_MODE_DEFAULT_DIR : Z := 0x1ED.   (* 0755 *)
Definition FS_MODE_PERM_MASK : Z := 0xFFF.     (* 07777 *)
Definition FS_SUPER_SECTOR : Z := 0.
Definition FS_SUPER_MAGIC : Z := 0x46647365.
Definition FS_FORMAT_VERSION : Z := 3.
Definition MBR_SIGNATURE : Z := 0xAA55.
Definition MBR_PART_OFFSET : Z := 446.
Definition MBR_PART_COUNT : Z := 4.
Definition FS_LEGACY_DIR_SECTORS : Z := 136.

(** ** Little-endian fields *)

Fixpoint le (n : nat) (x : Z) : list Z :=
  match n with
  | O => []
  | S n' => x mod 256 :: le n' (x / 256)
  end.

Fixpoint unle (b : list Z) : Z :=
  match b with
  | [] => 0
  | x :: b' => x + 256 * unle b'
  end.

(** A field read off the front of a buffer. *)
Definition get_le (n : nat) (b : list Z) : Z * list Z := (unle (take n b), drop n b).

Lemma length_le n : forall x, length (le n x) = n.
Proof. induction n as [|n IH]; intros x; simpl; [done|]. by rewrite IH. Qed.

Lemma unle_le n : forall x, 0 <= x < 256 ^ Z.of_nat n -> unle (le n x) = x.
Proof.
  induction n as [|n IH]; intros x Hx; simpl le; cbn [unle]; [simpl in Hx; lia|].
  rewrite Nat2Z.inj_succ, Z.pow_succ_r in Hx by lia. rewrite IH.
  - pose proof (Z.div_mod x 256). lia.
  - split; [apply Z.div_pos; lia|]. apply Z.div_lt_upper_bound; lia.
Qed.

Lemma get_le_app n x b : 0 <= x < 256 ^ Z.of_nat n -> get_le n (le n x ++ b) = (x, b).
Proof.
  intros Hx. unfold get_le.
  by rewrite take_app_length', drop_app_length', unle_le by (rewrite ?length_le; done).
Qed.

(** ** Directory entries *)

Record disk_file_entry : Type := mk_entry {
  filename : list Z;
  file_size : Z;
  start_cluster : Z;
  owner_uid : Z;
  owner_gid : Z;
  mtime : Z;
  ctime : Z;
  entry_id : Z;
  parent_id : Z;
  mode : Z;
  file_type : Z;
  is_used : Z
}.

#[export] Instance entry_czero : CZero disk_file_entry := mk_entry (replicate 64 0) 0 0 0 0 0 0 0 0 0 0 0.

Definition ENTRY_SIZE : Z := 96.

Definition encode_entry (e : disk_file_entry) : list Z :=
  filename e ++ le 4 (file_size e) ++ le 4 (start_cluster e) ++ le 4 (owner_uid e) ++
  le 4 (owner_gid e) ++ le 4 (mtime e) ++ le 4 (ctime e) ++ le 2 (entry_id e) ++
  le 2 (parent_id e) ++ le 2 (mode e) ++ le 1 (file_type e) ++ le 1 (is_used e).

Definition decode_entry (b : list Z) : disk_file_entry :=
  let fn := take 64 b in
  let '(sz, b) := get_le 4 (drop 64 b) in
  let '(sc, b) := get_le 4 b in
  let '(uid, b) := get_le 4 b in
  let '(gid, b) := get_le 4 b in
  let '(mt, b) := get_le 4 b in
  let '(ct, b) := get_le 4 b in
  let '(id, b) := get_le 2 b in
  let '(pa, b) := get_le 2 b in
  let '(mo, b) := get_le 2 b in
  let '(ft, b) := get_le 1 b in
  let '(us, _) := get_le 1 b in
  mk_entry fn sz sc uid gid mt ct id pa mo ft us.

(** The fields are within their C types. *)
Record entry_typed (e : disk_file_entry) : Prop := {
  et_name : length (filename e) = 64%nat;
  et_size : is_u32 (file_size e);
  et_start : is_u32 (start_cluster e);
  et_uid : is_u32 (owner_uid e);
  et_gid : is_u32 (owner_gid e);
  et_mtime : is_u32 (mtime e);
  et_ctime : is_u32 (ctime e);
  et_id : 0 <= entry_id e < 2 ^ 16;
  et_parent : 0 <= parent_id e < 2 ^ 16;
  et_mode : 0 <= mode e < 2 ^ 16;
  et_type : is_u8 (file_type e);
  et_used : is_u8 (is_used e)
}.

Lemma length_encode_entry e : length (filename e) = 64%nat -> length (encode_entry e) = 96%nat.
Proof. intros Hn. unfold encode_entry. rewrite !length_app, Hn, !length_le. done. Qed.

Lemma decode_encode_entry e rest : entry_typed e -> decode_entry (encode_entry e ++ rest) = e.
Proof.
  intros []. unfold encode_entry, decode_entry, is_u32, is_u8 in *. rewrite <- !app_assoc.
  rewrite take_app_length', drop_app_length' by done.
  rewrite !get_le_app by (simpl; lia). by destruct e.
Qed.

(** The table and its bytes. *)
Definition dir_bytes (dir : list disk_file_entry) : list Z := concat (map encode_entry dir).

Fixpoint decode_entries (n : nat) (b : list Z) : list disk_file_entry :=
  match n with
  | O => []
  | S n' => decode_entry b :: decode_entries n' (drop 96 b)
  end.

Lemma decode_dir_bytes dir rest :
  Forall entry_typed dir -> decode_entries (length dir) (dir_bytes dir ++ rest) = dir.
Proof.
  induction 1 as [|e dir He _ IH]; [done|]. unfold dir_bytes in *. cbn [length map concat decode_entries].
  rewrite <- app_assoc, decode_encode_entry by done. f_equal.
  rewrite drop_app_length' by (rewrite length_encode_entry; [done|apply He]). done.
Qed.

Lemma length_dir_bytes dir :
  Forall entry_typed dir -> Z.of_nat (length (dir_bytes dir)) = ENTRY_SIZE * alen dir.
Proof.
  induction 1 as [|e dir He _ IH]; [done|]. unfold dir_bytes, alen in *. cbn [length map concat].
  rewrite length_app, length_encode_entry by apply He. unfold ENTRY_SIZE in *. lia.
Qed.

(** ** The allocation table's bytes *)

Definition fat_bytes (fat : list Z) : list Z := concat (map (le 4) fat).

Fixpoint decode_words (n : nat) (b : list Z) : list Z :=
  match n with
  | O => []
  | S n' => unle (take 4 b) :: decode_words n' (drop 4 b)
  end.

Lemma decode_fat_bytes fat rest :
  Forall is_u32 fat -> decode_words (length fat) (fat_bytes fat ++ rest) = fat.
Proof.
  induction 1 as [|w fat Hw _ IH]; [done|]. unfold fat_bytes in *. cbn [length map concat decode_words].
  rewrite <- app_assoc, take_app_length', drop_app_length' by (by rewrite length_le).
  unfold is_u32 in Hw. rewrite unle_le by (simpl; lia). by rewrite IH.
Qed.

Lemma length_fat_bytes fat : length (fat_bytes fat) = (4 * length fat)%nat.
Proof.
  induction fat as [|w fat IH]; [done|]. unfold fat_bytes in *. cbn [length map concat].
  rewrite length_app, length_le. lia.
Qed.

(** ** The superblock *)

(** The key slot is kept as its bytes: nothing in the file system looks inside. *)
Record disk_superblock : Type := mk_super {
  sb_magic : Z;
  sb_format_version : Z;
  sb_sector_size : Z;
  sb_total_sectors : Z;
  sb_dir_start : Z;
  sb_dir_sectors : Z;
  sb_max_entries : Z;
  sb_entry_size : Z;
  sb_cluster_sectors : Z;
  sb_fat_start : Z;
  sb_data_start : Z;
  sb_total_clusters : Z;
  sb_flags : Z;
  sb_keyslot : list Z
}.

Definition KEYSLOT_SIZE : Z := 116.
Definition FS_SUPER_DISK_SIZE : Z := 160.

Definition encode_super (sb : disk_superblock) : list Z :=
  le 4 (sb_magic sb) ++ le 2 (sb_format_version sb) ++ le 2 (sb_sector_size sb) ++
  le 4 (sb_total_sectors sb) ++ le 4 (sb_dir_start sb) ++ le 4 (sb_dir_sectors sb) ++
  le 4 (sb_max_entries sb) ++ le 2 (sb_entry_size sb) ++ le 2 (sb_cluster_sectors sb) ++
  le 4 (sb_fat_start sb) ++ le 4 (sb_data_start sb) ++ le 4 (sb_total_clusters sb) ++
  le 4 (sb_flags sb) ++ sb_keyslot sb.

Definition decode_super (b : list Z) : disk_superblock :=
  let '(magic, b) := get_le 4 b in
  let '(version, b) := get_le 2 b in
  let '(secsz, b) := get_le 2 b in
  let '(total, b) := get_le 4 b in
  let '(dstart, b) := get_le 4 b in
  let '(dsecs, b) := get_le 4 b in
  let '(maxent, b) := get_le 4 b in
  let '(entsz, b) := get_le 2 b in
  let '(clsec, b) := get_le 2 b in
  let '(fstart, b) := get_le 4 b in
  let '(datast, b) := get_le 4 b in
  let '(totcl, b) := get_le 4 b in
  let '(flags, b) := get_le 4 b in
  mk_super magic version secsz total dstart dsecs maxent entsz clsec fstart datast totcl flags
    (take (Z.to_nat KEYSLOT_SIZE) b).

Record super_typed (sb : disk_superblock) : Prop := {
  st_magic : is_u32 (sb_magic sb);
  st_version : 0 <= sb_format_version sb < 2 ^ 16;
  st_secsz : 0 <= sb_sector_size sb < 2 ^ 16;
  st_total : is_u32 (sb_total_sectors sb);
  st_dstart : is_u32 (sb_dir_start sb);
  st_dsecs : is_u32 (sb_dir_sectors sb);
  st_maxent : is_u32 (sb_max_entries sb);
  st_entsz : 0 <= sb_entry_size sb < 2 ^ 16;
  st_clsec : 0 <= sb_cluster_sectors sb < 2 ^ 16;
  st_fstart : is_u32 (sb_fat_start sb);
  st_datast : is_u32 (sb_data_start sb);
  st_totcl : is_u32 (sb_total_clusters sb);
  st_flags : is_u32 (sb_flags sb);
  st_keyslot : length (sb_keyslot sb) = Z.to_nat KEYSLOT_SIZE
}.

Lemma decode_encode_super sb rest : super_typed sb -> decode_super (encode_super sb ++ rest) = sb.
Proof.
  intros []. unfold encode_super, decode_super, is_u32 in *. rewrite <- !app_assoc.
  rewrite !get_le_app by (simpl; lia). rewrite take_app_length' by done. by destruct sb.
Qed.

(** [fs_cluster_to_sector] *)
Definition fs_cluster_to_sector (sb : disk_superblock) (cluster : Z) : Z :=
  u32 (sb_data_start sb + u32 (cluster * sb_cluster_sectors sb)).

(** The conditions [load_superblock] puts on what it read, given the size of
    the partition. *)
Definition super_acceptable (sb : disk_superblock) (fs_max_sectors : Z) : bool :=
  (sb_magic sb =? FS_SUPER_MAGIC) &&
  (sb_format_version sb =? FS_FORMAT_VERSION) &&
  negb (negb (sb_sector_size sb =? 512) || negb (sb_entry_size sb =? ENTRY_SIZE) ||
        (FS_MAX_ENTRIES_CAP <? sb_max_entries sb) ||
        negb (sb_cluster_sectors sb =? FS_CLUSTER_SECTORS) ||
        (sb_total_clusters sb =? 0) || (FS_MAX_CLUSTERS_CAP <? sb_total_clusters sb) ||
        (sb_dir_start sb =? 0) || (sb_fat_start sb <=? sb_dir_start sb) ||
        (sb_data_start sb <=? sb_fat_start sb)) &&
  negb (fs_max_sectors <? fs_cluster_to_sector sb (sb_total_clusters sb)).

(** ** The geometry of a new file system *)

Definition dir_sectors_for (entries : Z) : Z :=
  let bytes := u32 (entries * ENTRY_SIZE) in
  u32 (bytes + 511) / 512.

(** The loop doubles from 512 to at most 8192, so four turns are enough. *)
Definition entries_for_partition (partition_sectors : Z) : Z :=
  while_loop 5
    (fun entries => (u32 (entries * 2) <=? FS_MAX_ENTRIES_CAP) &&
                    (u32 (dir_sectors_for (u32 (entries * 2)) * 20) <=? partition_sectors))
    (fun entries => u32 (entries * 2)) 512.

(** The two passes of [format_disk] that settle the cluster count; the state is
    the cluster count and [data_start]. *)
Definition geometry_pass (max_sectors fat_start : Z) (st : Z * Z) (pass : Z) : Z * Z :=
  let '(clusters, _) := st in
  let fat_secs := u32 (u32 (clusters * 4) + 511) / 512 in
  let data_start := u32 (fat_start + fat_secs) in
  let usable := if data_start <? max_sectors then max_sectors - data_start else 0 in
  let fit := usable / FS_CLUSTER_SECTORS in
  (if fit <? clusters then fit else clusters, data_start).

Definition format_geometry (max_sectors total_clusters : Z) : Z * Z * Z * Z :=
  let entries := entries_for_partition max_sectors in
  let dir_secs := dir_sectors_for entries in
  let fat_start := u32 (FS_DIR_START_SECTOR + dir_secs) in
  let clusters := if FS_MAX_CLUSTERS_CAP <? total_clusters then FS_MAX_CLUSTERS_CAP else total_clusters in
  let '(clusters, data_start) := for_range 0 2 (geometry_pass max_sectors fat_start) (clusters, 0) in
  (entries, fat_start, data_start, clusters).

(** The superblock [format_disk] fills in. *)
Definition format_super (max_sectors total_clusters : Z) : disk_superblock :=
  let '(entries, fat_start, data_start, clusters) := format_geometry max_sectors total_clusters in
  mk_super FS_SUPER_MAGIC FS_FORMAT_VERSION 512 max_sectors FS_DIR_START_SECTOR (dir_sectors_for entries)
    entries ENTRY_SIZE FS_CLUSTER_SECTORS fat_start data_start clusters 0
    (replicate (Z.to_nat KEYSLOT_SIZE) 0).

(** The regions of a mounted file system: the superblock, the directory table,
    the allocation table and the clusters follow one another inside the
    partition, and no sector number wraps. *)
Record geometry_ok (sb : disk_superblock) (max_sectors : Z) : Prop := {
  g_entries : 0 < sb_max_entries sb <= FS_MAX_ENTRIES_CAP;
  g_clusters : 0 < sb_total_clusters sb <= FS_MAX_CLUSTERS_CAP;
  g_cluster_sectors : sb_cluster_sectors sb = FS_CLUSTER_SECTORS;
  g_dir : 0 < sb_dir_start sb;
  g_fat : sb_dir_start sb + dir_sectors_for (sb_max_entries sb) <= sb_fat_start sb;
  g_data : sb_fat_start sb + (sb_total_clusters sb * 4 + 511) / 512 <= sb_data_start sb;
  g_end : sb_data_start sb + sb_total_clusters sb * FS_CLUSTER_SECTORS <= max_sectors;
  g_max : max_sectors < 2 ^ 32
}.

(** The entry count stays within the cap, and the loop has ended. *)
Lemma entries_for_partition_range ps : 512 <= entries_for_partition ps <= FS_MAX_ENTRIES_CAP.
Proof.
  unfold entries_for_partition. apply (while_loop_ind (fun e => 512 <= e <= FS_MAX_ENTRIES_CAP)); [done|].
  intros e He Hc. unfold FS_MAX_ENTRIES_CAP in *. bool_to_prop.
  assert (u32 (e * 2) = e * 2) as Heq by (apply u32_small; lia). lia.
Qed.

Lemma dir_sectors_for_eq e : 0 <= e <= FS_MAX_ENTRIES_CAP -> dir_sectors_for e = (e * 96 + 511) / 512.
Proof.
  intros He. unfold FS_MAX_ENTRIES_CAP, dir_sectors_for, ENTRY_SIZE in *.
  rewrite (u32_small (e * 96)) by lia. by rewrite u32_small by lia.
Qed.

(** The table is at most a twentieth of the partition, unless it has the
    smallest size. *)
Lemma entries_for_partition_share ps :
  entries_for_partition ps = 512 \/ dir_sectors_for (entries_for_partition ps) * 20 <= ps.
Proof.
  unfold entries_for_partition.
  apply (while_loop_ind (fun e => 512 <= e <= FS_MAX_ENTRIES_CAP /\ (e = 512 \/ dir_sectors_for e * 20 <= ps))).
  - by split; [|left].
  - intros e [He _] Hc. unfold FS_MAX_ENTRIES_CAP in *. bool_to_prop.
    assert (u32 (e * 2) = e * 2) as Heq by (apply u32_small; lia). rewrite Heq in *. split; [lia|]. right.
    rewrite dir_sectors_for_eq in * by (unfold FS_MAX_ENTRIES_CAP; lia). rewrite u32_small in * by zlia. lia.
Qed.

Lemma geometry_pass_eq max_sectors fat_start clusters d pass :
  0 <= max_sectors < 2 ^ 32 -> 0 <= fat_start <= 2000 -> 0 <= clusters <= FS_MAX_CLUSTERS_CAP ->
  let data_start := fat_start + (clusters * 4 + 511) / 512 in
  let fit := if data_start <? max_sectors then (max_sectors - data_start) / 8 else 0 in
  geometry_pass max_sectors fat_start (clusters, d) pass = (Z.min fit clusters, data_start) /\
  0 <= fit /\ (0 < fit -> data_start + fit * 8 <= max_sectors).
Proof.
  intros Hm Hf Hc. unfold FS_MAX_CLUSTERS_CAP, geometry_pass, FS_CLUSTER_SECTORS in *.
  rewrite (u32_small (clusters * 4)) by lia. rewrite (u32_small (clusters * 4 + 511)) by lia.
  rewrite u32_small by zlia. cbn zeta.
  set (ds := fat_start + (clusters * 4 + 511) / 512).
  destruct (Z.ltb_spec ds max_sectors) as [Hlt|Hge].
  - split; [|zlia]. f_equal. destruct (Z.ltb_spec ((max_sectors - ds) / 8) clusters); lia.
  - split; [|lia]. f_equal. change (0 / 8) with 0. destruct (Z.ltb_spec 0 clusters); lia.
Qed.

Lemma format_geometry_spec max_sectors total entries fat_start data_start clusters :
  0 <= max_sectors < 2 ^ 32 -> 0 <= total ->
  format_geometry max_sectors total = (entries, fat_start, data_start, clusters) ->
  512 <= entries <= FS_MAX_ENTRIES_CAP /\ fat_start = 1 + dir_sectors_for entries /\
  0 <= clusters <= FS_MAX_CLUSTERS_CAP /\ clusters <= total /\
  fat_start + (clusters * 4 + 511) / 512 <= data_start /\
  data_start < 2 ^ 32 /\
  (0 < clusters -> data_start + clusters * 8 <= max_sectors).
Proof.
  intros Hm Ht. unfold format_geometry.
  pose proof (entries_for_partition_range max_sectors) as He. set (e := entries_for_partition max_sectors) in *.
  pose proof (dir_sectors_for_eq e ltac:(unfold FS_MAX_ENTRIES_CAP in *; lia)) as Hds.
  unfold FS_MAX_ENTRIES_CAP, FS_DIR_START_SECTOR in *. rewrite (u32_small (1 + dir_sectors_for e)) by zlia.
  set (fs := 1 + dir_sectors_for e) in *. assert (0 <= fs <= 2000) as Hfs by (unfold fs; zlia).
  set (c0 := if FS_MAX_CLUSTERS_CAP <? total then FS_MAX_CLUSTERS_CAP else total).
  assert (0 <= c0 <= FS_MAX_CLUSTERS_CAP /\ c0 <= total) as [Hc0 Hc0t]
    by (unfold c0, FS_MAX_CLUSTERS_CAP; case_bool; lia).
  rewrite for_range_step, for_range_step, for_range_empty by lia.
  destruct (geometry_pass_eq max_sectors fs c0 0 0 Hm Hfs Hc0) as (-> & Hf1 & _).
  set (fit1 := if fs + (c0 * 4 + 511) / 512 <? max_sectors then _ else 0) in *.
  assert (0 <= Z.min fit1 c0 <= FS_MAX_CLUSTERS_CAP) as Hc1 by lia.
  destruct (geometry_pass_eq max_sectors fs (Z.min fit1 c0) (fs + (c0 * 4 + 511) / 512) (0 + 1) Hm Hfs Hc1)
    as (-> & Hf2 & Hfit2).
  set (c1 := Z.min fit1 c0) in *. set (fit2 := if fs + (c1 * 4 + 511) / 512 <? max_sectors then _ else 0) in *.
  intros [= <- <- <- <-]. unfold FS_MAX_CLUSTERS_CAP in *. clearbody c0 fit1 fit2.
  repeat split; try lia; zlia.
Qed.

(** A geometry [format_disk] goes through with is laid out region after region
    inside the partition, and [load_superblock] accepts it. *)
Lemma format_super_ok max_sectors total :
  0 <= max_sectors < 2 ^ 32 -> 0 <= total -> 0 < sb_total_clusters (format_super max_sectors total) ->
  geometry_ok (format_super max_sectors total) max_sectors /\
  super_typed (format_super max_sectors total) /\
  super_acceptable (format_super max_sectors total) max_sectors = true.
Proof.
  intros Hm Ht. unfold format_super.
  destruct (format_geometry max_sectors total) as [[[entries fs] ds] cl] eqn:Hg.
  destruct (format_geometry_spec _ _ _ _ _ _ Hm Ht Hg) as (He & Hfs & Hcl & Hle & Hdata & Hd32 & Hend).
  simpl. intros Hpos. specialize (Hend Hpos).
  pose proof (dir_sectors_for_eq entries ltac:(unfold FS_MAX_ENTRIES_CAP in *; lia)) as Hds.
  assert (0 <= dir_sectors_for entries <= 1600) as Hdr by (unfold FS_MAX_ENTRIES_CAP in *; rewrite Hds; zlia).
  unfold FS_MAX_ENTRIES_CAP, FS_MAX_CLUSTERS_CAP in *. split; [|split].
  - constructor; simpl; unfold FS_MAX_ENTRIES_CAP, FS_MAX_CLUSTERS_CAP, FS_DIR_START_SECTOR, FS_CLUSTER_SECTORS; lia.
  - constructor; simpl; unfold is_u32, FS_SUPER_MAGIC, FS_FORMAT_VERSION, FS_DIR_START_SECTOR, ENTRY_SIZE,
      FS_CLUSTER_SECTORS; try lia; [zlia|reflexivity].
  - unfold super_acceptable, fs_cluster_to_sector, FS_CLUSTER_SECTORS, FS_DIR_START_SECTOR,
      FS_MAX_ENTRIES_CAP, FS_MAX_CLUSTERS_CAP. simpl.
    rewrite (u32_small (cl * 8)), (u32_small (ds + cl * 8)) by zlia.
    repeat match goal with |- context [?a <? ?b] => destruct (Z.ltb_spec a b) end;
    repeat match goal with |- context [?a <=? ?b] => destruct (Z.leb_spec a b) end;
    destruct (Z.eqb_spec cl 0); try lia; try reflexivity; zlia.
Qed.

(** ** The partition table *)

Record mbr_partition : Type := mk_part {
  mp_status : Z;
  mp_chs_first : list Z;
  mp_type : Z;
  mp_chs_last : list Z;
  mp_lba_first : Z;
  mp_sector_count : Z
}.

Definition encode_part (p : mbr_partition) : list Z :=
  le 1 (mp_status p) ++ mp_chs_first p ++ le 1 (mp_type p) ++ mp_chs_last p ++
  le 4 (mp_lba_first p) ++ le 4 (mp_sector_count p).

Definition decode_part (b : list Z) : mbr_partition :=
  let '(status, b) := get_le 1 b in
  let '(first, b) := (take 3 b, drop 3 b) in
  let '(type, b) := get_le 1 b in
  let '(last, b) := (take 3 b, drop 3 b) in
  let '(lba, b) := get_le 4 b in
  let '(count, b) := get_le 4 b in
  mk_part status first type last lba count.

Record mbr : Type := mk_mbr { boot_code : list Z; partitions : list mbr_partition; signature : Z }.

#[export] Instance part_czero : CZero mbr_partition := mk_part 0 [0; 0; 0] 0 [0; 0; 0] 0 0.

Definition encode_mbr (m : mbr) : list Z :=
  boot_code m ++ concat (map encode_part (partitions m)) ++ le 2 (signature m).

Fixpoint decode_parts (n : nat) (b : list Z) : list mbr_partition :=
  match n with
  | O => []
  | S n' => decode_part b :: decode_parts n' (drop 16 b)
  end.

Definition decode_mbr (b : list Z) : mbr :=
  mk_mbr (take (Z.to_nat MBR_PART_OFFSET) b)
    (decode_parts (Z.to_nat MBR_PART_COUNT) (drop (Z.to_nat MBR_PART_OFFSET) b))
    (unle (take 2 (drop 510 b))).

(** The table [write_mbr] writes. *)
Definition new_mbr (disk_sectors : Z) : mbr :=
  mk_mbr (replicate (Z.to_nat MBR_PART_OFFSET) 0)
    [mk_part 0 [0; 0; 0] FS_PART_TYPE [0; 0; 0] FS_PART_START_LBA (u32 (disk_sectors - FS_PART_START_LBA));
     czero; czero; czero] MBR_SIGNATURE.

(** The conditions [load_partition] puts on entry [i]. *)
Definition partition_acceptable (disk_sectors : Z) (p : mbr_partition) : bool :=
  (mp_type p =? FS_PART_TYPE) &&
  negb ((mp_lba_first p =? 0) || (mp_sector_count p =? 0)) &&
  negb (disk_sectors <=? mp_lba_first p) &&
  negb (disk_sectors - mp_lba_first p <? mp_sector_count p) &&
  negb (mp_sector_count p <=? FS_DATA_START_SECTOR).

Definition choose_partition (disk_sectors : Z) (b : list Z) : option (Z * Z) :=
  let m := decode_mbr b in
  if negb (signature m =? MBR_SIGNATURE) then None
  else for_first 0 MBR_PART_COUNT (fun i =>
         let p := (partitions m).[i] in
         if partition_acceptable disk_sectors p then Some (mp_lba_first p, mp_sector_count p) else None).

(** Any partition that is chosen lies on the disk, after its first sector. *)
Lemma choose_partition_bounds disk_sectors b start count :
  choose_partition disk_sectors b = Some (start, count) ->
  start < disk_sectors /\ start <> 0 /\ FS_DATA_START_SECTOR < count /\ start + count <= disk_sectors.
Proof.
  unfold choose_partition. destruct (negb _); [done|].
  match goal with |- context [for_first ?a ?b ?f] => pose proof (for_first_spec a b f) as Hs end.
  intros Hf. rewrite Hf in Hs. destruct Hs as (i & _ & Hi & _). cbn zeta in Hi.
  generalize dependent (partitions (decode_mbr b)).[i]. intros p Hi.
  destruct (partition_acceptable _ _) eqn:Hacc; [|done]. unfold partition_acceptable in Hacc.
  injection Hi as <- <-. rewrite !andb_true_iff, !negb_true_iff, !orb_false_iff in Hacc. lia.
Qed.

Lemma decode_encode_part p rest :
  0 <= mp_status p < 256 -> 0 <= mp_type p < 256 -> is_u32 (mp_lba_first p) -> is_u32 (mp_sector_count p) ->
  length (mp_chs_first p) = 3%nat -> length (mp_chs_last p) = 3%nat ->
  decode_part (encode_part p ++ rest) = p.
Proof.
  intros. unfold decode_part, encode_part, is_u32 in *. rewrite <- !app_assoc.
  rewrite get_le_app by (simpl; lia). rewrite take_app_length', drop_app_length' by done.
  rewrite get_le_app by (simpl; lia). rewrite take_app_length', drop_app_length' by done.
  rewrite !get_le_app by (simpl; lia). by destruct p.
Qed.

(** The partition table a format writes is the one a mount finds. *)
Lemma choose_new_mbr disk_sectors :
  FS_PART_START_LBA + FS_DATA_START_SECTOR < disk_sectors < 2 ^ 32 ->
  choose_partition disk_sectors (encode_mbr (new_mbr disk_sectors)) =
  Some (FS_PART_START_LBA, disk_sectors - FS_PART_START_LBA).
Proof.
  intros Hd. unfold FS_PART_START_LBA, FS_DATA_START_SECTOR in Hd.
  set (p := mk_part 0 [0; 0; 0] FS_PART_TYPE [0; 0; 0] FS_PART_START_LBA (u32 (disk_sectors - FS_PART_START_LBA))).
  assert (length (encode_part p) = 16%nat) as Hlp by done.
  unfold choose_partition, decode_mbr, encode_mbr, new_mbr. fold p. cbn [boot_code partitions signature map concat].
  set (tail := encode_part czero ++ encode_part czero ++ encode_part czero ++ []).
  assert (drop 510 (replicate (Z.to_nat MBR_PART_OFFSET) 0 ++ (encode_part p ++ tail) ++ le 2 MBR_SIGNATURE) =
          le 2 MBR_SIGNATURE) as ->.
  { rewrite (app_assoc _ (encode_part p ++ tail)). apply drop_app_length'. by rewrite !length_app, length_replicate. }
  change (unle (take 2 (le 2 MBR_SIGNATURE)) =? MBR_SIGNATURE) with true. cbn [negb].
  rewrite drop_app_length' by (by rewrite length_replicate).
  rewrite for_first_step by done. change (Z.to_nat MBR_PART_COUNT) with 4%nat. cbn [decode_parts].
  rewrite <- app_assoc, decode_encode_part;
    [|done|done|done|by apply u32_range|done|done].
  cbn [aget nth]. change (Z.to_nat 0) with O. cbn [nth]. unfold p, partition_acceptable at 1.
  cbn [mp_type mp_lba_first mp_sector_count]. unfold FS_PART_START_LBA, FS_DATA_START_SECTOR.
  rewrite u32_small by lia. destruct (Z.eqb_spec (disk_sectors - 64) 0); [lia|].
  destruct (Z.leb_spec disk_sectors 64); [lia|]. destruct (Z.ltb_spec (disk_sectors - 64) (disk_sectors - 64)); [lia|].
  destruct (Z.leb_spec (disk_sectors - 64) 200); [lia|]. done.
Qed.

(** ** The directory table *)

(** A parent that a chain may go through. *)
Definition parent_ok (dir : list disk_file_entry) (max curr : Z) : bool :=
  negb ((curr <? 0) || (max <=? curr) || (is_used dir.[curr] =? 0) ||
        negb (entry_id dir.[curr] =? u16 curr) || negb (file_type dir.[curr] =? FT_DIR)).

(** The inner loop of [fs_validate_directory_table], with the hops left. *)
Fixpoint parent_walk (hops : nat) (dir : list disk_file_entry) (max curr : Z) : bool :=
  if curr =? 0 then true
  else match hops with
       | O => false
       | S hops' => if parent_ok dir max curr then parent_walk hops' dir max (parent_id dir.[curr]) else false
       end.

Definition entry_valid (dir : list disk_file_entry) (max total i : Z) : bool :=
  let e := dir.[i] in
  (is_used e =? 0) ||
  ((entry_id e =? u16 i) &&
   ((file_type e =? FT_REGULAR) || (file_type e =? FT_DIR)) &&
   negb (negb (start_cluster e =? 0) &&
         ((start_cluster e <? FS_FIRST_DATA_CLUSTER) || (total <=? start_cluster e))) &&
   parent_walk (Z.to_nat max) dir max (parent_id e)).

Definition fs_validate_directory_table (dir : list disk_file_entry) (max total : Z) : bool :=
  match for_find 0 max (fun i => negb (entry_valid dir max total i)) with
  | Some _ => false
  | None => true
  end.

(** What the check is for: an entry is in the slot its id names, has a type, its
    data is inside the file system, and its parents lead to the root through
    directories that exist. *)
Inductive reaches_root (dir : list disk_file_entry) (max : Z) : Z -> Prop :=
| rr_root : reaches_root dir max 0
| rr_step c : c <> 0 -> 0 <= c < max -> is_used dir.[c] <> 0 -> entry_id dir.[c] = c ->
    file_type dir.[c] = FT_DIR -> reaches_root dir max (parent_id dir.[c]) -> reaches_root dir max c.

Definition tree_ok (dir : list disk_file_entry) (max total : Z) : Prop :=
  forall i, 0 <= i < max -> is_used dir.[i] <> 0 ->
    entry_id dir.[i] = i /\
    (file_type dir.[i] = FT_REGULAR \/ file_type dir.[i] = FT_DIR) /\
    (start_cluster dir.[i] = 0 \/ FS_FIRST_DATA_CLUSTER <= start_cluster dir.[i] < total) /\
    reaches_root dir max (parent_id dir.[i]).

Section validation.
Context (dir : list disk_file_entry) (max : Z) (Hmax : 0 <= max <= FS_MAX_ENTRIES_CAP).

Lemma u16_slot c : 0 <= c < max -> u16 c = c.
Proof. intros. unfold u16, FS_MAX_ENTRIES_CAP in *. apply Z.mod_small. lia. Qed.

Lemma parent_ok_spec c :
  parent_ok dir max c = true <->
  0 <= c < max /\ is_used dir.[c] <> 0 /\ entry_id dir.[c] = c /\ file_type dir.[c] = FT_DIR.
Proof.
  unfold parent_ok. rewrite negb_true_iff, !orb_false_iff, !negb_false_iff, !Z.eqb_eq, Z.eqb_neq.
  split.
  - intros ((((? & ?) & ?) & Hid) & ?). rewrite u16_slot in Hid by lia. repeat split; lia.
  - intros (? & ? & Hid & ?). rewrite u16_slot by lia. repeat split; lia.
Qed.

Lemma parent_walk_sound hops : forall c, parent_walk hops dir max c = true -> reaches_root dir max c.
Proof.
  induction hops as [|hops IH]; intros c; simpl; destruct (Z.eqb_spec c 0) as [->|Hc]; try done;
    try (intros; apply rr_root).
  destruct (parent_ok dir max c) eqn:Hp; [|done]. intros Hw. apply parent_ok_spec in Hp as (? & ? & ? & ?).
  apply rr_step; auto.
Qed.

(** The directories a walk goes through. *)
Fixpoint root_path (c : Z) (l : list Z) : Prop :=
  match l with
  | [] => c = 0
  | x :: l' => c = x /\ x <> 0 /\ parent_ok dir max x = true /\ root_path (parent_id dir.[x]) l'
  end.

Lemma reaches_root_path c : reaches_root dir max c -> exists l, root_path c l.
Proof.
  induction 1 as [|c ? ? ? ? ? _ (l & Hl)]; [by exists []|].
  exists (c :: l). simpl. repeat split; try done. by apply parent_ok_spec.
Qed.

Lemma root_path_walk l : forall c hops, root_path c l -> (length l <= hops)%nat -> parent_walk hops dir max c = true.
Proof.
  induction l as [|x l IH]; intros c hops Hp Hlen; simpl in Hp.
  - subst c. by destruct hops.
  - destruct Hp as (-> & Hx & Hok & Hp). simpl in Hlen. destruct hops as [|hops]; [lia|].
    cbn [parent_walk]. destruct (Z.eqb_spec x 0); [done|]. rewrite Hok. apply IH; [done|lia].
Qed.

Lemma root_path_functional l1 : forall l2 c, root_path c l1 -> root_path c l2 -> l1 = l2.
Proof.
  induction l1 as [|x l1 IH]; intros [|y l2] c H1 H2; simpl in *; [done| | |].
  - destruct H2 as (-> & ? & _). done.
  - destruct H1 as (-> & ? & _). done.
  - destruct H1 as (-> & _ & _ & H1), H2 as (-> & _ & _ & H2). f_equal. by apply (IH _ _ H1).
Qed.

Lemma root_path_suffix l1 x : forall l2 c, root_path c (l1 ++ x :: l2) -> root_path x (x :: l2).
Proof.
  induction l1 as [|y l1 IH]; intros l2 c Hp; simpl in Hp.
  - destruct Hp as (-> & ? & ? & ?). by simpl.
  - destruct Hp as (_ & _ & _ & Hp). by apply (IH _ _ Hp).
Qed.

Lemma root_path_short l c : root_path c l -> (length l <= Z.to_nat max)%nat.
Proof.
  intros Hp. assert (NoDup l) as Hnd.
  { revert c Hp. induction l as [|x l IH]; intros c Hp; [apply NoDup_nil_2|].
    pose proof Hp as (-> & Hx & Hok & Hp'). apply NoDup_cons. split; [|by apply (IH _ Hp')].
    intros Hin. apply list_elem_of_split in Hin as (l1 & l2 & ->).
    pose proof (root_path_functional _ _ _ Hp (root_path_suffix _ _ _ _ Hp')) as Heq.
    apply (f_equal length) in Heq. simpl in Heq. rewrite length_app in Heq. simpl in Heq. lia. }
  assert (l ⊆ seqZ 0 max) as Hsub.
  { clear Hnd. revert c Hp. induction l as [|x l IH]; intros c Hp y Hy; [by apply elem_of_nil in Hy|].
    destruct Hp as (-> & _ & Hok & Hp). apply elem_of_cons in Hy as [->|Hy]; [|by apply (IH _ Hp)].
    apply parent_ok_spec in Hok as [? _]. apply elem_of_seqZ. lia. }
  apply NoDup_submseteq in Hsub; [|done]. apply submseteq_length in Hsub. by rewrite length_seqZ in Hsub.
Qed.

Lemma parent_walk_iff c : parent_walk (Z.to_nat max) dir max c = true <-> reaches_root dir max c.
Proof.
  split; [apply parent_walk_sound|]. intros Hr. apply reaches_root_path in Hr as (l & Hl).
  apply (root_path_walk l); [done|]. by apply root_path_short in Hl.
Qed.

Lemma validate_iff total : fs_validate_directory_table dir max total = true <-> tree_ok dir max total.
Proof.
  unfold fs_validate_directory_table.
  assert (for_find 0 max (fun i => negb (entry_valid dir max total i)) = None <-> tree_ok dir max total) as Hiff.
  { rewrite for_find_None. unfold tree_ok, entry_valid.
    split; intros Hv i Hi; specialize (Hv i Hi).
    - intros Hu. rewrite negb_false_iff, orb_true_iff, !andb_true_iff, Z.eqb_eq, parent_walk_iff in Hv.
      destruct Hv as [?|(((Hid & Hty) & Hcl) & Hr)]; [done|]. rewrite u16_slot in Hid by done.
      split; [lia|]. split; [lia|]. split; [|done].
      destruct (Z.eqb_spec (start_cluster dir.[i]) 0); [by left|]. right. simpl in Hcl. lia.
    - rewrite negb_false_iff, orb_true_iff, !andb_true_iff, Z.eqb_eq, parent_walk_iff, u16_slot by done.
      destruct (Z.eq_dec (is_used dir.[i]) 0) as [|Hu]; [by left|]. right.
      destruct (Hv Hu) as (Hid & Hty & Hcl & Hr). split; [|done]. split; [lia|].
      destruct (Z.eqb_spec (start_cluster dir.[i]) 0); [done|]. simpl. lia. }
  destruct (for_find _ _ _); split; intros Ht; try done; by apply Hiff in Ht || by apply Hiff.
Qed.

End validation.

(** C13: the check a mount makes of the directory table accepts exactly the
    tables in which every used entry sits in the slot its id names, has a valid
    type, starts inside the file system, and leads through existing directories
    to the root.  In particular the bound on the walk never rejects a good table:
    a chain that reaches the root is no longer than the table. *)
Theorem fs_validate_directory_table_iff dir max total :
  0 <= max <= FS_MAX_ENTRIES_CAP ->
  fs_validate_directory_table dir max total = true <-> tree_ok dir max total.
Proof. intros. by apply validate_iff. Qed.

(** Two directories and a file in the inner one. *)
Definition sample_dir : list disk_file_entry :=
  [czero; mk_entry [97; 0] 0 0 0 0 0 0 1 0 0 FT_DIR 1; mk_entry [98; 0] 0 0 0 0 0 0 2 1 0 FT_DIR 1;
   mk_entry [99; 0] 10 5 0 0 0 0 3 2 0 FT_REGULAR 1].

Lemma fs_validate_directory_table_iff_witness : tree_ok sample_dir 4 8.
Proof. apply (fs_validate_directory_table_iff sample_dir 4 8); [done|vm_compute; reflexivity]. Defined.

(** the geometry of a new file system.  For every size of partition,
    whenever [format_disk] gets as far as a cluster to hand out, the superblock
    it writes lays the directory table, the allocation table and the clusters
    out one after another inside the partition, without any sector number
    wrapping, the allocation table is large enough for the clusters, the table
    takes at most a twentieth of the partition unless it is the smallest one,
    and [load_superblock] accepts the result. *)
Theorem format_geometry_correct max_sectors total_clusters :
  0 <= max_sectors < 2 ^ 32 -> 0 <= total_clusters ->
  0 < sb_total_clusters (format_super max_sectors total_clusters) ->
  geometry_ok (format_super max_sectors total_clusters) max_sectors /\
  super_acceptable (decode_super (encode_super (format_super max_sectors total_clusters) ++ replicate 352 0))
    max_sectors = true /\
  (entries_for_partition max_sectors = 512 \/
   dir_sectors_for (entries_for_partition max_sectors) * 20 <= max_sectors).
Proof.
  intros Hm Ht Hpos. destruct (format_super_ok max_sectors total_clusters Hm Ht Hpos) as (Hg & Hty & Hacc).
  split; [done|]. rewrite decode_encode_super by done. split; [done|]. apply entries_for_partition_share.
Qed.

Lemma format_geometry_correct_witness : geometry_ok (format_super 4032 479) 4032.
Proof. apply (format_geometry_correct 4032 479); [lia|lia|vm_compute; reflexivity]. Defined.

End FsFormat.
