(* ===== verification/BlockStore.v ===== *)
(** * What the file system sees of the disk

    The file system reads and writes sectors of one device through the block
    cache.  [BlockStore] is that interface and [StoreLaws] what the file system
    relies on: a store of sectors, with a medium behind it that a flush brings up
    to date.  [StoreReliable] adds that requests inside the device do not fail.
    The block cache in front of any driver is an instance; so is a disk held in
    memory, which the concrete examples run on. *)

From S2P Require Import Prelude CStr BlockDev Bcache.
Import BlockDev Bcache.

Module BlockStore.

(** [bs_read s l buf]: status, the buffer afterwards, and the new state. *)
Class BlockStore (S : Type) := {
  bs_read : S -> Z -> list Z -> Z * list Z * S;
  bs_write : S -> Z -> list Z -> Z * S;
  bs_flush : S -> Z * S;
  bs_reset : S -> S;
  bs_sectors : S -> Z
}.

Class StoreLaws (S : Type) `{BlockStore S} := {
  bs_ok : S -> Prop;
  bs_view : S -> Z -> list Z;
  bs_medium : S -> Z -> list Z;
  bs_read_spec s l buf r out s' :
    bs_ok s -> bs_read s l buf = (r, out, s') ->
    bs_ok s' /\ bs_sectors s' = bs_sectors s /\ (forall k, bs_view s' k = bs_view s k) /\
    (r = E_OK -> out = bs_view s l);
  bs_write_spec s l x r s' :
    bs_ok s -> bs_write s l x = (r, s') ->
    bs_ok s' /\ bs_sectors s' = bs_sectors s /\
    forall k, bs_view s' k = if bool_decide (r = E_OK /\ k = l) then take 512 x else bs_view s k;
  bs_flush_spec s r s' :
    bs_ok s -> bs_flush s = (r, s') ->
    bs_ok s' /\ bs_sectors s' = bs_sectors s /\ (forall k, bs_view s' k = bs_view s k) /\
    (r = E_OK -> forall k, bs_medium s' k = bs_view s k);
  bs_reset_spec s :
    bs_ok (bs_reset s) /\ bs_sectors (bs_reset s) = bs_sectors s /\
    forall k, bs_view (bs_reset s) k = bs_medium s k
}.

Class StoreReliable (S : Type) `{StoreLaws S} := {
  bs_good : S -> Prop;
  bs_read_good s l buf r out s' :
    bs_ok s -> bs_good s -> 0 <= l < bs_sectors s -> bs_read s l buf = (r, out, s') -> r = E_OK /\ bs_good s';
  bs_write_good s l x r s' :
    bs_ok s -> bs_good s -> 0 <= l < bs_sectors s -> bs_write s l x = (r, s') -> r = E_OK /\ bs_good s';
  bs_flush_good s r s' : bs_ok s -> bs_good s -> bs_flush s = (r, s') -> r = E_OK /\ bs_good s';
  bs_reset_good s : bs_good s -> bs_good (bs_reset s)
}.

(** ** The block cache *)

Section bcache_store.
Context {HW : Type} {ops : DriverOps HW} {laws : DriverLaws HW}.
Context (dmem : Z -> blockdev) (root : Z) (timer_get_ticks : HW -> Z).

(** [blockdev_root()] is [root], and the tick counter is part of the hardware. *)
Definition bcache_store : BlockStore (bcache * HW) := {|
  bs_read := fun '(c, h) l buf =>
    let '(r, out, c, h) := bcache_read_sector dmem c h root l (Some buf) in (r, default [] out, (c, h));
  bs_write := fun '(c, h) l x =>
    let '(r, c, h) := bcache_write_sector dmem (timer_get_ticks h) c h root l (Some x) in (r, (c, h));
  bs_flush := fun '(c, h) => let '(r, c, h) := bcache_flush dmem c h in (r, (c, h));
  bs_reset := fun '(c, h) => (bcache_init, h);
  bs_sectors := fun _ => if root =? 0 then 0 else bd_sector_count (dmem root)
|}.

#[refine] Instance bcache_store_laws : @StoreLaws _ bcache_store := {|
  bs_ok := fun '(c, h) => bc_inv c h;
  bs_view := fun '(c, h) l => view c h root l;
  bs_medium := fun '(c, h) l => medium h root l
|}.
Proof.
  - intros [c h] l buf r out [c' h'] Hinv. cbn.
    destruct (bcache_read_sector _ _ _ _ _ _) as [[[r0 o] c1] h1] eqn:Hr. intros [= <- <- <- <-].
    destruct (read_ok _ _ _ _ _ _ _ _ _ _ Hinv Hr) as (? & Hv & Ho).
    split; [done|]. split; [done|]. split; [by intros|]. intros Hok. by rewrite (Ho Hok).
  - intros [c h] l x r [c' h'] Hinv. cbn.
    destruct (bcache_write_sector _ _ _ _ _ _ _) as [[r0 c1] h1] eqn:Hr. intros [= <- <- <-].
    destruct (write_ok _ _ _ _ _ _ _ _ _ _ Hinv Hr) as [? Hv].
    split; [done|]. split; [done|]. intros k. rewrite Hv. repeat case_bool_decide; simplify_eq; intuition congruence.
  - intros [c h] r [c' h'] Hinv. cbn -[bcache_flush].
    destruct (bcache_flush _ _ _) as [[r0 c1] h1] eqn:Hr. intros [= <- <- <-].
    unfold bcache_flush in Hr. destruct (flush_ok _ _ _ _ _ _ Hinv Hr) as (? & Hv & Hm).
    split; [done|]. split; [done|]. split; [by intros|]. intros Hok k. by destruct (Hm Hok) as [_ ->].
  - intros [c h]. cbn -[bcache_init]. destruct (init_inv dmem h) as [? Hv]. split; [done|]. split; [done|]. by intros.
Defined.

End bcache_store.

(** ** A disk in memory *)

Record ram : Type := mk_ram { ram_size : Z; ram_data : Z -> list Z }.

#[export] Instance ram_store : BlockStore ram := {|
  bs_read s l buf := if (0 <=? l) && (l <? ram_size s) then (E_OK, ram_data s l, s) else (E_INVAL, buf, s);
  bs_write s l x :=
    if (0 <=? l) && (l <? ram_size s)
    then (E_OK, mk_ram (ram_size s) (fun k => if k =? l then take 512 x else ram_data s k))
    else (E_INVAL, s);
  bs_flush s := (E_OK, s);
  bs_reset s := s;
  bs_sectors := ram_size
|}.

#[export, refine] Instance ram_laws : StoreLaws ram := {|
  bs_ok _ := True;
  bs_view := ram_data;
  bs_medium := ram_data
|}.
Proof.
  - intros s l buf r out s' _. cbn. destruct (_ && _); by intros [= <- <- <-].
  - intros s l x r s' _. cbn. destruct (_ && _); intros [= <- <-]; repeat split; intros k; cbn.
    destruct (Z.eqb_spec k l); repeat case_bool_decide; tauto.
  - intros s r s' _ [= <- <-]. done.
  - done.
Defined.

#[export, refine] Instance ram_reliable : StoreReliable ram := {| bs_good _ := True |}.
Proof.
  - intros s l buf r out s' _ _ Hl. cbn in *.
    destruct (Z.leb_spec 0 l), (Z.ltb_spec l (ram_size s)); try lia. by intros [= <- <- <-].
  - intros s l x r s' _ _ Hl. cbn in *.
    destruct (Z.leb_spec 0 l), (Z.ltb_spec l (ram_size s)); try lia. by intros [= <- <-].
  - intros s r s' _ _ [= <- <-]. done.
  - done.
Defined.

End BlockStore.
