(* ===== verification/Vfs.v ===== *)
(** * The file system (fs/vfs.c)

    The mounted file system and its operations: mounting and formatting, the
    allocation of clusters, and the calls on files and directories.  [vfs] is
    the file's global state over any [BlockStore]; each function of the file is
    a definition of the same name from that state to a result and a new state.

    [vfs_lock] is not modelled: the kernel is not preemptible, so an operation
    runs to its end.  The per-entry read/write locks are left out for the same
    reason.  The allocation table is kept as the whole sectors the code reads
    into it and writes from it; the words past [fs_total_clusters] are memory
    that follows the allocation. *)

From S2P Require Import Prelude CStr Fat FsFormat BlockStore.
Import Fat FsFormat BlockStore.

Module Vfs.

Definition SEC_LEVEL_CRYPTO_ENFORCED : Z := 1.
Definition SEC_LEVEL_LOCKDOWN : Z := 2.
Definition SEC_LEVEL_IMMUTABLE : Z := 3.
Definition MAX_FILE_WRITE_BYTES : Z := 65536.

(** What an operation reads of the rest of the kernel: the credentials of
    [current_task] (0 when there is none), [fs_now()], [current_sec_level],
    [crypto_fs_key_is_usable()], and whether the kernel heap has room for a
    buffer. *)
Record env : Type := mk_env {
  cur_uid : Z;
  cur_gid : Z;
  now : Z;
  current_sec_level : Z;
  key_usable : bool;
  heap_ok : bool
}.

(** What the kernel heap answers when the tables are allocated: whether the
    allocations succeed, and the words that follow the allocation table. *)
Record heap_answer : Type := mk_heap { ha_ok : bool; ha_after : Z -> Z }.

(** The sealed form of a file under the disk's key, as fs/crypto_fs.c makes and
    opens it: an error or the bytes.  [fc_header] is the length in the header the
    first sector of the sealed form holds, if the header is one. *)
Class FileCrypto := {
  fc_seal : env -> list Z -> Z + list Z;
  fc_open : list Z -> Z + list Z;
  fc_header : list Z -> option Z
}.

(** An open file. [vf_write_buf] is the part of the write buffer that has been
    written, so its length is [write_len]. *)
Record vfs_file : Type := mk_file {
  vf_filename : list Z;
  vf_file_size : Z;
  vf_current_offset : Z;
  vf_start_cluster : Z;
  vf_ref_count : Z;
  vf_inode_idx : Z;
  vf_write_buf : list Z;
  vf_write_cap : Z;
  vf_dirty : bool
}.

Definition set_offset (f : vfs_file) (o : Z) : vfs_file :=
  mk_file (vf_filename f) (vf_file_size f) o (vf_start_cluster f) (vf_ref_count f) (vf_inode_idx f)
    (vf_write_buf f) (vf_write_cap f) (vf_dirty f).
Definition set_file_size (f : vfs_file) (n : Z) : vfs_file :=
  mk_file (vf_filename f) n (vf_current_offset f) (vf_start_cluster f) (vf_ref_count f) (vf_inode_idx f)
    (vf_write_buf f) (vf_write_cap f) (vf_dirty f).
Definition set_write (f : vfs_file) (buf : list Z) (cap : Z) (dirty : bool) : vfs_file :=
  mk_file (vf_filename f) (vf_file_size f) (vf_current_offset f) (vf_start_cluster f) (vf_ref_count f)
    (vf_inode_idx f) buf cap dirty.

(** The loop that sizes the write buffer; from 512 it needs eight doublings. *)
Definition grow_cap (cap want : Z) : Z :=
  let cap0 := if cap =? 0 then 512 else cap in
  let c := while_loop 32 (fun c => c <? want) (fun c => u32 (c * 2)) cap0 in
  if MAX_FILE_WRITE_BYTES <? c then MAX_FILE_WRITE_BYTES else c.

(** [data] is what [size] bytes are read from; [None] is the null pointer. *)
Definition fs_write_buffered (e : env) (f : vfs_file) (data : option (list Z)) (size : Z) : Z * vfs_file :=
  match data with
  | None => (E_INVAL, f)
  | Some data =>
      let write_len := alen (vf_write_buf f) in
      if size =? 0 then (0, f)
      else if (MAX_FILE_WRITE_BYTES <? size) || (MAX_FILE_WRITE_BYTES - size <? write_len) then (E_FBIG, f)
      else
        let buf := vf_write_buf f ++ take (Z.to_nat size) data in
        if vf_write_cap f <? write_len + size then
          if negb (heap_ok e) then (E_NOMEM, f)
          else (size, set_write f buf (grow_cap (vf_write_cap f) (write_len + size)) true)
        else (size, set_write f buf (vf_write_cap f) true)
  end.

Section vfs.
Context {S : Type} {bs : BlockStore S}.

Record vfs : Type := mk_vfs {
  store : S;
  fs_part_start : Z;
  fs_max_sectors : Z;
  fs_total_clusters : Z;
  fs_max_entries : Z;
  fs_mounted : bool;
  fs_was_formatted : bool;
  fs_super : disk_superblock;
  dir_table : list disk_file_entry;
  file_allocation_table : list Z
}.

Definition set_store (v : vfs) (s : S) : vfs :=
  mk_vfs s (fs_part_start v) (fs_max_sectors v) (fs_total_clusters v) (fs_max_entries v)
    (fs_mounted v) (fs_was_formatted v) (fs_super v) (dir_table v) (file_allocation_table v).
Definition set_partition (v : vfs) (start count : Z) : vfs :=
  mk_vfs (store v) start count (fs_total_clusters v) (fs_max_entries v)
    (fs_mounted v) (fs_was_formatted v) (fs_super v) (dir_table v) (file_allocation_table v).
Definition set_clusters (v : vfs) (n : Z) : vfs :=
  mk_vfs (store v) (fs_part_start v) (fs_max_sectors v) n (fs_max_entries v)
    (fs_mounted v) (fs_was_formatted v) (fs_super v) (dir_table v) (file_allocation_table v).
Definition set_tables (v : vfs) (n : Z) (dir : list disk_file_entry) (fat : list Z) : vfs :=
  mk_vfs (store v) (fs_part_start v) (fs_max_sectors v) (fs_total_clusters v) n
    (fs_mounted v) (fs_was_formatted v) (fs_super v) dir fat.
Definition set_dir (v : vfs) (dir : list disk_file_entry) : vfs :=
  set_tables v (fs_max_entries v) dir (file_allocation_table v).
Definition set_fat (v : vfs) (fat : list Z) : vfs :=
  set_tables v (fs_max_entries v) (dir_table v) fat.
Definition set_super (v : vfs) (sb : disk_superblock) : vfs :=
  mk_vfs (store v) (fs_part_start v) (fs_max_sectors v) (fs_total_clusters v) (fs_max_entries v)
    (fs_mounted v) (fs_was_formatted v) sb (dir_table v) (file_allocation_table v).
Definition set_mounted (v : vfs) (b : bool) : vfs :=
  mk_vfs (store v) (fs_part_start v) (fs_max_sectors v) (fs_total_clusters v) (fs_max_entries v)
    b (fs_was_formatted v) (fs_super v) (dir_table v) (file_allocation_table v).
Definition set_formatted (v : vfs) : vfs :=
  mk_vfs (store v) (fs_part_start v) (fs_max_sectors v) (fs_total_clusters v) (fs_max_entries v)
    (fs_mounted v) true (fs_super v) (dir_table v) (file_allocation_table v).

(** ** Sectors of the disk and of the partition *)

(** [bcache_read_sector(blockdev_root(), l, buf)] and its siblings. *)
Definition disk_read (v : vfs) (l : Z) (buf : list Z) : Z * list Z * vfs :=
  let '(r, out, s) := bs_read (store v) l buf in (r, out, set_store v s).
Definition disk_write (v : vfs) (l : Z) (buf : list Z) : Z * vfs :=
  let '(r, s) := bs_write (store v) l buf in (r, set_store v s).

Definition fs_read_sector (v : vfs) (rel_sector : Z) (buffer : list Z) : Z * list Z * vfs :=
  disk_read v (u32 (fs_part_start v + rel_sector)) buffer.
Definition fs_write_sector (v : vfs) (rel_sector : Z) (buffer : list Z) : Z * vfs :=
  disk_write v (u32 (fs_part_start v + rel_sector)) buffer.

(** [n] bytes from [off], padded with zeros to a sector. *)
Definition slice (off n : Z) (b : list Z) : list Z := take (Z.to_nat n) (drop (Z.to_nat off) b).
Definition sector_of (off n : Z) (b : list Z) : list Z :=
  let x := slice off n b in x ++ replicate (512 - length x) 0.

(** ** Saving the tables *)

Definition save_fat_to_disk (v : vfs) : vfs :=
  let total_bytes := u32 (fs_total_clusters v * 4) in
  let sectors_needed := u32 (total_bytes + 511) / 512 in
  let bytes := fat_bytes (file_allocation_table v) in
  for_range 0 sectors_needed
    (fun v i => (fs_write_sector v (u32 (sb_fat_start (fs_super v) + i)) (slice (i * 512) 512 bytes)).2) v.

Definition save_directory_to_disk (v : vfs) : vfs :=
  let total_bytes := u32 (ENTRY_SIZE * fs_max_entries v) in
  let sectors_needed := u32 (total_bytes + 511) / 512 in
  let bytes := dir_bytes (dir_table v) in
  for_range 0 sectors_needed
    (fun v i =>
       let copy_size := if total_bytes <? i * 512 + 512 then total_bytes mod 512 else 512 in
       (fs_write_sector v (u32 (sb_dir_start (fs_super v) + i)) (sector_of (i * 512) copy_size bytes)).2) v.

Definition save_superblock (v : vfs) : vfs :=
  (fs_write_sector v FS_SUPER_SECTOR (sector_of 0 FS_SUPER_DISK_SIZE (encode_super (fs_super v)))).2.

(** ** The tables in memory *)

Definition fs_tables_free (v : vfs) : vfs := set_tables v 0 [] [].

(** The words of the sectors the allocation table occupies. *)
Definition fat_words (clusters : Z) : Z := (clusters * 4 + 511) / 512 * 128.

Definition fs_tables_alloc (heap : heap_answer) (v : vfs) (entries clusters : Z) : Z * vfs :=
  let v := fs_tables_free v in
  if (entries =? 0) || (clusters =? 0) then (E_INVAL, v)
  else if (FS_MAX_ENTRIES_CAP <? entries) || (FS_MAX_CLUSTERS_CAP <? clusters) then (E_INVAL, v)
  else if negb (ha_ok heap) then (E_NOMEM, v)
  else (E_OK, set_tables v entries (replicate (Z.to_nat entries) czero)
                (replicate (Z.to_nat clusters) 0 ++
                 map (ha_after heap) (seqZ clusters (fat_words clusters - clusters)))).

Definition allocate_fat_chain (v : vfs) (count : Z) : Z * vfs :=
  if count =? 0 then (FAT_EOF, v)
  else
    let '(c, fat) := fat_alloc (fs_total_clusters v) count (file_allocation_table v) in
    let v := set_fat v fat in
    if c =? FAT_FREE then (FAT_FREE, v) else (c, save_fat_to_disk v).

(** ** Formatting *)

(** Clusters 0 and 1 are marked in use. *)
Definition reserve_first (v : vfs) : vfs :=
  set_fat v (for_range 0 (Z.min FS_FIRST_DATA_CLUSTER (fs_total_clusters v))
               (fun fat i => fat.[i <- FAT_EOF]) (file_allocation_table v)).

Definition write_mbr (v : vfs) (disk_sectors : Z) : Z * vfs :=
  disk_write v 0 (sector_of 0 512 (encode_mbr (new_mbr disk_sectors))).

Definition format_disk (heap : heap_answer) (v : vfs) : Z * vfs :=
  let sb := format_super (fs_max_sectors v) (fs_total_clusters v) in
  let v := set_clusters v (sb_total_clusters sb) in
  let '(res, v) := fs_tables_alloc heap v (sb_max_entries sb) (sb_total_clusters sb) in
  if negb (res =? E_OK) then (E_NOMEM, v)
  else
    let v := set_super v sb in
    let v := reserve_first v in
    let v := for_range 0 (sb_dir_sectors sb)
               (fun v i => (fs_write_sector v (u32 (sb_dir_start sb + i)) (replicate 512 0)).2) v in
    let v := save_superblock v in
    let v := save_fat_to_disk v in
    let v := save_directory_to_disk v in
    let '(_, s) := bs_flush (store v) in
    (E_OK, set_formatted (set_store v s)).

(** ** Mounting *)

(** 1 when the sectors are all zero, 0 when one is not, and the error when one
    cannot be read. *)
Fixpoint region_is_blank (n : nat) (v : vfs) (l : Z) (buf : list Z) : Z * vfs :=
  match n with
  | O => (1, v)
  | Datatypes.S n' =>
      let '(res, out, v) := disk_read v (u32 l) buf in
      if negb (res =? E_OK) then (res, v)
      else if forallb (fun b => b =? 0) out then region_is_blank n' v (l + 1) out
      else (0, v)
  end.

Definition disk_region_is_blank (v : vfs) (start count : Z) (buf : list Z) : Z * vfs :=
  region_is_blank (Z.to_nat count) v start buf.

(** [stack] is what the function's uninitialised sector buffer holds. *)
Definition load_superblock (v : vfs) (stack : list Z) : bool * vfs :=
  let '(res, out, v) := fs_read_sector v FS_SUPER_SECTOR stack in
  if negb (res =? E_OK) then (false, v)
  else
    let v := set_super v (decode_super out) in
    if super_acceptable (fs_super v) (fs_max_sectors v)
    then (true, set_clusters v (sb_total_clusters (fs_super v)))
    else (false, v).

(** -1 when sector 0 cannot be read, 1 when a partition is found, else 0. *)
Definition load_partition (v : vfs) (disk_sectors : Z) (stack : list Z) : Z * vfs :=
  let '(res, out, v) := disk_read v 0 stack in
  if negb (res =? E_OK) then (-1, v)
  else match choose_partition disk_sectors out with
       | Some (start, count) => (1, set_partition v start count)
       | None => (0, v)
       end.

(** The clusters a partition of this size can hold. *)
Definition usable_clusters (max_sectors : Z) : Z :=
  let usable := if FS_DATA_START_SECTOR <? max_sectors then max_sectors - FS_DATA_START_SECTOR else 0 in
  let n := usable / FS_CLUSTER_SECTORS in
  if FS_MAX_CLUSTERS_CAP <? n then FS_MAX_CLUSTERS_CAP else n.

(** Reads sectors [start], [start + 1], ... into successive 512-byte runs of
    [mem], stopping at the first that fails. *)
Fixpoint read_run (n : nat) (v : vfs) (start : Z) (mem : list Z) (done : list Z) : bool * list Z * vfs :=
  match n with
  | O => (true, done ++ mem, v)
  | Datatypes.S n' =>
      let '(res, out, v) := fs_read_sector v (u32 start) (take 512 mem) in
      if negb (res =? E_OK) then (false, done ++ out ++ drop 512 mem, v)
      else read_run n' v (start + 1) (drop 512 mem) (done ++ out)
  end.

(** The directory table goes through a sector buffer on the stack, so a failing
    read leaves the table alone from there on. *)
Fixpoint read_dir_run (n : nat) (v : vfs) (start : Z) (stack done : list Z) : bool * list Z * vfs :=
  match n with
  | O => (true, done, v)
  | Datatypes.S n' =>
      let '(res, out, v) := fs_read_sector v (u32 start) stack in
      if negb (res =? E_OK) then (false, done, v)
      else read_dir_run n' v (start + 1) stack (done ++ out)
  end.

(** The part of [init_fs] that reads the tables of a file system it found. *)
Definition load_tables (v : vfs) (stack : list Z) : vfs :=
  let sb := fs_super v in
  let total_bytes := u32 (sb_entry_size sb * sb_max_entries sb) in
  let sectors_needed := u32 (total_bytes + 511) / 512 in
  let '(ok, bytes, v) := read_dir_run (Z.to_nat sectors_needed) v (sb_dir_start sb) stack [] in
  let bytes := take (Z.to_nat total_bytes) (bytes ++ replicate (Z.to_nat total_bytes - length bytes) 0) in
  let v := set_dir v (decode_entries (Z.to_nat (fs_max_entries v)) bytes) in
  if negb ok then v
  else
    let fat_total_bytes := u32 (fs_total_clusters v * 4) in
    let fat_sectors_needed := u32 (fat_total_bytes + 511) / 512 in
    let '(ok, bytes, v) := read_run (Z.to_nat fat_sectors_needed) v (sb_fat_start sb)
                             (fat_bytes (file_allocation_table v)) [] in
    let v := set_fat v (decode_words (length (file_allocation_table v)) bytes) in
    if negb ok then v
    else
      let v := reserve_first v in
      if negb (fs_validate_directory_table (dir_table v) (fs_max_entries v) (fs_total_clusters v))
      then fs_tables_free v
      else save_fat_to_disk (set_mounted v true).

Definition init_fs (heap : heap_answer) (v : vfs) (stack : list Z) : vfs :=
  let v := set_store v (bs_reset (store v)) in
  let disk_sectors := bs_sectors (store v) in
  let v := set_clusters (set_partition (set_mounted v false) 0 (fs_max_sectors v)) 0 in
  let v := fs_tables_free v in
  if disk_sectors <=? FS_PART_START_LBA + FS_DATA_START_SECTOR then v
  else
    let '(part, v) := load_partition v disk_sectors stack in
    if part <? 0 then v
    else if negb (part =? 0) then
      let v := set_clusters v (usable_clusters (fs_max_sectors v)) in
      let '(ok, v) := load_superblock v stack in
      if negb ok then v
      else
        let '(res, v) := fs_tables_alloc heap v (sb_max_entries (fs_super v)) (sb_total_clusters (fs_super v)) in
        if negb (res =? E_OK) then v else load_tables v stack
    else
      let '(res, out, v) := disk_read v 0 stack in
      if negb (res =? E_OK) then v
      else if unle (take 4 out) =? FS_SUPER_MAGIC then v
      else
        let '(blank, v) := disk_region_is_blank v 0 (FS_PART_START_LBA + FS_LEGACY_DIR_SECTORS) stack in
        if blank <? 0 then v
        else if blank =? 0 then (disk_read v 0 stack).2
        else
          let v := set_partition v FS_PART_START_LBA (disk_sectors - FS_PART_START_LBA) in
          let v := set_clusters v (usable_clusters (fs_max_sectors v)) in
          if fs_total_clusters v <? FS_FIRST_DATA_CLUSTER + 1 then v
          else
            let '(res, v) := write_mbr v disk_sectors in
            if negb (res =? E_OK) then v
            else
              let '(res, v) := format_disk heap v in
              if negb (res =? E_OK) then v else load_tables v stack.

(** ** Looking entries up *)

Definition entry (v : vfs) (i : Z) : disk_file_entry := (dir_table v).[i].

(** [dir_table[i].is_used && parent_id == p && ft_strcmp(filename, name) == 0] *)
Definition names (v : vfs) (p : Z) (name : list Z) (i : Z) : bool :=
  negb (is_used (entry v i) =? 0) && (parent_id (entry v i) =? p) &&
  (ft_strcmp (filename (entry v i)) name =? 0).
(** The same with [is_used == 1]. *)
Definition names1 (v : vfs) (p : Z) (name : list Z) (i : Z) : bool :=
  (is_used (entry v i) =? 1) && (parent_id (entry v i) =? p) &&
  (ft_strcmp (filename (entry v i)) name =? 0).

Definition fs_dir_exists (v : vfs) (p : Z) : bool :=
  if p =? 0 then true
  else match for_find 0 (fs_max_entries v)
               (fun i => negb (is_used (entry v i) =? 0) && (file_type (entry v i) =? FT_DIR) &&
                         (entry_id (entry v i) =? p)) with
       | Some _ => true
       | None => false
       end.

Definition fs_get_entry_idx (v : vfs) (name : list Z) (p : Z) : Z :=
  default (-1) (for_find 0 (fs_max_entries v) (names v p name)).

Definition fs_slot_of (v : vfs) (id : Z) : Z :=
  default (-1) (for_find 0 (fs_max_entries v)
    (fun i => negb (is_used (entry v i) =? 0) && (entry_id (entry v i) =? id))).

(** The last match of a loop that does not stop at the first. *)
Definition last_match (v : vfs) (p : Z) (name : list Z) : Z :=
  for_range 0 (fs_max_entries v) (fun acc i => if names v p name i then i else acc) (-1).

(** The first unused slot after slot 0. *)
Definition free_slot (v : vfs) : Z :=
  default (-1) (for_find 1 (fs_max_entries v) (fun i => is_used (entry v i) =? 0)).

Definition set_entry (v : vfs) (i : Z) (e : disk_file_entry) : vfs := set_dir v (dir_table v).[i <- e].

(** [ft_memset(filename, 0, MAX_FILENAME); safe_strcpy(filename, name, MAX_FILENAME)] *)
Definition new_name (old name : list Z) : list Z :=
  safe_strcpy (ft_memset old 0 MAX_FILENAME) name MAX_FILENAME.

(** ** Creating *)

(** The sectors of one cluster; the state is [bytes_written]. *)
Definition write_cluster (content : list Z) (size base : Z) (st : vfs * Z) (s : Z) : vfs * Z :=
  let '(v, bytes_written) := st in
  let chunk_size := if bytes_written <? size
                    then (if 512 <? size - bytes_written then 512 else size - bytes_written) else 0 in
  ((fs_write_sector v (u32 (base + s)) (sector_of bytes_written chunk_size content)).2, bytes_written + chunk_size).

(** The data loop of [fs_create_file_raw]. *)
Definition write_data_cluster (content : list Z) (size : Z) (st : vfs * Z * Z) (c : Z) : vfs * Z * Z :=
  let '(v, bytes_written, current_cluster) := st in
  if (current_cluster =? FAT_EOF) || (fs_total_clusters v <=? current_cluster) then st
  else
    let base := fs_cluster_to_sector (fs_super v) current_cluster in
    let '(v, bytes_written) :=
      for_range 0 (sb_cluster_sectors (fs_super v)) (write_cluster content size base) (v, bytes_written) in
    (v, bytes_written, (file_allocation_table v).[current_cluster]).

Definition write_data (v : vfs) (content : list Z) (size clusters_needed new_cluster : Z) : vfs :=
  (for_range 0 clusters_needed (write_data_cluster content size) (v, 0, new_cluster)).1.1.

Definition fs_create_file_raw (e : env) (v : vfs) (name content : list Z) (size p : Z) : Z * vfs :=
  if negb (fs_mounted v) then (E_NODEV, v)
  else if MAX_FILENAME <=? ft_strlen name then (E_INVAL, v)
  else if negb (fs_dir_exists v p) then (E_NOENT, v)
  else if negb (last_match v p name =? -1) then (E_EXIST, v)
  else
    let free_idx := free_slot v in
    if free_idx =? -1 then (E_NFILE, v)
    else
      let cluster_bytes := 512 * sb_cluster_sectors (fs_super v) in
      let clusters_needed := if size =? 0 then 1 else u32 (size + cluster_bytes - 1) / cluster_bytes in
      let '(new_cluster, v) := allocate_fat_chain v clusters_needed in
      if new_cluster =? FAT_FREE then (E_NOSPC, v)
      else
        let v := write_data v content size clusters_needed new_cluster in
        let old := entry v free_idx in
        let v := set_entry v free_idx
                   (mk_entry (new_name (filename old) name) size new_cluster (cur_uid e) (cur_gid e)
                      (now e) (now e) (u16 free_idx) p FS_MODE_DEFAULT_FILE FT_REGULAR 1) in
        (E_OK, save_directory_to_disk v).

Definition fs_mkdir (e : env) (v : vfs) (name : list Z) (p : Z) : Z * vfs :=
  if negb (fs_mounted v) then (E_NODEV, v)
  else if SEC_LEVEL_IMMUTABLE <=? current_sec_level e then (E_ROFS, v)
  else if MAX_FILENAME <=? ft_strlen name then (E_INVAL, v)
  else if negb (fs_dir_exists v p) then (E_NOENT, v)
  else match for_find 0 (fs_max_entries v) (names v p name) with
       | Some _ => (E_EXIST, v)
       | None =>
           let free_idx := free_slot v in
           if free_idx =? -1 then (E_NFILE, v)
           else
             let old := entry v free_idx in
             let v := set_entry v free_idx
                        (mk_entry (new_name (filename old) name) 0 0 (cur_uid e) (cur_gid e)
                           (now e) (now e) (u16 free_idx) p FS_MODE_DEFAULT_DIR FT_DIR 1) in
             (E_OK, save_directory_to_disk v)
       end.

(** ** Deleting and renaming *)

Definition has_child (v : vfs) (id : Z) : bool :=
  match for_find 0 (fs_max_entries v) (fun c => (is_used (entry v c) =? 1) && (parent_id (entry v c) =? id)) with
  | Some _ => true
  | None => false
  end.

Definition fs_delete (e : env) (v : vfs) (name : list Z) (p : Z) : Z * vfs :=
  if negb (fs_mounted v) then (E_NODEV, v)
  else if SEC_LEVEL_IMMUTABLE <=? current_sec_level e then (E_ROFS, v)
  else match for_find 0 (fs_max_entries v) (names1 v p name) with
       | None => (E_NOENT, v)
       | Some i =>
           let d := entry v i in
           if (file_type d =? FT_DIR) && has_child v (entry_id d) then (E_NOTEMPTY, v)
           else
             let fat := (free_chain_loop (fs_total_clusters v) (file_allocation_table v) (start_cluster d)).2 in
             let v := save_fat_to_disk (set_fat v fat) in
             let v := set_entry v i
                        (mk_entry (ft_memset (filename d) 0 MAX_FILENAME) (file_size d) (start_cluster d)
                           (owner_uid d) (owner_gid d) (mtime d) (ctime d) (entry_id d) (parent_id d)
                           (mode d) (file_type d) 0) in
             (E_OK, save_directory_to_disk v)
       end.

Definition fs_rename (e : env) (v : vfs) (old_name name : list Z) (p : Z) : Z * vfs :=
  if negb (fs_mounted v) then (E_NODEV, v)
  else if MAX_FILENAME <=? ft_strlen name then (E_INVAL, v)
  else if SEC_LEVEL_IMMUTABLE <=? current_sec_level e then (E_ROFS, v)
  else match for_find 0 (fs_max_entries v) (names1 v p name) with
       | Some _ => (E_EXIST, v)
       | None =>
           match for_find 0 (fs_max_entries v) (names1 v p old_name) with
           | None => (E_NOENT, v)
           | Some i =>
               let d := entry v i in
               let v := set_entry v i
                          (mk_entry (new_name (filename d) name) (file_size d) (start_cluster d)
                             (owner_uid d) (owner_gid d) (mtime d) (now e) (entry_id d) (parent_id d)
                             (mode d) (file_type d) (is_used d)) in
               (E_OK, save_directory_to_disk v)
           end
       end.

(** ** Attributes *)

Definition fs_chmod (e : env) (v : vfs) (id m : Z) : Z * vfs :=
  if negb (fs_mounted v) then (E_NODEV, v)
  else if SEC_LEVEL_IMMUTABLE <=? current_sec_level e then (E_ROFS, v)
  else
    let idx := fs_slot_of v id in
    if idx <? 0 then (E_NOENT, v)
    else
      let d := entry v idx in
      let v := set_entry v idx
                 (mk_entry (filename d) (file_size d) (start_cluster d) (owner_uid d) (owner_gid d) (mtime d)
                    (now e) (entry_id d) (parent_id d) (u16 (Z.land m FS_MODE_PERM_MASK)) (file_type d) (is_used d)) in
      (E_OK, save_directory_to_disk v).

Definition fs_chown (e : env) (v : vfs) (id uid gid : Z) : Z * vfs :=
  if negb (fs_mounted v) then (E_NODEV, v)
  else if SEC_LEVEL_IMMUTABLE <=? current_sec_level e then (E_ROFS, v)
  else
    let idx := fs_slot_of v id in
    if idx <? 0 then (E_NOENT, v)
    else
      let d := entry v idx in
      let v := set_entry v idx
                 (mk_entry (filename d) (file_size d) (start_cluster d) uid gid (mtime d)
                    (now e) (entry_id d) (parent_id d) (mode d) (file_type d) (is_used d)) in
      (E_OK, save_directory_to_disk v).

(** ** Open files *)

Definition fs_open (v : vfs) (name : list Z) (p : Z) (f : vfs_file) : Z * vfs_file :=
  if negb (fs_mounted v) then (E_NODEV, f)
  else match for_find 0 (fs_max_entries v) (names1 v p name) with
       | Some i =>
           let d := entry v i in
           (E_OK, mk_file (safe_strcpy (vf_filename f) (filename d) MAX_FILENAME) (file_size d) 0
                    (start_cluster d) 1 i [] 0 false)
       | None => (E_NOENT, f)
       end.

(** The variables of the reading loops: [bytes_read] is the length of the data
    copied out so far. *)
Record read_vars : Type := mk_rv {
  rv_v : vfs;
  rv_data : list Z;
  rv_offset : Z;
  rv_cluster : Z;
  rv_in_cluster : Z
}.

(** One sector of the inner loop of [fs_read_raw]. *)
Definition read_one (stack : list Z) (size base : Z) (r : read_vars) : read_vars :=
  let sector_in_cluster := rv_in_cluster r / 512 in
  let offset_in_sector := rv_in_cluster r mod 512 in
  let '(_, sector_buf, v) := fs_read_sector (rv_v r) (u32 (base + sector_in_cluster)) stack in
  let bytes_read := alen (rv_data r) in
  let n := 512 - offset_in_sector in
  let n := if size - bytes_read <? n then size - bytes_read else n in
  mk_rv v (rv_data r ++ slice offset_in_sector n sector_buf) (u32 (rv_offset r + n)) (rv_cluster r)
    (rv_in_cluster r + n).

Definition read_cluster (stack : list Z) (cluster_bytes size : Z) (r : read_vars) : read_vars :=
  let base := fs_cluster_to_sector (fs_super (rv_v r)) (rv_cluster r) in
  let r := while_loop (Z.to_nat (cluster_bytes / 512 + 1))
             (fun r => (rv_in_cluster r <? cluster_bytes) && (alen (rv_data r) <? size))
             (read_one stack size base) r in
  mk_rv (rv_v r) (rv_data r) (rv_offset r) (file_allocation_table (rv_v r)).[rv_cluster r] 0.

(** The loop over clusters; its [break] is the last condition. *)
Definition read_more (size : Z) (r : read_vars) : bool :=
  (alen (rv_data r) <? size) && negb (rv_cluster r =? FAT_EOF) && (rv_cluster r <? fs_total_clusters (rv_v r)).

(** Following the chain past the clusters before the offset; [None] is the
    early return. *)
Fixpoint skip_clusters (n : nat) (v : vfs) (c : Z) : option Z :=
  match n with
  | O => Some c
  | Datatypes.S n' =>
      if (c =? FAT_EOF) || (fs_total_clusters v <=? c) then None
      else skip_clusters n' v (file_allocation_table v).[c]
  end.

(** Returns [bytes_read], the bytes put into the buffer, and the new states. *)
Definition fs_read_raw (stack : list Z) (v : vfs) (f : vfs_file) (size : Z) : Z * list Z * vfs_file * vfs :=
  if vf_file_size f <=? vf_current_offset f then (0, [], f, v)
  else
    let size := if vf_file_size f <? u32 (vf_current_offset f + size)
                then vf_file_size f - vf_current_offset f else size in
    let cluster_bytes := 512 * sb_cluster_sectors (fs_super v) in
    match skip_clusters (Z.to_nat (vf_current_offset f / cluster_bytes)) v (vf_start_cluster f) with
    | None => (0, [], f, v)
    | Some c =>
        let r := while_loop (Z.to_nat (size / cluster_bytes + 2)) (read_more size)
                   (read_cluster stack cluster_bytes size)
                   (mk_rv v [] (vf_current_offset f) c (vf_current_offset f mod cluster_bytes)) in
        (alen (rv_data r), rv_data r, set_offset f (rv_offset r), rv_v r)
    end.

Context {fc : FileCrypto}.

Definition fs_create_encrypted (e : env) (v : vfs) (name data : list Z) (len p : Z) : Z * vfs :=
  match fc_seal e (take (Z.to_nat len) data) with
  | inl err => (err, v)
  | inr blob => fs_create_file_raw e v name blob (alen blob) p
  end.

Definition fs_read_encrypted (e : env) (stack : list Z) (v : vfs) (f : vfs_file) (size : Z)
    : Z * list Z * vfs_file * vfs :=
  if vf_file_size f <=? 56 then (0, [], f, v)
  else if negb (heap_ok e) then (0, [], f, v)
  else
    let requested_offset := vf_current_offset f in
    let '(read_bytes, temp_buf, f, v) := fs_read_raw stack v (set_offset f 0) (vf_file_size f) in
    if read_bytes <=? 56 then (0, [], set_offset f requested_offset, v)
    else match fc_open temp_buf with
         | inl _ => (0, [], set_offset f requested_offset, v)
         | inr plaintext =>
             let orig_len := alen plaintext in
             let n := if orig_len <=? requested_offset then 0
                      else if orig_len <? u32 (requested_offset + size) then orig_len - requested_offset
                      else size in
             (n, slice requested_offset n plaintext, set_offset f (u32 (requested_offset + n)), v)
         end.

Definition fs_create_file (e : env) (v : vfs) (name content : list Z) (size p : Z) : Z * vfs :=
  if SEC_LEVEL_IMMUTABLE <=? current_sec_level e then (E_ROFS, v)
  else if SEC_LEVEL_CRYPTO_ENFORCED <=? current_sec_level e then
    if negb (key_usable e) then (E_ACCES, v) else fs_create_encrypted e v name content size p
  else fs_create_file_raw e v name content size p.

Definition fs_read (e : env) (stack : list Z) (v : vfs) (f : vfs_file) (size : Z) : Z * list Z * vfs_file * vfs :=
  if SEC_LEVEL_CRYPTO_ENFORCED <=? current_sec_level e then
    if negb (key_usable e) then (E_ACCES, [], f, v) else fs_read_encrypted e stack v f size
  else fs_read_raw stack v f size.

(** The size [*out_size] is 0 where the code leaves it alone. *)
Definition fs_size_encrypted (v : vfs) (f : vfs_file) (stack : list Z) : Z * Z * vfs :=
  if vf_file_size f <=? 56 then (E_OK, 0, v)
  else
    let '(res, sector, v) := fs_read_sector v (fs_cluster_to_sector (fs_super v) (vf_start_cluster f)) stack in
    if negb (res =? E_OK) then (E_IO, 0, v)
    else match fc_header sector with
         | None => (E_IO, 0, v)
         | Some orig_len => if vf_file_size f - 16 - 40 <? orig_len then (E_IO, 0, v) else (E_OK, orig_len, v)
         end.

Definition fs_size (e : env) (v : vfs) (f : vfs_file) (stack : list Z) : Z * Z * vfs :=
  if SEC_LEVEL_CRYPTO_ENFORCED <=? current_sec_level e then
    if negb (key_usable e) then (E_ACCES, 0, v) else fs_size_encrypted v f stack
  else (E_OK, vf_file_size f, v).

(** ** Replacing a file's contents *)

(** The name of the temporary file: the name cut to 59 bytes, and [.tmp]. *)
Definition tmp_name (name : list Z) : list Z :=
  let t := safe_strcpy (replicate (Z.to_nat MAX_FILENAME) 0) name (MAX_FILENAME - 4) in
  let len := ft_strlen t in
  t.[len <- 46].[len + 1 <- 116].[len + 2 <- 109].[len + 3 <- 112].[len + 4 <- 0].

(** [orig] gets the contents of [tmp] and [tmp] those of [orig]; the entries are
    written one after the other, so they may be the same one. *)
Definition swap_contents (e : env) (v : vfs) (orig tmp : Z) : vfs :=
  let old_cluster := start_cluster (entry v orig) in
  let old_size := file_size (entry v orig) in
  let d := entry v orig in
  let v := set_entry v orig
             (mk_entry (filename d) (file_size (entry v tmp)) (start_cluster (entry v tmp)) (owner_uid d)
                (owner_gid d) (now e) (ctime d) (entry_id d) (parent_id d) (mode d) (file_type d) (is_used d)) in
  let d := entry v tmp in
  set_entry v tmp
    (mk_entry (filename d) old_size old_cluster (owner_uid d) (owner_gid d) (mtime d) (ctime d) (entry_id d)
       (parent_id d) (mode d) (file_type d) (is_used d)).

Definition fs_atomic_update (e : env) (v : vfs) (name content : list Z) (size p : Z) : Z * vfs :=
  if negb (fs_mounted v) then (E_NODEV, v)
  else if SEC_LEVEL_IMMUTABLE <=? current_sec_level e then (E_ROFS, v)
  else match for_find 0 (fs_max_entries v) (names v p name) with
       | None => fs_create_file e v name content size p
       | Some _ =>
           let tmp := tmp_name name in
           let v := (fs_delete e v tmp p).2 in
           let '(res, v) := fs_create_file e v tmp content size p in
           if negb (res =? E_OK) then (res, v)
           else
             let orig_idx := last_match v p name in
             let tmp_idx := last_match v p tmp in
             if (orig_idx =? -1) || (tmp_idx =? -1) then (E_NOENT, (fs_delete e v tmp p).2)
             else
               let v := save_directory_to_disk (swap_contents e v orig_idx tmp_idx) in
               (E_OK, (fs_delete e v tmp p).2)
       end.

Definition fs_commit_writes (e : env) (v : vfs) (f : vfs_file) : Z * vfs_file * vfs :=
  if negb (vf_dirty f) then (E_OK, f, v)
  else
    let '(res, f, v) :=
      if (vf_inode_idx f <? 0) || (fs_max_entries v <=? vf_inode_idx f) then (E_BADF, f, v)
      else
        let '(res, v') := fs_atomic_update e v (vf_filename f) (vf_write_buf f) (alen (vf_write_buf f))
                            (parent_id (entry v (vf_inode_idx f))) in
        (res, (if res =? E_OK then set_file_size f (alen (vf_write_buf f)) else f), v') in
    (res, set_write f [] 0 false, v).

End vfs.

Arguments vfs : clear implicits.
Arguments read_vars : clear implicits.

End Vfs.
