(* ===== verification/VfsDisk.v ===== *)
(** * The file system and its disk: what the table-saving functions leave there

    Lemmas about the sectors under the file system, for any reliable store: one
    sector write, a run of them, the saved tables, and the data of a new file.
    [part_view] is the contents of a sector of the partition. *)

From S2P Require Import Prelude CStr Fat FsFormat BlockStore Vfs.
Import Fat FsFormat BlockStore Vfs.

Module VfsDisk.

Section disk.
Context {S : Type} {bs : BlockStore S} {laws : StoreLaws S} {rel : StoreReliable S}.
Implicit Types v w : vfs S.

(** The partition is on a device that works. *)
Record io_ok (v : vfs S) : Prop := {
  io_store : bs_ok (store v);
  io_good : bs_good (store v);
  io_start : 0 <= fs_part_start v;
  io_end : fs_part_start v + fs_max_sectors v <= bs_sectors (store v) < 2 ^ 32
}.

Definition part_view (v : vfs S) (k : Z) : list Z := bs_view (store v) (fs_part_start v + k).

(** [k] is one of the [n] numbers from [start]. *)
Definition in_run (start n k : Z) : bool := (start <=? k) && (k <? start + n).

(** [w] differs from [v] in the store alone. *)
Definition same_but_store (v w : vfs S) : Prop := w = set_store v (store w).

Lemma same_refl v : same_but_store v v.
Proof. by destruct v. Qed.

Lemma same_trans u v w : same_but_store u v -> same_but_store v w -> same_but_store u w.
Proof. unfold same_but_store. intros Huv ->. rewrite Huv. done. Qed.

Lemma same_fields v w : same_but_store v w ->
  fs_part_start w = fs_part_start v /\ fs_max_sectors w = fs_max_sectors v /\
  fs_total_clusters w = fs_total_clusters v /\ fs_max_entries w = fs_max_entries v /\
  fs_mounted w = fs_mounted v /\ fs_super w = fs_super v /\ dir_table w = dir_table v /\
  file_allocation_table w = file_allocation_table v.
Proof. intros ->. done. Qed.

(** The disk outside the partition is as it was. *)
Definition outside_kept (v w : vfs S) : Prop :=
  bs_sectors (store w) = bs_sectors (store v) /\
  forall j, ~ (fs_part_start v <= j < fs_part_start v + fs_max_sectors v) -> bs_view (store w) j = bs_view (store v) j.

Lemma outside_refl v : outside_kept v v.
Proof. done. Qed.

Lemma outside_trans u v w : same_but_store u v -> outside_kept u v -> outside_kept v w -> outside_kept u w.
Proof.
  intros Hs [Hn1 Hv1] [Hn2 Hv2]. apply same_fields in Hs as (Hp & Hm & _). split; [congruence|].
  intros j Hj. rewrite Hv2, Hv1; [done|done|by rewrite Hp, Hm].
Qed.

(** The partition table of the disk leads to this partition. *)
Definition labelled (v : vfs S) : Prop :=
  FS_PART_START_LBA + FS_DATA_START_SECTOR < bs_sectors (store v) /\
  choose_partition (bs_sectors (store v)) (bs_view (store v) 0) = Some (fs_part_start v, fs_max_sectors v).

Lemma labelled_kept v w : same_but_store v w -> outside_kept v w -> io_ok v -> labelled v -> labelled w.
Proof.
  intros Hs [Hn Hv] Hio [Hl Hc]. apply same_fields in Hs as (Hp & Hm & _). unfold labelled. rewrite Hn, Hp, Hm.
  apply choose_partition_bounds in Hc as Hb. rewrite Hv; [done|]. destruct Hio. lia.
Qed.

(** [w] comes from [v] by writing sectors of the partition: those the function
    [f] is defined on now hold what it says. *)
Record wrote (f : Z -> option (list Z)) (v w : vfs S) : Prop := {
  wrote_same : same_but_store v w;
  wrote_io : io_ok w;
  wrote_outside : outside_kept v w;
  wrote_view k : 0 <= k < fs_max_sectors v ->
    part_view w k = match f k with Some x => x | None => part_view v k end
}.

Lemma wrote_nothing v : io_ok v -> wrote (fun _ => None) v v.
Proof. intros Hio. constructor; [apply same_refl|done|done|done]. Qed.

Lemma wrote_ext f g v w : (forall k, 0 <= k < fs_max_sectors v -> f k = g k) -> wrote f v w -> wrote g v w.
Proof. intros Heq [Hs Hio Ho Hv]. constructor; [done|done|done|]. intros k Hk. by rewrite Hv, Heq. Qed.

Lemma wrote_trans f g u v w :
  wrote f u v -> wrote g v w -> wrote (fun k => match g k with Some x => Some x | None => f k end) u w.
Proof.
  intros [Hs1 Hio1 Ho1 Hv1] [Hs2 Hio2 Ho2 Hv2].
  constructor; [by apply (same_trans _ v)|done|by apply (outside_trans _ v)|].
  apply same_fields in Hs1 as (_ & Hm & _). intros k Hk.
  rewrite Hv2 by (by rewrite Hm). destruct (g k); [done|by apply Hv1].
Qed.

Lemma write_sector_wrote v k x r w :
  io_ok v -> 0 <= k < fs_max_sectors v -> fs_write_sector v k x = (r, w) ->
  r = E_OK /\ wrote (fun j => if j =? k then Some (take 512 x) else None) v w.
Proof.
  intros [Hok Hgood Hst Hend] Hk. unfold fs_write_sector, disk_write. rewrite u32_small by lia.
  destruct (bs_write (store v) (fs_part_start v + k) x) as [r0 s] eqn:Hw. intros [= <- <-].
  destruct (bs_write_good (store v) (fs_part_start v + k) x r0 s Hok Hgood ltac:(lia) Hw) as [-> Hgood'].
  destruct (bs_write_spec _ _ _ _ _ Hok Hw) as (Hok' & Hsec & Hview).
  split; [done|]. constructor; [done|constructor; simpl; rewrite ?Hsec; done| |].
  { split; [done|]. intros j Hj. cbn. rewrite Hview, bool_decide_eq_false_2; [done|]. cbn in Hj. lia. }
  intros j Hj. unfold part_view. simpl. rewrite Hview.
  destruct (Z.eqb_spec j k) as [->|Hne]; case_bool_decide as Hb; try done; [|lia].
  exfalso. by apply Hb.
Qed.

(** A loop that writes consecutive sectors. *)
Lemma write_run_wrote (start : vfs S -> Z) (f : Z -> list Z) n v :
  io_ok v -> 0 <= n -> 0 <= start v -> start v + n <= fs_max_sectors v ->
  (forall w, same_but_store v w -> start w = start v) ->
  wrote (fun k => if in_run (start v) n k then Some (take 512 (f (k - start v))) else None) v
    (for_range 0 n (fun v i => (fs_write_sector v (u32 (start v + i)) (f i)).2) v).
Proof.
  intros Hio Hn Hst Hend Hsame.
  assert (fs_max_sectors v < 2 ^ 32) as Hmax by (destruct Hio; lia).
  apply (for_range_ind (fun i w => wrote (fun k => if in_run (start v) i k
           then Some (take 512 (f (k - start v))) else None) v w)); unfold in_run; [done| |].
  - apply (wrote_ext (fun _ => None)); [|by apply wrote_nothing]. intros k _.
    destruct (Z.leb_spec (start v) k), (Z.ltb_spec k (start v + 0)); try done; lia.
  - intros i w Hi Hw. pose proof (wrote_same _ _ _ Hw) as Hs. rewrite (Hsame w Hs).
    rewrite u32_small by lia.
    destruct (fs_write_sector w (start v + i) (f i)) as [r w'] eqn:Hwr.
    apply write_sector_wrote in Hwr as [_ Hwr]; [|apply Hw|].
    2: { apply same_fields in Hs as (_ & -> & _). lia. }
    simpl. eapply wrote_ext; [|exact (wrote_trans _ _ _ _ _ Hw Hwr)]. intros k _. simpl.
    destruct (Z.eqb_spec k (start v + i)) as [->|Hne].
    + destruct (Z.leb_spec (start v) (start v + i)), (Z.ltb_spec (start v + i) (start v + (i + 1))); try lia.
      simpl. do 2 f_equal. f_equal. lia.
    + destruct (Z.leb_spec (start v) k), (Z.ltb_spec k (start v + i)), (Z.ltb_spec k (start v + (i + 1)));
        try done; lia.
Qed.

(** ** The saved tables *)

Definition fat_sectors (v : vfs S) : Z := (fs_total_clusters v * 4 + 511) / 512.
Definition fat_sector (v : vfs S) (i : Z) : list Z := slice (i * 512) 512 (fat_bytes (file_allocation_table v)).

Definition dir_sector (v : vfs S) (i : Z) : list Z :=
  let total_bytes := ENTRY_SIZE * fs_max_entries v in
  let copy_size := if total_bytes <? i * 512 + 512 then total_bytes mod 512 else 512 in
  sector_of (i * 512) copy_size (dir_bytes (dir_table v)).

(** The file system's geometry is in force. *)
Record geo_ok (v : vfs S) : Prop := {
  geo_io : io_ok v;
  geo_super : geometry_ok (fs_super v) (fs_max_sectors v);
  geo_entries : fs_max_entries v = sb_max_entries (fs_super v);
  geo_clusters : fs_total_clusters v = sb_total_clusters (fs_super v)
}.

Lemma geo_same v w : same_but_store v w -> io_ok w -> geo_ok v -> geo_ok w.
Proof.
  intros Hs Hio [_ Hg He Hc]. pose proof (same_fields _ _ Hs) as (Hp & Hm & Htc & Hme & _ & Hsb & _).
  constructor; rewrite ?Hm, ?Htc, ?Hme, ?Hsb; done.
Qed.

Lemma save_fat_wrote v :
  geo_ok v ->
  wrote (fun k => if in_run (sb_fat_start (fs_super v)) (fat_sectors v) k
                  then Some (take 512 (fat_sector v (k - sb_fat_start (fs_super v)))) else None)
    v (save_fat_to_disk v).
Proof.
  intros [Hio Hg He Hc]. unfold save_fat_to_disk. destruct Hg. unfold FS_MAX_CLUSTERS_CAP in *.
  rewrite (u32_small (fs_total_clusters v * 4)), u32_small by lia. fold (fat_sectors v).
  assert (0 <= fat_sectors v) as Hn by (unfold fat_sectors; zlia).
  apply (write_run_wrote (fun v => sb_fat_start (fs_super v)) (fat_sector v) (fat_sectors v)); try done.
  - unfold dir_sectors_for, ENTRY_SIZE in *. pose proof (u32_range (u32 (sb_max_entries (fs_super v) * 96) + 511)) as Hr.
    unfold is_u32 in Hr. pose proof (Z.div_pos (u32 (u32 (sb_max_entries (fs_super v) * 96) + 511)) 512 ltac:(lia) ltac:(lia)). lia.
  - unfold fat_sectors. rewrite Hc. unfold FS_CLUSTER_SECTORS in *. lia.
  - intros w Hw. by apply same_fields in Hw as (_ & _ & _ & _ & _ & -> & _).
Qed.

Lemma save_dir_wrote v :
  geo_ok v ->
  wrote (fun k => if in_run (sb_dir_start (fs_super v)) (dir_sectors_for (fs_max_entries v)) k
                  then Some (take 512 (dir_sector v (k - sb_dir_start (fs_super v)))) else None)
    v (save_directory_to_disk v).
Proof.
  intros [Hio Hg He Hc]. unfold save_directory_to_disk. destruct Hg.
  pose proof (dir_sectors_for_eq (fs_max_entries v) ltac:(rewrite He; lia)) as Hds.
  unfold FS_MAX_ENTRIES_CAP, ENTRY_SIZE in *.
  rewrite (u32_small (96 * fs_max_entries v)), u32_small by lia.
  replace ((96 * fs_max_entries v + 511) / 512) with (dir_sectors_for (fs_max_entries v)) by (rewrite Hds; f_equal; lia).
  assert (0 <= dir_sectors_for (fs_max_entries v)) as Hn by (rewrite Hds; zlia).
  apply (write_run_wrote (fun v => sb_dir_start (fs_super v)) (dir_sector v)
           (dir_sectors_for (fs_max_entries v))); try done.
  - lia.
  - rewrite He. unfold FS_CLUSTER_SECTORS, FS_MAX_CLUSTERS_CAP in *.
    assert (0 <= (sb_total_clusters (fs_super v) * 4 + 511) / 512) by zlia. lia.
  - intros w Hw. by apply same_fields in Hw as (_ & _ & _ & _ & _ & -> & _).
Qed.

(** ** The data of a file *)

(** The sector of the partition where a cluster begins; no wrap-around inside a
    correct geometry. *)
Definition cluster_start (v : vfs S) (x : Z) : Z := sb_data_start (fs_super v) + x * FS_CLUSTER_SECTORS.

Lemma cluster_start_eq v x :
  geo_ok v -> 0 <= x < fs_total_clusters v ->
  fs_cluster_to_sector (fs_super v) x = cluster_start v x /\
  sb_data_start (fs_super v) <= cluster_start v x /\
  cluster_start v x + FS_CLUSTER_SECTORS <= fs_max_sectors v.
Proof.
  intros [_ Hg _ Hc] Hx. destruct Hg. unfold fs_cluster_to_sector, cluster_start, FS_MAX_CLUSTERS_CAP in *.
  rewrite g_cluster_sectors0. unfold FS_CLUSTER_SECTORS in *.
  assert (0 <= sb_data_start (fs_super v)).
  { unfold dir_sectors_for in *.
    pose proof (u32_range (u32 (sb_max_entries (fs_super v) * ENTRY_SIZE) + 511)) as [? ?].
    pose proof (Z.div_pos (u32 (u32 (sb_max_entries (fs_super v) * ENTRY_SIZE) + 511)) 512 ltac:(lia) ltac:(lia)).
    pose proof (Z.div_pos (sb_total_clusters (fs_super v) * 4 + 511) 512 ltac:(lia) ltac:(lia)). lia. }
  rewrite (u32_small (x * 8)), u32_small by lia. lia.
Qed.

(** Sector [n] of a file with the given contents, padded with zeros. *)
Definition file_sector (content : list Z) (size n : Z) : list Z :=
  sector_of (n * 512) (Z.max 0 (Z.min 512 (size - n * 512))) content.

Lemma length_sector_of off n b : n <= 512 -> length (sector_of off n b) = 512%nat.
Proof.
  intros Hn. unfold sector_of, slice. rewrite length_app, length_replicate, length_take. lia.
Qed.

Lemma take_sector_of off n b : n <= 512 -> take 512 (sector_of off n b) = sector_of off n b.
Proof. intros. apply take_ge. rewrite length_sector_of by done. lia. Qed.

(** One cluster's worth of sectors. *)
Lemma write_cluster_wrote v content size base c :
  io_ok v -> 0 <= size -> 0 <= c -> 0 <= base -> base + FS_CLUSTER_SECTORS <= fs_max_sectors v ->
  exists w, for_range 0 FS_CLUSTER_SECTORS (write_cluster content size base) (v, Z.min size (c * 4096)) =
              (w, Z.min size ((c + 1) * 4096)) /\
            wrote (fun k => if in_run base FS_CLUSTER_SECTORS k
                            then Some (file_sector content size (c * 8 + (k - base))) else None) v w.
Proof.
  intros Hio Hsz Hc Hb Hend. unfold FS_CLUSTER_SECTORS in *.
  assert (fs_max_sectors v < 2 ^ 32) as Hmax by (destruct Hio; lia).
  replace ((c + 1) * 4096) with (c * 4096 + 8 * 512) by lia.
  apply (for_range_ind (fun i st => exists w, st = (w, Z.min size (c * 4096 + i * 512)) /\
    wrote (fun k => if in_run base i k then Some (file_sector content size (c * 8 + (k - base))) else None) v w)
    0 8 (write_cluster content size base) (v, Z.min size (c * 4096))); [done| |].
  - exists v. split; [do 2 f_equal; lia|]. apply (wrote_ext (fun _ => None)); [|by apply wrote_nothing].
    intros k _. unfold in_run. destruct (Z.leb_spec base k), (Z.ltb_spec k (base + 0)); try done; lia.
  - intros i st Hi (w & -> & Hw). unfold write_cluster. rewrite u32_small by lia.
    destruct (fs_write_sector w (base + i) _) as [r w'] eqn:Hwr.
    apply write_sector_wrote in Hwr as [_ Hwr]; [|apply Hw|].
    2: { destruct (same_fields _ _ (wrote_same _ _ _ Hw)) as (_ & -> & _). lia. }
    set (bw := Z.min size (c * 4096 + i * 512)) in *.
    set (chunk := if bw <? size then _ else 0) in *.
    assert (chunk = Z.max 0 (Z.min 512 (size - (c * 8 + i) * 512))) as Hchunk.
    { unfold chunk, bw. destruct (Z.ltb_spec (Z.min size (c * 4096 + i * 512)) size); [case_bool; lia|lia]. }
    exists w'. split; [simpl; f_equal; unfold bw; lia|].
    eapply wrote_ext; [|exact (wrote_trans _ _ _ _ _ Hw Hwr)]. intros k _. simpl. unfold in_run.
    destruct (Z.eqb_spec k (base + i)) as [->|Hne].
    + destruct (Z.leb_spec base (base + i)), (Z.ltb_spec (base + i) (base + (i + 1))); try lia. simpl. f_equal.
      rewrite take_sector_of by lia. replace (c * 8 + (base + i - base)) with (c * 8 + i) by lia.
      unfold file_sector. rewrite <- Hchunk. unfold sector_of.
      replace (slice bw chunk content) with (slice ((c * 8 + i) * 512) chunk content); [done|].
      destruct (Z.leb_spec size ((c * 8 + i) * 512)).
      * replace chunk with 0 by lia. done.
      * f_equal. unfold bw. lia.
    + destruct (Z.leb_spec base k), (Z.ltb_spec k (base + i)), (Z.ltb_spec k (base + (i + 1))); try done; lia.
Qed.

(** Where the data of a chain goes, cluster [n] of the file first. *)
Fixpoint data_map (v : vfs S) (content : list Z) (size n : Z) (l : list Z) (k : Z) : option (list Z) :=
  match l with
  | [] => None
  | x :: l' =>
      if in_run (cluster_start v x) FS_CLUSTER_SECTORS k
      then Some (file_sector content size (n * 8 + (k - cluster_start v x)))
      else data_map v content size (n + 1) l' k
  end.

Lemma data_map_app v content size l1 : forall n l2 k,
  data_map v content size n (l1 ++ l2) k =
  match data_map v content size n l1 k with
  | Some x => Some x
  | None => data_map v content size (n + alen l1) l2 k
  end.
Proof.
  induction l1 as [|x l1 IH]; intros n l2 k; cbn [data_map app].
  - f_equal. unfold alen. simpl. lia.
  - destruct (in_run _ _ _); [done|]. rewrite IH. destruct (data_map _ _ _ _ l1 k); [done|].
    f_equal. unfold alen. simpl. lia.
Qed.

Lemma data_map_None v content size l : forall n k,
  (forall x, x ∈ l -> in_run (cluster_start v x) FS_CLUSTER_SECTORS k = false) ->
  data_map v content size n l k = None.
Proof.
  induction l as [|x l IH]; intros n k Hout; [done|]. cbn [data_map]. rewrite Hout by (by left).
  apply IH. intros. apply Hout. by right.
Qed.

(** Different clusters have different sectors. *)
Lemma clusters_disjoint v x y k :
  in_run (cluster_start v x) FS_CLUSTER_SECTORS k = true ->
  in_run (cluster_start v y) FS_CLUSTER_SECTORS k = true -> x = y.
Proof. unfold in_run, cluster_start, FS_CLUSTER_SECTORS. intros. bool_to_prop. lia. Qed.

(** The data loop of a creation. *)
Lemma write_data_wrote v content size l c0 :
  geo_ok v -> 0 <= size -> is_chain (fs_total_clusters v) (file_allocation_table v) c0 l ->
  wrote (data_map v content size 0 l) v (write_data v content size (alen l) c0).
Proof.
  intros Hgeo Hsz Hch. unfold write_data.
  pose proof (geo_super _ Hgeo) as Hg. pose proof (geo_clusters _ Hgeo) as Hcl.
  assert (fs_total_clusters v <= FS_MAX_CLUSTERS_CAP) as Hcap by (destruct Hg; lia).
  pose proof (chain_NoDup _ _ _ _ Hcap Hch) as Hnd.
  assert (exists w cur l1 l2, l = l1 ++ l2 /\ alen l1 = alen l /\
    for_range 0 (alen l) (write_data_cluster content size) (v, 0, c0) = (w, Z.min size (alen l * 4096), cur) /\
    is_chain (fs_total_clusters v) (file_allocation_table v) cur l2 /\
    wrote (data_map v content size 0 l1) v w) as (w & cur & l1 & l2 & Hl & Hlen & -> & _ & Hw).
  { apply (for_range_ind (fun i st => exists w cur l1 l2, l = l1 ++ l2 /\ alen l1 = i /\
      st = (w, Z.min size (i * 4096), cur) /\
      is_chain (fs_total_clusters v) (file_allocation_table v) cur l2 /\
      wrote (data_map v content size 0 l1) v w)); [unfold alen; lia| |].
    - exists v, c0, [], l. split; [done|]. split; [done|]. split; [do 2 f_equal; lia|]. split; [done|].
      by apply wrote_nothing, Hgeo.
    - intros i st Hi (w & cur & l1 & l2 & Hl & Hl1 & -> & Hch2 & Hw).
      destruct l2 as [|x l2]; [rewrite app_nil_r in Hl; subst l1; lia|].
      destruct Hch2 as (-> & Hx & Hch2). unfold FS_FIRST_DATA_CLUSTER in Hx.
      pose proof (wrote_same _ _ _ Hw) as Hs. pose proof (same_fields _ _ Hs) as (_ & Hm & Htc & _ & _ & Hsb & _ & Hft).
      pose proof (geo_same _ _ Hs (wrote_io _ _ _ Hw) Hgeo) as Hgw.
      destruct (cluster_start_eq w x Hgw ltac:(lia)) as (Hcs & Hlo & Hhi).
      unfold write_data_cluster. rewrite Htc, Hcs, Hsb, (g_cluster_sectors _ _ Hg).
      destruct (Z.eqb_spec x FAT_EOF) as [->|_]; [unfold FAT_EOF, FS_MAX_CLUSTERS_CAP in *; lia|].
      destruct (Z.leb_spec (fs_total_clusters v) x); [lia|]. cbn [orb].
      assert (cluster_start w x = cluster_start v x) as Hcv by (unfold cluster_start; by rewrite Hsb).
      destruct (write_cluster_wrote w content size (cluster_start w x) i (wrote_io _ _ _ Hw) Hsz ltac:(lia)) as (w' & -> & Hw').
      { destruct Hg. rewrite Hsb in Hlo. unfold FS_MAX_CLUSTERS_CAP in *.
        pose proof (Z.div_pos (sb_total_clusters (fs_super v) * 4 + 511) 512 ltac:(lia) ltac:(lia)).
        pose proof (dir_sectors_for_eq (sb_max_entries (fs_super v)) ltac:(lia)) as Hds.
        pose proof (Z.div_pos (sb_max_entries (fs_super v) * 96 + 511) 512 ltac:(lia) ltac:(lia)). lia. }
      { done. }
      pose proof (same_fields _ _ (wrote_same _ _ _ Hw')) as (_ & _ & _ & _ & _ & _ & _ & Hft').
      exists w', (file_allocation_table w').[x], (l1 ++ [x]), l2. rewrite <- app_assoc. split; [done|].
      split; [rewrite alen_app; unfold alen at 2; simpl; lia|]. split; [done|].
      split; [by rewrite Hft', Hft|].
      eapply wrote_ext; [|exact (wrote_trans _ _ _ _ _ Hw Hw')]. intros k _. cbn beta.
      rewrite data_map_app, Hl1, Hcv. cbn [data_map]. rewrite Z.add_0_l.
      destruct (in_run (cluster_start v x) FS_CLUSTER_SECTORS k) eqn:Hin.
      + rewrite data_map_None; [done|]. intros y Hy. destruct (in_run (cluster_start v y) _ k) eqn:Hiny; [|done].
        pose proof (clusters_disjoint _ _ _ _ Hin Hiny) as <-. exfalso. rewrite Hl in Hnd.
        apply NoDup_app in Hnd as (_ & Hdis & _). apply (Hdis x Hy). by left.
      + by destruct (data_map v content size 0 l1 k). }
  simpl. assert (l2 = []) as ->.
  { rewrite Hl, alen_app in Hlen. unfold alen in Hlen. destruct l2; [done|simpl in Hlen; lia]. }
  rewrite app_nil_r in Hl. by subst l1.
Qed.

End disk.
End VfsDisk.
