(* ===== verification/VfsData.v ===== *)
(** * What a file holds

    The bytes of a file are those of the sectors of its chain, cut at its size.
    Writing a chain stores the contents there, and [fs_read_raw] returns them. *)

From S2P Require Import Prelude CStr Fat FsFormat BlockStore Vfs VfsDisk.
Import Fat FsFormat BlockStore Vfs VfsDisk.

Module VfsData.

(** ** Runs of bytes *)

Lemma length_slice off n b : 0 <= off -> 0 <= n -> off + n <= alen b -> alen (slice off n b) = n.
Proof. intros. unfold slice, alen in *. rewrite length_take, length_drop. lia. Qed.

Lemma slice_app off n m b : 0 <= off -> 0 <= n -> 0 <= m -> slice off n b ++ slice (off + n) m b = slice off (n + m) b.
Proof.
  intros. unfold slice. rewrite !Z2Nat.inj_add by lia. rewrite <- drop_drop.
  set (c := drop (Z.to_nat off) b). rewrite <- (take_drop (Z.to_nat n) (take (Z.to_nat n + Z.to_nat m) c)).
  rewrite take_take, Nat.min_l by lia. f_equal. by rewrite take_drop_commute.
Qed.

Lemma slice_all n b : alen b = n -> slice 0 n b = b.
Proof. intros <-. unfold slice, alen. rewrite Nat2Z.id, drop_0. by apply take_ge. Qed.

(** Chunk [j] of a list of 512-byte chunks. *)
Lemma slice_concat (ls : list (list Z)) (j : nat) c a n :
  Forall (fun x => length x = 512%nat) ls -> ls !! j = Some c -> 0 <= a -> 0 <= n -> a + n <= 512 ->
  slice (Z.of_nat j * 512 + a) n (concat ls) = slice a n c.
Proof.
  intros Hls Hj Ha Hn Han. revert ls Hls Hj. induction j as [|j IH]; intros [|d ls] Hls Hj; try done;
    apply Forall_cons in Hls as [Hd Hls]; cbn [concat].
  - injection Hj as ->. unfold slice. rewrite drop_app_le by lia. rewrite take_app_le by (rewrite length_drop; lia).
    f_equal; f_equal; lia.
  - rewrite <- (IH ls Hls Hj). unfold slice. rewrite drop_app_ge by lia. do 3 f_equal. lia.
Qed.

Lemma length_concat_512 (ls : list (list Z)) :
  Forall (fun x => length x = 512%nat) ls -> alen (concat ls) = 512 * alen ls.
Proof.
  induction 1 as [|x ls Hx _ IH]; [done|]. cbn [concat]. rewrite alen_app, IH. unfold alen. rewrite Hx. simpl. lia.
Qed.

(** ** The sectors of the contents *)

Lemma slice_take off n size (b : list Z) :
  0 <= off -> 0 <= n -> slice off (Z.max 0 (Z.min n (size - off))) b = slice off n (take (Z.to_nat size) b).
Proof.
  intros Ho Hn. unfold slice. rewrite !take_drop_commute, take_take. 
  destruct (Z.le_gt_cases size off).
  - rewrite Z.max_l by lia. by rewrite !drop_ge by (rewrite length_take; lia).
  - do 2 f_equal. lia.
Qed.

Lemma file_sector_eq content size n m :
  0 <= size <= alen content -> 0 <= n < m ->
  file_sector content size n =
  slice (n * 512) 512 (take (Z.to_nat size) content ++ replicate (Z.to_nat (m * 512)) 0).
Proof.
  intros Hsz Hn. unfold file_sector, sector_of. rewrite slice_take by lia.
  set (c := take (Z.to_nat size) content).
  assert (length c = Z.to_nat size) as Hc by (unfold c, alen in *; rewrite length_take; lia).
  unfold slice. change (Z.to_nat 512) with 512%nat.
  destruct (Z.le_gt_cases size (n * 512)).
  - rewrite (drop_ge c), take_nil by lia. cbn [app length]. rewrite drop_app_ge by lia.
    rewrite drop_replicate, take_replicate. f_equal. rewrite Hc. lia.
  - rewrite drop_app_le by lia. rewrite take_app, take_replicate. do 2 f_equal. rewrite length_take. lia.
Qed.

Lemma concat_file_sectors content size m :
  0 <= size <= alen content -> 0 <= m ->
  concat (map (file_sector content size) (seqZ 0 m)) =
  slice 0 (m * 512) (take (Z.to_nat size) content ++ replicate (Z.to_nat (m * 512)) 0).
Proof.
  intros Hsz Hm. set (M := m) at 2 3.
  assert (forall k, 0 <= k <= M -> concat (map (file_sector content size) (seqZ 0 k)) =
    slice 0 (k * 512) (take (Z.to_nat size) content ++ replicate (Z.to_nat (M * 512)) 0)) as Hk.
  { intros k Hk. rewrite <- (Z2Nat.id k) in * by lia. induction (Z.to_nat k) as [|j IH]; [done|].
    rewrite Nat2Z.inj_succ, <- Z.add_1_r in *. rewrite seqZ_app by lia. rewrite map_app, concat_app, IH by lia.
    change (seqZ (0 + Z.of_nat j) 1) with [0 + Z.of_nat j]. cbn [map concat]. rewrite app_nil_r.
    rewrite (file_sector_eq _ _ _ M) by lia. rewrite Z.add_0_l.
    rewrite (slice_app 0 (Z.of_nat j * 512) 512) by lia. f_equal. lia. }
  apply Hk. lia.
Qed.

(** Enough sectors hold the contents. *)
Lemma file_sectors_hold content size m :
  0 <= size <= alen content -> size <= m * 512 -> 0 <= m ->
  take (Z.to_nat size) (concat (map (file_sector content size) (seqZ 0 m))) = take (Z.to_nat size) content.
Proof.
  intros Hsz Hle Hm. rewrite concat_file_sectors by lia. unfold slice. rewrite drop_0, take_take, Nat.min_l by lia.
  rewrite take_app_le; [apply take_ge|]; unfold alen in *; rewrite !length_take; lia.
Qed.

Section data.
Context {S : Type} {bs : BlockStore S} {laws : StoreLaws S} {rel : StoreReliable S}.
Implicit Types v w : vfs S.

(** The sectors of a chain, in the order of the file. *)
Definition cluster_sectors (v : vfs S) (x : Z) : list Z := map (fun s => cluster_start v x + s) (seqZ 0 FS_CLUSTER_SECTORS).
Definition chain_sectors (v : vfs S) (l : list Z) : list Z := concat (map (cluster_sectors v) l).

Definition chain_data (v : vfs S) (l : list Z) : list Z := concat (map (part_view v) (chain_sectors v l)).

(** The bytes of a file of the given size. *)
Definition file_bytes (v : vfs S) (size : Z) (l : list Z) : list Z := take (Z.to_nat size) (chain_data v l).

Lemma chain_sectors_app v l1 l2 : chain_sectors v (l1 ++ l2) = chain_sectors v l1 ++ chain_sectors v l2.
Proof. unfold chain_sectors. by rewrite map_app, concat_app. Qed.

Lemma alen_chain_sectors v l : alen (chain_sectors v l) = 8 * alen l.
Proof.
  induction l as [|x l IH]; [done|]. change (x :: l) with ([x] ++ l). rewrite chain_sectors_app, !alen_app, IH.
  unfold alen at 1 3. simpl. lia.
Qed.

Lemma elem_of_chain_sectors v l k :
  k ∈ chain_sectors v l <-> exists x, x ∈ l /\ in_run (cluster_start v x) FS_CLUSTER_SECTORS k = true.
Proof.
  unfold chain_sectors. split.
  - intros Hk. apply list_elem_of_In, in_concat in Hk as (ks & Hks & Hk).
    apply in_map_iff in Hks as (x & <- & Hx). exists x. split; [by apply list_elem_of_In|].
    apply in_map_iff in Hk as (s & <- & Hs). apply list_elem_of_In, elem_of_seqZ in Hs.
    unfold in_run. lia.
  - intros (x & Hx & Hin). apply list_elem_of_In, in_concat. exists (cluster_sectors v x).
    split; [by apply in_map, list_elem_of_In|]. apply in_map_iff. exists (k - cluster_start v x).
    unfold in_run in Hin. bool_to_prop. split; [lia|]. apply list_elem_of_In, elem_of_seqZ. lia.
Qed.

Lemma chain_sectors_lookup v l1 x l2 s :
  0 <= s < 8 -> chain_sectors v (l1 ++ x :: l2) !! Z.to_nat (alen l1 * 8 + s) = Some (cluster_start v x + s).
Proof.
  intros Hs. rewrite chain_sectors_app. pose proof (alen_chain_sectors v l1) as Hl. unfold alen in Hl.
  rewrite lookup_app_r by (unfold alen in *; lia). 
  replace (Z.to_nat (alen l1 * 8 + s) - length (chain_sectors v l1))%nat with (Z.to_nat s) by (unfold alen; lia).
  change (x :: l2) with ([x] ++ l2). rewrite chain_sectors_app, lookup_app_l.
  2: { pose proof (alen_chain_sectors v [x]) as Hx. unfold alen in Hx. simpl in *. lia. }
  unfold chain_sectors, cluster_sectors. cbn [map concat]. rewrite app_nil_r.
  rewrite list_lookup_fmap, lookup_seqZ_lt by (unfold FS_CLUSTER_SECTORS; lia). simpl. do 2 f_equal. lia.
Qed.

(** A chain's data, read where another one writes. *)
Lemma chain_data_ext v w l :
  fs_super w = fs_super v -> (forall k, k ∈ chain_sectors v l -> part_view w k = part_view v k) ->
  chain_data w l = chain_data v l.
Proof.
  intros Hsb Heq. unfold chain_data.
  assert (chain_sectors w l = chain_sectors v l) as ->.
  { unfold chain_sectors. f_equal. apply map_ext. intros x. unfold cluster_sectors, cluster_start. by rewrite Hsb. }
  f_equal. apply map_ext_in. intros k Hk. apply Heq, list_elem_of_In, Hk.
Qed.

(** What a creation wrote is what its chain holds. *)
Lemma chain_data_written v w content size l :
  NoDup l -> fs_super w = fs_super v ->
  (forall k, k ∈ chain_sectors v l -> Some (part_view w k) = data_map v content size 0 l k) ->
  chain_data w l = concat (map (file_sector content size) (seqZ 0 (8 * alen l))).
Proof.
  intros Hnd Hsb Hview. unfold chain_data.
  assert (forall n, 0 <= n -> (forall k, k ∈ chain_sectors v l -> Some (part_view w k) = data_map v content size n l k) ->
    map (part_view w) (chain_sectors v l) = map (file_sector content size) (seqZ (n * 8) (8 * alen l))) as Hgen.
  { clear Hview. induction l as [|x l IH]; intros n Hn Hview; [done|]. apply NoDup_cons in Hnd as [Hx Hnd].
    change (x :: l) with ([x] ++ l) in *. rewrite chain_sectors_app, map_app, alen_app.
    replace (8 * (alen [x] + alen l)) with (8 + 8 * alen l) by (unfold alen; simpl; lia).
    rewrite seqZ_app by (unfold alen; lia). rewrite map_app. f_equal.
    - unfold chain_sectors, cluster_sectors. cbn [map concat]. rewrite app_nil_r, map_map.
      replace (seqZ (n * 8) 8) with (map (Z.add (n * 8)) (seqZ 0 8))
        by (pose proof (fmap_add_seqZ (n * 8) 0 8) as Hadd; rewrite Z.add_0_r in Hadd; exact Hadd).
      rewrite map_map. apply map_ext_in. intros s Hs.
      apply list_elem_of_In, elem_of_seqZ in Hs.
      assert (in_run (cluster_start v x) FS_CLUSTER_SECTORS (cluster_start v x + s) = true) as Hin.
      { unfold in_run. unfold FS_CLUSTER_SECTORS in *. lia. }
      specialize (Hview (cluster_start v x + s)). cbn [data_map app] in Hview. rewrite Hin in Hview.
      rewrite elem_of_chain_sectors in Hview. assert (Some (part_view w (cluster_start v x + s)) =
        Some (file_sector content size (n * 8 + (cluster_start v x + s - cluster_start v x)))) as [= ->].
      { apply Hview. exists x. split; [by left|done]. }
      simpl. f_equal. lia.
    - replace (n * 8 + 8) with ((n + 1) * 8) by lia. apply (IH Hnd (n + 1)); [lia|].
      intros k Hk. rewrite Hview by (rewrite chain_sectors_app; apply elem_of_app; by right).
      cbn [data_map app]. destruct (in_run (cluster_start v x) FS_CLUSTER_SECTORS k) eqn:Hin; [|done].
      apply elem_of_chain_sectors in Hk as (y & Hy & Hiny).
      by rewrite (clusters_disjoint _ _ _ _ Hin Hiny) in Hx. }
  assert (chain_sectors w l = chain_sectors v l) as ->.
  { unfold chain_sectors. f_equal. apply map_ext. intros x. unfold cluster_sectors, cluster_start. by rewrite Hsb. }
  by rewrite (Hgen 0 ltac:(lia) Hview).
Qed.

(** ** Reading *)

Lemma read_sector_wrote v k buf r out w :
  io_ok v -> 0 <= k < fs_max_sectors v -> fs_read_sector v k buf = (r, out, w) ->
  r = E_OK /\ out = part_view v k /\ wrote (fun _ => None) v w.
Proof.
  intros [Hok Hgood Hst Hend] Hk. unfold fs_read_sector, disk_read. rewrite u32_small by lia.
  destruct (bs_read (store v) (fs_part_start v + k) buf) as [[r0 o0] s] eqn:Hr. intros [= <- <- <-].
  destruct (bs_read_good (store v) (fs_part_start v + k) buf r0 o0 s Hok Hgood ltac:(lia) Hr) as [-> Hgood'].
  destruct (bs_read_spec _ _ _ _ _ _ Hok Hr) as (Hok' & Hsec & Hview & Hout).
  split; [done|]. split; [by apply Hout|].
  constructor; [done|constructor; simpl; rewrite ?Hsec; done|done|]. intros j Hj. unfold part_view. simpl. apply Hview.
Qed.

Lemma data_start_nonneg v : geo_ok v -> 0 <= sb_data_start (fs_super v).
Proof.
  intros Hgeo. pose proof (geo_super _ Hgeo) as []. unfold FS_MAX_CLUSTERS_CAP in *.
  pose proof (Z.div_pos (sb_total_clusters (fs_super v) * 4 + 511) 512 ltac:(lia) ltac:(lia)).
  pose proof (dir_sectors_for_eq (sb_max_entries (fs_super v)) ltac:(lia)).
  pose proof (Z.div_pos (sb_max_entries (fs_super v) * 96 + 511) 512 ltac:(lia) ltac:(lia)). lia.
Qed.

Section reading.
Context (v0 : vfs S) (l : list Z) (c0 o size : Z) (stack : list Z).
Context (Hgeo : geo_ok v0).
Context (Hch : is_chain (fs_total_clusters v0) (file_allocation_table v0) c0 l).
Context (H512 : forall k, k ∈ chain_sectors v0 l -> length (part_view v0 k) = 512%nat).
Context (Ho : 0 <= o) (Hsize : 0 <= size) (Hfit : o + size <= 4096 * alen l) (H32 : o + size < 2 ^ 32).

Definition rd_ok (r : read_vars S) : Prop :=
  wrote (fun _ => None) v0 (rv_v r) /\ rv_data r = slice o (alen (rv_data r)) (chain_data v0 l) /\
  alen (rv_data r) <= size /\ rv_offset r = o + alen (rv_data r).

Definition at_pos (r : read_vars S) (l1 : list Z) (x : Z) (l2 : list Z) : Prop :=
  l = l1 ++ x :: l2 /\ rv_cluster r = x /\
  alen l1 * 4096 + rv_in_cluster r = o + alen (rv_data r) /\ 0 <= rv_in_cluster r.

Lemma chunks_512 : Forall (fun x => length x = 512%nat) (map (part_view v0) (chain_sectors v0 l)).
Proof. apply Forall_forall. intros x Hx. apply list_elem_of_fmap in Hx as (k & -> & Hk). by apply H512. Qed.

Lemma alen_chain_data : alen (chain_data v0 l) = 4096 * alen l.
Proof.
  unfold chain_data. rewrite length_concat_512 by apply chunks_512.
  unfold alen at 1. rewrite length_map. fold (alen (chain_sectors v0 l)). rewrite alen_chain_sectors. lia.
Qed.

Lemma chain_data_slice l1 x l2 s a n :
  l = l1 ++ x :: l2 -> 0 <= s < 8 -> 0 <= a -> 0 <= n -> a + n <= 512 ->
  slice (alen l1 * 4096 + s * 512 + a) n (chain_data v0 l) = slice a n (part_view v0 (cluster_start v0 x + s)).
Proof.
  intros Hl Hs Ha Hn Han. unfold chain_data.
  rewrite <- (slice_concat (map (part_view v0) (chain_sectors v0 l)) (Z.to_nat (alen l1 * 8 + s))
    (part_view v0 (cluster_start v0 x + s)) a n chunks_512); try done.
  - f_equal. unfold alen. lia.
  - rewrite Hl, list_lookup_fmap, chain_sectors_lookup by done. done.
Qed.

(** One turn of the inner loop. *)
Lemma read_one_step r l1 x l2 :
  rd_ok r -> at_pos r l1 x l2 -> rv_in_cluster r < 4096 -> alen (rv_data r) < size ->
  let r' := read_one stack size (cluster_start v0 x) r in
  rd_ok r' /\ at_pos r' l1 x l2 /\ rv_in_cluster r' <= 4096 /\
  (alen (rv_data r') = size \/ rv_in_cluster r' = (rv_in_cluster r / 512 + 1) * 512).
Proof.
  intros (Hw & Hdata & Hle & Hoff) (Hl & Hx & Hpos & Hin) Hlt Hmore. unfold read_one.
  assert (x ∈ l) as Hxl by (rewrite Hl; apply elem_of_app; right; by left).
  pose proof (chain_range _ _ _ _ _ Hch Hxl) as Hxr. unfold FS_FIRST_DATA_CLUSTER in Hxr.
  destruct (cluster_start_eq v0 x Hgeo ltac:(lia)) as (_ & Hlo & Hhi). unfold FS_CLUSTER_SECTORS in Hhi.
  pose proof (geo_io _ Hgeo) as [_ _ Hps Hend].
  pose proof (data_start_nonneg v0 Hgeo) as Hnn.
  set (q := rv_in_cluster r / 512). set (a := rv_in_cluster r mod 512).
  assert (0 <= q < 8 /\ 0 <= a < 512 /\ rv_in_cluster r = q * 512 + a) as (Hq & Ha & Hqa) by (unfold q, a; zlia).
  rewrite u32_small by lia.
  destruct (fs_read_sector (rv_v r) (cluster_start v0 x + q) stack) as [[res buf] w] eqn:Hr.
  destruct (same_fields _ _ (wrote_same _ _ _ Hw)) as (_ & Hms & _).
  apply read_sector_wrote in Hr as (_ & Hbuf & Hw'); [|apply Hw|rewrite Hms; lia].
  rewrite (wrote_view _ _ _ Hw) in Hbuf by lia.
  set (n := if size - alen (rv_data r) <? 512 - a then size - alen (rv_data r) else 512 - a).
  assert (0 < n /\ n <= 512 - a /\ n <= size - alen (rv_data r) /\ (n = size - alen (rv_data r) \/ n = 512 - a))
    as (Hn0 & Hn1 & Hn2 & Hn3) by (unfold n; case_bool; lia).
  assert (slice a n buf = slice (o + alen (rv_data r)) n (chain_data v0 l)) as Hs.
  { rewrite Hbuf, <- (chain_data_slice l1 x l2 q a n) by (done || lia). f_equal. lia. }
  pose proof (alen_nonneg (rv_data r)) as Hd0.
  assert (alen (slice a n buf) = n) as Hsn by (rewrite Hs; apply length_slice; rewrite ?alen_chain_data; lia).
  split; [|split; [|split]]; unfold rd_ok, at_pos; cbn [rv_v rv_data rv_offset rv_cluster rv_in_cluster].
  - rewrite alen_app, Hsn. split; [|split; [|split; [lia|rewrite Hoff, u32_small; lia]]].
    + eapply wrote_ext; [|exact (wrote_trans _ _ _ _ _ Hw Hw')]. done.
    + rewrite Hs, Hdata at 1. apply slice_app; lia.
  - rewrite alen_app, Hsn. split; [done|]. split; [done|]. lia.
  - lia.
  - rewrite alen_app, Hsn. fold q. lia.
Qed.

Lemma rd_super r : rd_ok r -> fs_super (rv_v r) = fs_super v0 /\ fs_total_clusters (rv_v r) = fs_total_clusters v0 /\
  file_allocation_table (rv_v r) = file_allocation_table v0.
Proof. intros (Hw & _). by destruct (same_fields _ _ (wrote_same _ _ _ Hw)) as (_ & _ & ? & _ & _ & ? & _ & ?). Qed.

(** The outer loop's state: done, or at the beginning of a cluster's part. *)
Definition rd_pos (r : read_vars S) : Prop :=
  rd_ok r /\ 0 <= rv_in_cluster r < 4096 /\
  (alen (rv_data r) < size -> exists l1 x l2, at_pos r l1 x l2 /\
     is_chain (fs_total_clusters v0) (file_allocation_table v0) x (x :: l2)).

Lemma read_cluster_step r :
  rd_pos r -> read_more size r = true ->
  let r' := read_cluster stack 4096 size r in
  rd_pos r' /\ (alen (rv_data r') < size -> alen (rv_data r') = alen (rv_data r) + 4096 - rv_in_cluster r /\ rv_in_cluster r' = 0).
Proof.
  intros (Hok & Hin & Hpos) Hmore. unfold read_more in Hmore. bool_to_prop.
  destruct (Hpos ltac:(lia)) as (l1 & x & l2 & Hat & Hchx).
  pose proof Hat as (Hl & Hx & Hp & _). destruct (rd_super r Hok) as (Hsb & Htc & Hft).
  destruct Hchx as (_ & Hxr & Hch2). unfold FS_FIRST_DATA_CLUSTER in Hxr.
  destruct (cluster_start_eq v0 x Hgeo ltac:(lia)) as (Hcs & _).
  unfold read_cluster. rewrite Hsb, Hx, Hcs. change (4096 / 512 + 1) with 9.
  set (P := fun t => rd_ok t /\ at_pos t l1 x l2 /\ rv_in_cluster t <= 4096).
  set (cond := fun t => (rv_in_cluster t <? 4096) && (alen (rv_data t) <? size)).
  assert (forall t, P t -> cond t = true -> P (read_one stack size (cluster_start v0 x) t) /\
    let m t := Z.to_nat (if alen (rv_data t) <? size then 8 - rv_in_cluster t / 512 else 0) in
    (m (read_one stack size (cluster_start v0 x) t) < m t)%nat) as Hstep.
  { intros t (Hokt & Hatt & Hint) Hcond. unfold cond in Hcond. bool_to_prop.
    destruct (read_one_step t l1 x l2 Hokt Hatt ltac:(lia) ltac:(lia)) as (? & Hat' & ? & Hprog).
    split; [done|]. cbn zeta. destruct Hatt as (_ & _ & _ & ?).
    destruct (Z.ltb_spec (alen (rv_data t)) size); [|lia].
    destruct (Z.ltb_spec (alen (rv_data (read_one stack size (cluster_start v0 x) t))) size).
    - destruct Hprog as [Hprog|Hprog]; [lia|]. rewrite Hprog, Z.div_mul by lia. zlia.
    - zlia. }
  assert (P r) as HPr by (split; [done|split; [done|lia]]).
  set (r1 := while_loop (Z.to_nat 9) cond (read_one stack size (cluster_start v0 x)) r).
  assert (P r1) as (Hok1 & Hat1 & Hin1) by (apply while_loop_ind; [done|intros t Ht Hc; by apply Hstep]).
  assert (cond r1 = false) as Hend.
  { apply (while_loop_done P (fun t => Z.to_nat (if alen (rv_data t) <? size then 8 - rv_in_cluster t / 512 else 0)));
      [done|intros t Ht Hc; by apply Hstep|]. destruct (alen (rv_data r) <? size); zlia. }
  unfold cond in Hend. destruct (rd_super r1 Hok1) as (_ & _ & Hft1). pose proof Hat1 as (_ & Hx1 & Hp1 & _).
  split; [split; [|split]|].
  - destruct Hok1 as (? & ? & ? & ?). by split.
  - cbn. lia.
  - cbn [rv_data rv_cluster rv_in_cluster]. intros Hlt. assert (rv_in_cluster r1 = 4096) as H4096 by lia.
    rewrite Hx1, Hft1. destruct l2 as [|y l2].
    + rewrite Hl, alen_app in Hfit. unfold alen in Hfit at 2. simpl in Hfit. lia.
    + destruct Hch2 as (Hy & Hyr & Hch3). exists (l1 ++ [x]), y, l2. split; [|done].
      split; [by rewrite <- app_assoc|]. split; [exact Hy|]. cbn [rv_in_cluster rv_data]. split; [|lia].
      rewrite alen_app. unfold alen at 2. simpl. lia.
  - cbn [rv_data rv_in_cluster]. intros Hlt. assert (rv_in_cluster r1 = 4096) as H4096 by lia. split; [lia|done].
Qed.

Lemma skip_clusters_chain n : forall c ls, is_chain (fs_total_clusters v0) (file_allocation_table v0) c ls ->
  (n < length ls)%nat ->
  exists x, skip_clusters n v0 c = Some x /\ ls = take n ls ++ drop n ls /\
            exists l2, drop n ls = x :: l2 /\ is_chain (fs_total_clusters v0) (file_allocation_table v0) x (x :: l2).
Proof.
  induction n as [|n IH]; intros c ls Hc Hn; (destruct ls as [|y ls]; [simpl in Hn; lia|]).
  - destruct Hc as (-> & Hy & Hc). exists y. split; [done|]. split; [done|]. exists ls. done.
  - pose proof Hc as (-> & Hy & Hc'). simpl in Hn. destruct (IH _ _ Hc' ltac:(lia)) as (x & Hs & _ & l2 & Hd & Hchx).
    exists x. split; [|split; [by rewrite take_drop|by exists l2]]. cbn [skip_clusters].
    pose proof (geo_super _ Hgeo) as []. rewrite (geo_clusters _ Hgeo) in Hy. unfold FS_MAX_CLUSTERS_CAP, FAT_EOF in *.
    destruct (Z.eqb_spec y 0xFFFFFFFF); [lia|]. rewrite (geo_clusters _ Hgeo).
    destruct (Z.leb_spec (sb_total_clusters (fs_super v0)) y); [lia|]. exact Hs.
Qed.

(** The whole read. *)
Lemma read_loops c :
  0 < size ->
  skip_clusters (Z.to_nat (o / 4096)) v0 c0 = Some c ->
  let r := while_loop (Z.to_nat (size / 4096 + 2)) (read_more size) (read_cluster stack 4096 size)
             (mk_rv v0 [] o c (o mod 4096)) in
  rd_ok r /\ alen (rv_data r) = size.
Proof.
  intros Hpos Hskip.
  destruct (skip_clusters_chain (Z.to_nat (o / 4096)) c0 l Hch) as (x & Hs & Htd & l2 & Hd & Hchx).
  { unfold alen in Hfit. zlia. }
  rewrite Hs in Hskip. injection Hskip as ->.
  set (r0 := mk_rv v0 [] o c (o mod 4096)).
  assert (alen (take (Z.to_nat (o / 4096)) l) = o / 4096) as Hlt.
  { unfold alen. rewrite length_take. unfold alen in Hfit. zlia. }
  assert (rd_pos r0) as Hr0.
  { split; [|split].
    - unfold rd_ok, r0. cbn [rv_v rv_data rv_offset]. change (alen []) with 0.
      split; [by apply wrote_nothing, Hgeo|]. split; [done|]. lia.
    - unfold r0. cbn [rv_in_cluster]. zlia.
    - intros _. exists (take (Z.to_nat (o / 4096)) l), c, l2. split; [|done]. split; [by rewrite <- Hd|].
      unfold r0. cbn [rv_cluster rv_in_cluster rv_data]. rewrite Hlt. change (alen []) with 0. zlia. }
  set (m := fun t : read_vars S => Z.to_nat (if alen (rv_data t) <? size then (size - alen (rv_data t) + rv_in_cluster t + 4095) / 4096 else 0)).
  assert (forall t, rd_pos t -> read_more size t = true ->
    rd_pos (read_cluster stack 4096 size t) /\ (m (read_cluster stack 4096 size t) < m t)%nat) as Hstep.
  { intros t Ht Hc. destruct (read_cluster_step t Ht Hc) as [Ht' Hprog]. split; [done|].
    unfold read_more in Hc. bool_to_prop. destruct Ht as (_ & Hint & _). unfold m.
    destruct (Z.ltb_spec (alen (rv_data t)) size); [|lia].
    destruct (Z.ltb_spec (alen (rv_data (read_cluster stack 4096 size t))) size) as [Hlt'|]; [|zlia].
    destruct (Hprog Hlt') as [-> ->]. zlia. }
  cbn zeta. set (r := while_loop _ _ _ r0).
  assert (rd_pos r) as (Hok & Hin & Hp) by (apply while_loop_ind; [done|intros t Ht Hc; by apply Hstep]).
  assert (read_more size r = false) as Hend.
  { apply (while_loop_done rd_pos m); [done|done|]. unfold m, r0. cbn [rv_data rv_in_cluster]. change (alen []) with 0. destruct (Z.ltb_spec 0 size); [|lia]. zlia. }
  split; [done|]. destruct (Z.lt_ge_cases (alen (rv_data r)) size) as [Hlt'|]; [|destruct Hok as (_ & _ & ? & _); lia].
  exfalso. destruct (Hp Hlt') as (l1 & y & l3 & (_ & Hy & _) & (_ & Hyr & _)).
  destruct (rd_super r Hok) as (_ & Htc & _). unfold read_more in Hend. rewrite Hy, Htc in Hend.
  pose proof (geo_super _ Hgeo) as []. rewrite (geo_clusters _ Hgeo) in *.
  unfold FS_MAX_CLUSTERS_CAP, FS_FIRST_DATA_CLUSTER, FAT_EOF in *. lia.
Qed.

End reading.

(** [fs_read_raw] on a file whose chain is long enough returns the bytes of the
    file from the offset, as many as were asked for and the file has, moves the
    offset past them, and changes nothing else. *)
Lemma fs_read_raw_ok v f l stack size :
  geo_ok v -> is_chain (fs_total_clusters v) (file_allocation_table v) (vf_start_cluster f) l ->
  (forall k, k ∈ chain_sectors v l -> length (part_view v k) = 512%nat) ->
  0 <= vf_current_offset f -> vf_file_size f <= 4096 * alen l -> 0 <= size ->
  vf_current_offset f + size < 2 ^ 32 ->
  let n := Z.max 0 (Z.min size (vf_file_size f - vf_current_offset f)) in
  exists w, fs_read_raw stack v f size =
    (n, slice (vf_current_offset f) n (file_bytes v (vf_file_size f) l),
     set_offset f (vf_current_offset f + n), w) /\ wrote (fun _ => None) v w.
Proof.
  intros Hgeo Hch H512 Ho Hfit Hsz H32 n. unfold fs_read_raw.
  destruct (Z.leb_spec (vf_file_size f) (vf_current_offset f)) as [Hend|Hlt].
  { assert (n = 0) as -> by lia. exists v. split; [|by apply wrote_nothing, Hgeo]. destruct f. simpl.
    by rewrite Z.add_0_r. }
  rewrite u32_small by lia. pose proof (geo_super _ Hgeo) as Hg. rewrite (g_cluster_sectors _ _ Hg).
  change (512 * FS_CLUSTER_SECTORS) with 4096.
  set (sz := if vf_file_size f <? vf_current_offset f + size then vf_file_size f - vf_current_offset f else size).
  assert (sz = n) as Hszn by (unfold sz, n; case_bool; lia). rewrite Hszn. clear sz Hszn.
  assert (forall m, 0 <= m -> vf_current_offset f + m <= vf_file_size f ->
    slice (vf_current_offset f) m (file_bytes v (vf_file_size f) l) = slice (vf_current_offset f) m (chain_data v l)) as Hcut.
  { intros m Hm Hmf. unfold file_bytes. rewrite <- slice_take by lia. f_equal. lia. }
  destruct (skip_clusters_chain v Hgeo (Z.to_nat (vf_current_offset f / 4096)) (vf_start_cluster f) l Hch)
    as (c & Hs & _); [unfold alen in Hfit; zlia|].
  rewrite Hs. destruct (Z.eq_dec n 0) as [H0|Hn0].
  { rewrite H0. exists v. split; [|by apply wrote_nothing, Hgeo]. rewrite Z.add_0_r. unfold slice.
    change (Z.to_nat (0 / 4096 + 2)) with 2%nat. cbn [while_loop read_more rv_data]. done. }
  destruct (read_loops v l (vf_start_cluster f) (vf_current_offset f) n stack Hgeo Hch H512 Ho ltac:(lia)
    ltac:(lia) ltac:(lia) c ltac:(lia) Hs) as [(Hw & Hdata & _ & Hoff) Hlen].
  set (r := while_loop _ _ _ _) in *. exists (rv_v r). split; [|done].
  rewrite Hoff, Hlen. do 3 f_equal. rewrite Hdata, Hlen. symmetry. apply Hcut; lia.
Qed.

End data.
End VfsData.
