(* ===== verification/VfsInv.v ===== *)
(** * The file system's invariant

    [fs_wf v ch] says that a mounted file system is sound: the directory table
    is a tree with unique names, the chains [ch] of its files are disjoint, long
    enough and use every allocated cluster, and the disk holds what the tables
    in memory say.  The lemmas here say what the changes the operations make do
    to each part. *)

From S2P Require Import Prelude CStr Fat FsFormat BlockStore Vfs VfsDisk VfsData.
Import Fat FsFormat BlockStore Vfs VfsDisk VfsData.

Module VfsInv.

(** ** The directory table *)

Definition used (dir : list disk_file_entry) (i : Z) : Prop := is_used dir.[i] = 1.
#[export] Instance used_dec dir i : Decision (used dir i) := decide (is_used dir.[i] = 1).
Definition name_of (e : disk_file_entry) : list Z := cstr (filename e).

Record dir_wf (dir : list disk_file_entry) (max total : Z) : Prop := {
  dw_len : alen dir = max;
  dw_typed : forall i, 0 <= i < max -> entry_typed dir.[i];
  dw_used : forall i, 0 <= i < max -> is_used dir.[i] = 0 \/ is_used dir.[i] = 1;
  dw_slot0 : is_used dir.[0] = 0;
  dw_tree : tree_ok dir max total;
  dw_names : forall i, 0 <= i < max -> used dir i -> alen (name_of dir.[i]) < MAX_FILENAME;
  dw_unique : forall i j, 0 <= i < max -> 0 <= j < max -> used dir i -> used dir j ->
    parent_id dir.[i] = parent_id dir.[j] -> name_of dir.[i] = name_of dir.[j] -> i = j;
  dw_dirs : forall i, 0 <= i < max -> used dir i -> file_type dir.[i] = FT_DIR -> start_cluster dir.[i] = 0
}.

(** What an entry must satisfy to take slot [i]. *)
Record entry_fits (dir : list disk_file_entry) (max total i : Z) (e : disk_file_entry) : Prop := {
  ef_id : entry_id e = i;
  ef_type : file_type e = FT_REGULAR \/ file_type e = FT_DIR;
  ef_start : start_cluster e = 0 \/ FS_FIRST_DATA_CLUSTER <= start_cluster e < total;
  ef_parent : reaches_root dir max (parent_id e);
  ef_name : alen (name_of e) < MAX_FILENAME;
  ef_unique : forall j, 0 <= j < max -> j <> i -> used dir j -> parent_id dir.[j] = parent_id e -> name_of dir.[j] <> name_of e;
  ef_dir : file_type e = FT_DIR -> start_cluster e = 0
}.

(** The directories of a table are directories of another one. *)
Definition dirs_kept (dir dir' : list disk_file_entry) (max : Z) : Prop :=
  forall x, 0 <= x < max -> is_used dir.[x] <> 0 -> file_type dir.[x] = FT_DIR ->
    is_used dir'.[x] <> 0 /\ entry_id dir'.[x] = entry_id dir.[x] /\ file_type dir'.[x] = FT_DIR /\
    parent_id dir'.[x] = parent_id dir.[x].

Lemma reaches_kept dir dir' max c : dirs_kept dir dir' max -> reaches_root dir max c -> reaches_root dir' max c.
Proof.
  intros Hk. induction 1 as [|c Hc Hr Hu Hid Hty _ IH]; [apply rr_root|].
  destruct (Hk c Hr Hu Hty) as (? & ? & ? & Hp). apply rr_step; [done|done|done|congruence|done|by rewrite Hp].
Qed.

(** Removing a slot that is nobody's parent. *)
Lemma reaches_removed dir dir' max i c :
  (forall x, 0 <= x < max -> x <> i -> dir'.[x] = dir.[x]) ->
  (forall j, 0 <= j < max -> is_used dir.[j] <> 0 -> parent_id dir.[j] <> i) ->
  c <> i -> reaches_root dir max c -> reaches_root dir' max c.
Proof.
  intros Hsame Hno Hne. induction 1 as [|c Hc Hr Hu Hid Hty _ IH]; [apply rr_root|].
  pose proof (Hsame c Hr Hne) as Heq. apply rr_step; rewrite ?Heq; try done. apply IH. by apply Hno.
Qed.

Lemma used_nonzero dir max total i : dir_wf dir max total -> 0 <= i < max -> is_used dir.[i] <> 0 -> used dir i.
Proof. intros Hw Hi Hu. by destruct (dw_used _ _ _ Hw i Hi). Qed.

Lemma dir_wf_max dir max total : dir_wf dir max total -> 0 <= max.
Proof. intros [Hl _ _ _ _ _ _ _]. unfold alen in Hl. lia. Qed.

Section set.
Context (dir : list disk_file_entry) (max total i : Z) (e : disk_file_entry).
Context (Hw : dir_wf dir max total) (Hi : 0 < i < max).

Lemma get_set j : 0 <= j -> dir.[i <- e].[j] = if i =? j then e else dir.[j].
Proof. intros. pose proof (dw_len _ _ _ Hw). apply aget_aset; lia. Qed.

(** Putting a fitting entry in a slot that keeps the directories. *)
Lemma dir_wf_set :
  entry_typed e -> is_used e = 1 -> dirs_kept dir dir.[i <- e] max -> entry_fits dir max total i e ->
  dir_wf dir.[i <- e] max total.
Proof.
  intros Hty Hue Hkept []. constructor.
  - rewrite alen_aset. apply Hw.
  - intros j Hj. rewrite get_set by lia. case_bool; [done|by apply Hw].
  - intros j Hj. rewrite get_set by lia. case_bool; [by right|by apply Hw].
  - rewrite get_set by lia. case_bool; [lia|apply Hw].
  - intros j Hj. rewrite get_set by lia. destruct (Z.eqb_spec i j) as [<-|Hne].
    + intros _. split; [done|]. split; [done|]. split; [done|]. by apply (reaches_kept dir).
    + intros Hu. destruct (dw_tree _ _ _ Hw j Hj Hu) as (? & ? & ? & Hr). split; [done|]. split; [done|].
      split; [done|]. by apply (reaches_kept dir).
  - intros j Hj. unfold used. rewrite get_set by lia. case_bool; [done|by apply Hw].
  - intros j k Hj Hk. unfold used. rewrite !get_set by lia.
    destruct (Z.eqb_spec i j) as [<-|], (Z.eqb_spec i k) as [<-|]; intros Huj Huk Hp Hn; try done.
    + symmetry in Hp, Hn. exfalso. by apply (ef_unique0 k Hk).
    + exfalso. by apply (ef_unique0 j Hj).
    + by apply (dw_unique _ _ _ Hw).
  - intros j Hj. unfold used. rewrite get_set by lia. case_bool; [done|by apply Hw].
Qed.

(** Clearing a slot that no used entry has as its parent. *)
Lemma dir_wf_clear :
  entry_typed e -> is_used e = 0 -> (forall j, 0 <= j < max -> is_used dir.[j] <> 0 -> parent_id dir.[j] <> i) ->
  dir_wf dir.[i <- e] max total.
Proof.
  intros Hty Hue Hno. constructor.
  - rewrite alen_aset. apply Hw.
  - intros j Hj. rewrite get_set by lia. case_bool; [done|by apply Hw].
  - intros j Hj. rewrite get_set by lia. case_bool; [by left|by apply Hw].
  - rewrite get_set by lia. case_bool; [done|apply Hw].
  - intros j Hj. rewrite get_set by lia. destruct (Z.eqb_spec i j) as [<-|Hne]; [done|].
    intros Hu. destruct (dw_tree _ _ _ Hw j Hj Hu) as (? & ? & ? & Hr). split; [done|]. split; [done|].
    split; [done|]. apply (reaches_removed dir _ _ i); [|done|by apply Hno|done].
    intros x Hx Hxi. rewrite get_set by lia. by destruct (Z.eqb_spec i x).
  - intros j Hj. unfold used. rewrite get_set by lia. case_bool; [congruence|by apply Hw].
  - intros j k Hj Hk. unfold used. rewrite !get_set by lia.
    destruct (Z.eqb_spec i j), (Z.eqb_spec i k); intros ? ?; try congruence. by apply (dw_unique _ _ _ Hw).
  - intros j Hj. unfold used. rewrite get_set by lia. case_bool; [congruence|by apply Hw].
Qed.

(** A slot that was not in use keeps the directories. *)
Lemma dirs_kept_free : is_used dir.[i] = 0 -> dirs_kept dir dir.[i <- e] max.
Proof.
  intros Hf x Hx Hu Hty. rewrite get_set by lia. by destruct (Z.eqb_spec i x) as [<-|].
Qed.

(** So does an entry of the same kind. *)
Lemma dirs_kept_same :
  is_used e <> 0 -> entry_id e = entry_id dir.[i] -> file_type e = file_type dir.[i] ->
  parent_id e = parent_id dir.[i] -> dirs_kept dir dir.[i <- e] max.
Proof.
  intros Hu Hid Hty Hp x Hx Hux Htx. rewrite get_set by lia. destruct (Z.eqb_spec i x) as [<-|]; [|done].
  rewrite Hid, Hty, Hp. done.
Qed.

End set.

(** ** The chains *)

Definition regular (dir : list disk_file_entry) (i : Z) : Prop := used dir i /\ file_type dir.[i] = FT_REGULAR.

#[export] Instance regular_dec dir i : Decision (regular dir i) :=
  decide (used dir i /\ file_type dir.[i] = FT_REGULAR).

(** The clusters a file of a given size occupies; an empty one keeps its first. *)
Definition clusters_for (size : Z) : Z := if size =? 0 then 1 else (size + 4095) / 4096.

Lemma clusters_for_fits size : 0 <= size -> 0 < clusters_for size /\ size <= 4096 * clusters_for size.
Proof. intros. unfold clusters_for. case_bool; zlia. Qed.

Record chains_wf (dir : list disk_file_entry) (max : Z) (fat : list Z) (total : Z) (ch : Z -> list Z) : Prop := {
  cw_len : alen fat = fat_words total;
  cw_typed : Forall is_u32 fat;
  cw_reserved : forall i, 0 <= i < Z.min FS_FIRST_DATA_CLUSTER total -> fat.[i] = FAT_EOF;
  cw_chain : forall i, 0 <= i < max -> regular dir i ->
    is_chain total fat (start_cluster dir.[i]) (ch i) /\ ch i <> [] /\ alen (ch i) = clusters_for (file_size dir.[i]);
  cw_disjoint : forall i j x, 0 <= i < max -> 0 <= j < max -> regular dir i -> regular dir j ->
    x ∈ ch i -> x ∈ ch j -> i = j;
  cw_noleak : forall x, FS_FIRST_DATA_CLUSTER <= x < total -> fat.[x] <> FAT_FREE ->
    exists i, 0 <= i < max /\ regular dir i /\ x ∈ ch i
}.

Lemma fat_words_ge total : 0 <= total -> total <= fat_words total.
Proof. intros. unfold fat_words. zlia. Qed.

(** A change of the directory table that leaves the files' storage alone. *)
Definition storage_kept (dir dir' : list disk_file_entry) (max : Z) : Prop :=
  forall j, 0 <= j < max -> (regular dir' j <-> regular dir j) /\
    (regular dir j -> start_cluster dir'.[j] = start_cluster dir.[j] /\ file_size dir'.[j] = file_size dir.[j]).

Lemma chains_storage_kept dir dir' max fat total ch :
  storage_kept dir dir' max -> chains_wf dir max fat total ch -> chains_wf dir' max fat total ch.
Proof.
  intros Hk []. constructor; try done.
  - intros j Hj Hr. destruct (Hk j Hj) as [Hiff Hsame]. apply Hiff in Hr. destruct (Hsame Hr) as [-> ->]. by apply cw_chain0.
  - intros j k x Hj Hk' Hrj Hrk. apply cw_disjoint0; [done|done|by apply Hk|by apply Hk].
  - intros x Hx Hf. destruct (cw_noleak0 x Hx Hf) as (j & Hj & Hr & Hin). exists j. split; [done|].
    split; [by apply Hk|done].
Qed.

Definition set_chain (ch : Z -> list Z) (i : Z) (l : list Z) : Z -> list Z := fun j => if i =? j then l else ch j.

Lemma chain_value total fat l : forall c x,
  is_chain total fat c l -> x ∈ l -> fat.[x] = FAT_EOF \/ FS_FIRST_DATA_CLUSTER <= fat.[x] < total.
Proof.
  induction l as [|y l IH]; intros c x Hc Hx; [by apply elem_of_nil in Hx|].
  destruct Hc as (-> & _ & Hc). apply elem_of_cons in Hx as [->|Hx]; [|by apply (IH _ _ Hc)].
  destruct l as [|z l]; simpl in Hc; [by left|]. destruct Hc as (-> & ? & _). by right.
Qed.

Lemma chain_in_use total fat l c x : is_chain total fat c l -> x ∈ l -> fat.[x] <> FAT_FREE.
Proof.
  intros Hc Hx. destruct (chain_value _ _ _ _ _ Hc Hx) as [->|Hr]; [done|].
  unfold FAT_FREE, FS_FIRST_DATA_CLUSTER in *. lia.
Qed.

Lemma regular_set dir max total i e j :
  dir_wf dir max total -> 0 < i < max -> 0 <= j ->
  regular dir.[i <- e] j <-> if i =? j then is_used e = 1 /\ file_type e = FT_REGULAR else regular dir j.
Proof. intros Hw Hi Hj. unfold regular, used. rewrite (get_set _ _ _ _ _ Hw Hi) by done. by destruct (i =? j). Qed.

(** A new file on freshly allocated clusters. *)
Lemma chains_create dir max fat total ch i e fat' l :
  dir_wf dir max total -> chains_wf dir max fat total ch -> 0 < i < max -> is_used dir.[i] = 0 ->
  0 <= total <= FS_MAX_CLUSTERS_CAP ->
  alen fat' = alen fat -> is_chain total fat' (start_cluster e) l -> l <> [] ->
  (forall x, x ∈ l -> fat.[x] = FAT_FREE) -> (forall j, 0 <= j -> j ∉ l -> fat'.[j] = fat.[j]) ->
  file_type e = FT_REGULAR -> is_used e = 1 -> alen l = clusters_for (file_size e) ->
  chains_wf dir.[i <- e] max fat' total (set_chain ch i l).
Proof.
  intros Hw Hc Hi Hfree Hcap Hlen Hch Hne Hlfree Hframe Hty Hu Hsize. unfold set_chain.
  assert (forall j x, 0 <= j < max -> regular dir j -> x ∈ ch j -> x ∉ l) as Hold.
  { intros j x Hj Hr Hx Hxl. destruct (cw_chain _ _ _ _ _ Hc j Hj Hr) as (Hchj & _).
    by apply (chain_in_use _ _ _ _ _ Hchj Hx), Hlfree. }
  assert (~ regular dir i) as Hnr by (intros [Hui _]; unfold used in Hui; congruence).
  constructor.
  - rewrite Hlen. apply Hc.
  - apply Forall_lookup. intros k w Hk. pose proof (lookup_lt_Some _ _ _ Hk). apply lookup_aget in Hk as <-.
    destruct (decide (Z.of_nat k ∈ l)) as [Hin|Hout].
    + destruct (chain_value _ _ _ _ _ Hch Hin) as [->|Hr]; [done|].
      unfold is_u32, FS_FIRST_DATA_CLUSTER, FS_MAX_CLUSTERS_CAP in *. lia.
    + rewrite Hframe by (lia || done). assert (Z.to_nat (Z.of_nat k) < length fat)%nat as Hk by (unfold alen in Hlen; lia).
      pose proof (aget_lookup fat (Z.of_nat k) ltac:(unfold alen; lia)) as Hl.
      apply (Forall_lookup_1 _ _ _ _ (cw_typed _ _ _ _ _ Hc) Hl).
  - intros j Hj. rewrite Hframe; [by apply Hc|lia|]. intros Hin. apply (chain_range _ _ _ _ _ Hch) in Hin. lia.
  - intros j Hj Hr. apply (regular_set _ _ _ _ _ _ Hw Hi) in Hr; [|lia].
    rewrite (get_set _ _ _ _ _ Hw Hi) by lia. destruct (Z.eqb_spec i j) as [<-|Hij]; [done|].
    destruct (cw_chain _ _ _ _ _ Hc j Hj Hr) as (Hchj & ? & ?). split; [|done].
    apply (chain_frame _ fat); [done|]. intros x Hx. apply Hframe; [|by apply (Hold j)].
    apply (chain_range _ _ _ _ _ Hchj) in Hx. unfold FS_FIRST_DATA_CLUSTER in Hx. lia.
  - intros j k x Hj Hk Hrj Hrk. apply (regular_set _ _ _ _ _ _ Hw Hi) in Hrj, Hrk; [|lia..].
    destruct (Z.eqb_spec i j) as [<-|], (Z.eqb_spec i k) as [<-|]; intros Hxj Hxk; try done.
    + exfalso. by apply (Hold k x Hk Hrk).
    + exfalso. by apply (Hold j x Hj Hrj).
    + by apply (cw_disjoint _ _ _ _ _ Hc j k x).
  - intros x Hx Hnf. destruct (decide (x ∈ l)) as [Hin|Hout].
    + exists i. split; [lia|]. split; [|by rewrite Z.eqb_refl].
      apply (regular_set _ _ _ _ _ _ Hw Hi); [lia|]. by rewrite Z.eqb_refl.
    + rewrite Hframe in Hnf by (unfold FS_FIRST_DATA_CLUSTER in Hx; lia || done).
      destruct (cw_noleak _ _ _ _ _ Hc x Hx Hnf) as (j & Hj & Hr & Hxj). exists j. split; [done|].
      assert (i <> j) by (intros ->; done).
      split; [apply (regular_set _ _ _ _ _ _ Hw Hi); [lia|]|]; by destruct (Z.eqb_spec i j).
Qed.

(** A file gone, its clusters free. *)
Lemma chains_delete dir max fat total ch i e :
  dir_wf dir max total -> chains_wf dir max fat total ch -> 0 < i < max ->
  0 <= total <= FS_MAX_CLUSTERS_CAP -> regular dir i -> is_used e = 0 ->
  chains_wf dir.[i <- e] max (clear_all (ch i) fat) total ch.
Proof.
  intros Hw Hc Hi Hcap Hreg Hu. pose proof (cw_len _ _ _ _ _ Hc) as Hlen.
  pose proof (fat_words_ge total ltac:(lia)) as Hwords.
  destruct (cw_chain _ _ _ _ _ Hc i ltac:(lia) Hreg) as (Hchi & Hnei & _).
  assert (Forall (fun x => 0 <= x < alen fat) (ch i)) as Hin.
  { apply Forall_forall. intros x Hx. apply (chain_range _ _ _ _ _ Hchi) in Hx. unfold FS_FIRST_DATA_CLUSTER in Hx. lia. }
  assert (forall j, 0 <= j -> (clear_all (ch i) fat).[j] = if bool_decide (j ∈ ch i) then FAT_FREE else fat.[j]) as Hget
    by (intros; by apply aget_clear_all).
  assert (forall j, 0 <= j < max -> regular dir.[i <- e] j -> j <> i /\ regular dir j) as Hregs.
  { intros j Hj Hr. apply (regular_set _ _ _ _ _ _ Hw Hi) in Hr; [|lia]. destruct (Z.eqb_spec i j) as [<-|]; [|auto].
    destruct Hr. congruence. }
  constructor.
  - rewrite alen_clear_all. apply Hc.
  - apply Forall_lookup. intros k w Hk. pose proof (lookup_lt_Some _ _ _ Hk). apply lookup_aget in Hk as <-.
    rewrite Hget by lia. case_bool_decide; [done|]. pose proof (alen_clear_all (ch i) fat) as Hal. unfold alen in Hal.
    pose proof (aget_lookup fat (Z.of_nat k) ltac:(unfold alen; lia)) as Hl.
    apply (Forall_lookup_1 _ _ _ _ (cw_typed _ _ _ _ _ Hc) Hl).
  - intros j Hj. rewrite Hget by lia. case_bool_decide as Hj'; [|by apply Hc].
    apply (chain_range _ _ _ _ _ Hchi) in Hj'. lia.
  - intros j Hj Hr. destruct (Hregs j Hj Hr) as [Hji Hr']. rewrite (get_set _ _ _ _ _ Hw Hi) by lia.
    destruct (Z.eqb_spec i j) as [->|_]; [done|]. destruct (cw_chain _ _ _ _ _ Hc j Hj Hr') as (Hchj & ? & ?).
    split; [|done]. apply (chain_frame _ fat); [done|]. intros x Hx.
    pose proof (chain_range _ _ _ _ _ Hchj Hx) as Hxr. unfold FS_FIRST_DATA_CLUSTER in Hxr.
    rewrite Hget by lia. case_bool_decide as Hxi; [|done].
    exfalso. apply Hji. by apply (cw_disjoint _ _ _ _ _ Hc j i x Hj ltac:(lia)).
  - intros j k x Hj Hk Hrj Hrk. apply Hregs in Hrj as [_ Hrj], Hrk as [_ Hrk]; [|done..].
    by apply (cw_disjoint _ _ _ _ _ Hc j k x).
  - intros x Hx. rewrite Hget by (unfold FS_FIRST_DATA_CLUSTER in Hx; lia). case_bool_decide as Hxi; [done|].
    intros Hnf. destruct (cw_noleak _ _ _ _ _ Hc x Hx Hnf) as (j & Hj & Hr & Hxj). exists j. split; [done|].
    split; [|done]. apply (regular_set _ _ _ _ _ _ Hw Hi); [lia|]. destruct (Z.eqb_spec i j) as [->|]; done.
Qed.

(** ** The disk *)

Section fs.
Context {S : Type} {bs : BlockStore S} {laws : StoreLaws S} {rel : StoreReliable S}.
Implicit Types v w : vfs S.

Record disk_wf (v : vfs S) : Prop := {
  dk_512 : forall k, sb_data_start (fs_super v) <= k < fs_max_sectors v -> length (part_view v k) = 512%nat;
  dk_dir : forall i, 0 <= i < dir_sectors_for (fs_max_entries v) ->
    part_view v (sb_dir_start (fs_super v) + i) = take 512 (dir_sector v i);
  dk_fat : forall i, 0 <= i < fat_sectors v ->
    part_view v (sb_fat_start (fs_super v) + i) = take 512 (fat_sector v i);
  dk_super : part_view v FS_SUPER_SECTOR = sector_of 0 FS_SUPER_DISK_SIZE (encode_super (fs_super v));
  dk_label : labelled v
}.

Record fs_wf (v : vfs S) (ch : Z -> list Z) : Prop := {
  wf_geo : geo_ok v;
  wf_mounted : fs_mounted v = true;
  wf_accept : super_typed (fs_super v) /\ super_acceptable (fs_super v) (fs_max_sectors v) = true;
  wf_dir : dir_wf (dir_table v) (fs_max_entries v) (fs_total_clusters v);
  wf_chains : chains_wf (dir_table v) (fs_max_entries v) (file_allocation_table v) (fs_total_clusters v) ch;
  wf_disk : disk_wf v
}.

Lemma regions v : geo_ok v ->
  0 < sb_dir_start (fs_super v) /\ 0 <= dir_sectors_for (fs_max_entries v) /\
  sb_dir_start (fs_super v) + dir_sectors_for (fs_max_entries v) <= sb_fat_start (fs_super v) /\
  0 <= fat_sectors v /\ sb_fat_start (fs_super v) + fat_sectors v <= sb_data_start (fs_super v) /\
  sb_data_start (fs_super v) + fs_total_clusters v * 8 <= fs_max_sectors v /\
  0 < fs_max_entries v <= FS_MAX_ENTRIES_CAP /\ 0 < fs_total_clusters v <= FS_MAX_CLUSTERS_CAP.
Proof.
  intros [_ Hg He Hc]. destruct Hg. rewrite He. unfold fat_sectors. rewrite Hc.
  rewrite dir_sectors_for_eq in * by lia. unfold FS_CLUSTER_SECTORS, FS_MAX_ENTRIES_CAP, FS_MAX_CLUSTERS_CAP in *.
  pose proof (Z.div_pos (sb_total_clusters (fs_super v) * 4 + 511) 512 ltac:(lia) ltac:(lia)).
  pose proof (Z.div_pos (sb_max_entries (fs_super v) * 96 + 511) 512 ltac:(lia) ltac:(lia)). lia.
Qed.

(** Nothing changed but sectors of the directory table. *)
Definition outside_dir (v w : vfs S) : Prop :=
  forall k, 0 <= k < fs_max_sectors v ->
    k < sb_dir_start (fs_super v) \/ sb_fat_start (fs_super v) <= k -> part_view w k = part_view v k.

Lemma save_dir_effect v :
  geo_ok v -> let w := save_directory_to_disk v in
  same_but_store v w /\ geo_ok w /\ outside_kept v w /\ outside_dir v w /\
  forall i, 0 <= i < dir_sectors_for (fs_max_entries w) ->
    part_view w (sb_dir_start (fs_super w) + i) = take 512 (dir_sector w i).
Proof.
  intros Hg w. pose proof (regions _ Hg) as Hreg. pose proof (save_dir_wrote v Hg) as [Hs Hio Ho Hview]. fold w in Hs, Hio, Ho, Hview.
  pose proof (same_fields _ _ Hs) as (_ & Hms & _ & Hme & _ & Hsb & Hdt & _).
  split; [done|]. split; [by apply (geo_same v)|]. split; [done|]. split.
  - intros k Hk Hout. rewrite Hview by done. unfold in_run.
    destruct (Z.leb_spec (sb_dir_start (fs_super v)) k), (Z.ltb_spec k (sb_dir_start (fs_super v) + dir_sectors_for (fs_max_entries v))); try done; lia.
  - rewrite Hme, Hsb. intros i Hi. rewrite Hview by lia. unfold in_run.
    destruct (Z.leb_spec (sb_dir_start (fs_super v)) (sb_dir_start (fs_super v) + i)),
      (Z.ltb_spec (sb_dir_start (fs_super v) + i) (sb_dir_start (fs_super v) + dir_sectors_for (fs_max_entries v))); try lia.
    cbn [andb]. replace (sb_dir_start (fs_super v) + i - sb_dir_start (fs_super v)) with i by lia.
    unfold dir_sector. by rewrite Hme, Hdt.
Qed.

Lemma save_fat_effect v :
  geo_ok v -> let w := save_fat_to_disk v in
  same_but_store v w /\ geo_ok w /\ outside_kept v w /\
  (forall k, 0 <= k < fs_max_sectors v -> k < sb_fat_start (fs_super v) \/ sb_data_start (fs_super v) <= k ->
     part_view w k = part_view v k) /\
  forall i, 0 <= i < fat_sectors w ->
    part_view w (sb_fat_start (fs_super w) + i) = take 512 (fat_sector w i).
Proof.
  intros Hg w. pose proof (regions _ Hg) as Hreg. pose proof (save_fat_wrote v Hg) as [Hs Hio Ho Hview]. fold w in Hs, Hio, Ho, Hview.
  pose proof (same_fields _ _ Hs) as (_ & Hms & Htc & _ & _ & Hsb & _ & Hft).
  split; [done|]. split; [by apply (geo_same v)|]. split; [done|]. split.
  - intros k Hk Hout. rewrite Hview by done. unfold in_run.
    destruct (Z.leb_spec (sb_fat_start (fs_super v)) k), (Z.ltb_spec k (sb_fat_start (fs_super v) + fat_sectors v)); try done; lia.
  - unfold fat_sectors at 1. rewrite Htc. fold (fat_sectors v). rewrite Hsb. intros i Hi. rewrite Hview by lia. unfold in_run.
    destruct (Z.leb_spec (sb_fat_start (fs_super v)) (sb_fat_start (fs_super v) + i)),
      (Z.ltb_spec (sb_fat_start (fs_super v) + i) (sb_fat_start (fs_super v) + fat_sectors v)); try lia.
    cbn [andb]. replace (sb_fat_start (fs_super v) + i - sb_fat_start (fs_super v)) with i by lia.
    unfold fat_sector. by rewrite Hft.
Qed.

(** The data area of the partition is as it was. *)
Definition data_kept (v w : vfs S) : Prop :=
  forall k, sb_data_start (fs_super v) <= k < fs_max_sectors v -> part_view w k = part_view v k.

(** Changing the directory table and saving it. *)
Lemma update_dir_disk v dir :
  geo_ok v -> disk_wf v ->
  let w := save_directory_to_disk (set_dir v dir) in
  same_but_store (set_dir v dir) w /\ geo_ok w /\ disk_wf w /\ data_kept v w.
Proof.
  intros Hg [H512 _ Hfat Hsup Hlab] w.
  assert (geo_ok (set_dir v dir)) as Hg' by (by destruct Hg as [[] ? ? ?]; constructor).
  destruct (save_dir_effect _ Hg') as (Hs & Hgw & Hok & Hout & Hdir). fold w in Hs, Hgw, Hok, Hout, Hdir.
  pose proof (same_fields _ _ Hs) as (_ & Hms & Htc & _ & _ & Hsb & _ & Hft).
  cbn in Hms, Htc, Hsb, Hft. pose proof (regions _ Hg) as Hreg.
  split; [done|]. split; [done|]. split.
  - constructor.
    + rewrite Hsb, Hms. intros k Hk. rewrite Hout by (cbn; lia). by apply H512.
    + done.
    + intros i. unfold fat_sectors, fat_sector. rewrite Hsb, Htc, Hft. intros Hi.
      fold (fat_sectors v) in Hi. rewrite Hout by (cbn; lia). by apply Hfat.
    + rewrite Hsb. rewrite Hout by (unfold FS_SUPER_SECTOR; cbn; lia). done.
    + by apply (labelled_kept _ _ Hs Hok (geo_io _ Hg')).
  - intros k Hk. rewrite Hout by (cbn; lia). done.
Qed.

(** Changing the allocation table and saving it. *)
Lemma update_fat_disk v fat :
  geo_ok v -> disk_wf v ->
  let w := save_fat_to_disk (set_fat v fat) in
  same_but_store (set_fat v fat) w /\ geo_ok w /\ disk_wf w /\ data_kept v w.
Proof.
  intros Hg [H512 Hdir _ Hsup Hlab] w.
  assert (geo_ok (set_fat v fat)) as Hg' by (by destruct Hg as [[] ? ? ?]; constructor).
  destruct (save_fat_effect _ Hg') as (Hs & Hgw & Hok & Hout & Hfat). fold w in Hs, Hgw, Hok, Hout, Hfat.
  pose proof (same_fields _ _ Hs) as (_ & Hms & _ & Hme & _ & Hsb & Hdt & _).
  cbn in Hms, Hme, Hsb, Hdt. pose proof (regions _ Hg) as Hreg. cbn in Hout.
  split; [done|]. split; [done|]. split.
  - constructor.
    + rewrite Hsb, Hms. intros k Hk. rewrite Hout by lia. by apply H512.
    + intros i. unfold dir_sector. rewrite Hsb, Hme, Hdt. intros Hi. rewrite Hout by lia. by apply Hdir.
    + done.
    + rewrite Hsb. rewrite Hout by (unfold FS_SUPER_SECTOR; lia). done.
    + by apply (labelled_kept _ _ Hs Hok (geo_io _ Hg')).
  - intros k Hk. rewrite Hout by lia. done.
Qed.

(** ** The files' contents *)

Definition contents (v : vfs S) (ch : Z -> list Z) (i : Z) : list Z := file_bytes v (file_size (entry v i)) (ch i).

(** The sectors of a chain are in the data area. *)
Lemma chain_sectors_range v l c k :
  geo_ok v -> is_chain (fs_total_clusters v) (file_allocation_table v) c l -> k ∈ chain_sectors v l ->
  sb_data_start (fs_super v) <= k < fs_max_sectors v.
Proof.
  intros Hg Hch Hk. apply elem_of_chain_sectors in Hk as (x & Hx & Hin).
  apply (chain_range _ _ _ _ _ Hch) in Hx. unfold FS_FIRST_DATA_CLUSTER in Hx.
  destruct (cluster_start_eq v x Hg ltac:(lia)) as (_ & ? & ?). unfold in_run in Hin. bool_to_prop. lia.
Qed.

Lemma file_bytes_kept v w size l c :
  geo_ok v -> is_chain (fs_total_clusters v) (file_allocation_table v) c l ->
  fs_super w = fs_super v -> data_kept v w -> file_bytes w size l = file_bytes v size l.
Proof.
  intros Hg Hch Hsb Hk. unfold file_bytes. f_equal. apply chain_data_ext; [done|].
  intros k Hin. apply Hk. by apply (chain_sectors_range _ _ c) in Hin.
Qed.

(** ** An operation that only rewrites one entry *)

Lemma update_entry_wf v ch i e :
  fs_wf v ch -> dir_wf (dir_table v).[i <- e] (fs_max_entries v) (fs_total_clusters v) ->
  storage_kept (dir_table v) (dir_table v).[i <- e] (fs_max_entries v) ->
  let w := save_directory_to_disk (set_entry v i e) in
  fs_wf w ch /\ dir_table w = (dir_table v).[i <- e] /\ fs_max_entries w = fs_max_entries v /\
  fs_total_clusters w = fs_total_clusters v /\
  forall j, 0 <= j < fs_max_entries v -> regular (dir_table v) j -> contents w ch j = contents v ch j.
Proof.
  intros Hwf Hd Hst w. destruct Hwf as [Hg Hm Ha Hdw Hc Hdisk].
  destruct (update_dir_disk v (dir_table v).[i <- e] Hg Hdisk) as (Hs & Hgw & Hdkw & Hkept).
  fold (set_entry v i e) in *. fold w in Hs, Hgw, Hdkw, Hkept.
  pose proof (same_fields _ _ Hs) as (_ & Hms & Htc & Hme & Hmt & Hsb & Hdt & Hft). cbn in *.
  split; [|split; [done|split; [done|split; [done|]]]].
  - constructor; rewrite ?Hms, ?Htc, ?Hme, ?Hmt, ?Hsb, ?Hdt, ?Hft; try done.
    by apply (chains_storage_kept (dir_table v)).
  - intros j Hj Hr. unfold contents, entry. rewrite Hdt. destruct (Hst j Hj) as [_ Hsame].
    destruct (Hsame Hr) as [_ ->]. destruct (cw_chain _ _ _ _ _ Hc j Hj Hr) as (Hch & _).
    by apply (file_bytes_kept _ _ _ _ _ Hg Hch).
Qed.

End fs.
End VfsInv.
