(* ===== verification/VfsOps.v ===== *)
(** * The operations of the file system

    For each call, on a sound file system over a working disk: what it answers,
    what it changes, and that the file system stays sound. *)

From S2P Require Import Prelude CStr Fat FsFormat BlockStore Vfs VfsDisk VfsData VfsInv.
Import Fat FsFormat BlockStore Vfs VfsDisk VfsData VfsInv.

Module VfsOps.

Section ops.
Context {S : Type} {bs : BlockStore S} {laws : StoreLaws S} {rel : StoreReliable S}.
Implicit Types v w : vfs S.

(** The values an operation takes from the kernel fit their fields. *)
Definition env_ok (e : env) : Prop := is_u32 (cur_uid e) /\ is_u32 (cur_gid e) /\ is_u32 (now e).

(** ** Looking up *)

(** Entry [i] is the one called [name] in directory [p]. *)
Definition is_entry (v : vfs S) (p : Z) (name : list Z) (i : Z) : Prop :=
  0 <= i < fs_max_entries v /\ used (dir_table v) i /\ parent_id (entry v i) = p /\ name_of (entry v i) = cstr name.

Definition no_entry (v : vfs S) (p : Z) (name : list Z) : Prop := forall i, ~ is_entry v p name i.

Lemma names1_spec v p name i :
  0 <= i < fs_max_entries v -> names1 v p name i = true <-> is_entry v p name i.
Proof.
  intros Hi. unfold names1, is_entry, used, name_of, entry.
  rewrite !andb_true_iff, !Z.eqb_eq, ft_strcmp_eq. tauto.
Qed.

Lemma names_names1 v ch p name i : fs_wf v ch -> 0 <= i < fs_max_entries v -> names v p name i = names1 v p name i.
Proof.
  intros Hwf Hi. unfold names, names1, entry. by destruct (dw_used _ _ _ (wf_dir _ _ Hwf) i Hi) as [-> | ->].
Qed.

Lemma is_entry_unique v ch p name i j : fs_wf v ch -> is_entry v p name i -> is_entry v p name j -> i = j.
Proof.
  intros Hwf (? & ? & Hp & Hn) (? & ? & Hp' & Hn').
  apply (dw_unique _ _ _ (wf_dir _ _ Hwf)); try done; unfold entry in *; congruence.
Qed.

(** All the ways the code searches for a name find the same entry. *)
Lemma find_names1 v p name :
  match for_find 0 (fs_max_entries v) (names1 v p name) with
  | Some i => is_entry v p name i
  | None => no_entry v p name
  end.
Proof.
  destruct (for_find _ _ _) as [i|] eqn:Hf.
  - apply for_find_Some in Hf as (Hi & Hn & _). by apply names1_spec.
  - intros i Hi. pose proof Hi as [Hr _]. rewrite for_find_None in Hf. rewrite <- names1_spec in Hi by done.
    by rewrite Hf in Hi.
Qed.

Lemma find_names v ch p name :
  fs_wf v ch -> match for_find 0 (fs_max_entries v) (names v p name) with
  | Some i => is_entry v p name i
  | None => no_entry v p name
  end.
Proof.
  intros Hwf. destruct (for_find _ _ _) as [i|] eqn:Hf.
  - apply for_find_Some in Hf as (Hi & Hn & _). rewrite (names_names1 v ch) in Hn by done. by apply names1_spec.
  - intros i Hi. pose proof Hi as [Hr _]. rewrite for_find_None in Hf. rewrite <- names1_spec in Hi by done.
    rewrite <- (names_names1 v ch), Hf in Hi by done. done.
Qed.

Lemma last_match_spec v ch p name :
  fs_wf v ch -> (last_match v p name = -1 /\ no_entry v p name) \/ is_entry v p name (last_match v p name).
Proof.
  intros Hwf. unfold last_match.
  assert ((for_range 0 (fs_max_entries v) (fun acc i => if names v p name i then i else acc) (-1) = -1 /\
     forall j, 0 <= j < fs_max_entries v -> names v p name j = false) \/
    (0 <= for_range 0 (fs_max_entries v) (fun acc i => if names v p name i then i else acc) (-1) < fs_max_entries v /\
     names v p name (for_range 0 (fs_max_entries v) (fun acc i => if names v p name i then i else acc) (-1)) = true)) as Hl.
  { apply (for_range_ind (fun n acc => (acc = -1 /\ forall j, 0 <= j < n -> names v p name j = false) \/
      (0 <= acc < n /\ names v p name acc = true))).
    - apply (dir_wf_max _ _ _ (wf_dir _ _ Hwf)).
    - left. split; [done|lia].
    - intros i acc Hi Hacc. destruct (names v p name i) eqn:Hn; [right; split; [lia|done]|].
      destruct Hacc as [[-> Hno]|[? ?]]; [left|right; split; [lia|done]]. split; [done|].
      intros j Hj. destruct (Z.eq_dec j i) as [->|]; [done|]. apply Hno. lia. }
  destruct Hl as [[-> Hno]|[Hr Hn]].
  - left. split; [done|]. intros i Hi. pose proof Hi as [Hir _]. rewrite <- names1_spec in Hi by done.
    rewrite <- (names_names1 v ch), Hno in Hi by done. done.
  - right. rewrite (names_names1 v ch) in Hn by done. by apply names1_spec.
Qed.

Lemma free_slot_spec v :
  (free_slot v = -1 /\ forall i, 0 < i < fs_max_entries v -> is_used (entry v i) <> 0) \/
  (0 < free_slot v < fs_max_entries v /\ is_used (entry v (free_slot v)) = 0).
Proof.
  unfold free_slot. destruct (for_find _ _ _) as [i|] eqn:Hf; simpl.
  - right. apply for_find_Some in Hf as (Hi & Hu & _). lia.
  - left. split; [done|]. intros i Hi. rewrite for_find_None in Hf. specialize (Hf i ltac:(lia)). lia.
Qed.

Lemma fs_dir_exists_spec v ch p :
  fs_wf v ch -> 0 <= p -> fs_dir_exists v p = true <-> reaches_root (dir_table v) (fs_max_entries v) p.
Proof.
  intros Hwf Hp. pose proof (wf_dir _ _ Hwf) as Hd. unfold fs_dir_exists. destruct (Z.eqb_spec p 0) as [->|Hp0].
  { split; [intros _; apply rr_root|done]. }
  destruct (for_find _ _ _) as [i|] eqn:Hf; split; try done.
  - intros _. apply for_find_Some in Hf as (Hi & Hm & _). unfold entry in Hm.
    rewrite !andb_true_iff, negb_true_iff, Z.eqb_neq, !Z.eqb_eq in Hm. destruct Hm as [[Hu Hty] Hid].
    destruct (dw_tree _ _ _ Hd i Hi Hu) as (Hid' & _ & _ & Hr). rewrite Hid' in Hid. subst p. by apply rr_step.
  - intros Hr. exfalso. inversion Hr as [|c Hc Hcr Hu Hid Hty Hpr]; subst; [done|].
    rewrite for_find_None in Hf. specialize (Hf p Hcr). unfold entry in Hf.
    rewrite Hty, Hid, !Z.eqb_refl in Hf. rewrite <- Z.eqb_neq in Hu. by rewrite Hu in Hf.
Qed.

(** ** Names and new entries *)

Lemma length_new_name old name : length old = 64%nat -> length (new_name old name) = 64%nat.
Proof.
  intros Hl. unfold new_name. pose proof (alen_safe_strcpy (ft_memset old 0 MAX_FILENAME) name MAX_FILENAME) as Ha.
  rewrite alen_ft_memset in Ha. unfold alen in Ha. lia.
Qed.

Lemma cstr_new_name old name :
  length old = 64%nat -> ft_strlen name < MAX_FILENAME -> cstr (new_name old name) = cstr name.
Proof.
  intros Hl Hn. unfold new_name, MAX_FILENAME in *.
  apply cstr_safe_strcpy_fits; [|done]. rewrite alen_ft_memset. unfold alen. lia.
Qed.

Lemma parent_u16 v ch p : fs_wf v ch -> fs_dir_exists v p = true -> 0 <= p < 2 ^ 16.
Proof.
  intros Hwf Hp. destruct (Z.lt_ge_cases p 0) as [Hneg|Hnn].
  - exfalso. unfold fs_dir_exists in Hp. destruct (Z.eqb_spec p 0); [lia|]. destruct (for_find _ _ _) as [i|] eqn:Hf; [|done].
    apply for_find_Some in Hf as (Hi & Hm & _). rewrite !andb_true_iff, !Z.eqb_eq in Hm. destruct Hm as [_ Hid].
    pose proof (et_id _ (dw_typed _ _ _ (wf_dir _ _ Hwf) i Hi)). unfold entry in Hid. lia.
  - apply (fs_dir_exists_spec v ch) in Hp; [|done|done]. inversion Hp as [|c _ Hc]; subst; [lia|].
    destruct (regions _ (wf_geo _ _ Hwf)) as (_ & _ & _ & _ & _ & _ & [_ Hme] & _). unfold FS_MAX_ENTRIES_CAP in Hme. lia.
Qed.

(** The entry that [fs_mkdir] and [fs_create_file_raw] put in a free slot fits
    there. *)
Lemma new_entry_ok v ch e p name size c m ty i :
  fs_wf v ch -> env_ok e -> fs_dir_exists v p = true -> no_entry v p name -> ft_strlen name < MAX_FILENAME ->
  0 < i < fs_max_entries v -> is_used (entry v i) = 0 -> is_u32 size ->
  (ty = FT_DIR /\ c = 0) \/ (ty = FT_REGULAR /\ FS_FIRST_DATA_CLUSTER <= c < fs_total_clusters v) ->
  0 <= m < 2 ^ 16 ->
  let d := mk_entry (new_name (filename (entry v i)) name) size c (cur_uid e) (cur_gid e) (now e) (now e)
             (u16 i) p m ty 1 in
  dir_wf (dir_table v).[i <- d] (fs_max_entries v) (fs_total_clusters v) /\ entry_typed d /\
  name_of d = cstr name /\ u16 i = i.
Proof.
  intros Hwf (Hu & Hgd & Hnow) Hp Hno Hn Hi Hfree Hsz Hty Hm d. pose proof (wf_dir _ _ Hwf) as Hd.
  destruct (regions _ (wf_geo _ _ Hwf)) as (_ & _ & _ & _ & _ & _ & Hme & Htc).
  unfold FS_MAX_ENTRIES_CAP, FS_MAX_CLUSTERS_CAP in *.
  assert (u16 i = i) as Hi16 by (unfold u16; apply Z.mod_small; lia).
  pose proof (et_name _ (dw_typed _ _ _ Hd i ltac:(lia))) as Hlen.
  pose proof (parent_u16 v ch p Hwf Hp) as Hp16.
  assert (name_of d = cstr name) as Hname by (by apply cstr_new_name).
  assert (entry_typed d) as Htd.
  { constructor; cbn; try done; [by apply length_new_name|unfold is_u32, FS_FIRST_DATA_CLUSTER in *; lia|lia|].
    unfold is_u8. destruct Hty as [[-> _]|[-> _]]; unfold FT_DIR, FT_REGULAR; lia. }
  split; [|done]. apply dir_wf_set; try done; [by apply (dirs_kept_free _ _ _ _ _ Hd Hi)|].
  constructor.
  - done.
  - cbn. destruct Hty as [[-> _]|[-> _]]; auto.
  - cbn. destruct Hty as [[_ ->]|[_ ?]]; auto.
  - cbn. by apply (fs_dir_exists_spec v ch); [|lia|].
  - rewrite Hname, <- ft_strlen_cstr. done.
  - rewrite Hname. intros j Hj Hne Huj Hpj Hnj. apply (Hno j). done.
  - cbn. destruct Hty as [[_ ->]|[-> _]]; done.
Qed.

(** ** The calls that only rewrite an entry *)

Lemma storage_kept_free v i d :
  fs_max_entries v = alen (dir_table v) -> 0 < i < fs_max_entries v -> is_used (entry v i) = 0 ->
  file_type d = FT_DIR -> storage_kept (dir_table v) (dir_table v).[i <- d] (fs_max_entries v).
Proof.
  intros Hl Hi Hf Hty j Hj. unfold regular, used, entry in *. rewrite aget_aset by lia.
  destruct (Z.eqb_spec i j) as [<-|]; [|done]. rewrite Hty, Hf. split; [|by intros [? _]].
  split; [by intros [_ ?]|by intros [? _]].
Qed.

Lemma storage_kept_same v i d :
  fs_max_entries v = alen (dir_table v) -> 0 < i < fs_max_entries v ->
  is_used d = is_used (entry v i) -> file_type d = file_type (entry v i) ->
  start_cluster d = start_cluster (entry v i) -> file_size d = file_size (entry v i) ->
  storage_kept (dir_table v) (dir_table v).[i <- d] (fs_max_entries v).
Proof.
  intros Hl Hi Hu Hty Hst Hsz j Hj. unfold regular, used, entry in *. rewrite aget_aset by lia.
  destruct (Z.eqb_spec i j) as [<-|]; [|done]. by rewrite Hu, Hty, Hst, Hsz.
Qed.

(** ** Why a call is refused *)

Definition immutable (e : env) : Prop := SEC_LEVEL_IMMUTABLE <= current_sec_level e.

Inductive create_refused (v : vfs S) (name : list Z) (p : Z) : Z -> Prop :=
| cr_name : MAX_FILENAME <= ft_strlen name -> create_refused v name p E_INVAL
| cr_parent : fs_dir_exists v p = false -> create_refused v name p E_NOENT
| cr_exists i : is_entry v p name i -> create_refused v name p E_EXIST
| cr_full : (forall i, 0 < i < fs_max_entries v -> is_used (entry v i) <> 0) -> create_refused v name p E_NFILE.

Inductive delete_refused (v : vfs S) (e : env) (name : list Z) (p : Z) : Z -> Prop :=
| dr_immutable : immutable e -> delete_refused v e name p E_ROFS
| dr_missing : no_entry v p name -> delete_refused v e name p E_NOENT
| dr_children i j : is_entry v p name i -> file_type (entry v i) = FT_DIR -> 0 <= j < fs_max_entries v ->
    used (dir_table v) j -> parent_id (entry v j) = i -> delete_refused v e name p E_NOTEMPTY.

Inductive rename_refused (v : vfs S) (e : env) (old name : list Z) (p : Z) : Z -> Prop :=
| rr_name : MAX_FILENAME <= ft_strlen name -> rename_refused v e old name p E_INVAL
| rr_immutable : immutable e -> rename_refused v e old name p E_ROFS
| rr_exists i : is_entry v p name i -> rename_refused v e old name p E_EXIST
| rr_missing : no_entry v p old -> rename_refused v e old name p E_NOENT.

Inductive attr_refused (v : vfs S) (e : env) (id : Z) : Z -> Prop :=
| ar_immutable : immutable e -> attr_refused v e id E_ROFS
| ar_missing : (forall i, 0 <= i < fs_max_entries v -> used (dir_table v) i -> entry_id (entry v i) <> id) ->
    attr_refused v e id E_NOENT.

#[local] Hint Constructors create_refused delete_refused rename_refused attr_refused : vfs.

Ltac refuse :=
  intros [= <- <-]; rewrite bool_decide_eq_false_2 by done; split; [done|]; eauto with vfs.

(** [w] has another entry in slot [i] and is otherwise as [v], the contents of
    the other files included. *)
Record changed_entry (v w : vfs S) (ch ch' : Z -> list Z) (i : Z) : Prop := {
  ce_range : 0 < i < fs_max_entries v;
  ce_max : fs_max_entries w = fs_max_entries v;
  ce_clusters : fs_total_clusters w = fs_total_clusters v;
  ce_others : forall j, 0 <= j -> j <> i -> entry w j = entry v j;
  ce_contents : forall j, 0 <= j < fs_max_entries v -> j <> i -> regular (dir_table v) j -> contents w ch' j = contents v ch j
}.

Lemma changed_by_set v w ch i d :
  fs_wf v ch -> 0 < i < fs_max_entries v -> dir_table w = (dir_table v).[i <- d] -> fs_max_entries w = fs_max_entries v ->
  fs_total_clusters w = fs_total_clusters v ->
  (forall j, 0 <= j < fs_max_entries v -> regular (dir_table v) j -> contents w ch j = contents v ch j) ->
  entry w i = d /\ changed_entry v w ch ch i.
Proof.
  intros Hwf Hi Hdt Hme Htc Hc. pose proof (dw_len _ _ _ (wf_dir _ _ Hwf)) as Hlen.
  split; [unfold entry; rewrite Hdt; apply aget_aset_eq; lia|]. constructor; [done|done|done| |auto].
  intros j Hj Hne. unfold entry. rewrite Hdt. apply aget_aset_ne; lia.
Qed.

(** A directory is made exactly when the parent exists, the name is free and
    fits, and a slot is left; it is then in that slot, and nothing else has
    changed. *)
Lemma fs_mkdir_ok v ch e name p r w :
  fs_wf v ch -> env_ok e -> fs_mkdir e v name p = (r, w) ->
  if bool_decide (r = E_OK) then
    fs_wf w ch /\ ~ immutable e /\ fs_dir_exists v p = true /\ no_entry v p name /\
    exists i, is_used (entry v i) = 0 /\ changed_entry v w ch ch i /\ is_entry w p name i /\
      file_type (entry w i) = FT_DIR /\ owner_uid (entry w i) = cur_uid e /\ owner_gid (entry w i) = cur_gid e /\
      mode (entry w i) = FS_MODE_DEFAULT_DIR
  else w = v /\ (create_refused v name p r \/ immutable e /\ r = E_ROFS).
Proof.
  intros Hwf He. unfold fs_mkdir. rewrite (wf_mounted _ _ Hwf). cbn [negb].
  destruct (Z.leb_spec SEC_LEVEL_IMMUTABLE (current_sec_level e)) as [|Him]; [refuse|].
  destruct (Z.leb_spec MAX_FILENAME (ft_strlen name)) as [|Hn]; [refuse|].
  destruct (fs_dir_exists v p) eqn:Hp; cbn [negb]; [|refuse].
  pose proof (find_names v ch p name Hwf) as Hfind. destruct (for_find _ _ _) as [k|]; [refuse|].
  destruct (free_slot_spec v) as [[-> Hfull]|[Hi Hfree]]; [refuse|].
  destruct (Z.eqb_spec (free_slot v) (-1)); [lia|]. set (i := free_slot v) in *.
  destruct (new_entry_ok v ch e p name 0 0 FS_MODE_DEFAULT_DIR FT_DIR i Hwf He Hp Hfind Hn Hi Hfree) as (Hd & Hty & Hname & Hi16);
    [done|by left|done|].
  set (d := mk_entry _ _ _ _ _ _ _ _ _ _ _ _) in *. intros [= <- <-]. rewrite bool_decide_eq_true_2 by done.
  pose proof (dw_len _ _ _ (wf_dir _ _ Hwf)) as Hlen.
  destruct (update_entry_wf v ch i d Hwf Hd) as (Hwf' & Hdt & Hme & Htc & Hcont); [by apply storage_kept_free|].
  set (w := save_directory_to_disk _) in *. split; [done|]. split; [unfold immutable; lia|]. split; [done|]. split; [done|].
  destruct (changed_by_set v w ch i d Hwf Hi Hdt Hme Htc Hcont) as [Hent Hch]. exists i. rewrite Hent.
  split; [done|]. split; [done|]. split; [|done]. split; [rewrite Hme; lia|]. unfold used. fold (entry w i). by rewrite Hent.
Qed.

(** The other calls that rewrite an entry in place: the new one has the same
    storage, kind and parent. *)
Lemma rewrite_entry_ok v ch i d :
  fs_wf v ch -> 0 < i < fs_max_entries v -> used (dir_table v) i -> entry_typed d ->
  is_used d = 1 -> entry_id d = entry_id (entry v i) -> file_type d = file_type (entry v i) ->
  parent_id d = parent_id (entry v i) -> start_cluster d = start_cluster (entry v i) ->
  file_size d = file_size (entry v i) -> alen (name_of d) < MAX_FILENAME ->
  (forall j, j <> i -> ~ is_entry v (parent_id d) (filename d) j) ->
  let w := save_directory_to_disk (set_entry v i d) in
  fs_wf w ch /\ dir_table w = (dir_table v).[i <- d] /\ fs_max_entries w = fs_max_entries v /\
  fs_total_clusters w = fs_total_clusters v /\
  forall j, 0 <= j < fs_max_entries v -> regular (dir_table v) j -> contents w ch j = contents v ch j.
Proof.
  intros Hwf Hi Hu Hty Hud Hid Hft Hp Hst Hsz Hn Huniq. pose proof (wf_dir _ _ Hwf) as Hd.
  pose proof (dw_len _ _ _ Hd) as Hlen. unfold entry in *.
  assert (is_used (dir_table v).[i] <> 0) as Hu0 by (unfold used in Hu; lia).
  destruct (dw_tree _ _ _ Hd i ltac:(lia) Hu0) as (Hti & Htt & Hts & Htr).
  apply update_entry_wf; [done| |].
  - apply dir_wf_set; try done.
    + apply (dirs_kept_same _ _ _ _ _ Hd Hi); [lia|done..].
    + constructor; [congruence|by rewrite Hft|by rewrite Hst|by rewrite Hp|done| |].
      * intros j Hj Hne Huj Hpj Hnj. by apply (Huniq j Hne).
      * rewrite Hft, Hst. by apply (dw_dirs _ _ _ Hd); [lia|].
  - apply storage_kept_same; unfold entry; try done. unfold used in Hu. congruence.
Qed.

Lemma used_slot_pos v ch i : fs_wf v ch -> 0 <= i < fs_max_entries v -> used (dir_table v) i -> 0 < i.
Proof.
  intros Hwf Hi Hu. destruct (Z.eq_dec i 0) as [->|]; [|lia].
  pose proof (dw_slot0 _ _ _ (wf_dir _ _ Hwf)) as H0. unfold used in Hu. congruence.
Qed.

(** Renaming gives the entry the new name, which was free, and keeps its
    contents. *)
Lemma fs_rename_ok v ch e old name p r w :
  fs_wf v ch -> env_ok e -> fs_rename e v old name p = (r, w) ->
  if bool_decide (r = E_OK) then
    fs_wf w ch /\ exists i, is_entry v p old i /\ no_entry v p name /\ changed_entry v w ch ch i /\
      is_entry w p name i /\ file_type (entry w i) = file_type (entry v i) /\
      owner_uid (entry w i) = owner_uid (entry v i) /\ owner_gid (entry w i) = owner_gid (entry v i) /\
      mode (entry w i) = mode (entry v i) /\
      (regular (dir_table v) i -> contents w ch i = contents v ch i)
  else w = v /\ rename_refused v e old name p r.
Proof.
  intros Hwf (_ & _ & Hnow). unfold fs_rename. rewrite (wf_mounted _ _ Hwf). cbn [negb].
  destruct (Z.leb_spec MAX_FILENAME (ft_strlen name)) as [|Hn]; [refuse|].
  destruct (Z.leb_spec SEC_LEVEL_IMMUTABLE (current_sec_level e)) as [|Him]; [refuse|].
  pose proof (find_names1 v p name) as Hnew. destruct (for_find _ _ (names1 v p name)) as [k|]; [refuse|].
  pose proof (find_names1 v p old) as Hold. destruct (for_find _ _ (names1 v p old)) as [i|]; [|refuse].
  intros [= <- <-]. rewrite bool_decide_eq_true_2 by done. destruct Hold as (Hi & Hu & Hp & Hnm).
  pose proof (used_slot_pos v ch i Hwf Hi Hu) as Hpos. set (d := mk_entry _ _ _ _ _ _ _ _ _ _ _ _).
  pose proof (dw_typed _ _ _ (wf_dir _ _ Hwf) i Hi) as Hty. fold (entry v i) in Hty.
  assert (name_of d = cstr name) as Hname by (apply cstr_new_name; [apply Hty|done]).
  destruct (rewrite_entry_ok v ch i d Hwf ltac:(lia) Hu) as (Hwf' & Hdt & Hme & Htc & Hc); try done.
  - destruct Hty. constructor; cbn; try done. by apply length_new_name.
  - rewrite Hname, <- ft_strlen_cstr. done.
  - intros j Hne (Hj & Huj & Hpj & Hnj). apply (Hnew j). split; [done|]. split; [done|].
    split; [rewrite <- Hp; exact Hpj|]. rewrite <- Hname. exact Hnj.
  - set (w := save_directory_to_disk _) in *. split; [done|]. exists i.
    destruct (changed_by_set v w ch i d Hwf ltac:(lia) Hdt Hme Htc Hc) as [Hent Hch].
    split; [done|]. split; [done|]. split; [done|]. rewrite Hent.
    split; [|repeat (split; [done|]); intros; by apply Hc].
    split; [by rewrite Hme|]. unfold used. fold (entry w i). rewrite Hent. done.
Qed.

Lemma fs_slot_of_spec v ch id :
  fs_wf v ch ->
  (fs_slot_of v id = -1 /\ forall i, 0 <= i < fs_max_entries v -> used (dir_table v) i -> entry_id (entry v i) <> id) \/
  (fs_slot_of v id = id /\ 0 < id < fs_max_entries v /\ used (dir_table v) id).
Proof.
  intros Hwf. unfold fs_slot_of. destruct (for_find _ _ _) as [i|] eqn:Hf; [right|left]; cbn.
  - apply for_find_Some in Hf as (Hi & Hm & _). rewrite andb_true_iff, negb_true_iff, Z.eqb_neq, Z.eqb_eq in Hm.
    destruct Hm as [Hu Hid]. unfold entry in *. pose proof (wf_dir _ _ Hwf) as Hd.
    destruct (dw_tree _ _ _ Hd i Hi Hu) as (Hti & _). pose proof (used_nonzero _ _ _ i Hd Hi Hu) as Hu'.
    pose proof (used_slot_pos v ch i Hwf Hi Hu'). rewrite Hti in Hid. subst id. split; [done|]. split; [lia|done].
  - split; [done|]. intros i Hi Hu Hid. rewrite for_find_None in Hf. specialize (Hf i Hi).
    unfold used, entry in *. by rewrite Hu, Hid, !Z.eqb_refl in Hf.
Qed.

(** Changing the permission bits or the owner changes only those, and the time
    of the change. *)
Lemma fs_chmod_ok v ch e id m r w :
  fs_wf v ch -> env_ok e -> fs_chmod e v id m = (r, w) ->
  if bool_decide (r = E_OK) then
    fs_wf w ch /\ changed_entry v w ch ch id /\ used (dir_table v) id /\ used (dir_table w) id /\
    file_type (entry w id) = file_type (entry v id) /\ parent_id (entry w id) = parent_id (entry v id) /\
    owner_gid (entry w id) = owner_gid (entry v id) /\
    mode (entry w id) = u16 (Z.land m FS_MODE_PERM_MASK) /\ filename (entry w id) = filename (entry v id) /\
    owner_uid (entry w id) = owner_uid (entry v id) /\
    (regular (dir_table v) id -> contents w ch id = contents v ch id)
  else w = v /\ attr_refused v e id r.
Proof.
  intros Hwf (_ & _ & Hnow). unfold fs_chmod. rewrite (wf_mounted _ _ Hwf). cbn [negb].
  destruct (Z.leb_spec SEC_LEVEL_IMMUTABLE (current_sec_level e)) as [|Him]; [refuse|].
  destruct (fs_slot_of_spec v ch id Hwf) as [[-> ?]|(-> & Hi & Hu)]; [refuse|].
  destruct (Z.ltb_spec id 0); [lia|]. set (d := mk_entry _ _ _ _ _ _ _ _ _ _ _ _).
  intros [= <- <-]. rewrite bool_decide_eq_true_2 by done. pose proof (wf_dir _ _ Hwf) as Hd.
  pose proof (dw_typed _ _ _ Hd id ltac:(lia)) as Hty. fold (entry v id) in Hty.
  destruct (rewrite_entry_ok v ch id d Hwf Hi Hu) as (Hwf' & Hdt & Hme & Htc & Hc); try done.
  - destruct Hty. constructor; cbn; try done. unfold u16. apply Z.mod_pos_bound. lia.
  - apply (dw_names _ _ _ Hd id); [lia|done].
  - intros j Hne (Hj & Huj & Hpj & Hnj). apply Hne, (dw_unique _ _ _ Hd); try done. lia.
  - set (w := save_directory_to_disk _) in *. split; [done|].
    destruct (changed_by_set v w ch id d Hwf Hi Hdt Hme Htc Hc) as [Hent Hch].
    split; [done|]. split; [done|]. split; [unfold used; fold (entry w id); by rewrite Hent|].
    rewrite Hent. repeat (split; [done|]). intros. apply Hc; [lia|done].
Qed.

Lemma fs_chown_ok v ch e id uid gid r w :
  fs_wf v ch -> env_ok e -> is_u32 uid -> is_u32 gid -> fs_chown e v id uid gid = (r, w) ->
  if bool_decide (r = E_OK) then
    fs_wf w ch /\ changed_entry v w ch ch id /\ used (dir_table v) id /\ used (dir_table w) id /\
    file_type (entry w id) = file_type (entry v id) /\ parent_id (entry w id) = parent_id (entry v id) /\
    owner_uid (entry w id) = uid /\ owner_gid (entry w id) = gid /\ mode (entry w id) = mode (entry v id) /\
    filename (entry w id) = filename (entry v id) /\
    (regular (dir_table v) id -> contents w ch id = contents v ch id)
  else w = v /\ attr_refused v e id r.
Proof.
  intros Hwf (_ & _ & Hnow) Huid Hgid. unfold fs_chown. rewrite (wf_mounted _ _ Hwf). cbn [negb].
  destruct (Z.leb_spec SEC_LEVEL_IMMUTABLE (current_sec_level e)) as [|Him]; [refuse|].
  destruct (fs_slot_of_spec v ch id Hwf) as [[-> ?]|(-> & Hi & Hu)]; [refuse|].
  destruct (Z.ltb_spec id 0); [lia|]. set (d := mk_entry _ _ _ _ _ _ _ _ _ _ _ _).
  intros [= <- <-]. rewrite bool_decide_eq_true_2 by done. pose proof (wf_dir _ _ Hwf) as Hd.
  pose proof (dw_typed _ _ _ Hd id ltac:(lia)) as Hty. fold (entry v id) in Hty.
  destruct (rewrite_entry_ok v ch id d Hwf Hi Hu) as (Hwf' & Hdt & Hme & Htc & Hc); try done.
  - destruct Hty. by constructor.
  - apply (dw_names _ _ _ Hd id); [lia|done].
  - intros j Hne (Hj & Huj & Hpj & Hnj). apply Hne, (dw_unique _ _ _ Hd); try done. lia.
  - set (w := save_directory_to_disk _) in *. split; [done|].
    destruct (changed_by_set v w ch id d Hwf Hi Hdt Hme Htc Hc) as [Hent Hch].
    split; [done|]. split; [done|]. split; [unfold used; fold (entry w id); by rewrite Hent|].
    rewrite Hent. repeat (split; [done|]). intros. apply Hc; [lia|done].
Qed.

(** ** Deleting *)

Lemma has_child_spec v ch id :
  fs_wf v ch -> has_child v id = false ->
  forall j, 0 <= j < fs_max_entries v -> is_used (entry v j) <> 0 -> parent_id (entry v j) <> id.
Proof.
  intros Hwf. unfold has_child. destruct (for_find _ _ _) eqn:Hf; [done|]. intros _ j Hj Hu Hp.
  rewrite for_find_None in Hf. specialize (Hf j Hj).
  pose proof (used_nonzero _ _ _ j (wf_dir _ _ Hwf) Hj Hu) as Hu'. unfold used in Hu'. unfold entry in *.
  rewrite Hu', Hp, !Z.eqb_refl in Hf. done.
Qed.

Lemma has_child_true v id :
  has_child v id = true -> exists j, 0 <= j < fs_max_entries v /\ used (dir_table v) j /\ parent_id (entry v j) = id.
Proof.
  unfold has_child. destruct (for_find _ _ _) as [j|] eqn:Hf; [|done]. intros _.
  apply for_find_Some in Hf as (Hj & Hm & _). rewrite andb_true_iff, !Z.eqb_eq in Hm. exists j. done.
Qed.

(** Nothing is inside a regular file. *)
Lemma regular_no_child v ch i j :
  fs_wf v ch -> 0 < i < fs_max_entries v -> regular (dir_table v) i ->
  0 <= j < fs_max_entries v -> is_used (entry v j) <> 0 -> parent_id (entry v j) <> i.
Proof.
  intros Hwf Hi [_ Hty] Hj Hu Hp. destruct (dw_tree _ _ _ (wf_dir _ _ Hwf) j Hj Hu) as (_ & _ & _ & Hr).
  unfold entry in Hp. rewrite Hp in Hr. inversion Hr as [|c _ _ _ _ Htd _]; [lia|]. subst. by rewrite Hty in Htd.
Qed.

(** The table after the loop that frees the entry's clusters. *)
Lemma delete_fat v ch i :
  fs_wf v ch -> 0 < i < fs_max_entries v -> used (dir_table v) i ->
  let fat := (free_chain_loop (fs_total_clusters v) (file_allocation_table v) (start_cluster (entry v i))).2 in
  fat = if file_type (entry v i) =? FT_REGULAR then clear_all (ch i) (file_allocation_table v) else file_allocation_table v.
Proof.
  intros Hwf Hi Hu. pose proof (wf_dir _ _ Hwf) as Hd. pose proof (wf_chains _ _ Hwf) as Hc.
  destruct (regions _ (wf_geo _ _ Hwf)) as (_ & _ & _ & _ & _ & _ & _ & Htc).
  pose proof (fat_words_ge (fs_total_clusters v) ltac:(lia)) as Hw. pose proof (cw_len _ _ _ _ _ Hc) as Hlen.
  unfold entry. destruct (Z.eqb_spec (file_type (dir_table v).[i]) FT_REGULAR) as [Hreg|Hdir].
  - destruct (cw_chain _ _ _ _ _ Hc i ltac:(lia) (conj Hu Hreg)) as (Hch & _).
    cbn zeta. rewrite (delete_chain _ _ (ch i)) by (done || lia). done.
  - assert (is_used (dir_table v).[i] <> 0) as Hu0 by (unfold used in Hu; lia).
    destruct (dw_tree _ _ _ Hd i ltac:(lia) Hu0) as (_ & [?|Hty] & _); [done|].
    rewrite (dw_dirs _ _ _ Hd i) by (done || lia). done.
Qed.

(** Deleting removes the entry and gives back exactly its clusters; a directory
    with something in it is refused. *)
Lemma fs_delete_ok v ch e name p r w :
  fs_wf v ch -> env_ok e -> fs_delete e v name p = (r, w) ->
  if bool_decide (r = E_OK) then
    fs_wf w ch /\ ~ immutable e /\ exists i, is_entry v p name i /\ changed_entry v w ch ch i /\ is_used (entry w i) = 0 /\
      (file_type (entry v i) = FT_DIR -> forall j, 0 <= j < fs_max_entries v -> used (dir_table v) j -> parent_id (entry v j) <> i) /\
      file_allocation_table w =
        (if file_type (entry v i) =? FT_REGULAR then clear_all (ch i) (file_allocation_table v) else file_allocation_table v)
  else w = v /\ delete_refused v e name p r.
Proof.
  intros Hwf _. unfold fs_delete. rewrite (wf_mounted _ _ Hwf). cbn [negb].
  destruct (Z.leb_spec SEC_LEVEL_IMMUTABLE (current_sec_level e)) as [|Him]; [refuse|].
  pose proof (find_names1 v p name) as Hf. destruct (for_find _ _ _) as [i|]; [|refuse].
  pose proof Hf as (Hi & Hu & Hp & Hnm). pose proof (used_slot_pos v ch i Hwf Hi Hu) as Hpos.
  pose proof (wf_dir _ _ Hwf) as Hd. pose proof (wf_chains _ _ Hwf) as Hc. pose proof (wf_geo _ _ Hwf) as Hg.
  assert (is_used (dir_table v).[i] <> 0) as Hu0 by (unfold used in Hu; lia).
  destruct (dw_tree _ _ _ Hd i Hi Hu0) as (Hid & Htypes & _). fold (entry v i) in Hid, Htypes.
  destruct ((file_type (entry v i) =? FT_DIR) && has_child v (entry_id (entry v i))) eqn:Hne.
  { apply andb_true_iff in Hne as [Hdir Hhc]. apply Z.eqb_eq in Hdir. rewrite Hid in Hhc.
    destruct (has_child_true v i Hhc) as (j & Hj & Huj & Hpj). refuse. }
  assert (forall j, 0 <= j < fs_max_entries v -> is_used (dir_table v).[j] <> 0 -> parent_id (dir_table v).[j] <> i) as Hno.
  { intros j Hj Huj. destruct Htypes as [Hreg|Hdir].
    - apply (regular_no_child v ch i j); try done; lia.
    - rewrite Hdir, Hid in Hne. apply (has_child_spec v ch i Hwf Hne j Hj Huj). }
  rewrite (delete_fat v ch i Hwf ltac:(lia) Hu).
  set (fat := if file_type (entry v i) =? FT_REGULAR then _ else _).
  set (d := mk_entry _ _ _ _ _ _ _ _ _ _ _ _). intros [= <- <-]. rewrite bool_decide_eq_true_2 by done.
  destruct (update_fat_disk v fat Hg (wf_disk _ _ Hwf)) as (Hs1 & Hg1 & Hdk1 & Hk1).
  set (v1 := save_fat_to_disk (set_fat v fat)) in *.
  pose proof (same_fields _ _ Hs1) as (Hps1 & Hms1 & Htc1 & Hme1 & Hmt1 & Hsb1 & Hdt1 & Hft1). cbn in *.
  assert (dir_wf (dir_table v).[i <- d] (fs_max_entries v) (fs_total_clusters v)) as Hd'.
  { apply dir_wf_clear; try done; [lia|]. pose proof (dw_typed _ _ _ Hd i Hi) as []. constructor; cbn; try done.
    pose proof (alen_ft_memset (filename (dir_table v).[i]) 0 MAX_FILENAME) as Hal. unfold alen, entry in *. lia. }
  assert (chains_wf (dir_table v).[i <- d] (fs_max_entries v) fat (fs_total_clusters v) ch) as Hc'.
  { destruct (regions _ Hg) as (_ & _ & _ & _ & _ & _ & _ & Htc). unfold fat.
    destruct (Z.eqb_spec (file_type (entry v i)) FT_REGULAR) as [Hreg|Hnr].
    - apply chains_delete; try done; [lia|lia].
    - apply (chains_storage_kept (dir_table v)); [|done]. intros j Hj. unfold regular, used.
      rewrite (get_set _ _ _ _ _ Hd) by lia. destruct (Z.eqb_spec i j) as [<-|]; [|done]. cbn.
      split; [split; [by intros []|by intros [_ ?]]|by intros [_ ?]]. }
  destruct (update_dir_disk v1 (dir_table v1).[i <- d] Hg1 Hdk1) as (Hs2 & Hg2 & Hdk2 & Hk2).
  fold (set_entry v1 i d) in Hs2, Hg2, Hdk2, Hk2. set (w := save_directory_to_disk (set_entry v1 i d)) in *.
  pose proof (same_fields _ _ Hs2) as (Hps2 & Hms2 & Htc2 & Hme2 & Hmt2 & Hsb2 & Hdt2 & Hft2). cbn in *.
  assert (data_kept v w) as Hkw.
  { intros k Hk. rewrite Hk2 by (rewrite Hsb1, Hms1; done). by apply Hk1. }
  split.
  - constructor; rewrite ?Hms2, ?Hms1, ?Htc2, ?Htc1, ?Hme2, ?Hme1, ?Hmt2, ?Hmt1, ?Hsb2, ?Hsb1, ?Hdt2, ?Hdt1, ?Hft2, ?Hft1;
      try done; apply Hwf.
  - split; [unfold immutable; lia|]. exists i. pose proof (dw_len _ _ _ Hd) as Hlen.
    split; [done|]. split; [|split; [|split]].
    + constructor; [lia|by rewrite Hme2, Hme1|by rewrite Htc2, Htc1| |].
      * intros j Hj Hji. unfold entry. rewrite Hdt2, Hdt1. apply aget_aset_ne; lia.
      * intros j Hj Hji Hr. unfold contents, entry. rewrite Hdt2, Hdt1, aget_aset_ne by lia.
        destruct (cw_chain _ _ _ _ _ Hc j Hj Hr) as (Hch & _).
        apply (file_bytes_kept _ _ _ _ _ Hg Hch); [by rewrite Hsb2, Hsb1|done].
    + unfold entry. rewrite Hdt2, Hdt1, aget_aset_eq by lia. done.
    + intros _ j Hj Huj. apply Hno; [done|]. unfold used in Huj. lia.
    + by rewrite Hft2, Hft1.
Qed.

(** ** Creating *)

(** [allocate_fat_chain]: either the disk is too full and nothing has changed,
    or a chain of fresh clusters is in the table, in memory and on the disk. *)
Lemma allocate_ok v ch count c w :
  fs_wf v ch -> 0 < count -> allocate_fat_chain v count = (c, w) ->
  if bool_decide (c = FAT_FREE) then
    w = v /\ alen (free_in (file_allocation_table v) FS_FIRST_DATA_CLUSTER (fs_total_clusters v)) < count
  else exists l, alen l = count /\ FS_FIRST_DATA_CLUSTER <= c < fs_total_clusters v /\
    is_chain (fs_total_clusters v) (file_allocation_table w) c l /\
    (forall x, x ∈ l -> (file_allocation_table v).[x] = FAT_FREE) /\
    (forall j, 0 <= j -> j ∉ l -> (file_allocation_table w).[j] = (file_allocation_table v).[j]) /\
    alen (file_allocation_table w) = alen (file_allocation_table v) /\
    same_but_store (set_fat v (file_allocation_table w)) w /\ geo_ok w /\ disk_wf w /\ data_kept v w.
Proof.
  intros Hwf Hcount. unfold allocate_fat_chain. destruct (Z.eqb_spec count 0); [lia|].
  destruct (fat_alloc (fs_total_clusters v) count (file_allocation_table v)) as [c0 fat] eqn:Ha.
  pose proof (wf_geo _ _ Hwf) as Hg. pose proof (wf_chains _ _ Hwf) as Hc. pose proof (cw_len _ _ _ _ _ Hc) as Hlen.
  destruct (regions _ Hg) as (_ & _ & _ & _ & _ & _ & _ & Htc). pose proof (fat_words_ge (fs_total_clusters v) ltac:(lia)) as Hw.
  destruct (Z.lt_ge_cases (fs_total_clusters v) FS_FIRST_DATA_CLUSTER) as [Hsmall|Hbig].
  { (* no cluster can be handed out at all *)
    assert (free_in (file_allocation_table v) FS_FIRST_DATA_CLUSTER (fs_total_clusters v) = []) as Hnone
      by (unfold free_in; by rewrite seqZ_nil by lia).
    unfold fat_alloc, alloc_loop in Ha. rewrite for_range_empty in Ha by lia. destruct (Z.eqb_spec count 0); [lia|].
    cbn [av_allocated a_fat av_start] in Ha. destruct (Z.ltb_spec 0 count); [|lia].
    assert (rollback_loop (file_allocation_table v) FAT_EOF = (FAT_EOF, file_allocation_table v)) as Hrb.
    { unfold rollback_loop. by destruct (length (file_allocation_table v)). }
    rewrite Hrb in Ha. injection Ha as <- <-. rewrite Z.eqb_refl. intros [= <- <-].
    rewrite bool_decide_eq_true_2 by done. rewrite Hnone. split; [by destruct v|done]. }
  pose proof (fat_alloc_spec (fs_total_clusters v) count (file_allocation_table v) c0 fat Hcount Hbig ltac:(lia) ltac:(lia) Ha) as Hspec.
  destruct (Z.ltb_spec (alen (free_in (file_allocation_table v) FS_FIRST_DATA_CLUSTER (fs_total_clusters v))) count) as [Hfull|Hroom].
  - destruct Hspec as [-> ->]. rewrite Z.eqb_refl. intros [= <- <-]. rewrite bool_decide_eq_true_2 by done.
    split; [by destruct v|done].
  - cbn zeta in Hspec. set (l := take (Z.to_nat count) _) in Hspec. destruct Hspec as (Hl & Hch & Hal & Hframe).
    assert (FS_FIRST_DATA_CLUSTER <= c0 < fs_total_clusters v) as Hcr.
    { destruct l as [|x l']; [unfold alen in Hl; simpl in Hl; lia|]. by destruct Hch as (-> & ? & _). }
    destruct (Z.eqb_spec c0 FAT_FREE) as [->|Hnf]; [unfold FAT_FREE, FS_FIRST_DATA_CLUSTER in Hcr; lia|].
    intros [= <- <-]. rewrite bool_decide_eq_false_2 by done. exists l.
    destruct (update_fat_disk v fat Hg (wf_disk _ _ Hwf)) as (Hs & Hgw & Hdk & Hk).
    pose proof (same_fields _ _ Hs) as (_ & _ & _ & _ & _ & _ & _ & Hft). cbn in Hft. rewrite Hft.
    repeat (split; [done|]). split; [|done].
    intros x Hx. apply subseteq_take, elem_of_free_in in Hx. by destruct Hx.
Qed.

(** Writing the data of a fresh chain disturbs neither the tables nor any other
    file, and leaves the contents in the chain. *)
Lemma write_data_ok v content size l c :
  geo_ok v -> disk_wf v -> 0 <= size <= alen content -> size <= 4096 * alen l ->
  is_chain (fs_total_clusters v) (file_allocation_table v) c l ->
  let w := write_data v content size (alen l) c in
  same_but_store v w /\ geo_ok w /\ disk_wf w /\ file_bytes w size l = take (Z.to_nat size) content /\
  forall k, 0 <= k < fs_max_sectors v -> k ∉ chain_sectors v l -> part_view w k = part_view v k.
Proof.
  intros Hg [H512 Hdir Hfat Hsup Hlab] Hsz Hfit Hch w.
  pose proof (write_data_wrote v content size l c Hg ltac:(lia) Hch) as Hw. fold w in Hw.
  pose proof (wrote_same _ _ _ Hw) as Hs. pose proof (same_fields _ _ Hs) as (_ & Hms & Htc & Hme & _ & Hsb & Hdt & Hft).
  pose proof (regions _ Hg) as Hreg.
  assert (forall k, k ∉ chain_sectors v l -> data_map v content size 0 l k = None) as Hnone.
  { intros k Hk. apply data_map_None. intros x Hx. destruct (in_run _ _ k) eqn:Hin; [|done].
    exfalso. apply Hk, elem_of_chain_sectors. by exists x. }
  assert (forall k, 0 <= k < fs_max_sectors v -> k ∉ chain_sectors v l -> part_view w k = part_view v k) as Hout.
  { intros k Hk Hn. rewrite (wrote_view _ _ _ Hw) by done. by rewrite Hnone. }
  assert (forall k, k ∈ chain_sectors v l -> sb_data_start (fs_super v) <= k < fs_max_sectors v) as Hrange
    by (intros k Hk; by apply (chain_sectors_range _ _ c) in Hk).
  assert (forall k n, match data_map v content size n l k with Some x => length x = 512%nat | None => True end) as Hlen.
  { intros k n. clear. revert n. induction l as [|x l IH]; intros n; cbn [data_map]; [done|]. destruct (in_run _ _ _); [|apply IH].
    unfold file_sector. apply length_sector_of. lia. }
  split; [done|]. split; [apply (geo_same v); [done|apply Hw|done]|]. split; [|split; [|done]].
  - constructor.
    + rewrite Hsb, Hms. intros k Hk. rewrite (wrote_view _ _ _ Hw) by lia.
      specialize (Hlen k 0). destruct (data_map v content size 0 l k); [done|by apply H512].
    + unfold dir_sector. rewrite Hme, Hsb, Hdt. intros i Hi. rewrite Hout; [by apply Hdir|lia|].
      intros Hin. apply Hrange in Hin. lia.
    + unfold fat_sectors, fat_sector. rewrite Htc, Hsb, Hft. fold (fat_sectors v). intros i Hi. rewrite Hout; [by apply Hfat|lia|].
      intros Hin. apply Hrange in Hin. lia.
    + rewrite Hsb, Hout; [done|unfold FS_SUPER_SECTOR; lia|]. intros Hin. apply Hrange in Hin. unfold FS_SUPER_SECTOR in Hin. lia.
    + apply (labelled_kept _ _ Hs (wrote_outside _ _ _ Hw) (geo_io _ Hg) Hlab).
  - assert (fs_total_clusters v <= FS_MAX_CLUSTERS_CAP) as Hcap by lia.
    unfold file_bytes. rewrite (chain_data_written v w content size l (chain_NoDup _ _ _ _ Hcap Hch) Hsb).
    + apply file_sectors_hold; [done|lia|unfold alen; lia].
    + intros k Hk. rewrite (wrote_view _ _ _ Hw) by (apply Hrange in Hk; lia).
      destruct (data_map v content size 0 l k) eqn:Hd; [done|]. exfalso.
      apply elem_of_chain_sectors in Hk as (x & Hx & Hin). clear -Hx Hin Hd. revert Hd. generalize 0.
      induction l as [|y l IH]; intros n; [by apply elem_of_nil in Hx|]. cbn [data_map].
      apply elem_of_cons in Hx as [->|Hx]; [by rewrite Hin|]. destruct (in_run (cluster_start v y) _ k); [done|]. by apply IH.
Qed.

(** Chains with no cluster in common have no sector in common. *)
Lemma chain_sectors_disjoint v l l' k :
  (forall x, x ∈ l -> x ∉ l') -> k ∈ chain_sectors v l -> k ∉ chain_sectors v l'.
Proof.
  intros Hd Hk Hk'. apply elem_of_chain_sectors in Hk as (x & Hx & Hin), Hk' as (y & Hy & Hin').
  pose proof (clusters_disjoint _ _ _ _ Hin Hin') as ->. by apply (Hd y).
Qed.

Lemma chain_sectors_super v w l : fs_super w = fs_super v -> chain_sectors w l = chain_sectors v l.
Proof.
  intros Hsb. unfold chain_sectors. f_equal. apply map_ext. intros x. unfold cluster_sectors, cluster_start. by rewrite Hsb.
Qed.

(** Creating: refused without any change, or the file is in a slot that was
    free, on clusters that were free, with the given contents, and no other
    entry or file has changed. *)
Lemma fs_create_file_raw_ok v ch e name content size p r w :
  fs_wf v ch -> env_ok e -> 0 <= size <= alen content -> size + 4095 < 2 ^ 32 ->
  fs_create_file_raw e v name content size p = (r, w) ->
  if bool_decide (r = E_OK) then
    exists i l, fs_wf w (set_chain ch i l) /\ changed_entry v w ch (set_chain ch i l) i /\
      is_used (entry v i) = 0 /\ no_entry v p name /\ fs_dir_exists v p = true /\ is_entry w p name i /\
      file_type (entry w i) = FT_REGULAR /\ file_size (entry w i) = size /\
      owner_uid (entry w i) = cur_uid e /\ owner_gid (entry w i) = cur_gid e /\ mode (entry w i) = FS_MODE_DEFAULT_FILE /\
      contents w (set_chain ch i l) i = take (Z.to_nat size) content
  else w = v /\ (create_refused v name p r \/ r = E_NOSPC /\
    alen (free_in (file_allocation_table v) FS_FIRST_DATA_CLUSTER (fs_total_clusters v)) < clusters_for size).
Proof.
  intros Hwf He Hsz H32. unfold fs_create_file_raw. rewrite (wf_mounted _ _ Hwf). cbn [negb].
  destruct (Z.leb_spec MAX_FILENAME (ft_strlen name)) as [|Hn]; [refuse|].
  destruct (fs_dir_exists v p) eqn:Hp; cbn [negb]; [|refuse].
  destruct (last_match_spec v ch p name Hwf) as [[-> Hno]|Hent].
  2: { destruct (Z.eqb_spec (last_match v p name) (-1)) as [Heq|]; [destruct Hent as [? _]; lia|]. refuse. }
  rewrite Z.eqb_refl. cbn [negb].
  destruct (free_slot_spec v) as [[-> ?]|[Hi Hfree]]; [refuse|].
  destruct (Z.eqb_spec (free_slot v) (-1)); [lia|]. set (i := free_slot v) in *.
  pose proof (wf_geo _ _ Hwf) as Hg. pose proof (wf_dir _ _ Hwf) as Hd. pose proof (wf_chains _ _ Hwf) as Hc.
  rewrite (g_cluster_sectors _ _ (geo_super _ Hg)). change (512 * FS_CLUSTER_SECTORS) with 4096.
  assert ((if size =? 0 then 1 else u32 (size + 4096 - 1) / 4096) = clusters_for size) as ->.
  { unfold clusters_for. destruct (size =? 0); [done|]. rewrite u32_small by lia. f_equal. lia. }
  destruct (clusters_for_fits size ltac:(lia)) as [Hcf Hfit].
  destruct (allocate_fat_chain v (clusters_for size)) as [c v1] eqn:Ha.
  pose proof (allocate_ok v ch _ _ _ Hwf Hcf Ha) as Hal. destruct (Z.eqb_spec c FAT_FREE) as [->|Hnf].
  { rewrite bool_decide_eq_true_2 in Hal by done. destruct Hal as [-> Hfull]. intros [= <- <-].
    rewrite bool_decide_eq_false_2 by done. auto. }
  rewrite bool_decide_eq_false_2 in Hal by done.
  destruct Hal as (l & Hl & Hcr & Hch & Hlfree & Hframe & Hlen & Hs1 & Hg1 & Hdk1 & Hk1).
  pose proof (same_fields _ _ Hs1) as (Hps1 & Hms1 & Htc1 & Hme1 & Hmt1 & Hsb1 & Hdt1 & _). cbn in *.
  rewrite <- Hl, <- Htc1 in *.
  destruct (write_data_ok v1 content size l c Hg1 Hdk1 Hsz Hfit Hch) as (Hs2 & Hg2 & Hdk2 & Hfb & Hout2).
  set (v2 := write_data v1 content size (alen l) c) in *.
  pose proof (same_fields _ _ Hs2) as (Hps2 & Hms2 & Htc2 & Hme2 & Hmt2 & Hsb2 & Hdt2 & Hft2).
  assert (entry v2 i = entry v i) as -> by (unfold entry; by rewrite Hdt2, Hdt1). rewrite Htc1 in *.
  destruct (new_entry_ok v ch e p name size c FS_MODE_DEFAULT_FILE FT_REGULAR i Hwf He Hp Hno Hn Hi Hfree)
    as (Hd' & Hty & Hname & Hi16); [unfold is_u32; lia|by right|done|].
  set (d := mk_entry _ _ _ _ _ _ _ _ _ _ _ _) in *. intros [= <- <-]. rewrite bool_decide_eq_true_2 by done.
  destruct (update_dir_disk v2 (dir_table v2).[i <- d] Hg2 Hdk2) as (Hs3 & Hg3 & Hdk3 & Hk3).
  fold (set_entry v2 i d) in Hs3, Hg3, Hdk3, Hk3. set (w := save_directory_to_disk (set_entry v2 i d)) in *.
  pose proof (same_fields _ _ Hs3) as (Hps3 & Hms3 & Htc3 & Hme3 & Hmt3 & Hsb3 & Hdt3 & Hft3). cbn in *.
  assert (l <> []) as Hlne by (intros ->; unfold alen in Hcf; simpl in Hcf; lia).
  assert (chains_wf (dir_table v).[i <- d] (fs_max_entries v) (file_allocation_table v1) (fs_total_clusters v) (set_chain ch i l)) as Hc'.
  { destruct (regions _ Hg) as (_ & _ & _ & _ & _ & _ & _ & Htc).
    apply (chains_create _ _ (file_allocation_table v)); try done. lia. }
  assert (fs_super w = fs_super v) as Hsbw by (by rewrite Hsb3, Hsb2, Hsb1).
  assert (is_chain (fs_total_clusters v2) (file_allocation_table v2) c l) as Hch2 by (by rewrite Htc2, Hft2).
  pose proof (dw_len _ _ _ Hd) as Hdl.
  assert (entry w i = d) as Hewi by (unfold entry; rewrite Hdt3, Hdt2, Hdt1; apply aget_aset_eq; lia).
  exists i, l. split; [|split].
  - constructor; rewrite ?Hms3, ?Hms2, ?Hms1, ?Htc3, ?Htc2, ?Htc1, ?Hme3, ?Hme2, ?Hme1, ?Hmt3, ?Hmt2, ?Hmt1, ?Hsbw,
      ?Hdt3, ?Hdt2, ?Hdt1, ?Hft3, ?Hft2; try done; apply Hwf.
  - constructor; [done|by rewrite Hme3, Hme2, Hme1|by rewrite Htc3, ?Htc2, ?Htc1| |].
    + intros j Hj Hji. unfold entry. rewrite Hdt3, Hdt2, Hdt1. apply aget_aset_ne; lia.
    + intros j Hj Hji Hr. unfold contents, entry, set_chain. rewrite Hdt3, Hdt2, Hdt1, aget_aset_ne by lia.
      destruct (Z.eqb_spec i j); [done|]. destruct (cw_chain _ _ _ _ _ Hc j Hj Hr) as (Hchj & _).
      unfold file_bytes. f_equal. apply chain_data_ext; [done|]. intros k Hk.
      pose proof (chain_sectors_range _ _ _ _ Hg Hchj Hk) as Hkr. pose proof (regions _ Hg) as Hreg.
      rewrite Hk3 by (rewrite Hsb2, Hsb1, Hms2, Hms1; done). rewrite Hout2, Hk1; [done|done|rewrite Hms1; lia|].
      rewrite (chain_sectors_super v v1) by done. apply (chain_sectors_disjoint _ (ch j)); [|done].
      intros x Hx Hxl. by apply (chain_in_use _ _ _ _ _ Hchj Hx), Hlfree.
  - rewrite Hewi. split; [done|]. split; [done|]. split; [done|]. split.
    + split; [rewrite Hme3, Hme2, Hme1; lia|]. unfold used. fold (entry w i). rewrite Hewi. done.
    + repeat (split; [done|]). unfold contents, set_chain. rewrite Hewi, Z.eqb_refl. cbn. rewrite <- Hfb.
      by apply (file_bytes_kept _ _ _ _ _ Hg2 Hch2).
Qed.

End ops.
End VfsOps.
