(* ===== verification/VfsSpec.v ===== *)
(** * The file system refines a tree of named files

    The specification: a finite map from ids to nodes, each with a parent, a
    name, an owner, permission bits and, for a file, its bytes.  [tree_step]
    says what each call may answer and what it does to that map, refusals
    included.  The calls of Vfs.v on a sound file system are steps of it. *)

From S2P Require Import Prelude CStr Fat FsFormat BlockStore Vfs VfsDisk VfsData VfsInv VfsOps.
Import Fat FsFormat BlockStore Vfs VfsDisk VfsData VfsInv VfsOps.

Module VfsSpec.

(** ** The specification *)

Inductive kind : Type :=
| Directory
| Regular (data : list Z).

Record node : Type := mk_node {
  nd_parent : Z;
  nd_name : list Z;
  nd_kind : kind;
  nd_uid : Z;
  nd_gid : Z;
  nd_mode : Z
}.

Notation tree := (gmap Z node).

Inductive fs_call : Type :=
| Create (name content : list Z) (size p : Z)
| Mkdir (name : list Z) (p : Z)
| Delete (name : list Z) (p : Z)
| Rename (old name : list Z) (p : Z)
| Chmod (id m : Z)
| Chown (id uid gid : Z).

Definition named (A : tree) (p : Z) (name : list Z) (i : Z) : Prop :=
  exists n, A !! i = Some n /\ nd_parent n = p /\ nd_name n = cstr name.
Definition free_name (A : tree) (p : Z) (name : list Z) : Prop := forall i, ~ named A p name i.
Definition is_dir (A : tree) (p : Z) : Prop := p = 0 \/ exists n, A !! p = Some n /\ nd_kind n = Directory.

(** What a file system can hold: [max_nodes - 1] nodes, with ids below
    [max_nodes], and [max_clusters] clusters of file data. *)
Record limits : Type := mk_limits { max_nodes : Z; max_clusters : Z }.

Definition node_clusters (n : node) : Z := match nd_kind n with Directory => 0 | Regular d => clusters_for (alen d) end.
Definition clusters_used (A : tree) : Z := map_fold (fun _ n acc => node_clusters n + acc) 0 A.

(** Why a call may be refused: each error with its one cause. *)
Inductive refusal (L : limits) (e : env) (A : tree) : fs_call -> Z -> Prop :=
| rf_immutable c : immutable e -> (match c with Create _ _ _ _ => False | _ => True end) -> refusal L e A c E_ROFS
| rf_create_name n c s p : MAX_FILENAME <= alen (cstr n) -> refusal L e A (Create n c s p) E_INVAL
| rf_mkdir_name n p : MAX_FILENAME <= alen (cstr n) -> refusal L e A (Mkdir n p) E_INVAL
| rf_rename_name o n p : MAX_FILENAME <= alen (cstr n) -> refusal L e A (Rename o n p) E_INVAL
| rf_create_parent n c s p : ~ is_dir A p -> refusal L e A (Create n c s p) E_NOENT
| rf_mkdir_parent n p : ~ is_dir A p -> refusal L e A (Mkdir n p) E_NOENT
| rf_create_exists n c s p i : named A p n i -> refusal L e A (Create n c s p) E_EXIST
| rf_mkdir_exists n p i : named A p n i -> refusal L e A (Mkdir n p) E_EXIST
| rf_rename_exists o n p i : named A p n i -> refusal L e A (Rename o n p) E_EXIST
| rf_delete_missing n p : free_name A p n -> refusal L e A (Delete n p) E_NOENT
| rf_rename_missing o n p : free_name A p o -> refusal L e A (Rename o n p) E_NOENT
| rf_chmod_missing id m : A !! id = None -> refusal L e A (Chmod id m) E_NOENT
| rf_chown_missing id u g : A !! id = None -> refusal L e A (Chown id u g) E_NOENT
| rf_delete_children n p i c m : named A p n i -> A !! c = Some m -> nd_parent m = i -> refusal L e A (Delete n p) E_NOTEMPTY
| rf_create_slots n c s p : (forall i, 0 < i < max_nodes L -> A !! i <> None) -> refusal L e A (Create n c s p) E_NFILE
| rf_mkdir_slots n p : (forall i, 0 < i < max_nodes L -> A !! i <> None) -> refusal L e A (Mkdir n p) E_NFILE
| rf_create_space n c s p : max_clusters L < clusters_used A + clusters_for s -> refusal L e A (Create n c s p) E_NOSPC.

Inductive tree_step (L : limits) (e : env) (A : tree) : fs_call -> Z -> tree -> Prop :=
| ts_refused c r : refusal L e A c r -> tree_step L e A c r A
| ts_create name content size p i :
    0 < i < max_nodes L -> A !! i = None -> is_dir A p -> free_name A p name ->
    tree_step L e A (Create name content size p) E_OK
      (<[i := mk_node p (cstr name) (Regular (take (Z.to_nat size) content)) (cur_uid e) (cur_gid e) FS_MODE_DEFAULT_FILE]> A)
| ts_mkdir name p i :
    0 < i < max_nodes L -> A !! i = None -> is_dir A p -> free_name A p name ->
    tree_step L e A (Mkdir name p) E_OK
      (<[i := mk_node p (cstr name) Directory (cur_uid e) (cur_gid e) FS_MODE_DEFAULT_DIR]> A)
| ts_delete name p i :
    named A p name i -> (forall c m, A !! c = Some m -> nd_parent m <> i) ->
    tree_step L e A (Delete name p) E_OK (delete i A)
| ts_rename old name p i n :
    named A p old i -> A !! i = Some n -> free_name A p name ->
    tree_step L e A (Rename old name p) E_OK
      (<[i := mk_node p (cstr name) (nd_kind n) (nd_uid n) (nd_gid n) (nd_mode n)]> A)
| ts_chmod id m n :
    A !! id = Some n ->
    tree_step L e A (Chmod id m) E_OK
      (<[id := mk_node (nd_parent n) (nd_name n) (nd_kind n) (nd_uid n) (nd_gid n) (Z.land m FS_MODE_PERM_MASK)]> A)
| ts_chown id uid gid n :
    A !! id = Some n ->
    tree_step L e A (Chown id uid gid) E_OK
      (<[id := mk_node (nd_parent n) (nd_name n) (nd_kind n) uid gid (nd_mode n)]> A).

Inductive tree_steps (L : limits) : tree -> list (env * fs_call) -> list Z -> tree -> Prop :=
| tss_nil A : tree_steps L A [] [] A
| tss_cons e c cs r rs A A' A'' : tree_step L e A c r A' -> tree_steps L A' cs rs A'' ->
    tree_steps L A ((e, c) :: cs) (r :: rs) A''.

(** ** The refinement *)

Lemma elem_of_list_join_map {A B} (f : A -> list B) (l : list A) x : x ∈ concat (map f l) <-> exists i, i ∈ l /\ x ∈ f i.
Proof.
  induction l as [|a l IH]; cbn.
  - rewrite elem_of_nil. split; [done|]. intros (i & Hi & _). by apply elem_of_nil in Hi.
  - rewrite elem_of_app, IH. set_solver.
Qed.

Lemma NoDup_concat_map {A B} (f : A -> list B) (l : list A) :
  NoDup l -> (forall i, i ∈ l -> NoDup (f i)) -> (forall i j x, i ∈ l -> j ∈ l -> x ∈ f i -> x ∈ f j -> i = j) ->
  NoDup (concat (map f l)).
Proof.
  induction l as [|a l IH]; cbn; intros Hnd Hf Hd; [apply NoDup_nil_2|]. apply NoDup_cons in Hnd as [Ha Hnd].
  apply NoDup_app. split; [apply Hf; by left|]. split.
  - intros x Hx (i & Hi & Hxi)%elem_of_list_join_map. apply Ha.
    rewrite (Hd a i x); [done|by left|by right|done|done].
  - apply IH; [done|intros; apply Hf; by right|]. intros i j x Hi Hj. apply Hd; by right.
Qed.

Section refinement.
Context {S : Type} {bs : BlockStore S} {laws : StoreLaws S} {rel : StoreReliable S}.
Implicit Types v w : vfs S.

Definition run_call (e : env) (v : vfs S) (c : fs_call) : Z * vfs S :=
  match c with
  | Create name content size p => fs_create_file_raw e v name content size p
  | Mkdir name p => fs_mkdir e v name p
  | Delete name p => fs_delete e v name p
  | Rename old name p => fs_rename e v old name p
  | Chmod id m => fs_chmod e v id m
  | Chown id uid gid => fs_chown e v id uid gid
  end.

Fixpoint run_calls (v : vfs S) (cs : list (env * fs_call)) : list Z * vfs S :=
  match cs with
  | [] => ([], v)
  | (e, c) :: cs =>
      let '(r, v) := run_call e v c in
      let '(rs, v) := run_calls v cs in (r :: rs, v)
  end.

(** The arguments fit their types: in particular a size does not exceed the
    buffer it is about. *)
Definition call_ok (ec : env * fs_call) : Prop :=
  env_ok ec.1 /\
  match ec.2 with
  | Create _ content size p => 0 <= size <= alen content /\ size + 4095 < 2 ^ 32 /\ 0 <= p
  | Mkdir _ p | Delete _ p | Rename _ _ p => 0 <= p
  | Chmod _ m => 0 <= m
  | Chown _ uid gid => is_u32 uid /\ is_u32 gid
  end.

Definition node_of (v : vfs S) (ch : Z -> list Z) (i : Z) : node :=
  let d := entry v i in
  mk_node (parent_id d) (name_of d) (if file_type d =? FT_DIR then Directory else Regular (contents v ch i))
    (owner_uid d) (owner_gid d) (mode d).

(** The tree a file system holds. *)
Definition abs (v : vfs S) (ch : Z -> list Z) : tree :=
  foldr (fun i A => if is_used (entry v i) =? 1 then <[i := node_of v ch i]> A else A) ∅ (seqZ 0 (fs_max_entries v)).

Definition limits_of (v : vfs S) : limits :=
  mk_limits (fs_max_entries v) (Z.max 0 (fs_total_clusters v - FS_FIRST_DATA_CLUSTER)).

Lemma lookup_abs v ch i :
  abs v ch !! i = if bool_decide (0 <= i < fs_max_entries v /\ used (dir_table v) i) then Some (node_of v ch i) else None.
Proof.
  unfold abs. assert (forall l, foldr (fun i A => if is_used (entry v i) =? 1 then <[i := node_of v ch i]> A else A) (∅ : tree) l !! i =
    if bool_decide (i ∈ l /\ used (dir_table v) i) then Some (node_of v ch i) else None) as Hl.
  { induction l as [|j l IH]; cbn [foldr].
    { case_bool_decide as Hb; [|done]. destruct Hb as [Hb _]. by apply elem_of_nil in Hb. }
    unfold used, entry in *. destruct (Z.eqb_spec (is_used (dir_table v).[j]) 1) as [Hu|Hu].
    - destruct (Z.eq_dec j i) as [->|Hne].
      + rewrite lookup_insert_eq, bool_decide_eq_true_2; [done|]. split; [by left|done].
      + rewrite lookup_insert_ne, IH by done. repeat case_bool_decide; try done; set_solver.
    - rewrite IH. repeat case_bool_decide; try done; set_solver. }
  rewrite Hl. repeat case_bool_decide; try done; rewrite elem_of_seqZ in *; lia || tauto.
Qed.

Lemma abs_Some v ch i n :
  abs v ch !! i = Some n <-> 0 <= i < fs_max_entries v /\ used (dir_table v) i /\ n = node_of v ch i.
Proof.
  rewrite lookup_abs. case_bool_decide as Hb; split.
  - intros Hx. simplify_eq. tauto.
  - intros (_ & _ & ->). done.
  - done.
  - tauto.
Qed.

Lemma abs_None v ch i : abs v ch !! i = None <-> ~ (0 <= i < fs_max_entries v /\ used (dir_table v) i).
Proof. rewrite lookup_abs. case_bool_decide; split; intros Hx; done. Qed.

Lemma abs_named v ch p name i : named (abs v ch) p name i <-> is_entry v p name i.
Proof.
  unfold named, is_entry. split.
  - intros (n & Hn & Hp & Hnm). apply abs_Some in Hn as (? & ? & ->). done.
  - intros (? & ? & ? & ?). exists (node_of v ch i). split; [by apply abs_Some|done].
Qed.

Lemma abs_free_name v ch p name : free_name (abs v ch) p name <-> no_entry v p name.
Proof. unfold free_name, no_entry. split; intros Hf i Hi; apply (Hf i); by apply (abs_named v ch). Qed.

Lemma abs_is_dir v ch p : fs_wf v ch -> 0 <= p -> is_dir (abs v ch) p <-> fs_dir_exists v p = true.
Proof.
  intros Hwf Hp. rewrite (fs_dir_exists_spec v ch) by done. pose proof (wf_dir _ _ Hwf) as Hd. split.
  - intros [->|(n & Hn & Hk)]; [apply rr_root|]. apply abs_Some in Hn as (Hr & Hu & ->).
    assert (is_used (dir_table v).[p] <> 0) as Hu0 by (unfold used in Hu; lia).
    destruct (dw_tree _ _ _ Hd p Hr Hu0) as (Hid & Hty & _ & Hpar).
    pose proof (used_slot_pos v ch p Hwf Hr Hu). unfold node_of, entry in Hk. cbn in Hk.
    destruct (Z.eqb_spec (file_type (dir_table v).[p]) FT_DIR); [|done]. apply rr_step; try done. lia.
  - intros Hr. inversion Hr as [|c Hc Hcr Hu Hid Hty Hpr]; subst; [by left|]. right.
    exists (node_of v ch p). split; [apply abs_Some; split; [done|split; [by apply (used_nonzero _ _ _ _ Hd)|done]]|].
    unfold node_of, entry. cbn. by rewrite Hty.
Qed.

Lemma abs_others v w ch ch' i j :
  fs_wf v ch -> changed_entry v w ch ch' i -> j <> i -> abs w ch' !! j = abs v ch !! j.
Proof.
  intros Hwf [Hi Hme _ Hoth Hcont] Hne. rewrite !lookup_abs, Hme.
  destruct (decide (0 <= j < fs_max_entries v)) as [Hj|Hj].
  2: { rewrite !bool_decide_eq_false_2 by tauto. done. }
  specialize (Hoth j ltac:(lia) Hne). unfold entry in Hoth.
  assert (used (dir_table w) j <-> used (dir_table v) j) as Hiff by (unfold used; by rewrite Hoth).
  repeat case_bool_decide; try tauto. f_equal. unfold node_of, entry. rewrite Hoth. f_equal.
  destruct (Z.eqb_spec (file_type (dir_table v).[j]) FT_DIR); [done|]. f_equal. apply Hcont; [done|done|].
  split; [tauto|]. assert (is_used (dir_table v).[j] <> 0) as Hu by (unfold used in *; lia).
  destruct (dw_tree _ _ _ (wf_dir _ _ Hwf) j Hj Hu) as (_ & [?|?] & _); done.
Qed.

Lemma abs_insert v w ch ch' i :
  fs_wf v ch -> changed_entry v w ch ch' i -> used (dir_table w) i ->
  abs w ch' = <[i := node_of w ch' i]> (abs v ch).
Proof.
  intros Hwf Hch Hu. apply map_eq. intros j. destruct (Z.eq_dec i j) as [<-|Hne].
  - rewrite lookup_insert_eq. apply abs_Some. destruct Hch as [Hi Hme _ _ _]. rewrite Hme. split; [lia|done].
  - rewrite lookup_insert_ne by done. by apply (abs_others v w ch ch' i).
Qed.

Lemma abs_delete v w ch ch' i :
  fs_wf v ch -> changed_entry v w ch ch' i -> ~ used (dir_table w) i -> abs w ch' = delete i (abs v ch).
Proof.
  intros Hwf Hch Hu. apply map_eq. intros j. destruct (Z.eq_dec i j) as [<-|Hne].
  - rewrite lookup_delete_eq. apply abs_None. tauto.
  - rewrite lookup_delete_ne by done. by apply (abs_others v w ch ch' i).
Qed.

(** ** Storage accounting *)

Definition owned (v : vfs S) (ch : Z -> list Z) (i : Z) : list Z :=
  if bool_decide (regular (dir_table v) i) then ch i else [].

Lemma alen_contents v ch i :
  fs_wf v ch -> 0 <= i < fs_max_entries v -> regular (dir_table v) i -> alen (contents v ch i) = file_size (entry v i).
Proof.
  intros Hwf Hi Hr. destruct (cw_chain _ _ _ _ _ (wf_chains _ _ Hwf) i Hi Hr) as (Hch & _ & Hlen).
  pose proof (et_size _ (dw_typed _ _ _ (wf_dir _ _ Hwf) i Hi)) as Hs.
  assert (0 <= file_size (dir_table v).[i]) as Hs0 by apply Hs.
  destruct (clusters_for_fits _ Hs0) as [_ Hf].
  unfold contents, file_bytes, entry, alen. rewrite length_take.
  pose proof (alen_chain_data v (ch i)) as Hd. unfold alen in *. rewrite Nat2Z.inj_min. rewrite Hd; [lia|].
  intros k Hk. apply (dk_512 _ (wf_disk _ _ Hwf)). by apply (chain_sectors_range _ _ _ _ (wf_geo _ _ Hwf) Hch).
Qed.

Lemma clusters_used_abs v ch :
  fs_wf v ch -> clusters_used (abs v ch) = alen (concat (map (owned v ch) (seqZ 0 (fs_max_entries v)))).
Proof.
  intros Hwf. unfold abs, clusters_used.
  assert (Forall (fun i => 0 <= i < fs_max_entries v) (seqZ 0 (fs_max_entries v))) as Hr
    by (apply Forall_forall; intros i Hi%elem_of_seqZ; lia).
  pose proof (NoDup_seqZ 0 (fs_max_entries v)) as Hnd. revert Hr Hnd.
  generalize (seqZ 0 (fs_max_entries v)). induction l as [|i l IH]; intros Hr Hnd; [done|].
  apply Forall_cons in Hr as [Hi Hr]. apply NoDup_cons in Hnd as [Hni Hnd]. specialize (IH Hr Hnd). cbn [foldr map concat].
  rewrite alen_app. rewrite <- IH. unfold owned, regular, used, entry.
  destruct (Z.eqb_spec (is_used (dir_table v).[i]) 1) as [Hu|Hu]; [|rewrite bool_decide_eq_false_2 by tauto; done].
  rewrite map_fold_insert_L; [|intros; lia|].
  - f_equal. unfold node_clusters, node_of, entry. cbn.
    assert (is_used (dir_table v).[i] <> 0) as Hu0 by lia.
    destruct (dw_tree _ _ _ (wf_dir _ _ Hwf) i Hi Hu0) as (_ & Hty & _).
    destruct (Z.eqb_spec (file_type (dir_table v).[i]) FT_DIR) as [Hd|Hd].
    + rewrite bool_decide_eq_false_2; [done|]. intros [_ Hr']. by rewrite Hr' in Hd.
    + assert (regular (dir_table v) i) as Hreg by (split; [done|by destruct Hty]).
      rewrite bool_decide_eq_true_2 by exact Hreg. rewrite alen_contents by done.
      by destruct (cw_chain _ _ _ _ _ (wf_chains _ _ Hwf) i Hi Hreg) as (_ & _ & ->).
  - fold (entry v i). clear IH Hnd Hr. induction l as [|j l IHl]; [done|]. cbn [foldr].
    apply not_elem_of_cons in Hni as [? ?]. case_bool; [rewrite lookup_insert_ne by done|]; by apply IHl.
Qed.

(** Every data cluster is free or belongs to exactly one file. *)
Lemma clusters_accounted v ch :
  fs_wf v ch ->
  alen (free_in (file_allocation_table v) FS_FIRST_DATA_CLUSTER (fs_total_clusters v)) + clusters_used (abs v ch) =
  max_clusters (limits_of v).
Proof.
  intros Hwf. rewrite (clusters_used_abs v ch Hwf), <- alen_app.
  pose proof (wf_chains _ _ Hwf) as Hc. pose proof (wf_geo _ _ Hwf) as Hg.
  destruct (regions _ Hg) as (_ & _ & _ & _ & _ & _ & _ & Hcap).
  set (T := fs_total_clusters v) in *. set (own := concat _).
  assert (forall x, x ∈ own <-> exists i, 0 <= i < fs_max_entries v /\ regular (dir_table v) i /\ x ∈ ch i) as Hown.
  { intros x. unfold own. rewrite elem_of_list_join_map. split.
    - intros (i & Hi%elem_of_seqZ & Hx). unfold owned in Hx. case_bool_decide; [|by apply elem_of_nil in Hx].
      exists i. split; [lia|done].
    - intros (i & Hi & Hr & Hx). exists i. split; [apply elem_of_seqZ; lia|]. unfold owned. by rewrite bool_decide_eq_true_2. }
  assert (free_in (file_allocation_table v) FS_FIRST_DATA_CLUSTER T ++ own ≡ₚ seqZ FS_FIRST_DATA_CLUSTER (T - FS_FIRST_DATA_CLUSTER)) as Hp.
  { apply NoDup_Permutation; [|apply NoDup_seqZ|].
    - apply NoDup_app. split; [apply NoDup_free_in|]. split.
      + intros x Hx Ho. apply elem_of_free_in in Hx as [_ Hx]. apply Hown in Ho as (i & Hi & Hr & Hin).
        destruct (cw_chain _ _ _ _ _ Hc i Hi Hr) as (Hch & _). by apply (chain_in_use _ _ _ _ _ Hch Hin).
      + apply NoDup_concat_map; [apply NoDup_seqZ| |].
        * intros i Hi%elem_of_seqZ. unfold owned. case_bool_decide as Hr; [|apply NoDup_nil_2].
          destruct (cw_chain _ _ _ _ _ Hc i ltac:(lia) Hr) as (Hch & _). apply (chain_NoDup _ _ _ _ (proj2 Hcap) Hch).
        * intros i j x Hi%elem_of_seqZ Hj%elem_of_seqZ. unfold owned.
          repeat case_bool_decide; rewrite ?elem_of_nil; try done. apply (cw_disjoint _ _ _ _ _ Hc); done || lia.
    - intros x. rewrite elem_of_app, elem_of_free_in, Hown, elem_of_seqZ. split.
      + intros [[Hx _]|(i & Hi & Hr & Hx)]; [lia|]. destruct (cw_chain _ _ _ _ _ Hc i Hi Hr) as (Hch & _).
        pose proof (chain_range _ _ _ _ _ Hch Hx). lia.
      + intros Hx. destruct (Z.eq_dec (file_allocation_table v).[x] FAT_FREE); [left; split; [lia|done]|].
        right. apply (cw_noleak _ _ _ _ _ Hc); [lia|done]. }
  apply Permutation_length in Hp. unfold alen. rewrite Hp, length_seqZ. cbn. lia.
Qed.

(** ** Each call is a step of the specification *)

Definition simulates (e : env) (v : vfs S) (ch : Z -> list Z) (c : fs_call) (r : Z) (w : vfs S) : Prop :=
  exists ch', fs_wf w ch' /\ limits_of w = limits_of v /\ tree_step (limits_of v) e (abs v ch) c r (abs w ch').

Lemma simulates_refused e v ch c r : fs_wf v ch -> refusal (limits_of v) e (abs v ch) c r -> simulates e v ch c r v.
Proof. intros. exists ch. split; [done|]. split; [done|]. by apply ts_refused. Qed.

Lemma simulates_insert e v w ch ch' c r i n :
  fs_wf v ch -> fs_wf w ch' -> changed_entry v w ch ch' i -> used (dir_table w) i -> node_of w ch' i = n ->
  tree_step (limits_of v) e (abs v ch) c r (<[i := n]> (abs v ch)) -> simulates e v ch c r w.
Proof.
  intros Hwf Hwf' Hce Hu <- Hst. exists ch'. split; [done|]. split; [|by rewrite (abs_insert v w ch ch' i)].
  unfold limits_of. by rewrite (ce_max _ _ _ _ _ Hce), (ce_clusters _ _ _ _ _ Hce).
Qed.

Lemma simulates_delete e v w ch ch' c r i :
  fs_wf v ch -> fs_wf w ch' -> changed_entry v w ch ch' i -> is_used (entry w i) = 0 ->
  tree_step (limits_of v) e (abs v ch) c r (delete i (abs v ch)) -> simulates e v ch c r w.
Proof.
  intros Hwf Hwf' Hce Hu Hst. exists ch'. split; [done|]. split.
  - unfold limits_of. by rewrite (ce_max _ _ _ _ _ Hce), (ce_clusters _ _ _ _ _ Hce).
  - rewrite (abs_delete v w ch ch' i); [done..|]. unfold used. fold (entry w i). by rewrite Hu.
Qed.

(** An entry that is used is a file or a directory. *)
Lemma used_type v ch i : fs_wf v ch -> 0 <= i < fs_max_entries v -> used (dir_table v) i ->
  entry_id (entry v i) = i /\ (file_type (entry v i) = FT_DIR \/ file_type (entry v i) <> FT_DIR /\ regular (dir_table v) i).
Proof.
  intros Hwf Hi Hu. assert (is_used (dir_table v).[i] <> 0) as Hu0 by (unfold used in Hu; lia).
  destruct (dw_tree _ _ _ (wf_dir _ _ Hwf) i Hi Hu0) as (Hid & Hty & _). split; [done|].
  destruct Hty as [Hr|Hd]; [right|by left]. split; [unfold entry; rewrite Hr; done|]. by split.
Qed.

(** The kind of a node whose type and contents a call leaves alone. *)
Lemma kind_kept v w ch i :
  fs_wf v ch -> 0 <= i < fs_max_entries v -> used (dir_table v) i -> file_type (entry w i) = file_type (entry v i) ->
  (regular (dir_table v) i -> contents w ch i = contents v ch i) ->
  nd_kind (node_of w ch i) = nd_kind (node_of v ch i).
Proof.
  intros Hwf Hi Hu Hty Hc. unfold node_of. cbn. rewrite Hty.
  destruct (used_type v ch i Hwf Hi Hu) as (_ & [->|[Hne Hr]]); [done|].
  destruct (Z.eqb_spec (file_type (entry v i)) FT_DIR); [done|]. by rewrite Hc.
Qed.

Lemma abs_full v ch : (forall i, 0 < i < fs_max_entries v -> is_used (entry v i) <> 0) -> fs_wf v ch ->
  forall i, 0 < i < max_nodes (limits_of v) -> abs v ch !! i <> None.
Proof.
  intros Hf Hwf i Hi Hn. cbn in Hi. apply abs_None in Hn. apply Hn. split; [lia|].
  apply (used_nonzero _ _ _ i (wf_dir _ _ Hwf)); [lia|by apply Hf].
Qed.

Lemma abs_unused v ch i : is_used (entry v i) = 0 -> abs v ch !! i = None.
Proof. intros Hu. apply abs_None. intros [_ Hui]. unfold used, entry in *. congruence. Qed.

Lemma create_refusal v ch e name p r c :
  fs_wf v ch -> 0 <= p -> (exists content size, c = Create name content size p) \/ c = Mkdir name p ->
  create_refused v name p r -> refusal (limits_of v) e (abs v ch) c r.
Proof.
  intros Hwf Hp Hc Hr.
  assert (fs_dir_exists v p = false -> ~ is_dir (abs v ch) p) as Hdir.
  { intros Hf Hd. apply (abs_is_dir v ch p Hwf Hp) in Hd. congruence. }
  destruct Hc as [(content & size & ->)| ->], Hr as [Hn|Hn|i Hn|Hn];
    try (rewrite ft_strlen_cstr in Hn; by constructor); try (constructor; by apply Hdir);
    try (econstructor; by apply (abs_named v ch)); constructor; by apply abs_full.
Qed.

Lemma create_simulates e v ch name content size p r w :
  fs_wf v ch -> env_ok e -> 0 <= size <= alen content -> size + 4095 < 2 ^ 32 -> 0 <= p ->
  fs_create_file_raw e v name content size p = (r, w) -> simulates e v ch (Create name content size p) r w.
Proof.
  intros Hwf He Hsz H32 Hp Hrun.
  pose proof (fs_create_file_raw_ok v ch e name content size p r w Hwf He Hsz H32 Hrun) as Hok. case_bool_decide as Hr.
  - subst r. destruct Hok as (i & l & Hwf' & Hce & Hfree & Hno & Hpd & Hent & Hty & _ & Hu & Hg & Hm & Hcont).
    destruct Hent as (Hi & Hus & Hpar & Hnm). eapply simulates_insert; try done.
    unfold node_of. rewrite Hty, Hu, Hg, Hm, Hcont, Hpar, Hnm. cbn.
    apply ts_create; [apply Hce|by apply abs_unused|by apply (abs_is_dir v ch)|by apply abs_free_name].
  - destruct Hok as [-> [Href|[-> Hfull]]]; apply simulates_refused; try done.
    + apply (create_refusal v ch e name p); try done. left. eauto.
    + constructor. pose proof (clusters_accounted v ch Hwf). lia.
Qed.

Lemma mkdir_simulates e v ch name p r w :
  fs_wf v ch -> env_ok e -> 0 <= p -> fs_mkdir e v name p = (r, w) -> simulates e v ch (Mkdir name p) r w.
Proof.
  intros Hwf He Hp Hrun. pose proof (fs_mkdir_ok v ch e name p r w Hwf He Hrun) as Hok. case_bool_decide as Hr.
  - subst r. destruct Hok as (Hwf' & _ & Hpd & Hno & i & Hfree & Hce & Hent & Hty & Hu & Hg & Hm).
    destruct Hent as (_ & Hus & Hpar & Hnm). eapply simulates_insert; try done.
    unfold node_of. rewrite Hty, Hu, Hg, Hm, Hpar, Hnm. cbn.
    apply ts_mkdir; [apply Hce|by apply abs_unused|by apply (abs_is_dir v ch)|by apply abs_free_name].
  - destruct Hok as [-> Href]. apply simulates_refused; [done|].
    destruct Href as [Href|[? ->]]; [|by constructor]. apply (create_refusal v ch e name p); try done. by right.
Qed.

Lemma delete_simulates e v ch name p r w :
  fs_wf v ch -> env_ok e -> fs_delete e v name p = (r, w) -> simulates e v ch (Delete name p) r w.
Proof.
  intros Hwf He Hrun. pose proof (fs_delete_ok v ch e name p r w Hwf He Hrun) as Hok. case_bool_decide as Hr.
  - subst r. destruct Hok as (Hwf' & _ & i & Hent & Hce & Hunused & Hdirs & _). eapply simulates_delete; try done.
    apply ts_delete; [by apply abs_named|]. intros c m Hc Hm. apply abs_Some in Hc as (Hcr & Hcu & ->). cbn in Hm.
    pose proof (ce_range _ _ _ _ _ Hce) as Hi. destruct Hent as (Hir & Hui & _).
    assert (is_used (dir_table v).[c] <> 0) as Hc0 by (unfold used in *; lia).
    destruct (used_type v ch i Hwf Hir Hui) as (_ & [Hdir|[_ Hreg]]); [by apply (Hdirs Hdir c)|].
    by apply (regular_no_child v ch i c Hwf Hi Hreg Hcr).
  - destruct Hok as [-> Href]. apply simulates_refused; [done|]. destruct Href as [?|Hm|i j Hent _ Hj Huj Hpj].
    + by constructor.
    + constructor. by apply abs_free_name.
    + apply (rf_delete_children _ _ _ _ _ i j (node_of v ch j)); [by apply abs_named|by apply abs_Some|done].
Qed.

Lemma rename_simulates e v ch old name p r w :
  fs_wf v ch -> env_ok e -> fs_rename e v old name p = (r, w) -> simulates e v ch (Rename old name p) r w.
Proof.
  intros Hwf He Hrun. pose proof (fs_rename_ok v ch e old name p r w Hwf He Hrun) as Hok. case_bool_decide as Hr.
  - subst r. destruct Hok as (Hwf' & i & Hold & Hno & Hce & Hent & Hty & Hu & Hg & Hm & Hcont).
    destruct Hent as (_ & Hus & Hpar & Hnm). pose proof Hold as (Hi & Hui & _).
    pose proof (kind_kept v w ch i Hwf Hi Hui Hty Hcont) as Hk.
    eapply (simulates_insert _ _ _ _ _ _ _ i (mk_node p (cstr name) (nd_kind (node_of v ch i)) _ _ _)); try done.
    { rewrite <- Hk. unfold node_of at 1. by rewrite Hu, Hg, Hm, Hpar, Hnm. }
    apply (ts_rename _ _ _ old _ _ i (node_of v ch i)); [by apply abs_named|by apply abs_Some|by apply abs_free_name].
  - destruct Hok as [-> Href]. apply simulates_refused; [done|]. destruct Href as [Hn|?|i Hent|Hm].
    + constructor. by rewrite <- ft_strlen_cstr.
    + by constructor.
    + apply (rf_rename_exists _ _ _ _ _ _ i). by apply abs_named.
    + constructor. by apply abs_free_name.
Qed.

Lemma no_slot v ch id :
  fs_wf v ch -> (forall i, 0 <= i < fs_max_entries v -> used (dir_table v) i -> entry_id (entry v i) <> id) ->
  abs v ch !! id = None.
Proof.
  intros Hwf Hm. apply abs_None. intros [Hid Hu]. apply (Hm id Hid Hu). by destruct (used_type v ch id Hwf Hid Hu).
Qed.

Lemma chmod_simulates e v ch id m r w :
  fs_wf v ch -> env_ok e -> fs_chmod e v id m = (r, w) -> simulates e v ch (Chmod id m) r w.
Proof.
  intros Hwf He Hrun. pose proof (fs_chmod_ok v ch e id m r w Hwf He Hrun) as Hok. case_bool_decide as Hr.
  - subst r. destruct Hok as (Hwf' & Hce & Huv & Huw & Hty & Hpar & Hg & Hm & Hfn & Hu & Hcont).
    assert (0 <= id < fs_max_entries v) as Hi by (pose proof (ce_range _ _ _ _ _ Hce); lia).
    pose proof (kind_kept v w ch id Hwf Hi Huv Hty Hcont) as Hk.
    assert (u16 (Z.land m FS_MODE_PERM_MASK) = Z.land m FS_MODE_PERM_MASK) as Hmask.
    { unfold u16. apply Z.mod_small. change FS_MODE_PERM_MASK with (Z.ones 12). rewrite Z.land_ones by lia.
      pose proof (Z.mod_pos_bound m (2 ^ 12) ltac:(lia)). lia. }
    eapply (simulates_insert _ _ _ _ _ _ _ id (mk_node _ _ (nd_kind (node_of v ch id)) _ _ _)); try done.
    { rewrite <- Hk. unfold node_of at 1, name_of. by rewrite Hu, Hg, Hm, Hpar, Hfn, Hmask. }
    apply (ts_chmod _ _ _ _ _ (node_of v ch id)). by apply abs_Some.
  - destruct Hok as [-> Href]. apply simulates_refused; [done|]. destruct Href as [?|Hm]; [by constructor|].
    constructor. by apply no_slot.
Qed.

Lemma chown_simulates e v ch id uid gid r w :
  fs_wf v ch -> env_ok e -> is_u32 uid -> is_u32 gid -> fs_chown e v id uid gid = (r, w) ->
  simulates e v ch (Chown id uid gid) r w.
Proof.
  intros Hwf He Huid Hgid Hrun. pose proof (fs_chown_ok v ch e id uid gid r w Hwf He Huid Hgid Hrun) as Hok.
  case_bool_decide as Hr.
  - subst r. destruct Hok as (Hwf' & Hce & Huv & Huw & Hty & Hpar & Hu & Hg & Hm & Hfn & Hcont).
    assert (0 <= id < fs_max_entries v) as Hi by (pose proof (ce_range _ _ _ _ _ Hce); lia).
    pose proof (kind_kept v w ch id Hwf Hi Huv Hty Hcont) as Hk.
    eapply (simulates_insert _ _ _ _ _ _ _ id (mk_node _ _ (nd_kind (node_of v ch id)) _ _ _)); try done.
    { rewrite <- Hk. unfold node_of at 1, name_of. by rewrite Hu, Hg, Hm, Hpar, Hfn. }
    apply (ts_chown _ _ _ _ _ _ (node_of v ch id)). by apply abs_Some.
  - destruct Hok as [-> Href]. apply simulates_refused; [done|]. destruct Href as [?|Hm]; [by constructor|].
    constructor. by apply no_slot.
Qed.

Lemma run_call_simulates e v ch c r w :
  fs_wf v ch -> call_ok (e, c) -> run_call e v c = (r, w) -> simulates e v ch c r w.
Proof.
  intros Hwf [He Hargs]. cbn in He. destruct c; cbn [run_call]; cbn in Hargs; try destruct_and? Hargs.
  - by apply create_simulates.
  - by apply mkdir_simulates.
  - by apply delete_simulates.
  - by apply rename_simulates.
  - by apply chmod_simulates.
  - by apply chown_simulates.
Qed.

Lemma run_calls_simulates cs : forall v ch rs w,
  fs_wf v ch -> Forall call_ok cs -> run_calls v cs = (rs, w) ->
  exists ch', fs_wf w ch' /\ tree_steps (limits_of v) (abs v ch) cs rs (abs w ch').
Proof.
  induction cs as [|[e c] cs IH]; intros v ch rs w Hwf Hcs; cbn [run_calls].
  { intros [= <- <-]. exists ch. split; [done|constructor]. }
  apply Forall_cons in Hcs as [Hc Hcs]. destruct (run_call e v c) as [r v1] eqn:H1. destruct (run_calls v1 cs) as [rs1 v2] eqn:H2.
  intros [= <- <-]. destruct (run_call_simulates e v ch c r v1 Hwf Hc H1) as (ch1 & Hwf1 & Hl & Hst).
  destruct (IH v1 ch1 rs1 v2 Hwf1 Hcs H2) as (ch2 & Hwf2 & Hsts). exists ch2. split; [done|].
  rewrite Hl in Hsts. by apply (tss_cons _ _ _ _ _ _ _ (abs v1 ch1)).
Qed.

End refinement.
End VfsSpec.
