(* ===== verification/VfsMount.v ===== *)
(** * Mounting: what a mount reads back, and a new disk

    [load_tables] on a disk that holds a sound file system brings back its
    tables, so a mount after a flush gives the same tree ([remount_ok]).  A disk
    that is blank is formatted into the empty tree ([format_ok]); a disk whose
    first sectors cannot be read, or are neither blank nor a known file system,
    is left alone. *)

From S2P Require Import Prelude CStr Fat FsFormat BlockStore Vfs VfsDisk VfsData VfsInv VfsOps VfsSpec.
Import Fat FsFormat BlockStore Vfs VfsDisk VfsData VfsInv VfsOps VfsSpec.

Module VfsMount.

(** ** The bytes of the tables *)

Lemma concat_slices (b : list Z) n :
  alen b = n * 512 -> 0 <= n -> concat (map (fun i => slice (i * 512) 512 b) (seqZ 0 n)) = b.
Proof.
  intros Hl Hn. assert (forall k, 0 <= k <= n -> concat (map (fun i => slice (i * 512) 512 b) (seqZ 0 k)) = slice 0 (k * 512) b) as Hk.
  { intros k Hk. rewrite <- (Z2Nat.id k) in * by lia. induction (Z.to_nat k) as [|j IH]; [done|].
    rewrite Nat2Z.inj_succ, <- Z.add_1_r in *. rewrite seqZ_app by lia. rewrite map_app, concat_app, IH by lia.
    change (seqZ (0 + Z.of_nat j) 1) with [0 + Z.of_nat j]. cbn [map concat]. rewrite app_nil_r, Z.add_0_l.
    rewrite (slice_app 0 (Z.of_nat j * 512) 512) by lia. f_equal. lia. }
  rewrite Hk by lia. by apply slice_all.
Qed.

Lemma map_seqZ_shift {A} (f : Z -> A) start n : map f (seqZ start n) = map (fun i => f (start + i)) (seqZ 0 n).
Proof.
  rewrite <- (Z.add_0_r start) at 1. rewrite <- (fmap_add_seqZ start 0 n). exact (map_map (Z.add start) f (seqZ 0 n)).
Qed.

Lemma super_acceptable_entry_size sb max : super_acceptable sb max = true -> sb_entry_size sb = ENTRY_SIZE.
Proof.
  unfold super_acceptable. rewrite !andb_true_iff, !negb_true_iff, !orb_false_iff, !negb_false_iff, !Z.eqb_eq. tauto.
Qed.

Definition zero_sector : list Z := replicate 512 0.

Lemma zero_sector_blank : forallb (fun b => b =? 0) zero_sector = true.
Proof. reflexivity. Qed.

Lemma zero_sector_magic : (unle (take 4 zero_sector) =? FS_SUPER_MAGIC) = false.
Proof. reflexivity. Qed.

Lemma choose_partition_blank n : choose_partition n zero_sector = None.
Proof. reflexivity. Qed.

#[local] Opaque zero_sector.

Section mount.
Context {S : Type} {bs : BlockStore S} {laws : StoreLaws S} {rel : StoreReliable S}.
Implicit Types v w : vfs S.

(** Sectors [start ...] of the partition, one after the other. *)
Definition sectors_from (v : vfs S) (start n : Z) : list Z := concat (map (part_view v) (seqZ start n)).

Lemma sectors_from_S v start n : 0 <= n -> sectors_from v start (n + 1) = part_view v start ++ sectors_from v (start + 1) n.
Proof. intros. unfold sectors_from. rewrite seqZ_cons by lia. cbn [map concat]. do 3 f_equal. f_equal; lia. Qed.

Lemma sectors_from_ext v w start n :
  (forall k, start <= k < start + n -> part_view w k = part_view v k) -> sectors_from w start n = sectors_from v start n.
Proof.
  intros Heq. unfold sectors_from. f_equal. apply map_ext_in. intros k Hk. apply Heq.
  apply list_elem_of_In, elem_of_seqZ in Hk. lia.
Qed.

Lemma read_dir_run_ok n : forall v start stack done,
  io_ok v -> 0 <= start -> start + Z.of_nat n <= fs_max_sectors v ->
  exists w, read_dir_run n v start stack done = (true, done ++ sectors_from v start (Z.of_nat n), w) /\
            wrote (fun _ => None) v w.
Proof.
  induction n as [|n IH]; intros v start stack done Hio Hs He.
  { exists v. split; [|by apply wrote_nothing]. cbn. by rewrite app_nil_r. }
  cbn [read_dir_run]. rewrite u32_small by (destruct Hio; lia).
  destruct (fs_read_sector v start stack) as [[r out] v1] eqn:Hr.
  apply read_sector_wrote in Hr as (-> & -> & Hw1); [|done|lia]. rewrite Z.eqb_refl. cbn [negb].
  pose proof (same_fields _ _ (wrote_same _ _ _ Hw1)) as (_ & Hms & _).
  destruct (IH v1 (start + 1) stack (done ++ part_view v start)) as (w & -> & Hw); [apply Hw1|lia|lia|].
  exists w. split; [|exact (wrote_trans _ _ _ _ _ Hw1 Hw)].
  rewrite Nat2Z.inj_succ, <- Z.add_1_r, sectors_from_S by lia. rewrite <- app_assoc. do 4 f_equal.
  apply sectors_from_ext. intros k Hk. by rewrite (wrote_view _ _ _ Hw1) by lia.
Qed.

Lemma read_run_ok n : forall v start mem done,
  io_ok v -> 0 <= start -> start + Z.of_nat n <= fs_max_sectors v -> length mem = (512 * n)%nat ->
  exists w, read_run n v start mem done = (true, done ++ sectors_from v start (Z.of_nat n), w) /\
            wrote (fun _ => None) v w.
Proof.
  induction n as [|n IH]; intros v start mem done Hio Hs He Hm.
  { exists v. split; [|by apply wrote_nothing]. cbn. destruct mem; [done|]. cbn in Hm. lia. }
  cbn [read_run]. rewrite u32_small by (destruct Hio; lia).
  destruct (fs_read_sector v start (take 512 mem)) as [[r out] v1] eqn:Hr.
  apply read_sector_wrote in Hr as (-> & -> & Hw1); [|done|lia]. rewrite Z.eqb_refl. cbn [negb].
  pose proof (same_fields _ _ (wrote_same _ _ _ Hw1)) as (_ & Hms & _).
  destruct (IH v1 (start + 1) (drop 512 mem) (done ++ part_view v start)) as (w & -> & Hw);
    [apply Hw1|lia|lia|rewrite length_drop; lia|].
  exists w. split; [|exact (wrote_trans _ _ _ _ _ Hw1 Hw)].
  rewrite Nat2Z.inj_succ, <- Z.add_1_r, sectors_from_S by lia. rewrite <- app_assoc. do 4 f_equal.
  apply sectors_from_ext. intros k Hk. by rewrite (wrote_view _ _ _ Hw1) by lia.
Qed.

(** The sectors of the directory table decode to it. *)
Lemma dir_read_back v ch n :
  fs_wf v ch -> n = dir_sectors_for (fs_max_entries v) ->
  take (Z.to_nat (ENTRY_SIZE * fs_max_entries v)) (sectors_from v (sb_dir_start (fs_super v)) n) = dir_bytes (dir_table v) /\
  ENTRY_SIZE * fs_max_entries v <= alen (sectors_from v (sb_dir_start (fs_super v)) n).
Proof.
  intros Hwf ->. pose proof (wf_dir _ _ Hwf) as Hd. pose proof (regions _ (wf_geo _ _ Hwf)) as Hreg.
  pose proof (dir_sectors_for_eq (fs_max_entries v) ltac:(lia)) as Hn. unfold FS_MAX_ENTRIES_CAP in Hreg.
  set (total := ENTRY_SIZE * fs_max_entries v). set (n := dir_sectors_for (fs_max_entries v)) in *.
  assert (Forall entry_typed (dir_table v)) as Hty.
  { apply Forall_lookup. intros k e Hk. pose proof (lookup_lt_Some _ _ _ Hk). apply lookup_aget in Hk as <-.
    apply (dw_typed _ _ _ Hd). rewrite <- (dw_len _ _ _ Hd). unfold alen. lia. }
  pose proof (length_dir_bytes _ Hty) as Hlen. rewrite (dw_len _ _ _ Hd) in Hlen. fold total in Hlen.
  assert (total <= n * 512 /\ forall i, i < n -> i * 512 < total) as [Hfit Hlast].
  { unfold total, ENTRY_SIZE. rewrite Hn. split; [zlia|]. intros i Hi. zlia. }
  assert (sectors_from v (sb_dir_start (fs_super v)) n = concat (map (file_sector (dir_bytes (dir_table v)) total) (seqZ 0 n))) as ->.
  { unfold sectors_from. f_equal. rewrite map_seqZ_shift. apply map_ext_in. intros i Hi. apply list_elem_of_In, elem_of_seqZ in Hi.
    rewrite (dk_dir _ (wf_disk _ _ Hwf)) by (fold n; lia). unfold dir_sector, file_sector. fold total.
    specialize (Hlast i ltac:(lia)).
    assert ((if total <? i * 512 + 512 then total mod 512 else 512) = Z.max 0 (Z.min 512 (total - i * 512))) as ->.
    { destruct (Z.ltb_spec total (i * 512 + 512)); [|lia]. replace total with (total - i * 512 + i * 512) at 1 by lia.
      rewrite Z.mod_add, Z.mod_small by lia. lia. }
    apply take_sector_of. lia. }
  split.
  - rewrite file_sectors_hold by (unfold alen; lia). apply take_ge. lia.
  - rewrite concat_file_sectors by (unfold alen; lia). unfold alen, slice. rewrite length_take, length_drop, length_app, length_replicate, length_take. lia.
Qed.

Lemma fat_read_back v ch n :
  fs_wf v ch -> n = fat_sectors v ->
  sectors_from v (sb_fat_start (fs_super v)) n = fat_bytes (file_allocation_table v).
Proof.
  intros Hwf ->. pose proof (regions _ (wf_geo _ _ Hwf)) as Hreg. pose proof (cw_len _ _ _ _ _ (wf_chains _ _ Hwf)) as Hlen.
  assert (alen (fat_bytes (file_allocation_table v)) = fat_sectors v * 512) as Hl.
  { unfold alen in *. rewrite length_fat_bytes. unfold fat_words in Hlen. unfold fat_sectors. lia. }
  rewrite <- (concat_slices _ _ Hl) by lia. unfold sectors_from. f_equal.
  rewrite map_seqZ_shift. apply map_ext_in. intros i Hi. apply list_elem_of_In, elem_of_seqZ in Hi.
  rewrite (dk_fat _ (wf_disk _ _ Hwf)) by lia. unfold fat_sector. apply take_ge.
  unfold slice. rewrite length_take. lia.
Qed.

(** Marking the first clusters again changes nothing. *)
Lemma reserve_first_same v :
  (forall i, 0 <= i < Z.min FS_FIRST_DATA_CLUSTER (fs_total_clusters v) -> (file_allocation_table v).[i] = FAT_EOF) ->
  fs_total_clusters v <= alen (file_allocation_table v) -> reserve_first v = v.
Proof.
  intros Hres Hlen. unfold reserve_first.
  assert (for_range 0 (Z.min FS_FIRST_DATA_CLUSTER (fs_total_clusters v)) (fun fat i => fat.[i <- FAT_EOF]) (file_allocation_table v) =
    file_allocation_table v) as ->; [|by destruct v].
  destruct (Z.le_gt_cases (Z.min FS_FIRST_DATA_CLUSTER (fs_total_clusters v)) 0); [by apply for_range_empty|].
  apply (for_range_ind (fun _ f => f = file_allocation_table v)); [lia|done|].
  intros i f Hi ->. rewrite <- (Hres i Hi). apply aget_aset_self. lia.
Qed.

(** ** Reading the tables back *)

(** [w] holds the same file system as [v]. *)
Record same_fs (v w : vfs S) (ch : Z -> list Z) : Prop := {
  sf_super : fs_super w = fs_super v;
  sf_entries : fs_max_entries w = fs_max_entries v;
  sf_clusters : fs_total_clusters w = fs_total_clusters v;
  sf_dir : dir_table w = dir_table v;
  sf_fat : file_allocation_table w = file_allocation_table v;
  sf_contents : forall j, 0 <= j < fs_max_entries v -> regular (dir_table v) j -> contents w ch j = contents v ch j
}.

(** The tree depends on the directory table and the contents only. *)
Lemma abs_kept v w ch : fs_wf v ch -> fs_max_entries w = fs_max_entries v -> dir_table w = dir_table v ->
  (forall j, 0 <= j < fs_max_entries v -> regular (dir_table v) j -> contents w ch j = contents v ch j) ->
  abs w ch = abs v ch.
Proof.
  intros Hwf He Hd Hc. apply map_eq. intros i. rewrite !lookup_abs, He.
  assert (entry w i = entry v i) as Hent by (unfold entry; by rewrite Hd).
  assert (used (dir_table w) i <-> used (dir_table v) i) as Hu by (by rewrite Hd).
  repeat case_bool_decide; try tauto. f_equal. unfold node_of. rewrite Hent. f_equal.
  destruct (used_type v ch i Hwf) as (_ & [->|[Hne Hr]]); [tauto|tauto|done|].
  destruct (Z.eqb_spec (file_type (entry v i)) FT_DIR); [done|]. f_equal. apply Hc; tauto.
Qed.

Lemma same_fs_abs v w ch : fs_wf v ch -> same_fs v w ch -> abs w ch = abs v ch.
Proof. intros Hwf [_ He _ Hd _ Hc]. by apply abs_kept. Qed.

(** The partition under [v] is the one under [v0]. *)
Record same_partition (v0 v : vfs S) : Prop := {
  sp_start : fs_part_start v = fs_part_start v0;
  sp_sectors : fs_max_sectors v = fs_max_sectors v0;
  sp_super : fs_super v = fs_super v0;
  sp_entries : fs_max_entries v = fs_max_entries v0;
  sp_clusters : fs_total_clusters v = fs_total_clusters v0;
  sp_view : forall k, 0 <= k < fs_max_sectors v0 -> part_view v k = part_view v0 k
}.

(** The tables in [v] being those of [v0], all that is left is saving the
    allocation table again. *)
Lemma finish_mount v0 ch v :
  fs_wf v0 ch -> io_ok v -> labelled v -> same_partition v0 v -> dir_table v = dir_table v0 ->
  file_allocation_table v = file_allocation_table v0 ->
  let w := save_fat_to_disk (set_mounted v true) in fs_wf w ch /\ same_fs v0 w ch.
Proof.
  intros Hwf Hio Hlab [Hps Hms Hsb Hme Htc Hview] Hd Hf w. pose proof Hwf as [[_ Hgs Hge Hgc] _ Hacc Hdw Hcw Hdk].
  set (v1 := set_mounted v true) in *. pose proof (regions _ (wf_geo _ _ Hwf)) as Hreg.
  assert (geo_ok v1) as Hg1 by (constructor; cbn; [by destruct Hio|congruence..]).
  assert (disk_wf v1) as Hdk1.
  { destruct Hdk as [H512 Hdir Hfat Hsup _]. constructor; cbn; try done.
    - intros k Hk. rewrite Hsb, Hms in Hk. change (part_view v1 k) with (part_view v k). rewrite Hview by lia. by apply H512.
    - unfold dir_sector. cbn. rewrite Hme, Hsb, Hd. intros i Hi. change (part_view v1) with (part_view v).
      rewrite Hview by lia. by apply Hdir.
    - unfold fat_sectors, fat_sector. cbn. rewrite Htc, Hsb, Hf. intros i Hi. change (part_view v1) with (part_view v).
      fold (fat_sectors v0) in Hi. rewrite Hview by lia. by apply Hfat.
    - change (part_view v1) with (part_view v). rewrite Hsb, Hview by (unfold FS_SUPER_SECTOR; lia). done. }
  assert (set_fat v1 (file_allocation_table v1) = v1) as Hsf by (by destruct v1).
  destruct (update_fat_disk v1 (file_allocation_table v1) Hg1 Hdk1) as (Hs & Hgw & Hdkw & Hkept).
  rewrite Hsf in Hs, Hgw, Hdkw, Hkept. fold w in Hs, Hgw, Hdkw, Hkept.
  pose proof (same_fields _ _ Hs) as (_ & Hms2 & Htc2 & Hme2 & Hmt2 & Hsb2 & Hdt2 & Hft2). cbn in *.
  split.
  - constructor; rewrite ?Hmt2, ?Hsb2, ?Hms2, ?Hdt2, ?Hme2, ?Htc2, ?Hft2, ?Hsb, ?Hms, ?Hd, ?Hme, ?Htc, ?Hf; done.
  - constructor; try congruence. intros j Hj Hr. unfold contents, entry. rewrite Hdt2, Hd.
    destruct (cw_chain _ _ _ _ _ Hcw j Hj Hr) as (Hch & _).
    apply (file_bytes_kept _ _ _ _ _ (wf_geo _ _ Hwf) Hch); [congruence|].
    intros k Hk. rewrite Hkept by (cbn; rewrite Hsb, Hms; done). change (part_view v1) with (part_view v). apply Hview. lia.
Qed.

Lemma load_tables_ok v0 ch v stack :
  fs_wf v0 ch -> io_ok v -> labelled v -> same_partition v0 v ->
  alen (file_allocation_table v) = fat_words (fs_total_clusters v) ->
  let w := load_tables v stack in fs_wf w ch /\ same_fs v0 w ch.
Proof.
  intros Hwf Hio Hlab Hsp Hal. pose proof Hsp as [Hps Hms Hsb Hme Htc Hview].
  pose proof (regions _ (wf_geo _ _ Hwf)) as Hreg. unfold FS_MAX_ENTRIES_CAP, FS_MAX_CLUSTERS_CAP in Hreg.
  assert (fs_max_sectors v0 < 2 ^ 32) as Hmax by (destruct (geo_super _ (wf_geo _ _ Hwf)); done).
  unfold load_tables. rewrite Hsb.
  pose proof (super_acceptable_entry_size _ _ (proj2 (wf_accept _ _ Hwf))) as Hes.
  rewrite Hes, <- (geo_entries _ (wf_geo _ _ Hwf)).
  pose proof (dir_sectors_for_eq (fs_max_entries v0) ltac:(unfold FS_MAX_ENTRIES_CAP; lia)) as Hn.
  rewrite (u32_small (ENTRY_SIZE * _)), u32_small by (unfold ENTRY_SIZE; lia).
  replace ((ENTRY_SIZE * fs_max_entries v0 + 511) / 512) with (dir_sectors_for (fs_max_entries v0))
    by (rewrite Hn; f_equal; unfold ENTRY_SIZE; lia).
  destruct (read_dir_run_ok (Z.to_nat (dir_sectors_for (fs_max_entries v0))) v (sb_dir_start (fs_super v0)) stack [])
    as (v1 & -> & Hw1); [done|lia|lia|]. rewrite Z2Nat.id by lia. cbn [negb app].
  pose proof (same_fields _ _ (wrote_same _ _ _ Hw1)) as (Hps1 & Hms1 & Htc1 & Hme1 & _ & Hsb1 & _ & Hft1).
  rewrite (sectors_from_ext v0 v) by (intros k Hk; apply Hview; lia).
  destruct (dir_read_back v0 ch _ Hwf eq_refl) as [Hdir Hdlen].
  rewrite take_app_le, Hdir by (unfold alen in Hdlen; lia). rewrite Hme1, Hme.
  pose proof (wf_dir _ _ Hwf) as Hd.
  assert (Forall entry_typed (dir_table v0)) as Hty.
  { apply Forall_lookup. intros k e Hk. pose proof (lookup_lt_Some _ _ _ Hk). apply lookup_aget in Hk as <-.
    apply (dw_typed _ _ _ Hd). rewrite <- (dw_len _ _ _ Hd). unfold alen. lia. }
  assert (decode_entries (Z.to_nat (fs_max_entries v0)) (dir_bytes (dir_table v0)) = dir_table v0) as ->.
  { rewrite <- (app_nil_r (dir_bytes _)), <- (dw_len _ _ _ Hd). unfold alen. rewrite Nat2Z.id. by apply decode_dir_bytes. }
  set (v2 := set_dir v1 (dir_table v0)).
  change (fs_total_clusters v2) with (fs_total_clusters v1). change (file_allocation_table v2) with (file_allocation_table v1).
  rewrite Htc1, Htc, Hft1. rewrite (u32_small (_ * 4)), u32_small by lia. fold (fat_sectors v0).
  rewrite Htc in Hal. assert (length (file_allocation_table v) = Z.to_nat (fat_sectors v0 * 128)) as Hlf
    by (unfold alen, fat_words in Hal; unfold fat_sectors; lia).
  assert (io_ok v2) as Hio2 by (destruct (wrote_io _ _ _ Hw1); by constructor).
  destruct (read_run_ok (Z.to_nat (fat_sectors v0)) v2 (sb_fat_start (fs_super v0)) (fat_bytes (file_allocation_table v)) [])
    as (v3 & -> & Hw3); [done|lia|cbn; lia|rewrite length_fat_bytes; lia|]. rewrite Z2Nat.id by lia. cbn [negb app].
  pose proof (same_fields _ _ (wrote_same _ _ _ Hw3)) as (Hps3 & Hms3 & Htc3 & Hme3 & _ & Hsb3 & Hdt3 & Hft3).
  cbn in Hps3, Hms3, Htc3, Hme3, Hsb3, Hdt3, Hft3.
  assert (forall k, 0 <= k < fs_max_sectors v0 -> part_view v3 k = part_view v0 k) as Hv3.
  { intros k Hk. rewrite (wrote_view _ _ _ Hw3) by (cbn; lia). change (part_view v2) with (part_view v1).
    rewrite (wrote_view _ _ _ Hw1) by lia. by apply Hview. }
  rewrite (sectors_from_ext v0 v2), (fat_read_back v0 ch _ Hwf eq_refl)
    by (intros k Hk; change (part_view v2) with (part_view v1); rewrite (wrote_view _ _ _ Hw1) by lia; apply Hview; lia).
  pose proof (wf_chains _ _ Hwf) as Hc. pose proof (cw_len _ _ _ _ _ Hc) as Hlen0.
  replace (length (file_allocation_table v3)) with (length (file_allocation_table v0))
    by (rewrite Hft3, Hft1, Hlf; unfold alen, fat_words in Hlen0; unfold fat_sectors; lia).
  rewrite <- (app_nil_r (fat_bytes _)), decode_fat_bytes by apply Hc. set (v4 := set_fat v3 (file_allocation_table v0)).
  rewrite reserve_first_same.
  2: { cbn. rewrite Htc3, Htc1, Htc. apply Hc. }
  2: { cbn. rewrite Htc3, Htc1, Htc, Hlen0. apply fat_words_ge. lia. }
  change (dir_table v4) with (dir_table v3). change (fs_max_entries v4) with (fs_max_entries v3).
  change (fs_total_clusters v4) with (fs_total_clusters v3).
  rewrite Hdt3, Hme3, Htc3, Hme1, Hme, Htc1, Htc. rewrite (proj2 (validate_iff (dir_table v0) (fs_max_entries v0) ltac:(unfold FS_MAX_ENTRIES_CAP; lia) _)).
  2: { apply Hd. }
  cbn [negb]. apply (finish_mount v0 ch v4 Hwf).
  - destruct (wrote_io _ _ _ Hw3). by constructor.
  - pose proof (wrote_outside _ _ _ Hw3) as Ho3. pose proof (wrote_outside _ _ _ Hw1) as Ho1.
    assert (labelled v2) as Hl2 by exact (labelled_kept _ _ (wrote_same _ _ _ Hw1) Ho1 Hio Hlab).
    exact (labelled_kept _ _ (wrote_same _ _ _ Hw3) Ho3 Hio2 Hl2).
  - constructor; cbn; try congruence. done.
  - done.
  - done.
Qed.

(** ** Mounting a disk that holds a file system *)

Record store_same (s s' : S) : Prop := {
  ss_ok : bs_ok s';
  ss_good : bs_good s';
  ss_sectors : bs_sectors s' = bs_sectors s;
  ss_view : forall k, bs_view s' k = bs_view s k
}.

Lemma disk_read_ok v l buf :
  bs_ok (store v) -> bs_good (store v) -> 0 <= l < bs_sectors (store v) ->
  exists s, disk_read v l buf = (E_OK, bs_view (store v) l, set_store v s) /\ store_same (store v) s.
Proof.
  intros Hok Hg Hl. unfold disk_read. destruct (bs_read (store v) l buf) as [[r out] s] eqn:Hr.
  destruct (bs_read_good _ _ _ _ _ _ Hok Hg Hl Hr) as [-> Hg'].
  destruct (bs_read_spec _ _ _ _ _ _ Hok Hr) as (Hok' & Hn & Hv & Ho). exists s. rewrite (Ho eq_refl). done.
Qed.

Lemma length_encode_super sb : super_typed sb -> length (encode_super sb) = Z.to_nat FS_SUPER_DISK_SIZE.
Proof. intros Hs. unfold encode_super. rewrite !length_app, !length_le, (st_keyslot _ Hs). done. Qed.

Lemma decode_super_sector sb : super_typed sb -> decode_super (sector_of 0 FS_SUPER_DISK_SIZE (encode_super sb)) = sb.
Proof.
  intros Hs. unfold sector_of. rewrite slice_all; [by apply decode_encode_super|].
  unfold alen. by rewrite length_encode_super.
Qed.

Lemma tables_alloc_ok heap v entries clusters :
  ha_ok heap = true -> 0 < entries <= FS_MAX_ENTRIES_CAP -> 0 < clusters <= FS_MAX_CLUSTERS_CAP ->
  exists dir fat, fs_tables_alloc heap v entries clusters = (E_OK, set_tables v entries dir fat) /\
    dir = replicate (Z.to_nat entries) czero /\ alen fat = fat_words clusters /\
    fat = replicate (Z.to_nat clusters) 0 ++ map (ha_after heap) (seqZ clusters (fat_words clusters - clusters)).
Proof.
  intros Hh He Hc. unfold fs_tables_alloc. rewrite Hh.
  destruct (Z.eqb_spec entries 0), (Z.eqb_spec clusters 0), (Z.ltb_spec FS_MAX_ENTRIES_CAP entries),
    (Z.ltb_spec FS_MAX_CLUSTERS_CAP clusters); try lia. cbn [orb negb].
  do 2 eexists. split; [done|]. split; [done|]. split; [|done].
  pose proof (fat_words_ge clusters ltac:(lia)). rewrite alen_app, alen_replicate by lia.
  unfold alen. rewrite length_map, length_seqZ. lia.
Qed.

Lemma load_superblock_ok v sb stack :
  io_ok v -> 0 < fs_max_sectors v -> super_typed sb -> super_acceptable sb (fs_max_sectors v) = true ->
  part_view v FS_SUPER_SECTOR = sector_of 0 FS_SUPER_DISK_SIZE (encode_super sb) ->
  exists s, load_superblock v stack = (true, set_clusters (set_super (set_store v s) sb) (sb_total_clusters sb)) /\
    store_same (store v) s.
Proof.
  intros Hio Hm Hty Hacc Hv. unfold load_superblock, fs_read_sector. destruct Hio as [Hok Hg Hst Hend].
  rewrite u32_small by (unfold FS_SUPER_SECTOR; lia).
  destruct (disk_read_ok v (fs_part_start v + FS_SUPER_SECTOR) stack Hok Hg) as (s & -> & Hs); [unfold FS_SUPER_SECTOR; lia|].
  rewrite Z.eqb_refl. cbn [negb]. fold (part_view v FS_SUPER_SECTOR). rewrite Hv, decode_super_sector by done.
  cbn. rewrite Hacc. by exists s.
Qed.

Lemma remount_ok v ch heap v' stack r :
  fs_wf v ch -> bs_flush (store v) = (r, store v') -> ha_ok heap = true ->
  let w := init_fs heap v' stack in r = E_OK /\ fs_wf w ch /\ same_fs v w ch.
Proof.
  intros Hwf Hfl Hheap. pose proof (wf_geo _ _ Hwf) as Hg. destruct (geo_io _ Hg) as [Hok Hgood Hst Hend].
  destruct (bs_flush_good _ _ _ Hok Hgood Hfl) as [-> Hgood']. destruct (bs_flush_spec _ _ _ Hok Hfl) as (Hok' & Hn' & _ & Hmed).
  destruct (bs_reset_spec (store v')) as (Hok1 & Hn1 & Hv1). pose proof (bs_reset_good (store v') Hgood') as Hgood1.
  pose proof (dk_label _ (wf_disk _ _ Hwf)) as [Hbig Hlab]. pose proof (regions _ Hg) as Hreg.
  destruct (choose_partition_bounds _ _ _ _ Hlab) as (Hb1 & Hb2 & Hb3 & Hb4).
  unfold init_fs. cbn [store set_store bs_sectors]. rewrite Hn1, Hn'.
  destruct (Z.leb_spec (bs_sectors (store v)) (FS_PART_START_LBA + FS_DATA_START_SECTOR)); [lia|].
  set (u := fs_tables_free _). assert (store u = bs_reset (store v')) as Hsu by done.
  unfold load_partition. destruct (disk_read_ok u 0 stack) as (s1 & -> & Hs1); [by rewrite Hsu|by rewrite Hsu|rewrite Hsu, Hn1, Hn'; lia|].
  rewrite Z.eqb_refl. cbn [negb]. rewrite Hsu, Hv1, Hmed, Hlab by done. change (1 <? 0) with false. change (1 =? 0) with false. cbn [negb].
  set (u2 := set_clusters _ _). destruct (wf_accept _ _ Hwf) as [Hty Hacc].
  assert (forall k, bs_view s1 k = bs_view (store v) k) as Hvs1 by (intros k; rewrite (ss_view _ _ Hs1), Hsu, Hv1; by apply Hmed).
  assert (bs_sectors s1 = bs_sectors (store v)) as Hns1 by (rewrite (ss_sectors _ _ Hs1), Hsu; congruence).
  destruct (load_superblock_ok u2 (fs_super v) stack) as (s2 & -> & Hs2); [|cbn; lia|done|done| |].
  { constructor; cbn; [apply Hs1|apply Hs1|lia|rewrite Hns1; lia]. }
  { unfold part_view. cbn. rewrite Hvs1. apply (wf_disk _ _ Hwf). }
  cbn [negb]. destruct (geo_super _ Hg) as [Hge Hgc _ _ _ _ _ _].
  set (u3 := set_clusters _ _). change (fs_super u3) with (fs_super v).
  destruct (tables_alloc_ok heap u3 _ _ Hheap Hge Hgc) as (dir & fat & -> & _ & Hal & _). rewrite Z.eqb_refl. cbn [negb].
  split; [done|]. set (u4 := set_tables _ _ _ _).
  assert (store u4 = s2) as Hsu4 by done.
  assert (forall k, bs_view s2 k = bs_view (store v) k) as Hvs2 by (intros k; rewrite (ss_view _ _ Hs2); apply Hvs1).
  assert (bs_sectors s2 = bs_sectors (store v)) as Hns2 by (rewrite (ss_sectors _ _ Hs2); exact Hns1).
  apply (load_tables_ok v ch u4 stack Hwf).
  - constructor; cbn; [apply Hs2|apply Hs2|lia|rewrite Hns2; lia].
  - unfold labelled. cbn. rewrite Hns2, Hvs2. done.
  - constructor; cbn; try done; [by rewrite (geo_entries _ Hg)|by rewrite (geo_clusters _ Hg)|].
    intros k _. apply Hvs2.
  - done.
Qed.

(** ** A new file system *)

Lemma empty_dir_wf max total : 0 < max -> dir_wf (replicate (Z.to_nat max) czero) max total.
Proof.
  intros Hm. assert (forall i, 0 <= i < max -> (replicate (Z.to_nat max) czero : list disk_file_entry).[i] = czero) as Hget
    by (intros; by apply aget_replicate).
  constructor; unfold tree_ok, used.
  - apply alen_replicate. lia.
  - intros i Hi. rewrite Hget by done. by constructor.
  - intros i Hi. rewrite Hget by done. by left.
  - by rewrite Hget by lia.
  - intros i Hi. by rewrite Hget.
  - intros i Hi. by rewrite Hget.
  - intros i j Hi Hj. by rewrite Hget.
  - intros i Hi. by rewrite Hget.
Qed.

(** The allocation table [format_disk] starts from. *)
Lemma fresh_fat_wf fat total after max :
  0 < total <= FS_MAX_CLUSTERS_CAP -> 0 < max -> Forall is_u32 after ->
  fat = replicate (Z.to_nat total) 0 ++ after -> alen fat = fat_words total ->
  chains_wf (replicate (Z.to_nat max) czero) max
    (for_range 0 (Z.min FS_FIRST_DATA_CLUSTER total) (fun fat i => fat.[i <- FAT_EOF]) fat) total (fun _ => []).
Proof.
  intros Ht Hm Hafter Hfat Hlen. set (n := Z.min FS_FIRST_DATA_CLUSTER total).
  pose proof (fat_words_ge total ltac:(lia)) as Hw.
  assert (forall f, f = for_range 0 n (fun fat i => fat.[i <- FAT_EOF]) fat ->
    alen f = alen fat /\ forall i, 0 <= i < alen fat -> f.[i] = if i <? n then FAT_EOF else fat.[i]) as Hres.
  { intros f ->. apply (for_range_ind (fun j f => alen f = alen fat /\ forall i, 0 <= i < alen fat -> f.[i] = if i <? j then FAT_EOF else fat.[i])).
    - unfold n, FS_FIRST_DATA_CLUSTER. lia.
    - split; [done|]. intros i Hi. by destruct (Z.ltb_spec i 0); [lia|].
    - intros j f Hj [Hl Hg]. rewrite alen_aset. split; [done|]. intros i Hi.
      assert (j < alen fat) by (unfold n in Hj; lia). rewrite aget_aset by lia.
      destruct (Z.eqb_spec j i) as [->|Hne].
      + destruct (Z.ltb_spec i (i + 1)); [done|lia].
      + rewrite Hg by done. destruct (Z.ltb_spec i j), (Z.ltb_spec i (j + 1)); try done; lia. }
  destruct (Hres _ eq_refl) as [Hl Hg]. set (f := for_range 0 n _ fat) in *. clearbody f.
  assert (forall i, ~ (0 <= i < max /\ regular (replicate (Z.to_nat max) czero) i)) as Hnone.
  { intros i [Hi [Hu _]]. unfold used in Hu. by rewrite aget_replicate in Hu. }
  constructor.
  - by rewrite Hl.
  - apply Forall_lookup. intros k x Hk. pose proof (lookup_lt_Some _ _ _ Hk) as Hlt. apply lookup_aget in Hk as <-.
    unfold alen in Hl. rewrite Hg by (unfold alen; lia). destruct (_ <? n); [done|].
    assert (Forall is_u32 fat) as Hf by (subst fat; apply Forall_app; split; [apply Forall_replicate; unfold is_u32; lia|done]).
    apply (Forall_lookup_1 _ _ _ _ Hf (aget_lookup fat (Z.of_nat k) ltac:(unfold alen; lia))).
  - intros i Hi. fold n in Hi. rewrite Hg by (unfold n in Hi; lia). by destruct (Z.ltb_spec i n); [|lia].
  - intros i Hi Hr. by destruct (Hnone i).
  - intros i j x Hi _ Hr. by destruct (Hnone i).
  - intros x Hx Hnf. exfalso. apply Hnf. unfold FS_FIRST_DATA_CLUSTER in Hx. rewrite Hg by lia.
    destruct (Z.ltb_spec x n); [unfold n, FS_FIRST_DATA_CLUSTER in *; lia|]. subst fat. unfold aget.
    rewrite app_nth1 by (rewrite length_replicate; lia). apply (aget_replicate total 0 x). lia.
Qed.

(** The writes of [format_disk], from the tables in memory. *)
Lemma format_writes_ok v sb :
  geo_ok v -> labelled v -> fs_super v = sb -> sb_dir_sectors sb = dir_sectors_for (fs_max_entries v) ->
  (forall k, 0 <= k < fs_max_sectors v -> length (part_view v k) = 512%nat) ->
  let w := save_directory_to_disk (save_fat_to_disk (save_superblock
             (for_range 0 (sb_dir_sectors sb)
                (fun v i => (fs_write_sector v (u32 (sb_dir_start sb + i)) (replicate 512 0)).2) v))) in
  same_but_store v w /\ geo_ok w /\ disk_wf w.
Proof.
  intros Hg1 Hl1 Hsb Hds H512. pose proof (regions _ Hg1) as Hreg. rewrite Hsb in Hreg. rewrite Hds. set (v2 := for_range _ _ _ v).
  assert (wrote (fun k => if in_run (sb_dir_start sb) (dir_sectors_for (fs_max_entries v)) k
            then Some (take 512 zero_sector) else None) v v2) as Hw2.
  { apply (write_run_wrote (fun _ => sb_dir_start sb) (fun _ => zero_sector)); [apply Hg1|lia..|done]. }
  clearbody v2. pose proof (same_fields _ _ (wrote_same _ _ _ Hw2)) as (_ & Hms2 & _ & _ & _ & Hsb2 & _).
  unfold save_superblock. destruct (fs_write_sector v2 FS_SUPER_SECTOR _) as [r3 v3] eqn:Hw3. cbn [snd].
  apply write_sector_wrote in Hw3 as [_ Hw3]; [|apply Hw2|rewrite Hms2; unfold FS_SUPER_SECTOR; lia].
  rewrite Hsb2, Hsb, take_sector_of in Hw3 by (unfold FS_SUPER_DISK_SIZE; lia).
  pose proof (wrote_trans _ _ _ _ _ Hw2 Hw3) as Hw13. pose proof (wrote_same _ _ _ Hw13) as Hs13.
  pose proof (geo_same _ _ Hs13 (wrote_io _ _ _ Hw13) Hg1) as Hg3.
  destruct (save_fat_effect v3 Hg3) as (Hs4 & Hg4 & Ho4 & Hout4 & Hfat4). set (v4 := save_fat_to_disk v3) in *. clearbody v4.
  destruct (save_dir_effect v4 Hg4) as (Hs5 & Hg5 & Ho5 & Hout5 & Hdir5). set (v5 := save_directory_to_disk v4) in *. clearbody v5.
  pose proof (same_trans _ _ _ Hs13 (same_trans _ _ _ Hs4 Hs5)) as Hs15. pose proof (same_trans _ _ _ Hs13 Hs4) as Hs14.
  pose proof (same_fields _ _ Hs15) as (_ & Hms5 & Htc5 & _ & _ & Hsb5 & _ & Hft5).
  pose proof (same_fields _ _ Hs14) as (_ & Hms4 & Htc4 & _ & _ & Hsb4 & _ & Hft4).
  pose proof (same_fields _ _ Hs13) as (_ & Hms3 & _ & _ & _ & Hsb3 & _). rewrite Hsb in Hsb5, Hsb4, Hsb3.
  assert (labelled v5) as Hl5.
  { apply (labelled_kept v4); [done|done|apply Hg4|]. apply (labelled_kept v3); [done|done|apply Hg3|].
    apply (labelled_kept v); [done|apply Hw13|apply Hg1|done]. }
  split; [done|]. split; [done|]. unfold outside_dir in Hout5. rewrite Hms4, Hsb4 in Hout5. rewrite Hms3, Hsb3 in Hout4.
  constructor; [| |rewrite Hsb5| |].
  - rewrite Hsb5, Hms5. intros k Hk. rewrite Hout5, Hout4, (wrote_view _ _ _ Hw13) by lia. unfold FS_SUPER_SECTOR, in_run.
    destruct (Z.eqb_spec k 0); [lia|].
    destruct (Z.leb_spec (sb_dir_start sb) k), (Z.ltb_spec k (sb_dir_start sb + dir_sectors_for (fs_max_entries v)));
      try lia; cbn [andb]. apply H512. lia.
  - exact Hdir5.
  - intros i Hi. unfold fat_sectors in Hi. rewrite Htc5 in Hi. fold (fat_sectors v) in Hi. rewrite Hout5 by lia.
    rewrite <- Hsb4, Hfat4; [unfold fat_sector; by rewrite Hft5, Hft4|]. unfold fat_sectors. by rewrite Htc4.
  - rewrite Hsb5, Hout5, Hout4, (wrote_view _ _ _ Hw13) by (unfold FS_SUPER_SECTOR; lia). by rewrite Z.eqb_refl.
  - exact Hl5.
Qed.

(** A flush and the change to mounted keep everything. *)
Lemma flush_mount_ok v r s ch :
  geo_ok v -> disk_wf v -> super_typed (fs_super v) -> super_acceptable (fs_super v) (fs_max_sectors v) = true ->
  dir_wf (dir_table v) (fs_max_entries v) (fs_total_clusters v) ->
  chains_wf (dir_table v) (fs_max_entries v) (file_allocation_table v) (fs_total_clusters v) ch ->
  bs_flush (store v) = (r, s) -> fs_wf (set_mounted (set_formatted (set_store v s)) true) ch.
Proof.
  intros Hg [Ha Hb Hc Hd [He1 He2]] Hty Hacc Hdir Hch Hfl. destruct Hg as [[Hok Hgood Hst Hend] Hgs Hge Hgc].
  destruct (bs_flush_good _ _ _ Hok Hgood Hfl) as [_ Hgood']. destruct (bs_flush_spec _ _ _ Hok Hfl) as (Hok' & Hn & Hv & _).
  set (w := set_mounted _ true). assert (forall k, part_view w k = part_view v k) as Hpv by (intros k; apply Hv).
  constructor; try done.
  - constructor; [constructor; cbn; try done; by rewrite Hn|done..].
  - constructor; [intros k Hk; rewrite Hpv; by apply Ha|intros i Hi; rewrite Hpv; by apply Hb|
      intros i Hi; rewrite Hpv; by apply Hc|by rewrite Hpv|].
    unfold labelled. cbn. by rewrite Hn, Hv.
Qed.

(** [format_disk] leaves a sound file system without entries. *)
Lemma format_disk_ok heap v :
  io_ok v -> labelled v -> ha_ok heap = true -> (forall i, is_u32 (ha_after heap i)) -> 0 <= fs_total_clusters v ->
  (forall k, 0 <= k < fs_max_sectors v -> length (part_view v k) = 512%nat) ->
  0 < sb_total_clusters (format_super (fs_max_sectors v) (fs_total_clusters v)) ->
  exists w, format_disk heap v = (E_OK, w) /\ fs_wf (set_mounted w true) (fun _ => []) /\
    dir_table w = replicate (Z.to_nat (fs_max_entries w)) czero /\ fs_was_formatted w = true /\
    fs_max_entries w = sb_max_entries (format_super (fs_max_sectors v) (fs_total_clusters v)) /\
    fs_total_clusters w = sb_total_clusters (format_super (fs_max_sectors v) (fs_total_clusters v)).
Proof.
  intros Hio Hlab Hheap Hafter Htc H512 Hpos. unfold format_disk.
  assert (0 <= fs_max_sectors v < 2 ^ 32) as Hms.
  { destruct Hio. destruct Hlab as [_ Hl]. apply choose_partition_bounds in Hl. unfold FS_DATA_START_SECTOR in Hl. lia. }
  destruct (format_super_ok (fs_max_sectors v) (fs_total_clusters v) Hms Htc Hpos) as (Hgs & Hty & Hacc).
  assert (sb_dir_sectors (format_super (fs_max_sectors v) (fs_total_clusters v)) =
          dir_sectors_for (sb_max_entries (format_super (fs_max_sectors v) (fs_total_clusters v)))) as Hds
    by (unfold format_super; by destruct (format_geometry _ _) as [[[? ?] ?] ?]).
  generalize dependent (format_super (fs_max_sectors v) (fs_total_clusters v)). intros sb Hpos Hgs Hty Hacc Hds.
  destruct (tables_alloc_ok heap (set_clusters v (sb_total_clusters sb)) _ _ Hheap (g_entries _ _ Hgs) (g_clusters _ _ Hgs))
    as (dir & fat & -> & Hdir & Hal & Hfat).
  rewrite Z.eqb_refl. cbn [negb].
  assert (chains_wf dir (sb_max_entries sb)
    (for_range 0 (Z.min FS_FIRST_DATA_CLUSTER (sb_total_clusters sb)) (fun fat i => fat.[i <- FAT_EOF]) fat)
    (sb_total_clusters sb) (fun _ => [])) as Hch.
  { rewrite Hdir. destruct Hgs. eapply fresh_fat_wf; [done|lia| |exact Hfat|done].
    apply Forall_fmap, Forall_forall. intros i _. apply Hafter. }
  unfold reserve_first. cbn [fs_total_clusters file_allocation_table set_super set_tables set_clusters].
  set (fat' := for_range 0 (Z.min _ _) _ fat) in *. clearbody fat'. set (v1 := set_fat _ fat').
  assert (geo_ok v1) as Hg1 by (constructor; [destruct Hio; by constructor|exact Hgs|reflexivity|reflexivity]).
  destruct (format_writes_ok v1 sb Hg1 Hlab eq_refl Hds H512) as (Hs & Hg & Hdk).
  set (v5 := save_directory_to_disk _) in *. clearbody v5.
  pose proof (same_fields _ _ Hs) as (_ & Hms5 & Htc5 & Hme5 & _ & Hsb5 & Hdt5 & Hft5). cbn in Hms5, Htc5, Hme5, Hsb5, Hdt5, Hft5.
  destruct (bs_flush (store v5)) as [r6 s6] eqn:Hfl.
  eexists. split; [reflexivity|]. split; [|split; [cbn; by rewrite Hdt5, Hme5|split; [reflexivity|split; [exact Hme5|exact Htc5]]]].
  apply (flush_mount_ok v5 r6); rewrite ?Hsb5, ?Hms5, ?Hdt5, ?Hme5, ?Htc5, ?Hft5; try done.
  rewrite Hdir. apply empty_dir_wf. destruct Hgs. lia.
Qed.

(** [fs_was_formatted] survives the rest of the mount. *)
Lemma for_range_formatted (f : vfs S -> Z -> vfs S) a b v :
  (forall v i, fs_was_formatted (f v i) = fs_was_formatted v) ->
  fs_was_formatted (for_range a b f v) = fs_was_formatted v.
Proof.
  intros Hf. destruct (Z.le_gt_cases b a); [by rewrite for_range_empty|].
  apply (for_range_ind (fun _ w => fs_was_formatted w = fs_was_formatted v)); [lia|done|].
  intros i w _ <-. apply Hf.
Qed.

Lemma write_sector_formatted v k x : fs_was_formatted (fs_write_sector v k x).2 = fs_was_formatted v.
Proof. unfold fs_write_sector, disk_write. by destruct (bs_write _ _ _). Qed.

Lemma read_sector_formatted v k x : fs_was_formatted (fs_read_sector v k x).2 = fs_was_formatted v.
Proof. unfold fs_read_sector, disk_read. by destruct (bs_read _ _ _) as [[? ?] ?]. Qed.

Lemma read_run_formatted n : forall v start mem acc, fs_was_formatted (read_run n v start mem acc).2 = fs_was_formatted v.
Proof.
  induction n as [|n IH]; intros v start mem acc; [done|]. cbn [read_run].
  pose proof (read_sector_formatted v (u32 start) (take 512 mem)) as Hr.
  destruct (fs_read_sector _ _ _) as [[r out] w]. cbn in Hr. destruct (negb _); [done|]. by rewrite IH.
Qed.

Lemma read_dir_run_formatted n : forall v start stack acc, fs_was_formatted (read_dir_run n v start stack acc).2 = fs_was_formatted v.
Proof.
  induction n as [|n IH]; intros v start stack acc; [done|]. cbn [read_dir_run].
  pose proof (read_sector_formatted v (u32 start) stack) as Hr.
  destruct (fs_read_sector _ _ _) as [[r out] w]. cbn in Hr. destruct (negb _); [done|]. by rewrite IH.
Qed.

Lemma load_tables_formatted v stack : fs_was_formatted (load_tables v stack) = fs_was_formatted v.
Proof.
  unfold load_tables.
  match goal with |- context [read_dir_run ?n ?v ?a ?b ?c] => pose proof (read_dir_run_formatted n v a b c) as H1 end.
  destruct (read_dir_run _ _ _ _ _) as [[ok bytes] w]. cbn in H1. destruct (negb ok); [done|].
  match goal with |- context [read_run ?n ?v ?a ?b ?c] => pose proof (read_run_formatted n v a b c) as H2 end.
  destruct (read_run _ _ _ _ _) as [[ok2 bytes2] w2]. cbn in H2. rewrite H1 in H2. destruct (negb ok2); [done|].
  destruct (negb _); [done|]. unfold save_fat_to_disk. rewrite for_range_formatted; [done|].
  intros. apply write_sector_formatted.
Qed.

(** ** A blank disk *)

Lemma region_is_blank_ok n : forall v l buf,
  bs_ok (store v) -> bs_good (store v) -> 0 <= l -> l + Z.of_nat n <= bs_sectors (store v) < 2 ^ 32 ->
  (forall k, l <= k < l + Z.of_nat n -> bs_view (store v) k = zero_sector) ->
  exists s, region_is_blank n v l buf = (1, set_store v s) /\ store_same (store v) s.
Proof.
  induction n as [|n IH]; intros v l buf Hok Hg Hl Hend Hz.
  { exists (store v). split; [by destruct v|done]. }
  cbn [region_is_blank]. rewrite u32_small by lia.
  destruct (disk_read_ok v l buf Hok Hg ltac:(lia)) as (s & -> & Hs). rewrite Z.eqb_refl. cbn [negb].
  rewrite Hz by lia. rewrite zero_sector_blank.
  destruct (IH (set_store v s) (l + 1) zero_sector) as (s' & Hr & Hs').
  - apply Hs.
  - apply Hs.
  - lia.
  - cbn. rewrite (ss_sectors _ _ Hs). lia.
  - intros k Hk. cbn. rewrite (ss_view _ _ Hs). apply Hz. lia.
  - exists s'. rewrite Hr. split; [by destruct v|]. cbn in Hs'. destruct Hs, Hs'. constructor; try done; [congruence|].
    intros k. congruence.
Qed.

Lemma write_mbr_sector n :
  take 512 (sector_of 0 512 (encode_mbr (new_mbr n))) = encode_mbr (new_mbr n).
Proof.
  assert (length (encode_mbr (new_mbr n)) = 512%nat) as Hl.
  { unfold encode_mbr, new_mbr. cbn [boot_code partitions signature map concat].
    rewrite !length_app, length_replicate, length_le. unfold encode_part at 1. cbn [mp_status mp_chs_first mp_type mp_chs_last mp_lba_first mp_sector_count].
    rewrite !length_app, !length_le. reflexivity. }
  unfold sector_of. rewrite slice_all by (unfold alen; lia). rewrite Hl. cbn [Nat.sub replicate]. rewrite app_nil_r.
  apply take_ge. lia.
Qed.

(** The disk is blank, of [n] sectors, and large enough for a file system. *)
Record blank_disk (s : S) (n : Z) : Prop := {
  bl_good : bs_good s;
  bl_sectors : bs_sectors s = n /\ n < 2 ^ 32;
  bl_large : FS_PART_START_LBA + FS_DATA_START_SECTOR < n /\ 3 <= usable_clusters (n - FS_PART_START_LBA) /\
    0 < sb_total_clusters (format_super (n - FS_PART_START_LBA) (usable_clusters (n - FS_PART_START_LBA)));
  bl_512 : forall k, 0 <= k < n -> length (bs_medium s k) = 512%nat;
  bl_blank : forall k, 0 <= k < FS_PART_START_LBA + FS_LEGACY_DIR_SECTORS -> bs_medium s k = zero_sector
}.

(** What a file system made on a disk of [n] sectors can hold. *)
Definition format_limits (n : Z) : limits :=
  let sb := format_super (n - FS_PART_START_LBA) (usable_clusters (n - FS_PART_START_LBA)) in
  mk_limits (sb_max_entries sb) (Z.max 0 (sb_total_clusters sb - FS_FIRST_DATA_CLUSTER)).

Lemma init_blank_ok heap v stack n :
  blank_disk (store v) n -> ha_ok heap = true -> (forall i, is_u32 (ha_after heap i)) ->
  let w := init_fs heap v stack in
  fs_wf w (fun _ => []) /\ abs w (fun _ => []) = ∅ /\ fs_was_formatted w = true /\
  limits_of w = format_limits n.
Proof.
  intros [Hgood0 [Hn Hn32] (Hlarge & Huse & Hpos) H512 Hz] Hheap Hafter.
  unfold FS_PART_START_LBA, FS_LEGACY_DIR_SECTORS, FS_DATA_START_SECTOR in Hlarge, Hz.
  destruct (bs_reset_spec (store v)) as (Hok1 & Hn1 & Hv1). pose proof (bs_reset_good (store v) Hgood0) as Hgood1.
  unfold init_fs. cbn [store set_store bs_sectors]. rewrite Hn1, Hn.
  destruct (Z.leb_spec n (FS_PART_START_LBA + FS_DATA_START_SECTOR)); [unfold FS_PART_START_LBA, FS_DATA_START_SECTOR in *; lia|].
  set (u := fs_tables_free _). assert (store u = bs_reset (store v)) as Hsu by done.
  unfold load_partition. destruct (disk_read_ok u 0 stack) as (s1 & -> & Hs1); [by rewrite Hsu|by rewrite Hsu|rewrite Hsu, Hn1; lia|].
  rewrite Z.eqb_refl. cbn [negb]. rewrite Hsu, Hv1, Hz, choose_partition_blank by lia.
  change (0 <? 0) with false. change (0 =? 0) with true. cbn [negb].
  destruct (disk_read_ok (set_store u s1) 0 stack) as (s2 & -> & Hs2);
    [apply Hs1|apply Hs1|cbn; rewrite (ss_sectors _ _ Hs1), Hsu, Hn1; lia|].
  rewrite Z.eqb_refl. cbn [negb store set_store]. rewrite (ss_view _ _ Hs1), Hsu, Hv1, Hz by lia.
  rewrite zero_sector_magic.
  unfold disk_region_is_blank. change (Z.to_nat (FS_PART_START_LBA + FS_LEGACY_DIR_SECTORS)) with 200%nat.
  assert (bs_sectors s2 = n) as Hn2 by (rewrite (ss_sectors _ _ Hs2); cbn; rewrite (ss_sectors _ _ Hs1), Hsu; congruence).
  assert (forall k, bs_view s2 k = bs_medium (store v) k) as Hv2
    by (intros k; rewrite (ss_view _ _ Hs2); cbn; rewrite (ss_view _ _ Hs1), Hsu; apply Hv1).
  destruct (region_is_blank_ok 200 (set_store (set_store u s1) s2) 0 stack) as (s3 & -> & Hs3);
    [apply Hs2|apply Hs2|lia|cbn; lia|intros k Hk; cbn; rewrite Hv2; apply Hz; lia|].
  change (1 <? 0) with false. change (1 =? 0) with false. cbn [store set_store] in Hs3.
  assert (bs_sectors s3 = n) as Hn3 by (rewrite (ss_sectors _ _ Hs3); done).
  assert (forall k, bs_view s3 k = bs_medium (store v) k) as Hv3 by (intros k; rewrite (ss_view _ _ Hs3); apply Hv2).
  set (u3 := set_clusters _ _). change (fs_total_clusters u3) with (usable_clusters (n - FS_PART_START_LBA)).
  destruct (Z.ltb_spec (usable_clusters (n - FS_PART_START_LBA)) (FS_FIRST_DATA_CLUSTER + 1)); [unfold FS_FIRST_DATA_CLUSTER in *; lia|].
  unfold write_mbr, disk_write. change (store u3) with s3.
  destruct (bs_write s3 0 _) as [r4 s4] eqn:Hw. assert (0 <= 0 < bs_sectors s3) as Hl0 by lia.
  destruct (bs_write_good _ _ _ _ _ (ss_ok _ _ Hs3) (ss_good _ _ Hs3) Hl0 Hw) as [-> Hg4].
  destruct (bs_write_spec _ _ _ _ _ (ss_ok _ _ Hs3) Hw) as (Hok4 & Hn4 & Hv4). rewrite Z.eqb_refl. cbn [negb].
  set (u4 := set_store u3 s4).
  assert (bs_view s4 0 = encode_mbr (new_mbr n)) as Hmbr by (rewrite Hv4, bool_decide_eq_true_2 by done; apply write_mbr_sector).
  assert (io_ok u4) as Hio4 by (constructor; cbn; [done|done|unfold FS_PART_START_LBA; lia|rewrite Hn4, Hn3; lia]).
  assert (labelled u4) as Hlab4.
  { unfold labelled. cbn. rewrite Hn4, Hn3, Hmbr. split; [unfold FS_PART_START_LBA, FS_DATA_START_SECTOR; lia|].
    apply choose_new_mbr. unfold FS_PART_START_LBA, FS_DATA_START_SECTOR. lia. }
  destruct (format_disk_ok heap u4 Hio4 Hlab4 Hheap Hafter) as (w & Hfmt & Hwf & Hdt & Hfm & Hlim1 & Hlim2).
  { cbn. lia. }
  { intros k Hk. unfold part_view. cbn in *. unfold FS_PART_START_LBA in *. rewrite Hv4, bool_decide_eq_false_2, Hv3 by lia. apply H512. lia. }
  { done. }
  rewrite Hfmt, Z.eqb_refl. cbn [negb].
  destruct (load_tables_ok (set_mounted w true) (fun _ => []) w stack Hwf) as [Hwf' Hsame].
  - destruct (geo_io _ (wf_geo _ _ Hwf)). by constructor.
  - exact (dk_label _ (wf_disk _ _ Hwf)).
  - by constructor.
  - exact (cw_len _ _ _ _ _ (wf_chains _ _ Hwf)).
  - split; [done|]. split; [|split; [by rewrite load_tables_formatted|]].
    2: { unfold limits_of, format_limits. rewrite (sf_entries _ _ _ Hsame), (sf_clusters _ _ _ Hsame).
         change (fs_max_entries (set_mounted w true)) with (fs_max_entries w).
         change (fs_total_clusters (set_mounted w true)) with (fs_total_clusters w). by rewrite Hlim1, Hlim2. }
    rewrite (same_fs_abs _ _ _ Hwf Hsame). apply map_eq. intros i. rewrite lookup_empty. apply abs_None.
    intros [Hi Hu]. unfold used in Hu. change (dir_table (set_mounted w true)) with (dir_table w) in Hu.
    change (fs_max_entries (set_mounted w true)) with (fs_max_entries w) in Hi. rewrite Hdt, aget_replicate in Hu by lia. done.
Qed.

End mount.

(** ** Disks a mount leaves alone *)

(** This part does not need the store to be reliable. *)
Section spare.
Context {S : Type} {bs : BlockStore S} {laws : StoreLaws S}.
Implicit Types v w : vfs S.

(** From [v] to [w] nothing has been written, and nothing has been mounted. *)
Record quiet (v w : vfs S) : Prop := {
  q_ok : bs_ok (store w);
  q_sectors : bs_sectors (store w) = bs_sectors (store v);
  q_view : forall k, bs_view (store w) k = bs_view (store v) k;
  q_mounted : fs_mounted w = fs_mounted v
}.

Lemma quiet_trans u v w : quiet u v -> quiet v w -> quiet u w.
Proof. intros [] []. constructor; [done|congruence| |congruence]. intros k. by rewrite q_view1. Qed.

Lemma disk_read_quiet v l buf r out w :
  bs_ok (store v) -> disk_read v l buf = (r, out, w) ->
  quiet v w /\ (r = E_OK -> out = bs_view (store v) l) /\ r = (bs_read (store v) l buf).1.1.
Proof.
  intros Hok. unfold disk_read. destruct (bs_read (store v) l buf) as [[r0 o] s] eqn:Hr. intros [= <- <- <-].
  destruct (bs_read_spec _ _ _ _ _ _ Hok Hr) as (Hok' & Hn & Hv & Ho). split; [by constructor|done].
Qed.

Lemma read_sector_quiet v k buf r out w : bs_ok (store v) -> fs_read_sector v k buf = (r, out, w) -> quiet v w.
Proof. intros Hok Hr. by destruct (disk_read_quiet _ _ _ _ _ _ Hok Hr). Qed.

Lemma read_run_quiet n : forall v start mem acc, bs_ok (store v) -> quiet v (read_run n v start mem acc).2.
Proof.
  induction n as [|n IH]; intros v start mem acc Hok; [by constructor|]. cbn [read_run].
  destruct (fs_read_sector _ _ _) as [[r out] w] eqn:Hr. apply read_sector_quiet in Hr; [|done].
  destruct (negb _); [done|]. apply (quiet_trans _ w); [done|]. apply IH, Hr.
Qed.

Lemma read_dir_run_quiet n : forall v start stack acc, bs_ok (store v) -> quiet v (read_dir_run n v start stack acc).2.
Proof.
  induction n as [|n IH]; intros v start stack acc Hok; [by constructor|]. cbn [read_dir_run].
  destruct (fs_read_sector _ _ _) as [[r out] w] eqn:Hr. apply read_sector_quiet in Hr; [|done].
  destruct (negb _); [done|]. apply (quiet_trans _ w); [done|]. apply IH, Hr.
Qed.

Lemma save_fat_mounted v : fs_mounted (save_fat_to_disk v) = fs_mounted v.
Proof.
  unfold save_fat_to_disk. match goal with |- context [for_range 0 ?b ?f v] => set (n := b); set (g := f) end.
  destruct (Z.le_gt_cases n 0); [by rewrite for_range_empty|].
  apply (for_range_ind (fun _ w => fs_mounted w = fs_mounted v)); [lia|done|].
  intros i w _ <-. unfold g, fs_write_sector, disk_write. by destruct (bs_write _ _ _).
Qed.

(** [load_tables] mounts, or it has only read. *)
Lemma load_tables_quiet v stack :
  bs_ok (store v) -> fs_mounted (load_tables v stack) = true \/ quiet v (load_tables v stack).
Proof.
  intros Hok. unfold load_tables.
  match goal with |- context [read_dir_run ?n ?v ?a ?b ?c] => pose proof (read_dir_run_quiet n v a b c Hok) as H1 end.
  destruct (read_dir_run _ _ _ _ _) as [[ok bytes] w]. cbn in H1.
  set (w1 := set_dir w _). assert (quiet v w1) as Hq1 by (destruct H1; by constructor). clearbody w1.
  destruct (negb ok); [by right|].
  match goal with |- context [read_run ?n ?v ?a ?b ?c] => pose proof (read_run_quiet n v a b c (q_ok _ _ Hq1)) as H2 end.
  destruct (read_run _ _ _ _ _) as [[ok2 bytes2] w2]. cbn in H2.
  set (w3 := set_fat w2 _). assert (quiet v w3) as Hq3 by (apply (quiet_trans _ w1); [done|]; destruct H2; by constructor).
  clearbody w3. destruct (negb ok2); [by right|].
  assert (quiet v (reserve_first w3)) as Hq4 by (destruct Hq3; by constructor).
  destruct (negb _); [right; destruct Hq4; by constructor|left; by rewrite save_fat_mounted].
Qed.

(** The codes of failed reads are negative, as those of errno.h are. *)
Context (Herr : forall s l buf, (bs_read s l buf).1.1 <= 0).

Lemma region_is_blank_quiet n : forall v l buf r w,
  bs_ok (store v) -> 0 <= l -> l + Z.of_nat n < 2 ^ 32 -> region_is_blank n v l buf = (r, w) ->
  quiet v w /\ (r < 0 \/ r = 0 \/
    forall k, l <= k < l + Z.of_nat n -> forallb (fun b => b =? 0) (bs_view (store v) k) = true).
Proof.
  induction n as [|n IH]; intros v l buf r w Hok Hl Hend; cbn [region_is_blank].
  { intros [= <- <-]. split; [by constructor|]. right; right. lia. }
  rewrite u32_small by lia. destruct (disk_read v l buf) as [[res out] v1] eqn:Hr.
  destruct (disk_read_quiet _ _ _ _ _ _ Hok Hr) as (Hq & Hout & Hres). specialize (Herr (store v) l buf). rewrite <- Hres in Herr.
  destruct (Z.eqb_spec res E_OK) as [->|Hne]; cbn [negb].
  2: { intros [= <- <-]. split; [done|]. left. unfold E_OK in Hne. lia. }
  destruct (forallb _ out) eqn:Hz.
  2: { intros [= <- <-]. split; [done|]. by right; left. }
  intros Hrun. destruct (IH v1 (l + 1) out r w (q_ok _ _ Hq) ltac:(lia) ltac:(lia) Hrun) as [Hq' Hcase].
  split; [by apply (quiet_trans _ v1)|]. destruct Hcase as [?|[?|Hb]]; [by left|by right; left|]. right; right.
  intros k Hk. destruct (Z.eq_dec k l) as [->|Hkl]; [by rewrite <- Hout|]. rewrite <- (q_view _ _ Hq). apply Hb. lia.
Qed.

Lemma load_partition_quiet v n stack part w :
  bs_ok (store v) -> load_partition v n stack = (part, w) ->
  quiet v w /\ (part < 0 \/ part = 0 \/ part = 1 /\ choose_partition n (bs_view (store v) 0) <> None).
Proof.
  intros Hok. unfold load_partition. destruct (disk_read v 0 stack) as [[res out] v1] eqn:Hr.
  destruct (disk_read_quiet _ _ _ _ _ _ Hok Hr) as (Hq & Hout & _).
  destruct (Z.eqb_spec res E_OK) as [->|Hne]; cbn [negb].
  2: { intros [= <- <-]. split; [done|]. left. lia. }
  rewrite <- (Hout eq_refl). destruct (choose_partition n out) as [[a b]|] eqn:Hc; intros [= <- <-].
  - split; [destruct Hq; by constructor|]. right; right. done.
  - split; [done|]. right; left. done.
Qed.

Lemma load_superblock_quiet v stack ok w : bs_ok (store v) -> load_superblock v stack = (ok, w) -> quiet v w.
Proof.
  intros Hok. unfold load_superblock. destruct (fs_read_sector _ _ _) as [[r out] v1] eqn:Hr.
  apply read_sector_quiet in Hr; [|done]. destruct (negb _); [by intros [= _ <-]|].
  destruct (super_acceptable _ _); intros [= _ <-]; destruct Hr; by constructor.
Qed.

Lemma tables_alloc_quiet heap v e c r w : bs_ok (store v) -> fs_tables_alloc heap v e c = (r, w) -> quiet v w.
Proof.
  intros Hok. unfold fs_tables_alloc. repeat case_match; intros [= _ <-]; by constructor.
Qed.

Lemma init_fs_quiet heap v stack :
  (exists k, 0 <= k < FS_PART_START_LBA + FS_LEGACY_DIR_SECTORS /\ forallb (fun b => b =? 0) (bs_medium (store v) k) = false) ->
  let w := init_fs heap v stack in
  (fs_mounted w = true /\ choose_partition (bs_sectors (store v)) (bs_medium (store v) 0) <> None) \/
  (fs_mounted w = false /\ forall k, bs_view (store w) k = bs_medium (store v) k).
Proof.
  intros (k0 & Hk0 & Hnz). unfold init_fs. destruct (bs_reset_spec (store v)) as (Hok1 & Hn1 & Hv1).
  cbn [store set_store bs_sectors]. set (u := fs_tables_free _).
  assert (quiet u u) as Hqu by (constructor; done).
  assert (forall w, quiet u w -> fs_mounted w = false /\ forall k, bs_view (store w) k = bs_medium (store v) k) as Hdone.
  { intros w [_ _ Hv Hm]. split; [by rewrite Hm|]. intros k. by rewrite Hv, <- Hv1. }
  assert (forall k, bs_view (store u) k = bs_medium (store v) k) as Hvu by (intros k; apply Hv1).
  assert (fs_mounted u = false) as Hmu by done.
  destruct (_ <=? _); [right; by apply Hdone|]. rewrite Hn1.
  destruct (load_partition u _ stack) as [part u1] eqn:Hp.
  destruct (load_partition_quiet u _ _ _ _ Hok1 Hp) as [Hq1 Hpart]. clearbody u.
  destruct (Z.ltb_spec part 0); [right; by apply Hdone|]. destruct (Z.eqb_spec part 0) as [->|Hp0]; cbn [negb].
  - destruct (disk_read u1 0 stack) as [[res out] u2] eqn:Hr.
    destruct (disk_read_quiet _ _ _ _ _ _ (q_ok _ _ Hq1) Hr) as (Hq2 & _ & _). pose proof (quiet_trans _ _ _ Hq1 Hq2) as Hq2'.
    destruct (negb _); [right; by apply Hdone|]. destruct (_ =? _); [right; by apply Hdone|].
    unfold disk_region_is_blank. destruct (region_is_blank _ u2 0 stack) as [blank u3] eqn:Hb.
    destruct (region_is_blank_quiet (Z.to_nat (FS_PART_START_LBA + FS_LEGACY_DIR_SECTORS)) u2 0 stack blank u3
      (q_ok _ _ Hq2) (Z.le_refl 0) eq_refl Hb) as [Hq3 Hcase].
    pose proof (quiet_trans _ _ _ Hq2' Hq3) as Hq3'. destruct (Z.ltb_spec blank 0); [right; by apply Hdone|].
    destruct Hcase as [?|[->|Hall]]; [lia| |].
    + change (0 =? 0) with true. cbn iota. destruct (disk_read u3 0 stack) as [[res4 out4] u4] eqn:Hr4. cbn [snd].
      destruct (disk_read_quiet _ _ _ _ _ _ (q_ok _ _ Hq3) Hr4) as (Hq4 & _ & _). right. apply Hdone.
      by apply (quiet_trans _ u3).
    + exfalso. rewrite <- Hvu, <- (q_view _ _ Hq2') in Hnz. rewrite Hall in Hnz; [done|].
      unfold FS_PART_START_LBA, FS_LEGACY_DIR_SECTORS in *. lia.
  - destruct Hpart as [?|[?|[-> Hch]]]; [lia|lia|]. rewrite Hvu in Hch.
    set (u2 := set_clusters u1 _). assert (quiet u u2) as Hq2 by (destruct Hq1; by constructor). clearbody u2.
    destruct (load_superblock u2 stack) as [ok u3] eqn:Hs. apply load_superblock_quiet in Hs; [|apply Hq2].
    pose proof (quiet_trans _ _ _ Hq2 Hs) as Hq3. destruct (negb ok); [right; by apply Hdone|].
    destruct (fs_tables_alloc _ _ _ _) as [res u4] eqn:Ht. apply tables_alloc_quiet in Ht; [|apply Hq3].
    pose proof (quiet_trans _ _ _ Hq3 Ht) as Hq4. destruct (negb _); [right; by apply Hdone|].
    destruct (load_tables_quiet u4 stack (q_ok _ _ Hq4)) as [Hm|Hq5]; [by left|]. right. apply Hdone. by apply (quiet_trans _ u4).
Qed.

End spare.
End VfsMount.
