(* ===== verification/VfsProps.v ===== *)
(** * Properties of the file system

    The theorems about the file system of Vfs.v as a whole: its calls are those
    of a tree of named files, the tree survives a power cycle, a blank disk gives
    the empty tree, storage is accounted for, and what is written is what is
    read.  The examples run on a blank disk in memory. *)

From S2P Require Import Prelude CStr Fat FsFormat BlockStore Vfs VfsDisk VfsData VfsInv VfsOps VfsSpec VfsMount.
Import Fat FsFormat BlockStore Vfs VfsDisk VfsData VfsInv VfsOps VfsSpec VfsMount.

Module VfsProps.

(** ** A blank disk in memory *)

Definition blank_ram : ram := mk_ram 4096 (fun _ => zero_sector).
Definition boot_heap : heap_answer := mk_heap true (fun _ => 0).
Definition no_super : disk_superblock := mk_super 0 0 0 0 0 0 0 0 0 0 0 0 0 [].
Definition boot_vfs : vfs ram := mk_vfs blank_ram 0 0 0 0 false false no_super [] [].
Definition root_env : env := mk_env 0 0 1000 0 true true.

Lemma blank_ram_blank : blank_disk (store boot_vfs) 4096.
Proof.
  constructor; [done|done| |intros; reflexivity|reflexivity].
  split; [done|]. split; [|reflexivity]. vm_compute. discriminate.
Qed.

(** The file system made on it. *)
Definition new_fs : vfs ram := init_fs boot_heap boot_vfs [].

Lemma new_fs_wf : fs_wf new_fs (fun _ => []) /\ abs new_fs (fun _ => []) = ∅ /\ limits_of new_fs = format_limits 4096.
Proof.
  destruct (init_blank_ok boot_heap boot_vfs [] 4096 blank_ram_blank eq_refl) as (Hwf & Habs & _ & Hlim).
  - intros i. unfold is_u32. cbn. lia.
  - exact (conj Hwf (conj Habs Hlim)).
Qed.

#[local] Opaque new_fs.

Definition sample_calls : list (env * fs_call) :=
  [(root_env, Mkdir [97; 0] 0); (root_env, Create [98; 0] [1; 2; 3] 3 0); (root_env, Rename [98; 0] [99; 0] 0);
   (root_env, Chmod 1 0x1FF); (root_env, Delete [99; 0] 0)].

Lemma sample_calls_ok : Forall call_ok sample_calls.
Proof. repeat (apply Forall_cons; split); try apply Forall_nil; repeat split; vm_compute; first [reflexivity|discriminate]. Qed.

Section props.
Context {S : Type} {bs : BlockStore S} {laws : StoreLaws S} {rel : StoreReliable S}.
Implicit Types v w : vfs S.

(** C1: the file system refines a tree of named files.  On a sound file system
    over any reliable store, any sequence of creations, directory creations,
    deletions, renames and changes of mode and owner answers as the tree does,
    each refusal having the cause its error code names, leaves the tree those
    calls leave, and keeps the file system sound: names unique, chains disjoint
    and of the right length, tables in memory and on the disk the same. *)
Theorem vfs_refines_tree v ch cs rs w :
  fs_wf v ch -> Forall call_ok cs -> run_calls v cs = (rs, w) ->
  exists ch', fs_wf w ch' /\ tree_steps (limits_of v) (abs v ch) cs rs (abs w ch').
Proof. apply run_calls_simulates. Qed.

(** C7: what has been flushed is there after a power cycle.  After any sequence
    of calls, a flush of the store followed by a mount that starts from nothing
    but the disk succeeds and finds the tree the calls left. *)
Theorem vfs_survives_power_cycle v ch cs rs w r heap v' stack :
  fs_wf v ch -> Forall call_ok cs -> run_calls v cs = (rs, w) ->
  bs_flush (store w) = (r, store v') -> ha_ok heap = true ->
  exists ch', r = E_OK /\ fs_wf (init_fs heap v' stack) ch' /\
    tree_steps (limits_of v) (abs v ch) cs rs (abs (init_fs heap v' stack) ch').
Proof.
  intros Hwf Hcs Hrun Hfl Hheap. destruct (run_calls_simulates cs v ch rs w Hwf Hcs Hrun) as (ch' & Hwf' & Hst).
  destruct (remount_ok w ch' heap v' stack r Hwf' Hfl Hheap) as (-> & Hwf'' & Hsame). exists ch'.
  rewrite (same_fs_abs w _ ch' Hwf' Hsame). done.
Qed.

(** mounting a blank disk makes a file system: the partition table, the
    superblock and both tables are written so that the result is sound and its
    tree is empty. *)
Theorem init_fs_formats_blank heap v stack n :
  blank_disk (store v) n -> ha_ok heap = true -> (forall i, is_u32 (ha_after heap i)) ->
  fs_wf (init_fs heap v stack) (fun _ => []) /\ abs (init_fs heap v stack) (fun _ => []) = ∅ /\
  fs_was_formatted (init_fs heap v stack) = true /\ limits_of (init_fs heap v stack) = format_limits n.
Proof. intros. by apply (init_blank_ok heap v stack n). Qed.

(** C10: storage is accounted for.  After any sequence of calls the free clusters
    and the clusters the files of the tree need add up to all data clusters:
    nothing leaks and nothing is handed out twice. *)
Theorem clusters_never_leak v ch cs rs w :
  fs_wf v ch -> Forall call_ok cs -> run_calls v cs = (rs, w) ->
  exists ch', fs_wf w ch' /\
    alen (free_in (file_allocation_table w) FS_FIRST_DATA_CLUSTER (fs_total_clusters w)) + clusters_used (abs w ch') =
    Z.max 0 (fs_total_clusters w - FS_FIRST_DATA_CLUSTER).
Proof.
  intros Hwf Hcs Hrun. destruct (run_calls_simulates cs v ch rs w Hwf Hcs Hrun) as (ch' & Hwf' & _).
  exists ch'. split; [done|]. by apply clusters_accounted.
Qed.

(** ** Writing and reading back *)

(** [fs_open] on an entry. *)
Lemma fs_open_entry v ch p name i f :
  fs_wf v ch -> is_entry v p name i ->
  fs_open v name p f = (E_OK, mk_file (safe_strcpy (vf_filename f) (filename (entry v i)) MAX_FILENAME)
    (file_size (entry v i)) 0 (start_cluster (entry v i)) 1 i [] 0 false).
Proof.
  intros Hwf Hent. unfold fs_open. rewrite (wf_mounted _ _ Hwf). cbn [negb].
  pose proof (find_names1 v p name) as Hf. destruct (for_find _ _ _) as [k|]; [|by destruct (Hf i)].
  assert (k = i) as ->; [|done]. destruct Hf as (Hk & Huk & Hpk & Hnk), Hent as (Hi & Hui & Hpi & Hni).
  apply (dw_unique _ _ _ (wf_dir _ _ Hwf)); try done; unfold entry in *; congruence.
Qed.

(** Reading [n] bytes at [o] of a file of the tree. *)
Lemma read_entry v ch i f stack o n :
  fs_wf v ch -> 0 <= i < fs_max_entries v -> regular (dir_table v) i ->
  vf_start_cluster f = start_cluster (entry v i) -> vf_file_size f = file_size (entry v i) ->
  0 <= o -> 0 <= n -> o + n < 2 ^ 32 ->
  let k := Z.max 0 (Z.min n (file_size (entry v i) - o)) in
  exists w, fs_read_raw stack v (set_offset f o) n = (k, slice o k (contents v ch i), set_offset f (o + k), w) /\
    wrote (fun _ => None) v w.
Proof.
  intros Hwf Hi Hr Hsc Hfs Ho Hn H32 k.
  destruct (cw_chain _ _ _ _ _ (wf_chains _ _ Hwf) i Hi Hr) as (Hch & _ & Hlen).
  pose proof (et_size _ (dw_typed _ _ _ (wf_dir _ _ Hwf) i Hi)) as Hs.
  assert (0 <= file_size (dir_table v).[i]) as Hs0 by apply Hs. destruct (clusters_for_fits _ Hs0) as [_ Hfit].
  destruct (fs_read_raw_ok v (set_offset f o) (ch i) stack n (wf_geo _ _ Hwf)) as (w & Hrd & Hw); cbn; try done.
  - rewrite Hsc. exact Hch.
  - intros k' Hk'. apply (dk_512 _ (wf_disk _ _ Hwf)). by apply (chain_sectors_range _ _ _ _ (wf_geo _ _ Hwf) Hch).
  - rewrite Hfs. unfold entry. lia.
  - exists w. split; [|done]. rewrite Hrd. cbn. rewrite Hfs. unfold contents. done.
Qed.

(** A creation that has room makes a file that opens under its name. *)
Lemma create_then_open v ch e name content size p f :
  fs_wf v ch -> env_ok e -> 0 <= size <= alen content -> size + 4095 < 2 ^ 32 -> 0 <= p ->
  alen (cstr name) < MAX_FILENAME -> is_dir (abs v ch) p -> free_name (abs v ch) p name ->
  (exists i, 0 < i < fs_max_entries v /\ abs v ch !! i = None) ->
  clusters_used (abs v ch) + clusters_for size <= max_clusters (limits_of v) ->
  exists w ch' i f', fs_create_file_raw e v name content size p = (E_OK, w) /\ fs_open w name p f = (E_OK, f') /\
    fs_wf w ch' /\ 0 <= i < fs_max_entries w /\ regular (dir_table w) i /\
    file_size (entry w i) = size /\ contents w ch' i = take (Z.to_nat size) content /\
    vf_file_size f' = size /\ vf_start_cluster f' = start_cluster (entry w i).
Proof.
  intros Hwf He Hsz H32 Hp Hname Hdir Hfree (i0 & Hi0 & Hn0) Hspace.
  destruct (fs_create_file_raw e v name content size p) as [r w] eqn:Hc.
  pose proof (fs_create_file_raw_ok v ch e name content size p r w Hwf He Hsz H32 Hc) as Hok. case_bool_decide as Hr.
  - subst r. destruct Hok as (i & l & Hwf' & Hce & _ & _ & _ & Hent & Hty & Hfs & _ & _ & _ & Hcont).
    pose proof (fs_open_entry w _ p name i f Hwf' Hent) as Hopen. destruct Hent as (Hi & Hu & _).
    set (f' := mk_file _ _ _ _ _ _ _ _ _) in Hopen.
    exists w, (set_chain ch i l), i, f'. repeat (split; [done|]). done.
  - exfalso. destruct Hok as [-> [Href|[-> Hfull]]].
    + destruct Href as [Hl|Hd|i Hent|Hf].
      * rewrite ft_strlen_cstr in Hl. lia.
      * apply (abs_is_dir v ch p Hwf Hp) in Hdir. congruence.
      * apply (Hfree i). by apply abs_named.
      * by apply (abs_full v ch Hf Hwf i0).
    + pose proof (clusters_accounted v ch Hwf). lia.
Qed.

(** The first sector of a file. *)
Lemma first_sector v ch i stack :
  fs_wf v ch -> 0 <= i < fs_max_entries v -> regular (dir_table v) i ->
  exists w sector, fs_read_sector v (fs_cluster_to_sector (fs_super v) (start_cluster (entry v i))) stack = (E_OK, sector, w) /\
    length sector = 512%nat /\ forall n, 0 <= n <= 512 -> n <= file_size (entry v i) ->
    slice 0 n sector = slice 0 n (contents v ch i).
Proof.
  intros Hwf Hi Hr. pose proof (wf_geo _ _ Hwf) as Hgeo.
  destruct (cw_chain _ _ _ _ _ (wf_chains _ _ Hwf) i Hi Hr) as (Hch & Hne & _). unfold entry.
  destruct (ch i) as [|c l] eqn:Hl; [done|]. pose proof Hch as (Hc & Hcr & _). unfold FS_FIRST_DATA_CLUSTER in Hcr.
  destruct (cluster_start_eq v c Hgeo ltac:(lia)) as (Hcs & Hlo & Hhi). unfold FS_CLUSTER_SECTORS in Hhi.
  rewrite Hc, Hcs.
  assert (Hin : cluster_start v c ∈ chain_sectors v (c :: l)).
  { apply elem_of_chain_sectors. exists c. split; [by left|]. unfold in_run, FS_CLUSTER_SECTORS. lia. }
  pose proof (chain_sectors_range _ _ _ _ Hgeo Hch Hin) as Hrange.
  assert (H512 : forall k, k ∈ chain_sectors v (c :: l) -> length (part_view v k) = 512%nat).
  { intros k Hk. apply (dk_512 _ (wf_disk _ _ Hwf)). by apply (chain_sectors_range _ _ _ _ Hgeo Hch). }
  destruct (fs_read_sector v (cluster_start v c) stack) as [[res out] w] eqn:Hrd.
  apply read_sector_wrote in Hrd as (-> & -> & _); [|apply Hgeo|].
  2: { pose proof (data_start_nonneg v Hgeo). lia. }
  exists w, (part_view v (cluster_start v c)). split; [done|]. split; [by apply H512|]. intros n Hn Hs.
  unfold contents, file_bytes, entry. rewrite Hl. unfold slice at 2. rewrite drop_0, take_take, Nat.min_l by lia.
  pose proof (chain_data_slice v (c :: l) H512 [] c l 0 0 n eq_refl ltac:(lia) ltac:(lia) ltac:(lia) ltac:(lia)) as Hcd.
  replace (cluster_start v c + 0) with (cluster_start v c) in Hcd by lia. exact (eq_sym Hcd).
Qed.

(** C8: what is written is what is read.  When the name fits and is free, the
    directory exists, a slot is free and the clusters suffice, a creation
    succeeds, and the file it makes can be opened by its name and read back, at
    any offset and in pieces of any size, as exactly the bytes given. *)
Theorem create_open_read v ch e name content size p f stack o n :
  fs_wf v ch -> env_ok e -> 0 <= size <= alen content -> size + 4095 < 2 ^ 32 -> 0 <= p ->
  alen (cstr name) < MAX_FILENAME -> is_dir (abs v ch) p -> free_name (abs v ch) p name ->
  (exists i, 0 < i < fs_max_entries v /\ abs v ch !! i = None) ->
  clusters_used (abs v ch) + clusters_for size <= max_clusters (limits_of v) ->
  0 <= o <= size -> 0 <= n -> o + n < 2 ^ 32 ->
  exists w f' w', fs_create_file_raw e v name content size p = (E_OK, w) /\ fs_open w name p f = (E_OK, f') /\
    vf_file_size f' = size /\
    fs_read_raw stack w (set_offset f' o) n =
      (Z.min n (size - o), slice o (Z.min n (size - o)) content, set_offset f' (o + Z.min n (size - o)), w').
Proof.
  intros Hwf He Hsz H32 Hp Hname Hdir Hfree Hslot Hspace Ho Hn Hon.
  destruct (create_then_open v ch e name content size p f Hwf He Hsz H32 Hp Hname Hdir Hfree Hslot Hspace)
    as (w & ch' & i & f' & Hc & Hopen & Hwf' & Hi & Hr & Hfs & Hcont & Hsz' & Hsc).
  destruct (read_entry w ch' i f' stack o n Hwf' Hi Hr Hsc) as (w' & Hrd & _); [congruence|lia..|].
  rewrite Hfs, Hcont in Hrd. replace (Z.max 0 (Z.min n (size - o))) with (Z.min n (size - o)) in Hrd by lia.
  exists w, f', w'. split; [done|]. split; [done|]. split; [done|]. rewrite Hrd. do 3 f_equal.
  rewrite <- slice_take by lia. f_equal. lia.
Qed.

End props.

(** C9: what a mount does to a disk turns on its first 200 sectors.  As long as
    failed reads report negative codes: when one of those sectors has a byte that is
    not zero, a mount either mounts a file system whose partition it found in the
    partition table, or leaves every sector as it was; and when all of them are
    zero and the disk is large enough, it makes an empty file system there,
    whatever the sectors behind them hold. *)
Theorem init_fs_spares_data {S} {bs : BlockStore S} {laws : StoreLaws S} {rel : StoreReliable S} heap (v : vfs S) stack :
  (forall s l buf, (bs_read s l buf).1.1 <= 0) ->
  ((exists k, 0 <= k < FS_PART_START_LBA + FS_LEGACY_DIR_SECTORS /\
              forallb (fun b => b =? 0) (bs_medium (store v) k) = false) ->
   (fs_mounted (init_fs heap v stack) = true /\
    choose_partition (bs_sectors (store v)) (bs_medium (store v) 0) <> None) \/
   (fs_mounted (init_fs heap v stack) = false /\
    forall k, bs_view (store (init_fs heap v stack)) k = bs_medium (store v) k)) /\
  (forall n, blank_disk (store v) n -> ha_ok heap = true -> (forall i, is_u32 (ha_after heap i)) ->
   fs_mounted (init_fs heap v stack) = true /\ fs_was_formatted (init_fs heap v stack) = true /\
   abs (init_fs heap v stack) (fun _ => []) = ∅).
Proof.
  intros Herr. split; [intros; by apply init_fs_quiet|]. intros n Hb Hh Ha.
  destruct (init_blank_ok heap v stack n Hb Hh Ha) as (Hwf & Habs & Hf & _). split; [|done]. by apply (wf_mounted _ _ Hwf).
Qed.

(** A disk with something of someone else's in its third sector, and one with
    something in its three hundredth. *)
Definition foreign_vfs : vfs ram :=
  mk_vfs (mk_ram 4096 (fun k => if k =? 2 then [7] else zero_sector)) 0 0 0 0 false false no_super [] [].
Definition tail_vfs : vfs ram :=
  mk_vfs (mk_ram 4096 (fun k => if k =? 300 then replicate 512 7 else zero_sector)) 0 0 0 0 false false no_super [] [].

Lemma ram_errors s l buf : (@bs_read ram _ s l buf).1.1 <= 0.
Proof. cbn. destruct (_ && _); cbn; discriminate. Qed.

Lemma tail_vfs_blank : blank_disk (store tail_vfs) 4096.
Proof.
  constructor; [done|done| | |].
  - split; [done|]. split; [|reflexivity]. vm_compute. discriminate.
  - intros k _. cbn. by destruct (k =? 300).
  - intros k Hk. cbn. unfold FS_PART_START_LBA, FS_LEGACY_DIR_SECTORS in Hk. destruct (Z.eqb_spec k 300); [lia|done].
Qed.

Lemma init_fs_spares_data_witness :
  ((fs_mounted (init_fs boot_heap foreign_vfs []) = true /\
    choose_partition (bs_sectors (store foreign_vfs)) (bs_medium (store foreign_vfs) 0) <> None) \/
   (fs_mounted (init_fs boot_heap foreign_vfs []) = false /\
    forall k, bs_view (store (init_fs boot_heap foreign_vfs [])) k = bs_medium (store foreign_vfs) k)) /\
  fs_was_formatted (init_fs boot_heap tail_vfs []) = true.
Proof.
  split.
  - apply (init_fs_spares_data boot_heap foreign_vfs []); [apply ram_errors|].
    exists 2. split; [split; [discriminate|reflexivity]|reflexivity].
  - apply (init_fs_spares_data boot_heap tail_vfs [] ram_errors) with (n := 4096); [apply tail_vfs_blank|reflexivity|].
    intros i. unfold is_u32. cbn. lia.
Defined.

Lemma vfs_refines_tree_witness :
  exists ch', fs_wf (run_calls new_fs sample_calls).2 ch' /\
    tree_steps (limits_of new_fs) (abs new_fs (fun _ => [])) sample_calls (run_calls new_fs sample_calls).1
      (abs (run_calls new_fs sample_calls).2 ch').
Proof. apply (vfs_refines_tree new_fs (fun _ => [])); [apply new_fs_wf|apply sample_calls_ok|apply surjective_pairing]. Defined.

Lemma vfs_survives_power_cycle_witness :
  let w := (run_calls new_fs sample_calls).2 in
  exists ch', E_OK = E_OK /\ fs_wf (init_fs boot_heap w []) ch' /\
    tree_steps (limits_of new_fs) (abs new_fs (fun _ => [])) sample_calls (run_calls new_fs sample_calls).1
      (abs (init_fs boot_heap w []) ch').
Proof.
  intros w. apply (vfs_survives_power_cycle new_fs (fun _ => []) sample_calls (run_calls new_fs sample_calls).1 w E_OK);
    [apply new_fs_wf|apply sample_calls_ok|apply surjective_pairing|reflexivity|reflexivity].
Defined.

Lemma init_fs_formats_blank_witness : abs (init_fs boot_heap boot_vfs []) (fun _ => []) = ∅.
Proof.
  apply (init_fs_formats_blank boot_heap boot_vfs [] 4096 blank_ram_blank eq_refl).
  intros i. unfold is_u32. cbn. lia.
Defined.

Lemma clusters_never_leak_witness :
  exists ch', fs_wf (run_calls new_fs sample_calls).2 ch' /\
    alen (free_in (file_allocation_table (run_calls new_fs sample_calls).2) FS_FIRST_DATA_CLUSTER
            (fs_total_clusters (run_calls new_fs sample_calls).2)) + clusters_used (abs (run_calls new_fs sample_calls).2 ch') =
    Z.max 0 (fs_total_clusters (run_calls new_fs sample_calls).2 - FS_FIRST_DATA_CLUSTER).
Proof. apply (clusters_never_leak new_fs (fun _ => []) sample_calls (run_calls new_fs sample_calls).1 (run_calls new_fs sample_calls).2); [apply new_fs_wf|apply sample_calls_ok|apply surjective_pairing]. Defined.

Lemma create_open_read_witness :
  exists w f' w', fs_create_file_raw root_env new_fs [98; 0] [1; 2; 3] 3 0 = (E_OK, w) /\
    fs_open w [98; 0] 0 (mk_file [] 0 0 0 0 0 [] 0 false) = (E_OK, f') /\ vf_file_size f' = 3 /\
    fs_read_raw [] w (set_offset f' 1) 10 = (2, [2; 3], set_offset f' 3, w').
Proof.
  destruct new_fs_wf as (Hwf & Habs & Hlim). 
  assert (max_nodes (format_limits 4096) = 1024) as H512 by (vm_compute; reflexivity).
  assert (fs_max_entries new_fs = 1024) as Hmax by (rewrite <- H512, <- Hlim; reflexivity).
  apply (create_open_read new_fs (fun _ => []) root_env [98; 0] [1; 2; 3] 3 0 (mk_file [] 0 0 0 0 0 [] 0 false) [] 1 10);
    rewrite ?Habs, ?Hlim.
  - exact Hwf.
  - vm_compute. repeat split; discriminate.
  - vm_compute. split; discriminate.
  - reflexivity.
  - discriminate.
  - reflexivity.
  - by left.
  - intros i (m & Hm & _). by rewrite lookup_empty in Hm.
  - exists 1. split; [|by apply lookup_empty]. lia.
  - vm_compute. discriminate.
  - split; discriminate.
  - discriminate.
  - reflexivity.
Defined.

End VfsProps.
