(* ===== verification/Sha256.v ===== *)
(** * SHA-256 (crypto/sha256.c)

    The compression function, the incremental context and the one-shot helpers,
    translated operation by operation on 32-bit words.  [digest m] pads the whole
    message, cuts it into blocks of 64 bytes and folds the program's compression
    function over them; feeding a message in any pieces to a context, whatever
    its buffer held before, gives that digest.  Fips180.v proves it to be the one
    the standard defines. *)

From S2P Require Import Prelude CStr.

Module Sha256.

(** ** The program *)

Definition ROTRIGHT (word b : Z) : Z := Z.lor (Z.shiftr word b) (u32 (Z.shiftl word (32 - b))).
Definition CH (x y z : Z) : Z := Z.lxor (Z.land x y) (Z.land (not32 x) z).
Definition MAJ (x y z : Z) : Z := Z.lxor (Z.lxor (Z.land x y) (Z.land x z)) (Z.land y z).
Definition EP0 (x : Z) : Z := Z.lxor (Z.lxor (ROTRIGHT x 2) (ROTRIGHT x 13)) (ROTRIGHT x 22).
Definition EP1 (x : Z) : Z := Z.lxor (Z.lxor (ROTRIGHT x 6) (ROTRIGHT x 11)) (ROTRIGHT x 25).
Definition SIG0 (x : Z) : Z := Z.lxor (Z.lxor (ROTRIGHT x 7) (ROTRIGHT x 18)) (Z.shiftr x 3).
Definition SIG1 (x : Z) : Z := Z.lxor (Z.lxor (ROTRIGHT x 17) (ROTRIGHT x 19)) (Z.shiftr x 10).

(** The table of the source, a row per line of it. *)
Definition k : list Z :=
  [0x428a2f98; 0x71374491; 0xb5c0fbcf; 0xe9b5dba5; 0x3956c25b; 0x59f111f1; 0x923f82a4; 0xab1c5ed5] ++
  [0xd807aa98; 0x12835b01; 0x243185be; 0x550c7dc3; 0x72be5d74; 0x80deb1fe; 0x9bdc06a7; 0xc19bf174] ++
  [0xe49b69c1; 0xefbe4786; 0x0fc19dc6; 0x240ca1cc; 0x2de92c6f; 0x4a7484aa; 0x5cb0a9dc; 0x76f988da] ++
  [0x983e5152; 0xa831c66d; 0xb00327c8; 0xbf597fc7; 0xc6e00bf3; 0xd5a79147; 0x06ca6351; 0x14292967] ++
  [0x27b70a85; 0x2e1b2138; 0x4d2c6dfc; 0x53380d13; 0x650a7354; 0x766a0abb; 0x81c2c92e; 0x92722c85] ++
  [0xa2bfe8a1; 0xa81a664b; 0xc24b8b70; 0xc76c51a3; 0xd192e819; 0xd6990624; 0xf40e3585; 0x106aa070] ++
  [0x19a4c116; 0x1e376c08; 0x2748774c; 0x34b0bcb5; 0x391c0cb3; 0x4ed8aa4a; 0x5b9cca4f; 0x682e6ff3] ++
  [0x748f82ee; 0x78a5636f; 0x84c87814; 0x8cc70208; 0x90befffa; 0xa4506ceb; 0xbef9a3f7; 0xc67178f2].

(** The message schedule [m[0..63]] of one block. *)
Definition message_schedule (data : list Z) : list Z :=
  let m := for_range 0 16 (fun m i =>
    let j := 4 * i in
    m.[i <- u32 (Z.lor (Z.lor (Z.lor (Z.shiftl data.[j] 24) (Z.shiftl data.[j + 1] 16))
                              (Z.shiftl data.[j + 2] 8)) data.[j + 3])]) (replicate 64 0) in
  for_range 16 64 (fun m i =>
    m.[i <- u32 (SIG1 m.[i - 2] + m.[i - 7] + SIG0 m.[i - 15] + m.[i - 16])]) m.

(** The eight working variables. *)
Record vars := mkVars { va : Z; vb : Z; vc : Z; vd : Z; ve : Z; vf : Z; vg : Z; vh : Z }.

Definition round (m : list Z) (v : vars) (i : Z) : vars :=
  let '(mkVars a b c d e f g h) := v in
  let t1 := u32 (h + EP1 e + CH e f g + k.[i] + m.[i]) in
  let t2 := u32 (EP0 a + MAJ a b c) in
  mkVars (u32 (t1 + t2)) a b c (u32 (d + t1)) e f g.

Definition sha256_transform (state data : list Z) : list Z :=
  let m := message_schedule data in
  let v := for_range 0 64 (round m)
    (mkVars state.[0] state.[1] state.[2] state.[3] state.[4] state.[5] state.[6] state.[7]) in
  [ u32 (state.[0] + va v); u32 (state.[1] + vb v); u32 (state.[2] + vc v); u32 (state.[3] + vd v);
    u32 (state.[4] + ve v); u32 (state.[5] + vf v); u32 (state.[6] + vg v); u32 (state.[7] + vh v) ].

Record sha256_ctx := mkCtx {
  state : list Z;
  total_len : Z;
  buffer_len : Z;
  buffer : list Z;
}.

Definition initial_state : list Z :=
  [0x6a09e667; 0xbb67ae85; 0x3c6ef372; 0xa54ff53a; 0x510e527f; 0x9b05688c; 0x1f83d9ab; 0x5be0cd19].

(** [sha256_init] leaves the buffer as it is. *)
Definition sha256_init (ctx : sha256_ctx) : sha256_ctx :=
  mkCtx initial_state 0 0 (buffer ctx).

(** One turn of the loop of [sha256_update]: fill the buffer, compress when full. *)
Definition update_step (s : sha256_ctx * list Z) : sha256_ctx * list Z :=
  let '(ctx, data) := s in
  let len := alen data in
  let space := 64 - buffer_len ctx in
  let n := if len <? space then len else space in
  let buf := ft_memcpy (buffer ctx) (buffer_len ctx) data n in
  let blen := buffer_len ctx + n in
  let data := drop (Z.to_nat n) data in
  if blen =? 64 then (mkCtx (sha256_transform (state ctx) buf) (total_len ctx) 0 buf, data)
  else (mkCtx (state ctx) (total_len ctx) blen buf, data).

Definition sha256_update (ctx : sha256_ctx) (data : list Z) : sha256_ctx :=
  if alen data =? 0 then ctx
  else fst (while_loop (length data) (fun s => 0 <? alen (snd s)) update_step
    (mkCtx (state ctx) (u32 (total_len ctx + alen data)) (buffer_len ctx) (buffer ctx), data)).

(** Four stores of one word, the highest byte first. *)
Definition store_be32 (b : list Z) (off w : Z) : list Z :=
  b.[off <- Z.land (Z.shiftr w 24) 0xFF].[off + 1 <- Z.land (Z.shiftr w 16) 0xFF]
   .[off + 2 <- Z.land (Z.shiftr w 8) 0xFF].[off + 3 <- Z.land w 0xFF].

(** [while (rem < to) buffer[rem++] = 0x00;] *)
Definition zero_fill (b : list Z) (rem to : Z) : list Z :=
  for_range rem to (fun b i => b.[i <- 0]) b.

Definition sha256_final (ctx : sha256_ctx) : list Z :=
  let rem := buffer_len ctx in
  let buf := (buffer ctx).[rem <- 0x80] in
  let rem := rem + 1 in
  let '(st, buf, rem) :=
    if 56 <? rem then
      let buf := zero_fill buf rem 64 in
      (sha256_transform (state ctx) buf, buf, 0)
    else (state ctx, buf, rem) in
  let buf := zero_fill buf rem 56 in
  let bitlen_hi := Z.shiftr (total_len ctx) 29 in
  let bitlen_lo := u32 (Z.shiftl (total_len ctx) 3) in
  let buf := store_be32 (store_be32 buf 56 bitlen_hi) 60 bitlen_lo in
  let st := sha256_transform st buf in
  for_range 0 8 (fun out i => store_be32 out (i * 4) st.[i]) (replicate 32 0).

(** A context on the stack; [digest_streams] shows that what its buffer holds
    does not matter. *)
Definition stack_ctx : sha256_ctx := mkCtx (replicate 8 0) 0 0 (replicate 64 0).

Definition sha256_binary (input : list Z) : list Z :=
  sha256_final (sha256_update (sha256_init stack_ctx) input).

(** The characters ['0'..'9'] and ['a'..'f']. *)
Definition hex_chars : list Z :=
  [48;49;50;51;52;53;54;55;56;57;97;98;99;100;101;102].

Definition sha256_to_hex (input : list Z) : list Z :=
  let digest := sha256_binary (cstr input) in
  let out := for_range 0 32 (fun out i =>
    out.[i * 2 <- hex_chars.[Z.shiftr digest.[i] 4]]
       .[i * 2 + 1 <- hex_chars.[Z.land digest.[i] 0x0F]]) (replicate 65 0) in
  out.[64 <- 0].

(** ** One pass over the padded message *)

Definition be (n : nat) (x : Z) : list Z :=
  (fun i : nat => x / 2 ^ (8 * Z.of_nat i) mod 256) <$> reverse (seq 0 n).

Definition pad (m : list Z) : list Z :=
  m ++ [0x80] ++ replicate (Z.to_nat ((55 - alen m) mod 64)) 0 ++ be 8 (8 * alen m).

Fixpoint chunks (fuel : nat) (l : list Z) : list (list Z) :=
  match fuel, l with
  | S f, _ :: _ => take 64 l :: chunks f (drop 64 l)
  | _, _ => []
  end.

Definition compress (m : list Z) : list Z :=
  foldl sha256_transform initial_state (chunks (length m) m).

Definition digest (m : list Z) : list Z := mjoin (be 4 <$> compress (pad m)).

(** ** Stores into a buffer *)

Lemma be_4 w :
  be 4 w = [Z.land (Z.shiftr w 24) 0xFF; Z.land (Z.shiftr w 16) 0xFF; Z.land (Z.shiftr w 8) 0xFF; Z.land w 0xFF].
Proof.
  change 0xFF with (Z.ones 8). rewrite !Z.land_ones, !Z.shiftr_div_pow2 by lia.
  unfold be. cbn. by rewrite Z.div_1_r.
Qed.

Lemma store_be32_eq b off w : 0 <= off -> off + 4 <= alen b ->
  store_be32 b off w = take (Z.to_nat off) b ++ be 4 w ++ drop (Z.to_nat (off + 4)) b.
Proof.
  intros Ho Hb.
  transitivity (ft_memcpy b off (be 4 w) 4).
  - rewrite be_4. unfold ft_memcpy. rewrite !for_range_step, for_range_empty by lia. by rewrite Z.add_0_r.
  - rewrite be_4. by rewrite ft_memcpy_eq by (unfold alen in *; simpl; lia).
Qed.

Lemma alen_be n x : alen (be n x) = Z.of_nat n.
Proof. unfold be, alen. by rewrite length_fmap, length_reverse, length_seq. Qed.

Lemma length_be n x : length (be n x) = n.
Proof. pose proof (alen_be n x). unfold alen in *. lia. Qed.

Lemma zero_fill_eq b rem to : 0 <= rem <= to -> to <= alen b ->
  zero_fill b rem to = take (Z.to_nat rem) b ++ replicate (Z.to_nat (to - rem)) 0 ++ drop (Z.to_nat to) b.
Proof.
  intros Hr Ht. unfold zero_fill.
  apply (for_range_ind (fun i t => t = take (Z.to_nat rem) b ++ replicate (Z.to_nat (i - rem)) 0 ++ drop (Z.to_nat i) b)); [lia| |].
  - rewrite Z.sub_diag. simpl. by rewrite take_drop.
  - intros i t Hi ->. unfold aset, alen in *. destruct (Z.ltb_spec i 0); [lia|].
    rewrite insert_app_r_alt by (rewrite length_take; lia).
    rewrite insert_app_r_alt by (rewrite length_take, length_replicate; lia).
    rewrite length_take, length_replicate, Nat.min_l by lia.
    replace (Z.to_nat i - Z.to_nat rem - Z.to_nat (i - rem))%nat with 0%nat by lia.
    replace (Z.to_nat (i + 1 - rem)) with (Z.to_nat (i - rem) + 1)%nat by lia.
    rewrite replicate_add, <- app_assoc. do 2 f_equal.
    destruct (lookup_lt_is_Some_2 b (Z.to_nat i)) as [x Hx]; [lia|].
    rewrite (drop_S _ _ _ Hx). simpl. do 2 f_equal. lia.
Qed.

(** ** What a context has absorbed *)

Definition absorbed (m : list Z) (ctx : sha256_ctx) : Prop :=
  alen (buffer ctx) = 64 /\
  exists bs t, m = mjoin bs ++ t /\ Forall (fun b => length b = 64%nat) bs /\
    state ctx = foldl sha256_transform initial_state bs /\
    buffer_len ctx = alen t /\ alen t < 64 /\ take (length t) (buffer ctx) = t.

Lemma absorbed_init ctx : alen (buffer ctx) = 64 -> absorbed [] (sha256_init ctx).
Proof. intros Hb. split; [done|]. by exists [], []. Qed.

Lemma absorbed_step m ctx d :
  absorbed m ctx -> 0 < alen d ->
  exists n, (0 < n <= length d)%nat /\ snd (update_step (ctx, d)) = drop n d /\
    total_len (fst (update_step (ctx, d))) = total_len ctx /\
    absorbed (m ++ take n d) (fst (update_step (ctx, d))).
Proof.
  intros (Hb & bs & t & -> & Hbs & Hst & Hlen & Ht & Htake) Hd.
  set (n := if alen d <? 64 - alen t then alen d else 64 - alen t).
  assert (Hn : 0 < n <= alen d /\ alen t + n <= 64) by (unfold n; case_bool; pose proof (alen_nonneg t); lia).
  exists (Z.to_nat n). pose proof (alen_nonneg t) as Ht0.
  assert (Hpre : ft_memcpy (buffer ctx) (alen t) d n
    = (t ++ take (Z.to_nat n) d) ++ drop (Z.to_nat (alen t + n)) (buffer ctx)).
  { rewrite ft_memcpy_eq by lia. rewrite app_assoc. f_equal. f_equal. unfold alen. by rewrite Nat2Z.id. }
  assert (Hl : length (t ++ take (Z.to_nat n) d) = Z.to_nat (alen t + n)).
  { unfold alen in *. rewrite length_app, length_take. lia. }
  unfold update_step. rewrite Hlen. fold n. split; [unfold alen in *; lia|].
  destruct (Z.eqb_spec (alen t + n) 64) as [E|E]; simpl; (split; [done|]); (split; [done|]);
    (split; [simpl; by rewrite alen_ft_memcpy|]); simpl.
  - exists (bs ++ [t ++ take (Z.to_nat n) d]), []. rewrite join_app. simpl. rewrite !app_nil_r.
    split; [by rewrite app_assoc|]. split; [|split; [|by split]].
    + apply Forall_app. split; [done|]. constructor; [|done]. rewrite Hl, E. done.
    + rewrite foldl_app, <- Hst. simpl. f_equal. rewrite Hpre, drop_ge, app_nil_r; [done|].
      unfold alen in *. lia.
  - exists bs, (t ++ take (Z.to_nat n) d). rewrite Hl, Hpre, app_assoc. split; [done|]. split; [done|].
    split; [done|]. assert (alen (t ++ take (Z.to_nat n) d) = alen t + n) as -> by (unfold alen at 1; rewrite Hl; lia).
    split; [done|]. split; [lia|].
    by rewrite <- Hl, take_app_length.
Qed.

#[local] Arguments update_step : simpl never.
#[local] Arguments sha256_transform : simpl never.

Lemma absorbed_loop fuel m ctx d :
  absorbed m ctx -> (length d <= fuel)%nat ->
  let r := fst (while_loop fuel (fun s => 0 <? alen (snd s)) update_step (ctx, d)) in
  absorbed (m ++ d) r /\ total_len r = total_len ctx.
Proof.
  revert m ctx d. induction fuel as [|f IH]; intros m ctx d Ha Hf; simpl.
  - destruct d; simpl in *; [|lia]. by rewrite app_nil_r.
  - destruct (Z.ltb_spec 0 (alen d)) as [Hd|Hd].
    + destruct (absorbed_step m ctx d Ha Hd) as (n & Hn & E1 & E2 & E3).
      destruct (update_step (ctx, d)) as [ctx' d'] eqn:Es. simpl in *. subst d'.
      destruct (IH _ ctx' (drop n d) E3) as [Ha' Ht']; [rewrite length_drop; lia|].
      rewrite <- app_assoc, take_drop in Ha'. split; [done|]. by rewrite Ht'.
    + destruct d; [|unfold alen in Hd; simpl in Hd; lia]. by rewrite app_nil_r.
Qed.

Lemma absorbed_update m ctx d :
  absorbed m ctx ->
  absorbed (m ++ d) (sha256_update ctx d) /\
  (is_u32 (total_len ctx) -> total_len (sha256_update ctx d) = u32 (total_len ctx + alen d)).
Proof.
  intros Ha. unfold sha256_update. destruct (Z.eqb_spec (alen d) 0) as [E|E].
  - destruct d; [|done]. rewrite app_nil_r. split; [done|]. intros. rewrite E, Z.add_0_r. by rewrite u32_small.
  - destruct (absorbed_loop (length d) m
      (mkCtx (state ctx) (u32 (total_len ctx + alen d)) (buffer_len ctx) (buffer ctx)) d) as [H1 H2]; [done|done|].
    split; [done|]. intros _. by rewrite H2.
Qed.

Lemma absorbed_updates ds : forall m ctx,
  absorbed m ctx -> total_len ctx = alen m -> alen (m ++ mjoin ds) < 2 ^ 32 ->
  absorbed (m ++ mjoin ds) (foldl sha256_update ctx ds) /\
  total_len (foldl sha256_update ctx ds) = alen (m ++ mjoin ds).
Proof.
  induction ds as [|d ds IH]; intros m ctx Ha Ht Hl; simpl.
  - by rewrite app_nil_r.
  - change (mjoin (d :: ds)) with (d ++ mjoin ds) in *. rewrite app_assoc in *.
    destruct (absorbed_update m ctx d Ha) as [Ha' Ht'].
    pose proof (alen_nonneg (mjoin ds)). pose proof (alen_nonneg m). pose proof (alen_nonneg d).
    rewrite !alen_app in Hl. apply IH; [done| |by rewrite !alen_app; lia].
    rewrite Ht' by (unfold is_u32; lia). rewrite Ht, alen_app, u32_small by lia. done.
Qed.

(** ** The last blocks *)

Lemma length_chunks_join (bs : list (list Z)) : Forall (fun b => length b = 64%nat) bs ->
  length (mjoin bs) = (64 * length bs)%nat.
Proof. induction 1 as [|b bs Hb _ IH]; [done|]. change (mjoin (b :: bs)) with (b ++ mjoin bs). rewrite length_app. simpl. lia. Qed.

Lemma chunks_join (bs : list (list Z)) : forall fuel, Forall (fun b => length b = 64%nat) bs ->
  (length bs <= fuel)%nat -> chunks fuel (mjoin bs) = bs.
Proof.
  induction bs as [|b bs IH]; intros fuel Hb Hf; [by destruct fuel|].
  inversion_clear Hb as [|? ? Hl Hbs]. destruct fuel as [|f]; simpl in Hf; [lia|].
  change (mjoin (b :: bs)) with (b ++ mjoin bs).
  transitivity (take 64 (b ++ mjoin bs) :: chunks f (drop 64 (b ++ mjoin bs))); [by destruct b|].
  rewrite <- Hl, take_app_length, drop_app_length, IH by (done || lia). done.
Qed.

Lemma compress_join (bs : list (list Z)) : Forall (fun b => length b = 64%nat) bs ->
  compress (mjoin bs) = foldl sha256_transform initial_state bs.
Proof. intros Hb. unfold compress. rewrite chunks_join; [done|done|]. rewrite length_chunks_join by done. lia. Qed.

Lemma store_words st : length st = 8%nat ->
  for_range 0 8 (fun out i => store_be32 out (i * 4) st.[i]) (replicate 32 0) = mjoin (be 4 <$> st).
Proof.
  intros Hst.
  assert (Hlen : forall i, (i <= 8)%nat -> length (mjoin (be 4 <$> take i st)) = (4 * i)%nat).
  { intros i Hi. induction i as [|i IH]; [done|].
    destruct (lookup_lt_is_Some_2 st i) as [x Hx]; [lia|].
    rewrite (take_S_r _ _ _ Hx), fmap_app, join_app, length_app, IH by lia. simpl. lia. }
  transitivity (mjoin (be 4 <$> take (Z.to_nat 8) st) ++ replicate (Z.to_nat (32 - 4 * 8)) 0).
  2: { rewrite take_ge by (rewrite Hst; lia). simpl. by rewrite app_nil_r. }
  apply (for_range_ind (fun i out => out = mjoin (be 4 <$> take (Z.to_nat i) st) ++ replicate (Z.to_nat (32 - 4 * i)) 0));
    [lia|done|].
  intros i out Hi ->.
  rewrite store_be32_eq by (unfold alen; rewrite ?length_app, ?length_replicate, ?Hlen by lia; lia).
  rewrite take_app_length' by (rewrite Hlen by lia; lia).
  rewrite drop_app_ge, drop_replicate, Hlen by (rewrite ?Hlen by lia; lia).
  assert (Hx : st !! Z.to_nat i = Some st.[i]) by (apply aget_lookup; unfold alen; lia).
  replace (Z.to_nat (i + 1)) with (S (Z.to_nat i)) by lia.
  rewrite (take_S_r _ _ _ Hx), fmap_app, join_app, <- app_assoc. simpl.
  do 6 f_equal. lia.
Qed.

Lemma bitlen_bytes l : 0 <= l < 2 ^ 32 ->
  be 4 (Z.shiftr l 29) ++ be 4 (u32 (Z.shiftl l 3)) = be 8 (8 * l).
Proof.
  intros Hl. unfold be, u32. rewrite Z.shiftr_div_pow2, Z.shiftl_mul_pow2 by lia. cbn.
  rewrite !Z.div_1_r.
  repeat match goal with |- context [2 ^ ?e] => let v := eval vm_compute in (2 ^ e) in change (2 ^ e) with v end.
  repeat (apply f_equal2; [zlia|]). done.
Qed.

(** The buffer of a context whose buffered bytes are [t], from the [0x80] on. *)
Lemma pad_buffer buf t to : alen buf = 64 -> take (length t) buf = t -> alen t < to <= 64 ->
  zero_fill buf.[alen t <- 0x80] (alen t + 1) to
  = (t ++ [0x80] ++ replicate (Z.to_nat (to - (alen t + 1))) 0) ++ drop (Z.to_nat to) buf.
Proof.
  intros Hb Ht Hto. pose proof (alen_nonneg t).
  rewrite zero_fill_eq by (rewrite ?alen_aset; lia).
  unfold aset. destruct (Z.ltb_spec (alen t) 0); [lia|].
  unfold alen in *. rewrite insert_take_drop by lia.
  rewrite Nat2Z.id, Ht, <- app_assoc.
  replace (Z.to_nat (Z.of_nat (length t) + 1)) with (length t + 1)%nat by lia.
  rewrite take_app_add. simpl. rewrite <- app_assoc. simpl.
  assert (drop (Z.to_nat to) (t ++ 128 :: drop (S (length t)) buf) = drop (Z.to_nat to) buf) as ->; [|done].
  rewrite drop_app_ge by lia.
  replace (Z.to_nat to - length t)%nat with (S (Z.to_nat to - length t - 1)) by lia. simpl.
  rewrite drop_drop. f_equal. lia.
Qed.

Lemma pad_split bs (t : list Z) : Forall (fun b => length b = 64%nat) bs -> alen t < 64 ->
  pad (mjoin bs ++ t) = mjoin bs ++ t ++ [0x80] ++
    replicate (Z.to_nat (if alen t <? 56 then 55 - alen t else 119 - alen t)) 0 ++
    be 8 (8 * alen (mjoin bs ++ t)).
Proof.
  intros Hbs Ht.
  enough (E : (55 - alen (mjoin bs ++ t)) mod 64 = if alen t <? 56 then 55 - alen t else 119 - alen t)
    by (unfold pad; by rewrite E, <- !app_assoc).
  rewrite alen_app. unfold alen at 1. rewrite length_chunks_join by done.
  pose proof (alen_nonneg t).
  replace (55 - (Z.of_nat (64 * length bs) + alen t)) with (55 - alen t + (- Z.of_nat (length bs)) * 64) by lia.
  rewrite Z.mod_add by lia. destruct (Z.ltb_spec (alen t) 56); [by apply Z.mod_small; lia|].
  rewrite <- (Z.mod_add _ 1), Z.mod_small by lia. lia.
Qed.

(** What [sha256_final] stores after the zeroes. *)
Lemma store_bitlen (p : list Z) buf l : length p = 56%nat -> alen (p ++ drop 56 buf) = 64 -> 0 <= l < 2 ^ 32 ->
  store_be32 (store_be32 (p ++ drop 56 buf) 56 (Z.shiftr l 29)) 60 (u32 (Z.shiftl l 3)) = p ++ be 8 (8 * l).
Proof.
  intros Hp Hb Hl. rewrite <- bitlen_bytes by done.
  rewrite (store_be32_eq (p ++ _)) by lia.
  rewrite take_app_length' by (rewrite Hp; done).
  rewrite store_be32_eq; [|lia|].
  - rewrite (app_assoc p), take_app_length' by (rewrite length_app, Hp, length_be; done).
    rewrite <- !app_assoc. do 3 f_equal. unfold alen in Hb. rewrite length_app, length_drop, Hp in Hb.
    rewrite drop_ge, app_nil_r; [done|]. rewrite !length_app, !length_drop, length_app, length_drop, Hp. simpl. lia.
  - unfold alen in *. rewrite !length_app, length_drop, Hp in *. simpl. rewrite length_app, length_drop in *. lia.
Qed.

Lemma sha256_final_digest m ctx :
  absorbed m ctx -> total_len ctx = alen m -> alen m < 2 ^ 32 -> sha256_final ctx = digest m.
Proof.
  intros (Hb & bs & t & Hm & Hbs & Hst & Hlen & Ht & Htake) Htot Hl.
  pose proof (alen_nonneg t). pose proof (alen_nonneg m).
  unfold sha256_final, digest. rewrite Hlen, Htot.
  pose proof (pad_split bs t Hbs Ht) as Hpad. rewrite <- Hm in Hpad. rewrite Hpad.
  destruct (Z.ltb_spec 56 (alen t + 1)) as [Hr|Hr]; destruct (Z.ltb_spec (alen t) 56); try lia.
  - rewrite pad_buffer, drop_ge, app_nil_r by (done || unfold alen in *; lia).
    set (b1 := t ++ [128] ++ replicate (Z.to_nat (64 - (alen t + 1))) 0).
    assert (Hb1 : length b1 = 64%nat) by (unfold b1, alen in *; rewrite !length_app, length_replicate; simpl; lia).
    rewrite zero_fill_eq by (unfold alen; rewrite ?Hb1; lia).
    change (take (Z.to_nat 0) b1 ++ replicate (Z.to_nat (56 - 0)) 0 ++ drop (Z.to_nat 56) b1) with (replicate 56 0 ++ drop 56 b1).
    rewrite store_bitlen by (try done; try (unfold alen; rewrite length_app, length_drop, Hb1; done); lia).
    rewrite store_words by done. f_equal. f_equal.
    transitivity (compress (mjoin (bs ++ [b1; replicate 56 0 ++ be 8 (8 * alen m)]))).
    + rewrite compress_join, foldl_app, <- Hst; [done|]. apply Forall_app. split; [done|]. by repeat constructor.
    + f_equal. rewrite join_app. f_equal. unfold b1.
      change (mjoin [?a; ?b]) with (a ++ b ++ []). rewrite app_nil_r, <- !app_assoc.
      replace (Z.to_nat (119 - alen t)) with (Z.to_nat (64 - (alen t + 1)) + 56)%nat by lia.
      by rewrite replicate_add, <- app_assoc.
  - rewrite pad_buffer by (done || lia).
    set (p := t ++ [128] ++ replicate (Z.to_nat (56 - (alen t + 1))) 0).
    assert (Hp : length p = 56%nat) by (unfold p, alen in *; rewrite !length_app, length_replicate; simpl; lia).
    change (Z.to_nat 56) with 56%nat.
    rewrite store_bitlen by (try done; try (unfold alen in *; rewrite length_app, length_drop, Hp; lia); lia).
    rewrite store_words by done. f_equal. f_equal.
    transitivity (compress (mjoin (bs ++ [p ++ be 8 (8 * alen m)]))).
    + rewrite compress_join, foldl_app, <- Hst; [done|]. apply Forall_app. split; [done|]. constructor; [|done].
      by rewrite length_app, Hp.
    + f_equal. rewrite join_app. f_equal. unfold p.
      change (mjoin [?a]) with (a ++ []). rewrite app_nil_r, <- !app_assoc.
      by replace (56 - (alen t + 1)) with (55 - alen t) by lia.
Qed.

Lemma digest_streams ctx ds :
  alen (buffer ctx) = 64 -> alen (mjoin ds) < 2 ^ 32 ->
  sha256_final (foldl sha256_update (sha256_init ctx) ds) = digest (mjoin ds).
Proof.
  intros Hb Hl. destruct (absorbed_updates ds [] (sha256_init ctx)) as [Ha Ht]; [by apply absorbed_init|done|done|].
  by apply sha256_final_digest.
Qed.

Lemma sha256_binary_digest m : alen m < 2 ^ 32 -> sha256_binary m = digest m.
Proof.
  intros Hm. pose proof (digest_streams stack_ctx [m] eq_refl) as H. simpl in H.
  rewrite app_nil_r in H. by apply H.
Qed.

(** A digest is 32 bytes, whatever the context. *)
Lemma store_be32_bytes b off w : bytes b -> bytes (store_be32 b off w).
Proof.
  intros Hb. assert (Hu : forall x, is_u8 (Z.land x 0xFF)).
  { intros x. change 0xFF with (Z.ones 8). rewrite Z.land_ones by lia. apply Z.mod_pos_bound. lia. }
  unfold store_be32. by repeat apply bytes_aset.
Qed.

Lemma sha256_final_bytes ctx : bytes (sha256_final ctx) /\ alen (sha256_final ctx) = 32.
Proof.
  unfold sha256_final. match goal with |- context [if ?b then ?x else ?y] => destruct (if b then x else y) as [[st buf] rem] end.
  apply (for_range_ind (fun _ out => bytes out /\ alen out = 32)); [lia| |].
  - split; [apply bytes_replicate; unfold is_u8; lia|done].
  - intros i out _ [Hb Hl]. split; [by apply store_be32_bytes|]. unfold store_be32. by rewrite !alen_aset.
Qed.

End Sha256.
