(* ===== verification/Fips180.v ===== *)
(** * SHA-256 against its standard (FIPS 180-4)

    The hash function written down from the text of the standard, without any
    definition of the program: the constants as roots of primes, the functions on
    words by arithmetic, the schedule and the working variables as recurrences.
    The compression function of crypto/sha256.c is proved equal to it, and with it
    everything the incremental context computes. *)

From S2P Require Import Prelude CStr Sha256.

Module Fips180.

(** ** The standard *)

(** Section 2.2: operations on words of 32 bits. *)
Definition ROTR (n x : Z) : Z := x / 2 ^ n + x mod 2 ^ n * 2 ^ (32 - n).
Definition SHR (n x : Z) : Z := x / 2 ^ n.
Definition complement (x : Z) : Z := 2 ^ 32 - 1 - x.
Definition xor3 (x y z : Z) : Z := Z.lxor (Z.lxor x y) z.

(** Section 4.1.2. *)
Definition Ch (x y z : Z) : Z := Z.lxor (Z.land x y) (Z.land (complement x) z).
Definition Maj (x y z : Z) : Z := xor3 (Z.land x y) (Z.land x z) (Z.land y z).
Definition Sigma0 (x : Z) : Z := xor3 (ROTR 2 x) (ROTR 13 x) (ROTR 22 x).
Definition Sigma1 (x : Z) : Z := xor3 (ROTR 6 x) (ROTR 11 x) (ROTR 25 x).
Definition sigma0 (x : Z) : Z := xor3 (ROTR 7 x) (ROTR 18 x) (SHR 3 x).
Definition sigma1 (x : Z) : Z := xor3 (ROTR 17 x) (ROTR 19 x) (SHR 10 x).

(** Sections 4.2.2 and 5.3.3: the first 32 bits of the fractional parts of the cube
    roots of the first 64 primes, and of the square roots of the first eight. *)
Definition is_prime (n : Z) : bool := (2 <=? n) && forallb (fun d => negb (n mod d =? 0)) (seqZ 2 (n - 2)).
Definition primes (bound : Z) : list Z := List.filter is_prime (seqZ 2 (bound - 1)).

(** The largest number of 36 bits whose [e]-th power is not above [n]. *)
Definition root (e n : Z) : Z :=
  foldl (fun r i => if (r + 2 ^ i) ^ e <=? n then r + 2 ^ i else r) 0 (reverse (seqZ 0 36)).
Definition root_fraction (e p : Z) : Z := root e (p * 2 ^ (32 * e)) mod 2 ^ 32.

Definition K : list Z := root_fraction 3 <$> primes 311.
Definition H0 : list Z := root_fraction 2 <$> primes 19.

(** Section 5.1.1: a one bit, zeroes, and the length in bits. *)
Definition be (n : nat) (x : Z) : list Z := (fun i : nat => x / 2 ^ (8 * Z.of_nat i) mod 256) <$> reverse (seq 0 n).
Definition pad (m : list Z) : list Z :=
  m ++ [0x80] ++ replicate (Z.to_nat ((55 - alen m) mod 64)) 0 ++ be 8 (8 * alen m).

(** Section 5.2.1: blocks of sixteen words, the highest byte first. *)
Fixpoint blocks (n : nat) (l : list Z) : list (list Z) :=
  match n with O => [] | S n => take 64 l :: blocks n (drop 64 l) end.
Definition word (l : list Z) : Z := foldl (fun w b => 256 * w + b) 0 l.
Definition words (block : list Z) : list Z := (fun i => word (take 4 (drop (4 * i) block))) <$> seq 0 16.

(** Section 6.2.2, step 1: [schedule t] is [W_0 .. W_{15+t}]. *)
Fixpoint schedule (block : list Z) (t : nat) : list Z :=
  match t with
  | O => words block
  | S t =>
      let W := schedule block t in
      let n := 16 + Z.of_nat t in
      W ++ [(sigma1 W.[n - 2] + W.[n - 7] + sigma0 W.[n - 15] + W.[n - 16]) mod 2 ^ 32]
  end.

(** Step 3: one turn of the working variables, with a constant and a word. *)
Definition turn (v : Z * Z * Z * Z * Z * Z * Z * Z) (kw : Z * Z) : Z * Z * Z * Z * Z * Z * Z * Z :=
  let '(a, b, c, d, e, f, g, h) := v in
  let '(K_t, W_t) := kw in
  let T1 := (h + Sigma1 e + Ch e f g + K_t + W_t) mod 2 ^ 32 in
  let T2 := (Sigma0 a + Maj a b c) mod 2 ^ 32 in
  ((T1 + T2) mod 2 ^ 32, a, b, c, (d + T1) mod 2 ^ 32, e, f, g).

(** Steps 2 to 4. *)
Definition hash_block (H : list Z) (block : list Z) : list Z :=
  let '(a, b, c, d, e, f, g, h) :=
    foldl turn (H.[0], H.[1], H.[2], H.[3], H.[4], H.[5], H.[6], H.[7]) (zip K (schedule block 48)) in
  zip_with (fun x y => (x + y) mod 2 ^ 32) H [a; b; c; d; e; f; g; h].

Definition sha256 (m : list Z) : list Z :=
  let p := pad m in mjoin (be 4 <$> foldl hash_block H0 (blocks (length p / 64) p)).

(** ** The words of the program *)

Lemma tables_as_published : K = Sha256.k /\ H0 = Sha256.initial_state.
Proof. vm_compute. done. Qed.

Lemma lor_disjoint a b m : 0 <= m -> 0 <= a < 2 ^ m -> Z.lor a (b * 2 ^ m) = a + b * 2 ^ m.
Proof.
  intros Hm Ha. rewrite <- Z.shiftl_mul_pow2 by done.
  assert (Hl : Z.land a (Z.shiftl b m) = 0).
  { apply Z.bits_inj'. intros i Hi. rewrite Z.land_spec, Z.bits_0. destruct (Z.lt_ge_cases i m).
    - rewrite Z.shiftl_spec_low by done. apply andb_false_r.
    - destruct (Z.eq_dec a 0) as [->|]; [by rewrite Z.bits_0|]. rewrite (Z.bits_above_log2 a i); [done|lia|].
      enough (Z.log2 a < m) by lia. apply Z.log2_lt_pow2; lia. }
  by rewrite Z.add_nocarry_lxor, Z.lxor_lor.
Qed.

Lemma ROTRIGHT_eq n x : 0 < n < 32 -> is_u32 x -> Sha256.ROTRIGHT x n = ROTR n x.
Proof.
  intros Hn Hx. unfold is_u32 in Hx. unfold Sha256.ROTRIGHT, ROTR, u32. rewrite Z.shiftr_div_pow2, Z.shiftl_mul_pow2 by lia.
  assert (H32 : 2 ^ 32 = 2 ^ n * 2 ^ (32 - n)) by (rewrite <- Z.pow_add_r by lia; f_equal; lia).
  pose proof (Z.pow_pos_nonneg 2 n). pose proof (Z.pow_pos_nonneg 2 (32 - n)).
  rewrite H32 at 1. rewrite Z.mul_mod_distr_r by lia. apply lor_disjoint; [lia|].
  split; [apply Z.div_pos; lia|]. apply Z.div_lt_upper_bound; lia.
Qed.

Lemma ROTR_u32 n x : 0 < n < 32 -> is_u32 x -> is_u32 (ROTR n x).
Proof.
  intros Hn Hx. unfold is_u32, ROTR in *.
  assert (H32 : 2 ^ 32 = 2 ^ n * 2 ^ (32 - n)) by (rewrite <- Z.pow_add_r by lia; f_equal; lia).
  pose proof (Z.pow_pos_nonneg 2 n ltac:(lia) ltac:(lia)). pose proof (Z.pow_pos_nonneg 2 (32 - n) ltac:(lia) ltac:(lia)).
  pose proof (Z.mod_pos_bound x (2 ^ n) ltac:(lia)).
  assert (0 <= x / 2 ^ n < 2 ^ (32 - n)) by (split; [apply Z.div_pos; lia|apply Z.div_lt_upper_bound; lia]).
  rewrite H32 in *. nia.
Qed.

Lemma not32_complement x : is_u32 x -> not32 x = complement x.
Proof.
  intros Hx. unfold is_u32 in Hx. unfold not32, complement, u32, Z.lnot.
  symmetry. apply (Z.mod_unique _ _ (-1)); lia.
Qed.

(** Sums of three rotations are the same words. *)
Lemma Sigma_eq x : is_u32 x ->
  Sha256.EP0 x = Sigma0 x /\ Sha256.EP1 x = Sigma1 x /\ Sha256.SIG0 x = sigma0 x /\ Sha256.SIG1 x = sigma1 x.
Proof.
  intros Hx. unfold Sha256.EP0, Sha256.EP1, Sha256.SIG0, Sha256.SIG1, Sigma0, Sigma1, sigma0, sigma1, xor3, SHR.
  rewrite !ROTRIGHT_eq, !Z.shiftr_div_pow2 by (done || lia). done.
Qed.

Lemma CH_eq x y z : is_u32 x -> Sha256.CH x y z = Ch x y z.
Proof. intros Hx. unfold Sha256.CH, Ch. by rewrite not32_complement. Qed.

(** ** The schedule *)

Lemma words_eq data i : bytes data -> length data = 64%nat -> 0 <= i < 16 ->
  u32 (Z.lor (Z.lor (Z.lor (Z.shiftl data.[4 * i] 24) (Z.shiftl data.[4 * i + 1] 16)) (Z.shiftl data.[4 * i + 2] 8)) data.[4 * i + 3])
  = word (take 4 (drop (4 * Z.to_nat i) data)).
Proof.
  intros Hb Hl Hi.
  assert (Hbyte : forall j, 0 <= j < 64 -> 0 <= data.[j] < 256).
  { intros j Hj. apply (Forall_lookup_1 _ _ _ _ Hb (aget_lookup data j ltac:(unfold alen; lia))). }
  assert (Hdrop : take 4 (drop (4 * Z.to_nat i) data) = [data.[4 * i]; data.[4 * i + 1]; data.[4 * i + 2]; data.[4 * i + 3]]).
  { assert (Hx : forall j, 0 <= j < 64 -> data !! Z.to_nat j = Some data.[j]) by (intros; apply aget_lookup; unfold alen; lia).
    rewrite (drop_S _ data.[4 * i] (4 * Z.to_nat i)) by (rewrite <- (Hx (4 * i)) by lia; f_equal; lia).
    rewrite (drop_S _ data.[4 * i + 1] (S (4 * Z.to_nat i))) by (rewrite <- (Hx (4 * i + 1)) by lia; f_equal; lia).
    rewrite (drop_S _ data.[4 * i + 2] (S (S (4 * Z.to_nat i)))) by (rewrite <- (Hx (4 * i + 2)) by lia; f_equal; lia).
    rewrite (drop_S _ data.[4 * i + 3] (S (S (S (4 * Z.to_nat i))))) by (rewrite <- (Hx (4 * i + 3)) by lia; f_equal; lia).
    done. }
  rewrite Hdrop. cbn [word foldl].
  pose proof (Hbyte (4 * i) ltac:(lia)). pose proof (Hbyte (4 * i + 1) ltac:(lia)).
  pose proof (Hbyte (4 * i + 2) ltac:(lia)). pose proof (Hbyte (4 * i + 3) ltac:(lia)).
  set (a := data.[4 * i]) in *. set (b := data.[4 * i + 1]) in *. set (c := data.[4 * i + 2]) in *. set (d := data.[4 * i + 3]) in *.
  rewrite !Z.shiftl_mul_pow2 by lia.
  rewrite (Z.lor_comm (a * _)), (lor_disjoint (b * 2 ^ 16) a 24) by lia.
  replace (b * 2 ^ 16 + a * 2 ^ 24) with ((b + a * 256) * 2 ^ 16) by lia.
  rewrite (Z.lor_comm _ (c * 2 ^ 8)), (lor_disjoint (c * 2 ^ 8) _ 16) by lia.
  replace (c * 2 ^ 8 + (b + a * 256) * 2 ^ 16) with ((c + (b + a * 256) * 256) * 2 ^ 8) by lia.
  rewrite (Z.lor_comm _ d), (lor_disjoint d _ 8) by lia. rewrite u32_small by lia. lia.
Qed.

Lemma length_schedule block t : length (schedule block t) = (16 + t)%nat.
Proof. induction t as [|t IH]; [done|]. cbn [schedule]. rewrite length_app, IH. cbn. lia. Qed.

Definition all_u32 (l : list Z) : Prop := Forall is_u32 l.

Lemma words_u32 block : bytes block -> all_u32 (words block).
Proof.
  intros Hb. apply Forall_fmap, Forall_true. intros i. unfold word. cbn.
  assert (H : forall l, bytes l -> (length l <= 4)%nat -> is_u32 (foldl (fun w b => 256 * w + b) 0 l)).
  { intros l Hl Hn. unfold is_u32. unfold bytes, is_u8 in Hl.
    destruct l as [|a [|b [|c [|d [|]]]]]; cbn in Hn |- *; try lia;
      repeat match goal with H : Forall _ (_ :: _) |- _ => inversion_clear H end; lia. }
  apply H; [by apply bytes_take, bytes_drop|]. rewrite length_take. lia.
Qed.

Lemma schedule_u32 block t : bytes block -> all_u32 (schedule block t).
Proof.
  intros Hb. induction t as [|t IH]; [by apply words_u32|]. cbn [schedule]. apply Forall_app. split; [done|].
  constructor; [|constructor]. apply Z.mod_pos_bound. lia.
Qed.

Lemma all_u32_get l i : all_u32 l -> 0 <= i < alen l -> is_u32 l.[i].
Proof. intros Hl Hi. apply (Forall_lookup_1 _ _ _ _ Hl (aget_lookup l i Hi)). Qed.

Lemma aset_next (w r : list Z) n x : length w = Z.to_nat n -> 0 <= n ->
  aset (w ++ 0 :: r) n x = w ++ x :: r.
Proof.
  intros Hl Hn. unfold aset. destruct (Z.ltb_spec n 0); [lia|]. rewrite insert_app_r_alt by lia.
  by replace (Z.to_nat n - length w)%nat with 0%nat by lia.
Qed.

Lemma aget_front (w r : list Z) i : 0 <= i < alen w -> aget (w ++ r) i = aget w i.
Proof. intros Hi. unfold aget, alen in *. apply app_nth1. lia. Qed.

Lemma message_schedule_eq data : bytes data -> length data = 64%nat ->
  Sha256.message_schedule data = schedule data 48.
Proof.
  intros Hb Hl. unfold Sha256.message_schedule. set (m16 := for_range 0 16 _ _).
  assert (H16 : m16 = words data ++ replicate 48 0).
  { transitivity (take (Z.to_nat 16) (words data) ++ replicate (Z.to_nat (64 - 16)) 0); [|done].
    apply (for_range_ind (fun i m => m = take (Z.to_nat i) (words data) ++ replicate (Z.to_nat (64 - i)) 0)); [lia|done|].
    intros i m Hi ->. cbv zeta. rewrite words_eq by done.
    assert (Hw : words data !! Z.to_nat i = Some (word (take 4 (drop (4 * Z.to_nat i) data)))).
    { unfold words. rewrite list_lookup_fmap, lookup_seq_lt by lia. done. }
    replace (Z.to_nat (i + 1)) with (S (Z.to_nat i)) by lia. rewrite (take_S_r _ _ _ Hw), <- app_assoc.
    replace (Z.to_nat (64 - i)) with (S (Z.to_nat (64 - (i + 1)))) by lia. cbn [replicate app].
    apply aset_next; [|lia]. rewrite length_take. change (length (words data)) with 16%nat. lia. }
  clearbody m16. subst m16.
  transitivity (schedule data (Z.to_nat (64 - 16)) ++ replicate (Z.to_nat (64 - 64)) 0); [|by rewrite app_nil_r].
  apply (for_range_ind (fun i m => m = schedule data (Z.to_nat (i - 16)) ++ replicate (Z.to_nat (64 - i)) 0)); [lia|done|].
  intros i m Hi ->. replace (Z.to_nat (i + 1 - 16)) with (S (Z.to_nat (i - 16))) by lia. cbn [schedule].
  pose proof (length_schedule data (Z.to_nat (i - 16))) as Hlen. pose proof (schedule_u32 data (Z.to_nat (i - 16)) Hb) as Hu.
  replace (16 + Z.of_nat (Z.to_nat (i - 16))) with i by lia. set (W := schedule data (Z.to_nat (i - 16))) in *.
  replace (Z.to_nat (64 - i)) with (S (Z.to_nat (64 - (i + 1)))) by lia. cbn [replicate].
  rewrite !aget_front by (unfold alen; lia).
  assert (Hget : forall j, 0 <= j < i -> is_u32 W.[j]) by (intros j Hj; apply all_u32_get; [done|unfold alen; lia]).
  destruct (Sigma_eq W.[i - 2] (Hget (i - 2) ltac:(lia))) as (_ & _ & _ & ->).
  destruct (Sigma_eq W.[i - 15] (Hget (i - 15) ltac:(lia))) as (_ & _ & -> & _).
  rewrite <- app_assoc. apply aset_next; lia.
Qed.

(** ** The compression function *)

Definition tuple (v : Sha256.vars) : Z * Z * Z * Z * Z * Z * Z * Z :=
  let '(Sha256.mkVars a b c d e f g h) := v in (a, b, c, d, e, f, g, h).
Definition vars_u32 (v : Sha256.vars) : Prop :=
  let '(Sha256.mkVars a b c d e f g h) := v in
  is_u32 a /\ is_u32 b /\ is_u32 c /\ is_u32 d /\ is_u32 e /\ is_u32 f /\ is_u32 g /\ is_u32 h.

Lemma round_turn m v i : vars_u32 v ->
  tuple (Sha256.round m v i) = turn (tuple v) (Sha256.k.[i], m.[i]) /\ vars_u32 (Sha256.round m v i).
Proof.
  destruct v as [a b c d e f g h]. intros (Ha & Hb & Hc & Hd & He & Hf & Hg & Hh). unfold Sha256.round, turn, tuple.
  destruct (Sigma_eq a Ha) as (-> & _). destruct (Sigma_eq e He) as (_ & -> & _). rewrite (CH_eq e) by done.
  split; [done|]. split_and!; done || apply u32_range.
Qed.

Lemma rounds_turns m v : vars_u32 v -> length m = 64%nat ->
  tuple (for_range 0 64 (Sha256.round m) v) = foldl turn (tuple v) (zip Sha256.k m).
Proof.
  intros Hv Hm.
  assert (Hz : length (zip Sha256.k m) = 64%nat) by (rewrite length_zip_with, Hm; done).
  assert (H : tuple (for_range 0 64 (Sha256.round m) v) = foldl turn (tuple v) (take (Z.to_nat 64) (zip Sha256.k m)) /\
    vars_u32 (for_range 0 64 (Sha256.round m) v)); [|destruct H as [-> _]; rewrite take_ge; [done|rewrite Hz; change (Z.to_nat 64) with 64%nat; lia]].
  apply (for_range_ind (fun i w => tuple w = foldl turn (tuple v) (take (Z.to_nat i) (zip Sha256.k m)) /\ vars_u32 w)); [lia|done|].
  intros i w Hi [Hw Hu]. destruct (round_turn m w i Hu) as [Ht Hu']. split; [|done].
  assert (Hx : zip Sha256.k m !! Z.to_nat i = Some (Sha256.k.[i], m.[i])).
  { apply lookup_zip_with_Some. exists Sha256.k.[i], m.[i]. split; [done|].
    split; apply aget_lookup; unfold alen; [change (length Sha256.k) with 64%nat|]; lia. }
  replace (Z.to_nat (i + 1)) with (S (Z.to_nat i)) by lia. rewrite (take_S_r _ _ _ Hx), foldl_app, <- Hw, Ht. done.
Qed.

Lemma transform_hash_block st data : all_u32 st -> length st = 8%nat -> bytes data -> length data = 64%nat ->
  Sha256.sha256_transform st data = hash_block st data.
Proof.
  intros Hst H8 Hb Hl. unfold Sha256.sha256_transform, hash_block. rewrite (proj1 tables_as_published), message_schedule_eq by done.
  pose proof (all_u32_get st) as Hg. unfold alen in Hg. rewrite H8 in Hg.
  set (v0 := Sha256.mkVars _ _ _ _ _ _ _ _).
  assert (Hv : vars_u32 v0) by (unfold v0; split_and!; apply Hg; done || lia).
  pose proof (rounds_turns (schedule data 48) v0 Hv (length_schedule data 48)) as Hr.
  change (tuple v0) with (st.[0], st.[1], st.[2], st.[3], st.[4], st.[5], st.[6], st.[7]) in Hr. rewrite <- Hr.
  destruct (for_range 0 64 _ v0) as [a b c d e f g h]. clear Hr Hg Hv v0.
  destruct st as [|s0 [|s1 [|s2 [|s3 [|s4 [|s5 [|s6 [|s7 [|]]]]]]]]]; cbn in H8; try lia. reflexivity.
Qed.

Lemma transform_typed st data : all_u32 (Sha256.sha256_transform st data) /\ length (Sha256.sha256_transform st data) = 8%nat.
Proof. split; [|done]. unfold Sha256.sha256_transform. repeat constructor; apply u32_range. Qed.

Lemma fold_blocks bs : forall st, all_u32 st -> length st = 8%nat ->
  Forall (fun b => bytes b /\ length b = 64%nat) bs -> foldl Sha256.sha256_transform st bs = foldl hash_block st bs.
Proof.
  induction bs as [|b bs IH]; intros st Hst H8 Hbs; [done|]. inversion_clear Hbs as [|? ? [Hb Hl] Hbs']. cbn [foldl].
  rewrite <- transform_hash_block by done. apply IH; [apply transform_typed..|done].
Qed.

(** ** The digest *)

Lemma blocks_chunks l : length l = (64 * (length l / 64))%nat ->
  Sha256.chunks (length l) l = blocks (length l / 64) l.
Proof.
  intros H. set (n := (length l / 64)%nat) in *. clearbody n.
  enough (Hgen : forall n l fuel, length l = (64 * n)%nat -> (n <= fuel)%nat -> Sha256.chunks fuel l = blocks n l)
    by (apply Hgen; lia).
  clear. induction n as [|n IH]; intros l fuel Hl Hf.
  - destruct l; [by destruct fuel|cbn in Hl; lia].
  - destruct fuel as [|fuel]; [lia|]. destruct l as [|x l']; [cbn in Hl; lia|].
    cbn [Sha256.chunks blocks]. f_equal. apply IH; [rewrite length_drop; lia|lia].
Qed.

Lemma blocks_typed n : forall l, bytes l -> length l = (64 * n)%nat -> Forall (fun b => bytes b /\ length b = 64%nat) (blocks n l).
Proof.
  induction n as [|n IH]; intros l Hb Hl; [constructor|]. cbn [blocks]. constructor.
  - split; [by apply bytes_take|]. rewrite length_take. lia.
  - apply IH; [by apply bytes_drop|]. rewrite length_drop. lia.
Qed.

Lemma bytes_be n x : bytes (be n x).
Proof. unfold be. apply Forall_fmap, Forall_true. intros i. unfold is_u8. cbn. apply Z.mod_pos_bound. lia. Qed.

Lemma pad_whole m : length (pad m) = (64 * (length (pad m) / 64))%nat.
Proof.
  assert (Hm : Z.of_nat (length (pad m)) mod 64 = 0).
  { unfold pad. rewrite !length_app, length_replicate. change (length [0x80]) with 1%nat.
    change (length (be 8 (8 * alen m))) with 8%nat.
    pose proof (Z.mod_pos_bound (55 - alen m) 64 ltac:(lia)). unfold alen in *. zlia. }
  pose proof (Nat.div_mod_eq (length (pad m)) 64) as Hd. rewrite (Nat2Z.inj (length (pad m) mod 64) 0) in Hd; [lia|].
  rewrite Nat2Z.inj_mod. exact Hm.
Qed.

Lemma bytes_pad m : bytes m -> bytes (pad m).
Proof.
  intros Hm. unfold pad. rewrite !bytes_app. split; [done|]. split; [by repeat constructor|]. split; [|apply bytes_be].
  apply bytes_replicate. unfold is_u8. lia.
Qed.

Lemma digest_sha256 m : bytes m -> Sha256.digest m = sha256 m.
Proof.
  intros Hm. unfold Sha256.digest, sha256, Sha256.compress. change (Sha256.pad m) with (pad m).
  rewrite blocks_chunks by apply pad_whole. rewrite (proj2 tables_as_published).
  rewrite (fold_blocks _ Sha256.initial_state); [done| |done|].
  - repeat constructor; done.
  - apply blocks_typed; [by apply bytes_pad|apply pad_whole].
Qed.

(** C23: The hash is SHA-256 as published.  From a context whose buffer holds
    anything, any sequence of [sha256_update] calls, empty ones included, followed
    by [sha256_final] gives the digest that FIPS 180-4 defines for the
    concatenation of the pieces, as long as they are fewer than 2^32 bytes; so
    does the one-shot [sha256_binary].  The digest on the right is written from
    the standard alone. *)
Theorem sha256_any_pieces ctx ds :
  alen (Sha256.buffer ctx) = 64 -> bytes (mjoin ds) -> alen (mjoin ds) < 2 ^ 32 ->
  Sha256.sha256_final (foldl Sha256.sha256_update (Sha256.sha256_init ctx) ds) = sha256 (mjoin ds) /\
  Sha256.sha256_binary (mjoin ds) = sha256 (mjoin ds).
Proof.
  intros Hb Hd Hl. rewrite <- digest_sha256 by done.
  split; [by apply Sha256.digest_streams|by apply Sha256.sha256_binary_digest].
Qed.

(** The digest of ["abc"] in two pieces, as the standard's example gives it. *)
Definition abc_digest : list Z :=
  [186; 120; 22; 191; 143; 1; 207; 234; 65; 65; 64; 222; 93; 174; 34; 35;
   176; 3; 97; 163; 150; 23; 122; 156; 180; 16; 255; 97; 242; 0; 21; 173].

Lemma abc_binary : Sha256.sha256_binary [97; 98; 99] = abc_digest.
Proof. vm_compute. reflexivity. Qed.

Lemma sha256_any_pieces_witness :
  Sha256.sha256_final (foldl Sha256.sha256_update (Sha256.sha256_init Sha256.stack_ctx) [[97]; [98; 99]]) = abc_digest.
Proof.
  assert (Hb : bytes (mjoin [[97]; [98; 99]])) by (apply bytes_dec; reflexivity).
  destruct (sha256_any_pieces Sha256.stack_ctx [[97]; [98; 99]] eq_refl Hb eq_refl) as [H1 H2].
  rewrite H1, <- H2. exact abc_binary.
Defined.

End Fips180.
