(* ===== verification/Hmac.v ===== *)
(** * HMAC-SHA256 and PBKDF2 (crypto/hmac.c, crypto/pbkdf2.c)

    The message authentication code, the constant-time comparison of two codes
    and the key derivation, with the definitions of RFC 2104 and RFC 2898 they
    are shown equal to. *)

From S2P Require Import Prelude CStr Sha256.
Import Sha256.

Module Hmac.

(** ** The program *)

Definition crypto_ct_cmp_bytes (a b : list Z) (len : Z) : Z :=
  for_range 0 len (fun diff i => Z.lor diff (Z.lxor a.[i] b.[i])) 0.

Definition hmac_sha256 (key data : list Z) : list Z :=
  let k_pad := ft_memset (replicate 64 0) 0 64 in
  let k_pad := if 64 <? alen key then ft_memcpy k_pad 0 (sha256_binary key) 32
               else ft_memcpy k_pad 0 key (alen key) in
  let '(i_key_pad, o_key_pad) := for_range 0 64 (fun '(ip, op) i =>
    (ip.[i <- Z.lxor k_pad.[i] 0x36], op.[i <- Z.lxor k_pad.[i] 0x5c])) (replicate 64 0, replicate 64 0) in
  let ctx := sha256_init stack_ctx in
  let ctx := sha256_update ctx i_key_pad in
  let ctx := sha256_update ctx data in
  let inner_hash := sha256_final ctx in
  let ctx := sha256_init ctx in
  let ctx := sha256_update ctx o_key_pad in
  let ctx := sha256_update ctx inner_hash in
  sha256_final ctx.

(** [PBKDF2_DEFAULT_ITERATIONS] is set by the build: 600000, or
    [PBKDF2_DEV_ITERATIONS] when that is given. *)
Definition PBKDF2_MAX_ITERATIONS : Z := 10000000.

Definition pbkdf2_iterations_are_acceptable (PBKDF2_DEFAULT_ITERATIONS iterations : Z) : bool :=
  (PBKDF2_DEFAULT_ITERATIONS <=? iterations) && (iterations <=? PBKDF2_MAX_ITERATIONS).

(** [dk[j] ^= u[j]] for the 32 bytes. *)
Definition xor_into (dk u : list Z) : list Z :=
  for_range 0 32 (fun dk j => dk.[j <- Z.lxor dk.[j] u.[j]]) dk.

Definition pbkdf2_hmac_sha256 (password salt : list Z) (iterations output_len : Z) : list Z :=
  let iterations := if iterations =? 0 then 1 else iterations in
  let actual_salt_len := alen salt in
  let actual_salt_len := if 252 <? actual_salt_len then 252 else actual_salt_len in
  let initial_salt := ft_memcpy (replicate 256 0) 0 salt actual_salt_len in
  let initial_salt := initial_salt.[actual_salt_len <- 0].[actual_salt_len + 1 <- 0]
                                  .[actual_salt_len + 2 <- 0].[actual_salt_len + 3 <- 1] in
  let u := hmac_sha256 password (take (Z.to_nat (actual_salt_len + 4)) initial_salt) in
  let '(u, dk) := for_range 1 iterations (fun '(u, dk) _ =>
    let u := hmac_sha256 password u in (u, xor_into dk u)) (u, u) in
  let copy_len := if 32 <? output_len then 32 else output_len in
  take (Z.to_nat copy_len) dk.

(** ** The reference: RFC 2104 and RFC 2898 *)

Definition padded_key (key : list Z) : list Z :=
  let k0 := if 64 <? alen key then digest key else key in
  k0 ++ replicate (64 - length k0) 0.

Definition xor_byte (x : Z) (l : list Z) : list Z := (fun y => Z.lxor y x) <$> l.

Definition HMAC (key m : list Z) : list Z :=
  digest (xor_byte 0x5c (padded_key key) ++ digest (xor_byte 0x36 (padded_key key) ++ m)).

(** [U n] is U_(n+1) and [T n] is the exclusive or of U_1 to U_(n+1). *)
Fixpoint U (password salt : list Z) (n : nat) : list Z :=
  match n with
  | O => HMAC password (salt ++ be 4 1)
  | S n' => HMAC password (U password salt n')
  end.

Fixpoint T (password salt : list Z) (n : nat) : list Z :=
  match n with
  | O => U password salt O
  | S n' => zip_with Z.lxor (T password salt n') (U password salt n)
  end.

(** ** Proofs *)

Lemma ct_cmp_zero a b len : 0 <= len ->
  crypto_ct_cmp_bytes a b len = 0 <-> forall i, 0 <= i < len -> a.[i] = b.[i].
Proof.
  intros Hl. unfold crypto_ct_cmp_bytes.
  apply (for_range_ind (fun n d => d = 0 <-> forall i, 0 <= i < n -> a.[i] = b.[i])); [lia|split; [lia|done]|].
  intros n d Hn [IH1 IH2]. rewrite Z.lor_eq_0_iff, Z.lxor_eq_0_iff. split.
  - intros [-> He] i Hi. destruct (Z.eq_dec i n) as [->|]; [done|]. apply IH1; [done|lia].
  - intros He. split; [apply IH2; intros; apply He; lia|apply He; lia].
Qed.

Lemma ct_cmp_eq a b : alen a = alen b -> crypto_ct_cmp_bytes a b (alen a) = 0 <-> a = b.
Proof.
  intros Hl. rewrite ct_cmp_zero by apply alen_nonneg. split; [|by intros ->].
  intros He. by apply aget_ext.
Qed.

Lemma digest_bytes m : alen m < 2 ^ 32 -> bytes (digest m) /\ alen (digest m) = 32.
Proof. intros Hm. rewrite <- sha256_binary_digest by done. apply sha256_final_bytes. Qed.

Lemma hmac_bytes key m : bytes (hmac_sha256 key m) /\ alen (hmac_sha256 key m) = 32.
Proof. unfold hmac_sha256. case_match. apply sha256_final_bytes. Qed.

Lemma k_pad_eq key : alen key < 2 ^ 32 ->
  (if 64 <? alen key then ft_memcpy (ft_memset (replicate 64 0) 0 64) 0 (sha256_binary key) 32
   else ft_memcpy (ft_memset (replicate 64 0) 0 64) 0 key (alen key)) = padded_key key.
Proof.
  intros Hk. change (ft_memset (replicate 64 0) 0 64) with (replicate 64 0). unfold padded_key.
  pose proof (alen_nonneg key). destruct (Z.ltb_spec 64 (alen key)).
  - rewrite sha256_binary_digest by done. destruct (digest_bytes key Hk) as [_ Hl].
    rewrite ft_memcpy_eq by (rewrite ?Hl; unfold alen; simpl; lia).
    rewrite drop_replicate, (take_ge (digest key)) by (unfold alen in *; lia). change (Z.to_nat 0) with 0%nat. rewrite take_0, app_nil_l. do 2 f_equal. unfold alen in *. lia.
  - rewrite ft_memcpy_eq by (unfold alen in *; rewrite ?length_replicate; lia).
    rewrite drop_replicate, (take_ge key) by (unfold alen in *; lia). change (Z.to_nat 0) with 0%nat. rewrite take_0, app_nil_l. do 2 f_equal. unfold alen in *. lia.
Qed.

Lemma length_padded_key key : alen key < 2 ^ 32 -> length (padded_key key) = 64%nat.
Proof.
  intros Hk. unfold padded_key. destruct (Z.ltb_spec 64 (alen key)).
  - destruct (digest_bytes key Hk) as [_ Hl]. rewrite length_app, length_replicate. unfold alen in *. lia.
  - rewrite length_app, length_replicate. unfold alen in *. lia.
Qed.

Lemma pads_eq (kp : list Z) : length kp = 64%nat ->
  for_range 0 64 (fun '(ip, op) i =>
    (ip.[i <- Z.lxor kp.[i] 0x36], op.[i <- Z.lxor kp.[i] 0x5c])) (replicate 64 0, replicate 64 0)
  = (xor_byte 0x36 kp, xor_byte 0x5c kp).
Proof.
  intros Hk.
  transitivity (xor_byte 0x36 (take (Z.to_nat 64) kp) ++ replicate (Z.to_nat (64 - 64)) 0,
                xor_byte 0x5c (take (Z.to_nat 64) kp) ++ replicate (Z.to_nat (64 - 64)) 0).
  2: { rewrite take_ge by (rewrite Hk; done). simpl. by rewrite !app_nil_r. }
  apply (for_range_ind (fun i s => s =
    (xor_byte 0x36 (take (Z.to_nat i) kp) ++ replicate (Z.to_nat (64 - i)) 0,
     xor_byte 0x5c (take (Z.to_nat i) kp) ++ replicate (Z.to_nat (64 - i)) 0))); [lia|done|].
  intros i s Hi ->.
  assert (Hx : kp !! Z.to_nat i = Some kp.[i]) by (apply aget_lookup; unfold alen; lia).
  replace (Z.to_nat (i + 1)) with (S (Z.to_nat i)) by lia. rewrite (take_S_r _ _ _ Hx).
  replace (Z.to_nat (64 - i)) with (S (Z.to_nat (64 - (i + 1)))) by lia.
  unfold xor_byte, aset. destruct (Z.ltb_spec i 0); [lia|]. rewrite !fmap_app, <- !app_assoc.
  by rewrite !insert_app_r_alt, !length_fmap, !length_take, !Nat.min_l, !Nat.sub_diag
    by (rewrite ?length_fmap, ?length_take; lia).
Qed.

Lemma hmac_HMAC key m : alen key < 2 ^ 32 -> alen m + 64 < 2 ^ 32 -> hmac_sha256 key m = HMAC key m.
Proof.
  intros Hk Hm. unfold hmac_sha256. rewrite k_pad_eq, pads_eq by (try apply length_padded_key; done).
  assert (Hx : forall x, alen (xor_byte x (padded_key key)) = 64).
  { intros x. unfold alen, xor_byte. by rewrite length_fmap, length_padded_key. }
  assert (Hin : sha256_final (sha256_update (sha256_update (sha256_init stack_ctx) (xor_byte 0x36 (padded_key key))) m)
    = digest (xor_byte 0x36 (padded_key key) ++ m)).
  { pose proof (digest_streams stack_ctx [xor_byte 0x36 (padded_key key); m] eq_refl) as H. simpl in H.
    rewrite app_nil_r in H. apply H. rewrite alen_app, Hx. lia. }
  rewrite Hin. unfold HMAC.
  set (ctx := sha256_update (sha256_update (sha256_init stack_ctx) _) m).
  assert (Hb : alen (buffer ctx) = 64).
  { apply (absorbed_update (xor_byte 0x36 (padded_key key)) _ m).
    by apply (absorbed_update [] _ (xor_byte 0x36 (padded_key key))), absorbed_init. }
  pose proof (digest_streams ctx [xor_byte 0x5c (padded_key key); digest (xor_byte 0x36 (padded_key key) ++ m)] Hb) as H.
  simpl in H. rewrite app_nil_r in H. apply H. rewrite alen_app, Hx.
  rewrite (proj2 (digest_bytes (xor_byte 0x36 (padded_key key) ++ m) ltac:(rewrite alen_app, Hx; lia))). lia.
Qed.

#[local] Opaque HMAC hmac_sha256 digest.

Lemma xor_into_eq dk u : length dk = 32%nat -> length u = 32%nat -> xor_into dk u = zip_with Z.lxor dk u.
Proof.
  intros Hd Hu. unfold xor_into.
  assert (Hl : forall i t, 0 <= i < 32 -> t = zip_with Z.lxor (take (Z.to_nat i) dk) (take (Z.to_nat i) u) ++ drop (Z.to_nat i) dk ->
    t.[i <- Z.lxor t.[i] u.[i]]
    = zip_with Z.lxor (take (Z.to_nat (i + 1)) dk) (take (Z.to_nat (i + 1)) u) ++ drop (Z.to_nat (i + 1)) dk).
  { intros i t Hi ->.
    assert (Hx : dk !! Z.to_nat i = Some dk.[i]) by (apply aget_lookup; unfold alen; lia).
    assert (Hy : u !! Z.to_nat i = Some u.[i]) by (apply aget_lookup; unfold alen; lia).
    assert (Hz : length (zip_with Z.lxor (take (Z.to_nat i) dk) (take (Z.to_nat i) u)) = Z.to_nat i)
      by (rewrite length_zip_with, !length_take; lia).
    replace (Z.to_nat (i + 1)) with (S (Z.to_nat i)) by lia.
    rewrite (take_S_r _ _ _ Hx), (take_S_r _ _ _ Hy), (drop_S _ _ _ Hx).
    rewrite zip_with_app by (rewrite !length_take; lia). rewrite <- app_assoc.
    unfold aset. destruct (Z.ltb_spec i 0); [lia|].
    rewrite insert_app_r_alt, Hz, Nat.sub_diag by lia.
    unfold aget at 1. rewrite app_nth2, Hz, Nat.sub_diag by lia. done. }
  transitivity (zip_with Z.lxor (take (Z.to_nat 32) dk) (take (Z.to_nat 32) u) ++ drop (Z.to_nat 32) dk).
  - apply (for_range_ind (fun i t => t = zip_with Z.lxor (take (Z.to_nat i) dk) (take (Z.to_nat i) u) ++ drop (Z.to_nat i) dk));
      [lia|done|]. intros i t Hi Ht. by apply Hl.
  - by rewrite !take_ge, drop_ge, app_nil_r by (rewrite ?Hd, ?Hu; done).
Qed.

Lemma first_salt_eq salt : alen salt <= 252 ->
  let s := ft_memcpy (replicate 256 0) 0 salt (alen salt) in
  take (Z.to_nat (alen salt + 4))
    s.[alen salt <- 0].[alen salt + 1 <- 0].[alen salt + 2 <- 0].[alen salt + 3 <- 1] = salt ++ be 4 1.
Proof.
  intros Hs s. pose proof (alen_nonneg salt).
  assert (Hl : alen s = 256) by (unfold s; by rewrite alen_ft_memcpy).
  change (s.[alen salt <- 0].[alen salt + 1 <- 0].[alen salt + 2 <- 0].[alen salt + 3 <- 1])
    with (store_be32 s (alen salt) 1).
  rewrite store_be32_eq by lia.
  assert (Ht : take (Z.to_nat (alen salt)) s = salt).
  { unfold s. rewrite ft_memcpy_eq by (unfold alen in *; rewrite ?length_replicate; lia).
    rewrite take_app_ge, take_app_le by (unfold alen in *; rewrite ?length_take; lia).
    rewrite length_take, take_take. change (Z.to_nat 0) with 0%nat. rewrite take_0, app_nil_l.
    apply take_ge. unfold alen. lia. }
  rewrite Ht, app_assoc. apply take_app_length'. rewrite length_app, length_be. unfold alen. lia.
Qed.

Lemma length_HMAC key m : alen key < 2 ^ 32 -> alen m + 64 < 2 ^ 32 -> length (HMAC key m) = 32%nat.
Proof.
  intros Hk Hm. destruct (hmac_bytes key m) as [_ Hl]. rewrite hmac_HMAC in Hl by done.
  unfold alen in Hl. clear - Hl. lia.
Qed.

Lemma length_U p s n : alen p < 2 ^ 32 -> alen s <= 252 -> length (U p s n) = 32%nat.
Proof.
  intros Hp Hs. induction n as [|n IH]; simpl; apply length_HMAC; try done.
  - rewrite alen_app, alen_be. lia.
  - unfold alen. rewrite IH. lia.
Qed.

Lemma length_T p s n : alen p < 2 ^ 32 -> alen s <= 252 -> length (T p s n) = 32%nat.
Proof.
  intros Hp Hs. induction n as [|n IH]; [exact (length_U p s 0 Hp Hs)|].
  change (T p s (S n)) with (zip_with Z.lxor (T p s n) (U p s (S n))).
  by rewrite length_zip_with, IH, length_U.
Qed.

Lemma pbkdf2_T password salt iterations output_len :
  alen password < 2 ^ 32 -> alen salt <= 252 -> 0 <= iterations ->
  pbkdf2_hmac_sha256 password salt iterations output_len
  = take (Z.to_nat (Z.min output_len 32)) (T password salt (Z.to_nat (Z.max iterations 1) - 1)).
Proof.
  intros Hp Hs Hi. unfold pbkdf2_hmac_sha256. cbv zeta. pose proof (alen_nonneg salt).
  destruct (Z.ltb_spec 252 (alen salt)); [lia|]. rewrite first_salt_eq by done.
  rewrite hmac_HMAC by (try done; rewrite alen_app, alen_be; lia).
  change (HMAC password (salt ++ be 4 1)) with (U password salt 0).
  assert (Hit : (if iterations =? 0 then 1 else iterations) = Z.max iterations 1) by (case_bool; lia).
  rewrite Hit.
  assert (E : for_range 1 (Z.max iterations 1) (fun '(u, dk) _ =>
      (hmac_sha256 password u, xor_into dk (hmac_sha256 password u))) (U password salt 0, U password salt 0)
    = (U password salt (Z.to_nat (Z.max iterations 1) - 1), T password salt (Z.to_nat (Z.max iterations 1) - 1))).
  { apply (for_range_ind (fun i s => s = (U password salt (Z.to_nat i - 1), T password salt (Z.to_nat i - 1)))); [lia|done|].
    intros i s Hr ->. replace (Z.to_nat (i + 1) - 1)%nat with (S (Z.to_nat i - 1)) by lia.
    rewrite hmac_HMAC by (try done; unfold alen; rewrite length_U by done; lia).
    rewrite xor_into_eq; [done|by apply length_T|]. by apply (length_U _ _ (S (Z.to_nat i - 1))). }
  rewrite E. f_equal. case_bool; lia.
Qed.

(** Whatever the arguments, the derived key is bytes, as many as asked for up to 32. *)
Lemma pbkdf2_bytes password salt iterations n : 0 <= n <= 32 ->
  bytes (pbkdf2_hmac_sha256 password salt iterations n) /\ alen (pbkdf2_hmac_sha256 password salt iterations n) = n.
Proof.
  intros Hn. unfold pbkdf2_hmac_sha256. cbv zeta.
  set (it := if iterations =? 0 then 1 else iterations). set (u0 := hmac_sha256 password (take _ _)).
  match goal with |- context [for_range 1 it ?f ?x] => set (r := for_range 1 it f x) end.
  assert (Hr : bytes (fst r) /\ bytes (snd r) /\ alen (snd r) = 32).
  { assert (H0 : bytes u0 /\ alen u0 = 32) by apply hmac_bytes.
    unfold r. destruct (Z.le_gt_cases 1 it); [|rewrite for_range_empty by lia; cbn [fst snd]; tauto].
    apply (for_range_ind (fun _ t => bytes (fst t) /\ bytes (snd t) /\ alen (snd t) = 32)); [done|cbn [fst snd]; tauto|].
    intros i [u dk] _ (Hu & Hd & Hl). cbn [fst snd] in *. split; [apply hmac_bytes|].
    unfold xor_into. rewrite alen_for_aset. split; [|done].
    apply (for_range_ind (fun _ t => bytes t)); [lia|done|]. intros j t _ Ht.
    apply bytes_aset; [done|]. apply is_u8_lxor; [by apply aget_bytes|apply aget_bytes, hmac_bytes]. }
  destruct r as [u dk]. cbn [fst snd] in Hr. destruct Hr as (_ & Hd & Hl).
  destruct (Z.ltb_spec 32 n); [lia|]. split; [by apply bytes_take|]. apply alen_take. lia.
Qed.

(** C24: Key derivation: [hmac_sha256] computes the HMAC of RFC 2104 (keys longer
    than a block are hashed first), and [pbkdf2_hmac_sha256] computes the first
    block of PBKDF2 of RFC 2898, cut to the length asked for, at every iteration
    count, 0 counting as 1; the password is shorter than 2^32 bytes and the salt
    at most 252 bytes long. *)
Theorem kdf_as_rfc key m salt iterations output_len :
  alen key < 2 ^ 32 -> alen m + 64 < 2 ^ 32 -> alen salt <= 252 -> 0 <= iterations ->
  hmac_sha256 key m = HMAC key m /\
  pbkdf2_hmac_sha256 key salt iterations output_len
  = take (Z.to_nat (Z.min output_len 32)) (T key salt (Z.to_nat (Z.max iterations 1) - 1)).
Proof. intros. split; [by apply hmac_HMAC|by apply pbkdf2_T]. Qed.

Lemma kdf_as_rfc_witness :
  pbkdf2_hmac_sha256 [112; 119] (replicate 16 7) 2 32
  = take 32 (zip_with Z.lxor (HMAC [112; 119] (replicate 16 7 ++ be 4 1))
                             (HMAC [112; 119] (HMAC [112; 119] (replicate 16 7 ++ be 4 1)))).
Proof. exact (proj2 (kdf_as_rfc [112; 119] [] (replicate 16 7) 2 32 eq_refl eq_refl ltac:(discriminate) ltac:(discriminate))). Defined.

End Hmac.
