(* ===== verification/Aes.v ===== *)
(** * AES-256 (crypto/aes.c)

    Key expansion, the cipher and its inverse, and the ECB, CBC and CTR modes.
    A state is the 16 bytes of a block in memory order, so [state[i][j]] is
    the byte at [4 * i + j].  The inverse of [MixColumns] is proved from the
    linearity of [xtime] alone, the inverse of the S-box by trying its 256
    entries, and the modes against the textbook definitions on lists of blocks. *)

From Stdlib Require Import Btauto.
From S2P Require Import Prelude CStr.

Module Aes.

(** ** The program *)

Definition Nb : Z := 4.
Definition Nk : Z := 8.
Definition Nr : Z := 14.
Definition AES_BLOCKLEN : Z := 16.
Definition AES_keyExpSize : Z := 240.

Definition sbox : list Z := [
  0x63;0x7c;0x77;0x7b;0xf2;0x6b;0x6f;0xc5;0x30;0x01;0x67;0x2b;0xfe;0xd7;0xab;0x76;
  0xca;0x82;0xc9;0x7d;0xfa;0x59;0x47;0xf0;0xad;0xd4;0xa2;0xaf;0x9c;0xa4;0x72;0xc0;
  0xb7;0xfd;0x93;0x26;0x36;0x3f;0xf7;0xcc;0x34;0xa5;0xe5;0xf1;0x71;0xd8;0x31;0x15;
  0x04;0xc7;0x23;0xc3;0x18;0x96;0x05;0x9a;0x07;0x12;0x80;0xe2;0xeb;0x27;0xb2;0x75;
  0x09;0x83;0x2c;0x1a;0x1b;0x6e;0x5a;0xa0;0x52;0x3b;0xd6;0xb3;0x29;0xe3;0x2f;0x84;
  0x53;0xd1;0x00;0xed;0x20;0xfc;0xb1;0x5b;0x6a;0xcb;0xbe;0x39;0x4a;0x4c;0x58;0xcf;
  0xd0;0xef;0xaa;0xfb;0x43;0x4d;0x33;0x85;0x45;0xf9;0x02;0x7f;0x50;0x3c;0x9f;0xa8;
  0x51;0xa3;0x40;0x8f;0x92;0x9d;0x38;0xf5;0xbc;0xb6;0xda;0x21;0x10;0xff;0xf3;0xd2;
  0xcd;0x0c;0x13;0xec;0x5f;0x97;0x44;0x17;0xc4;0xa7;0x7e;0x3d;0x64;0x5d;0x19;0x73;
  0x60;0x81;0x4f;0xdc;0x22;0x2a;0x90;0x88;0x46;0xee;0xb8;0x14;0xde;0x5e;0x0b;0xdb;
  0xe0;0x32;0x3a;0x0a;0x49;0x06;0x24;0x5c;0xc2;0xd3;0xac;0x62;0x91;0x95;0xe4;0x79;
  0xe7;0xc8;0x37;0x6d;0x8d;0xd5;0x4e;0xa9;0x6c;0x56;0xf4;0xea;0x65;0x7a;0xae;0x08;
  0xba;0x78;0x25;0x2e;0x1c;0xa6;0xb4;0xc6;0xe8;0xdd;0x74;0x1f;0x4b;0xbd;0x8b;0x8a;
  0x70;0x3e;0xb5;0x66;0x48;0x03;0xf6;0x0e;0x61;0x35;0x57;0xb9;0x86;0xc1;0x1d;0x9e;
  0xe1;0xf8;0x98;0x11;0x69;0xd9;0x8e;0x94;0x9b;0x1e;0x87;0xe9;0xce;0x55;0x28;0xdf;
  0x8c;0xa1;0x89;0x0d;0xbf;0xe6;0x42;0x68;0x41;0x99;0x2d;0x0f;0xb0;0x54;0xbb;0x16 ].

Definition rsbox : list Z := [
  0x52;0x09;0x6a;0xd5;0x30;0x36;0xa5;0x38;0xbf;0x40;0xa3;0x9e;0x81;0xf3;0xd7;0xfb;
  0x7c;0xe3;0x39;0x82;0x9b;0x2f;0xff;0x87;0x34;0x8e;0x43;0x44;0xc4;0xde;0xe9;0xcb;
  0x54;0x7b;0x94;0x32;0xa6;0xc2;0x23;0x3d;0xee;0x4c;0x95;0x0b;0x42;0xfa;0xc3;0x4e;
  0x08;0x2e;0xa1;0x66;0x28;0xd9;0x24;0xb2;0x76;0x5b;0xa2;0x49;0x6d;0x8b;0xd1;0x25;
  0x72;0xf8;0xf6;0x64;0x86;0x68;0x98;0x16;0xd4;0xa4;0x5c;0xcc;0x5d;0x65;0xb6;0x92;
  0x6c;0x70;0x48;0x50;0xfd;0xed;0xb9;0xda;0x5e;0x15;0x46;0x57;0xa7;0x8d;0x9d;0x84;
  0x90;0xd8;0xab;0x00;0x8c;0xbc;0xd3;0x0a;0xf7;0xe4;0x58;0x05;0xb8;0xb3;0x45;0x06;
  0xd0;0x2c;0x1e;0x8f;0xca;0x3f;0x0f;0x02;0xc1;0xaf;0xbd;0x03;0x01;0x13;0x8a;0x6b;
  0x3a;0x91;0x11;0x41;0x4f;0x67;0xdc;0xea;0x97;0xf2;0xcf;0xce;0xf0;0xb4;0xe6;0x73;
  0x96;0xac;0x74;0x22;0xe7;0xad;0x35;0x85;0xe2;0xf9;0x37;0xe8;0x1c;0x75;0xdf;0x6e;
  0x47;0xf1;0x1a;0x71;0x1d;0x29;0xc5;0x89;0x6f;0xb7;0x62;0x0e;0xaa;0x18;0xbe;0x1b;
  0xfc;0x56;0x3e;0x4b;0xc6;0xd2;0x79;0x20;0x9a;0xdb;0xc0;0xfe;0x78;0xcd;0x5a;0xf4;
  0x1f;0xdd;0xa8;0x33;0x88;0x07;0xc7;0x31;0xb1;0x12;0x10;0x59;0x27;0x80;0xec;0x5f;
  0x60;0x51;0x7f;0xa9;0x19;0xb5;0x4a;0x0d;0x2d;0xe5;0x7a;0x9f;0x93;0xc9;0x9c;0xef;
  0xa0;0xe0;0x3b;0x4d;0xae;0x2a;0xf5;0xb0;0xc8;0xeb;0xbb;0x3c;0x83;0x53;0x99;0x61;
  0x17;0x2b;0x04;0x7e;0xba;0x77;0xd6;0x26;0xe1;0x69;0x14;0x63;0x55;0x21;0x0c;0x7d ].

Definition Rcon : list Z := [
  0x8d;0x01;0x02;0x04;0x08;0x10;0x20;0x40;0x80;0x1b;0x36 ].

Definition getSBoxValue (num : Z) : Z := sbox.[num].
Definition getSBoxInvert (num : Z) : Z := rsbox.[num].

Record AES_ctx := mkAES { RoundKey : list Z; Iv : list Z }.

(** The four bytes [tempa] of [KeyExpansion]. *)
Record word := mkWord { w0 : Z; w1 : Z; w2 : Z; w3 : Z }.

Definition SubWord (t : word) : word :=
  mkWord (getSBoxValue (w0 t)) (getSBoxValue (w1 t)) (getSBoxValue (w2 t)) (getSBoxValue (w3 t)).
Definition RotWord (t : word) : word := mkWord (w1 t) (w2 t) (w3 t) (w0 t).

(** One word of the schedule, from the word before it and the one [Nk] before it. *)
Definition expand_word (rk : list Z) (i : Z) : list Z :=
  let k := (i - 1) * 4 in
  let tempa := mkWord rk.[k + 0] rk.[k + 1] rk.[k + 2] rk.[k + 3] in
  let tempa :=
    if i mod Nk =? 0 then
      let t := SubWord (RotWord tempa) in
      mkWord (Z.lxor (w0 t) Rcon.[i / Nk]) (w1 t) (w2 t) (w3 t)
    else tempa in
  let tempa := if i mod Nk =? 4 then SubWord tempa else tempa in
  let j := i * 4 in
  let k := (i - Nk) * 4 in
  let rk := rk.[j + 0 <- Z.lxor rk.[k + 0] (w0 tempa)] in
  let rk := rk.[j + 1 <- Z.lxor rk.[k + 1] (w1 tempa)] in
  let rk := rk.[j + 2 <- Z.lxor rk.[k + 2] (w2 tempa)] in
  rk.[j + 3 <- Z.lxor rk.[k + 3] (w3 tempa)].

Definition KeyExpansion (rk Key : list Z) : list Z :=
  let rk := for_range 0 Nk (fun rk i =>
    rk.[i * 4 + 0 <- Key.[i * 4 + 0]].[i * 4 + 1 <- Key.[i * 4 + 1]]
      .[i * 4 + 2 <- Key.[i * 4 + 2]].[i * 4 + 3 <- Key.[i * 4 + 3]]) rk in
  for_range Nk (Nb * (Nr + 1)) expand_word rk.

Definition AES_init_ctx (ctx : AES_ctx) (key : list Z) : AES_ctx :=
  mkAES (KeyExpansion (RoundKey ctx) key) (Iv ctx).

Definition AES_init_ctx_iv (ctx : AES_ctx) (key iv : list Z) : AES_ctx :=
  mkAES (KeyExpansion (RoundKey ctx) key) (ft_memcpy (Iv ctx) 0 iv AES_BLOCKLEN).

Definition AES_ctx_set_iv (ctx : AES_ctx) (iv : list Z) : AES_ctx :=
  mkAES (RoundKey ctx) (ft_memcpy (Iv ctx) 0 iv AES_BLOCKLEN).

(** A context on the stack, before its initialisation. *)
Definition stack_aes : AES_ctx := mkAES (replicate 240 0) (replicate 16 0).

(** [state[i][j]] *)
Notation "s .( i , j )" := (aget s (4 * i + j)) (at level 1, left associativity, format "s .( i , j )").
Notation "s .( i , j <- x )" := (aset s (4 * i + j) x) (at level 1, left associativity, format "s .( i , j <- x )").

(** The byte of the schedule that round [round] adds to [state[i][j]]. *)
Definition key_byte (rk : list Z) (round i j : Z) : Z := rk.[round * Nb * 4 + i * Nb + j].

Definition AddRoundKey (round : Z) (state rk : list Z) : list Z :=
  for_range 0 4 (fun s i => for_range 0 4 (fun s j =>
    s.(i, j <- Z.lxor s.(i, j) (key_byte rk round i j))) s) state.

Definition SubBytes (state : list Z) : list Z :=
  for_range 0 4 (fun s i => for_range 0 4 (fun s j => s.(j, i <- getSBoxValue s.(j, i))) s) state.

Definition ShiftRows (s : list Z) : list Z :=
  let temp := s.(0, 1) in
  let s := s.(0, 1 <- s.(1, 1)) in
  let s := s.(1, 1 <- s.(2, 1)) in
  let s := s.(2, 1 <- s.(3, 1)) in
  let s := s.(3, 1 <- temp) in
  let temp := s.(0, 2) in
  let s := s.(0, 2 <- s.(2, 2)) in
  let s := s.(2, 2 <- temp) in
  let temp := s.(1, 2) in
  let s := s.(1, 2 <- s.(3, 2)) in
  let s := s.(3, 2 <- temp) in
  let temp := s.(0, 3) in
  let s := s.(0, 3 <- s.(3, 3)) in
  let s := s.(3, 3 <- s.(2, 3)) in
  let s := s.(2, 3 <- s.(1, 3)) in
  s.(1, 3 <- temp).

Definition xtime (x : Z) : Z := u8 (Z.lxor (Z.shiftl x 1) (Z.land (Z.shiftr x 7) 1 * 0x1b)).

Definition MixColumns (state : list Z) : list Z :=
  for_range 0 4 (fun s i =>
    let t := s.(i, 0) in
    let Tmp := Z.lxor (Z.lxor (Z.lxor s.(i, 0) s.(i, 1)) s.(i, 2)) s.(i, 3) in
    let Tm := xtime (Z.lxor s.(i, 0) s.(i, 1)) in
    let s := s.(i, 0 <- Z.lxor s.(i, 0) (Z.lxor Tm Tmp)) in
    let Tm := xtime (Z.lxor s.(i, 1) s.(i, 2)) in
    let s := s.(i, 1 <- Z.lxor s.(i, 1) (Z.lxor Tm Tmp)) in
    let Tm := xtime (Z.lxor s.(i, 2) s.(i, 3)) in
    let s := s.(i, 2 <- Z.lxor s.(i, 2) (Z.lxor Tm Tmp)) in
    let Tm := xtime (Z.lxor s.(i, 3) t) in
    s.(i, 3 <- Z.lxor s.(i, 3) (Z.lxor Tm Tmp))) state.

Definition Multiply (x y : Z) : Z :=
  Z.lxor (Z.lxor (Z.lxor (Z.lxor
    (Z.land y 1 * x)
    (Z.land (Z.shiftr y 1) 1 * xtime x))
    (Z.land (Z.shiftr y 2) 1 * xtime (xtime x)))
    (Z.land (Z.shiftr y 3) 1 * xtime (xtime (xtime x))))
    (Z.land (Z.shiftr y 4) 1 * xtime (xtime (xtime (xtime x)))).

(** The product of one row of the inverse matrix with a column. *)
Definition mul4 (a b c d x y z w : Z) : Z :=
  Z.lxor (Z.lxor (Z.lxor (Multiply a x) (Multiply b y)) (Multiply c z)) (Multiply d w).

Definition InvMixColumns (state : list Z) : list Z :=
  for_range 0 4 (fun s i =>
    let a := s.(i, 0) in let b := s.(i, 1) in let c := s.(i, 2) in let d := s.(i, 3) in
    let s := s.(i, 0 <- mul4 a b c d 0x0e 0x0b 0x0d 0x09) in
    let s := s.(i, 1 <- mul4 a b c d 0x09 0x0e 0x0b 0x0d) in
    let s := s.(i, 2 <- mul4 a b c d 0x0d 0x09 0x0e 0x0b) in
    s.(i, 3 <- mul4 a b c d 0x0b 0x0d 0x09 0x0e)) state.

Definition InvSubBytes (state : list Z) : list Z :=
  for_range 0 4 (fun s i => for_range 0 4 (fun s j => s.(j, i <- getSBoxInvert s.(j, i))) s) state.

Definition InvShiftRows (s : list Z) : list Z :=
  let temp := s.(3, 1) in
  let s := s.(3, 1 <- s.(2, 1)) in
  let s := s.(2, 1 <- s.(1, 1)) in
  let s := s.(1, 1 <- s.(0, 1)) in
  let s := s.(0, 1 <- temp) in
  let temp := s.(0, 2) in
  let s := s.(0, 2 <- s.(2, 2)) in
  let s := s.(2, 2 <- temp) in
  let temp := s.(1, 2) in
  let s := s.(1, 2 <- s.(3, 2)) in
  let s := s.(3, 2 <- temp) in
  let temp := s.(0, 3) in
  let s := s.(0, 3 <- s.(1, 3)) in
  let s := s.(1, 3 <- s.(2, 3)) in
  let s := s.(2, 3 <- s.(3, 3)) in
  s.(3, 3 <- temp).

(** The rounds 1 to 13 are whole; round 14 leaves the loop before [MixColumns]. *)
Definition Cipher (state rk : list Z) : list Z :=
  let s := AddRoundKey 0 state rk in
  let s := for_range 1 Nr (fun s round => AddRoundKey round (MixColumns (ShiftRows (SubBytes s))) rk) s in
  AddRoundKey Nr (ShiftRows (SubBytes s)) rk.

(** The rounds run down from 13; round 0 leaves the loop before [InvMixColumns]. *)
Definition InvCipher (state rk : list Z) : list Z :=
  let s := AddRoundKey Nr state rk in
  let s := for_range 0 (Nr - 1) (fun s n =>
    let round := Nr - 1 - n in
    InvMixColumns (AddRoundKey round (InvSubBytes (InvShiftRows s)) rk)) s in
  AddRoundKey 0 (InvSubBytes (InvShiftRows s)) rk.

(** The 16 bytes from [buf + i] on, and their replacement. *)
Definition block_at (buf : list Z) (i : Z) : list Z := take 16 (drop (Z.to_nat i) buf).
Definition set_block (buf : list Z) (i : Z) (b : list Z) : list Z := ft_memcpy buf i b AES_BLOCKLEN.

Definition AES_ECB_encrypt (ctx : AES_ctx) (buf : list Z) : list Z :=
  set_block buf 0 (Cipher (block_at buf 0) (RoundKey ctx)).
Definition AES_ECB_decrypt (ctx : AES_ctx) (buf : list Z) : list Z :=
  set_block buf 0 (InvCipher (block_at buf 0) (RoundKey ctx)).

Definition XorWithIv (buf iv : list Z) : list Z :=
  for_range 0 AES_BLOCKLEN (fun b i => b.[i <- Z.lxor b.[i] iv.[i]]) buf.

(** The number of turns of [for (i = 0; i < length; i += AES_BLOCKLEN)]. *)
Definition blocks_of (length : Z) : Z := (length + 15) / 16.

(** [buf] is the memory from the pointer on; [length] bytes are asked for. *)
Definition AES_CBC_encrypt_buffer (ctx : AES_ctx) (buf : list Z) (length : Z) : AES_ctx * list Z :=
  let '(buf, iv) := for_range 0 (blocks_of length) (fun '(buf, iv) n =>
    let b := Cipher (XorWithIv (block_at buf (16 * n)) iv) (RoundKey ctx) in
    (set_block buf (16 * n) b, b)) (buf, Iv ctx) in
  (mkAES (RoundKey ctx) (ft_memcpy (Iv ctx) 0 iv AES_BLOCKLEN), buf).

Definition AES_CBC_decrypt_buffer (ctx : AES_ctx) (buf : list Z) (length : Z) : AES_ctx * list Z :=
  for_range 0 (blocks_of length) (fun '(ctx, buf) n =>
    let storeNextIv := block_at buf (16 * n) in
    let b := XorWithIv (InvCipher (block_at buf (16 * n)) (RoundKey ctx)) (Iv ctx) in
    (mkAES (RoundKey ctx) (ft_memcpy (Iv ctx) 0 storeNextIv AES_BLOCKLEN), set_block buf (16 * n) b))
    (ctx, buf).

(** Adding one to the counter block: from index [bi] down, a byte of 255 turns
    to 0 and carries. *)
Fixpoint increment (iv : list Z) (n : nat) : list Z :=
  match n with
  | O => iv
  | S n' =>
      let bi := Z.of_nat n' in
      if iv.[bi] =? 255 then increment iv.[bi <- 0] n' else iv.[bi <- iv.[bi] + 1]
  end.

(** One byte: the state is the context, the data, the key stream and [bi]. *)
Definition ctr_step (s : AES_ctx * list Z * list Z * Z) (i : Z) : AES_ctx * list Z * list Z * Z :=
  let '(ctx, buf, buffer, bi) := s in
  let '(ctx, buffer, bi) :=
    if bi =? AES_BLOCKLEN then
      (mkAES (RoundKey ctx) (increment (Iv ctx) 16), Cipher (Iv ctx) (RoundKey ctx), 0)
    else (ctx, buffer, bi) in
  (ctx, buf.[i <- Z.lxor buf.[i] buffer.[bi]], buffer, bi + 1).

Definition AES_CTR_xcrypt_buffer (ctx : AES_ctx) (buf : list Z) (length : Z) : AES_ctx * list Z :=
  let '(ctx, buf, _, _) := for_range 0 length ctr_step (ctx, buf, replicate 16 0, AES_BLOCKLEN) in
  (ctx, buf).

(** ** The operations of a round *)

Ltac bits := apply Z.bits_inj'; intros ? ?; rewrite ?Z.lxor_spec; btauto.

Lemma lxor_cancel x y : Z.lxor (Z.lxor x y) y = x.
Proof. bits. Qed.

Lemma u8_lxor x y : u8 (Z.lxor x y) = Z.lxor (u8 x) (u8 y).
Proof.
  unfold u8. rewrite <- !Z.land_ones by lia. apply Z.bits_inj'; intros n Hn.
  rewrite Z.lxor_spec, !Z.land_spec, Z.lxor_spec. btauto.
Qed.

(** The term of [xtime] that depends on the highest bit. *)
Lemma carry_term x : Z.land (Z.shiftr x 7) 1 * 0x1b = if Z.testbit x 7 then 0x1b else 0.
Proof.
  change 1 with (Z.ones 1). rewrite Z.land_ones, Z.shiftr_div_pow2 by lia.
  change (2 ^ 1) with 2. rewrite <- Z.testbit_spec' by lia. by destruct (Z.testbit x 7).
Qed.

Lemma xtime_lxor x y : xtime (Z.lxor x y) = Z.lxor (xtime x) (xtime y).
Proof.
  unfold xtime. rewrite !carry_term, Z.shiftl_lxor, Z.lxor_spec, <- u8_lxor. f_equal.
  destruct (Z.testbit x 7), (Z.testbit y 7); simpl xorb; cbv iota; rewrite ?Z.lxor_0_r; [|bits..].
  apply Z.bits_inj'; intros n Hn. rewrite !Z.lxor_spec. btauto.
Qed.

Lemma xtime_range x : is_u8 (xtime x).
Proof. apply u8_range. Qed.

Ltac eval_multiply :=
  unfold Multiply; cbn [Z.land Z.shiftr Z.shiftl Pos.land Z.of_N Pos.div2 Z.div2];
  rewrite !Z.mul_0_l, !Z.mul_1_l, ?Z.lxor_0_r, ?Z.lxor_0_l; reflexivity.

Lemma Multiply_09 x : Multiply x 0x09 = Z.lxor x (xtime (xtime (xtime x))).
Proof. eval_multiply. Qed.
Lemma Multiply_0b x : Multiply x 0x0b = Z.lxor (Z.lxor x (xtime x)) (xtime (xtime (xtime x))).
Proof. eval_multiply. Qed.
Lemma Multiply_0d x : Multiply x 0x0d = Z.lxor (Z.lxor x (xtime (xtime x))) (xtime (xtime (xtime x))).
Proof. eval_multiply. Qed.
Lemma Multiply_0e x : Multiply x 0x0e = Z.lxor (Z.lxor (xtime x) (xtime (xtime x))) (xtime (xtime (xtime x))).
Proof. eval_multiply. Qed.

Lemma unmix a b c d :
  let T := Z.lxor (Z.lxor (Z.lxor a b) c) d in
  let a' := Z.lxor a (Z.lxor (xtime (Z.lxor a b)) T) in
  let b' := Z.lxor b (Z.lxor (xtime (Z.lxor b c)) T) in
  let c' := Z.lxor c (Z.lxor (xtime (Z.lxor c d)) T) in
  let d' := Z.lxor d (Z.lxor (xtime (Z.lxor d a)) T) in
  mul4 a' b' c' d' 0x0e 0x0b 0x0d 0x09 = a /\ mul4 a' b' c' d' 0x09 0x0e 0x0b 0x0d = b /\
  mul4 a' b' c' d' 0x0d 0x09 0x0e 0x0b = c /\ mul4 a' b' c' d' 0x0b 0x0d 0x09 0x0e = d.
Proof.
  unfold mul4. rewrite !Multiply_09, !Multiply_0b, !Multiply_0d, !Multiply_0e, !xtime_lxor.
  repeat split; bits.
Qed.

(** ** States *)

Definition st16 (s : list Z) : Prop := length s = 16%nat /\ bytes s.

Ltac explode s :=
  do 16 (destruct s as [|? s]; [exfalso; simpl in *; lia|]); destruct s; [|exfalso; simpl in *; lia].

(** Runs an operation on sixteen named bytes. *)
Ltac run_state := cbv -[Z.lxor xtime mul4 getSBoxValue getSBoxInvert key_byte].

Lemma AddRoundKey_twice r s rk : length s = 16%nat -> AddRoundKey r (AddRoundKey r s rk) rk = s.
Proof. intros Hs. explode s. run_state. by rewrite !lxor_cancel. Qed.

Lemma SubBytes_eq s : length s = 16%nat -> SubBytes s = getSBoxValue <$> s.
Proof. intros Hs. explode s. run_state. done. Qed.

Lemma InvSubBytes_eq s : length s = 16%nat -> InvSubBytes s = getSBoxInvert <$> s.
Proof. intros Hs. explode s. run_state. done. Qed.

Lemma InvShiftRows_ShiftRows s : length s = 16%nat -> InvShiftRows (ShiftRows s) = s.
Proof. intros Hs. explode s. run_state. done. Qed.

Lemma InvMixColumns_MixColumns s : length s = 16%nat -> InvMixColumns (MixColumns s) = s.
Proof.
  intros Hs. explode s. run_state.
  repeat (apply f_equal2; [apply unmix|]). done.
Qed.

Lemma sbox_inverse x : is_u8 x -> getSBoxInvert (getSBoxValue x) = x /\ is_u8 (getSBoxValue x).
Proof.
  intros Hx.
  pose proof (byte_forall (fun x => (getSBoxInvert (getSBoxValue x) =? x) && (0 <=? getSBoxValue x) && (getSBoxValue x <? 256))
    ltac:(vm_compute; reflexivity) x Hx) as H. cbv beta in H. unfold is_u8. bool_to_prop. lia.
Qed.

Lemma InvSubBytes_SubBytes s : st16 s -> InvSubBytes (SubBytes s) = s.
Proof.
  intros [Hl Hb]. rewrite InvSubBytes_eq, SubBytes_eq by (rewrite ?SubBytes_eq, ?length_fmap; done).
  rewrite <- list_fmap_compose. transitivity (id <$> s); [|apply list_fmap_id].
  apply list_fmap_ext. intros i x Hx. simpl. apply sbox_inverse. by eapply Forall_lookup_1.
Qed.

Lemma st16_aset s i x : st16 s -> is_u8 x -> st16 (aset s i x).
Proof.
  intros [Hl Hb] Hx. split; [|by apply bytes_aset].
  pose proof (alen_aset s i x). unfold alen in *. lia.
Qed.

Lemma st16_aget s i : st16 s -> is_u8 (aget s i).
Proof. intros [_ Hb]. by apply aget_bytes. Qed.

Create HintDb aes.
#[local] Hint Resolve st16_aset st16_aget is_u8_lxor xtime_range aget_bytes : aes.

Lemma st16_range s f a b : st16 s -> (forall t i, st16 t -> st16 (f t i)) -> st16 (for_range a b f s).
Proof.
  intros Hs Hf. destruct (Z.le_gt_cases a b); [|by rewrite for_range_empty by lia].
  apply (for_range_ind (fun _ t => st16 t)); [done|done|auto].
Qed.

Lemma st16_AddRoundKey r s rk : bytes rk -> st16 s -> st16 (AddRoundKey r s rk).
Proof.
  intros Hk Hs. unfold AddRoundKey. apply st16_range; [done|]. intros t i Ht.
  apply st16_range; [done|]. intros u j Hu. unfold key_byte. auto with aes.
Qed.

Lemma st16_SubBytes s : st16 s -> st16 (SubBytes s).
Proof.
  intros Hs. unfold SubBytes. apply st16_range; [done|]. intros t i Ht.
  apply st16_range; [done|]. intros u j Hu. apply st16_aset; [done|]. apply sbox_inverse. auto with aes.
Qed.

Lemma st16_ShiftRows s : st16 s -> st16 (ShiftRows s).
Proof. intros Hs. unfold ShiftRows. repeat first [apply st16_aset | apply st16_aget]; done. Qed.

Lemma st16_MixColumns s : st16 s -> st16 (MixColumns s).
Proof.
  intros Hs. unfold MixColumns. apply st16_range; [done|]. intros t i Ht.
  repeat first [apply st16_aset | apply st16_aget | apply is_u8_lxor | apply xtime_range]; done.
Qed.

#[local] Hint Resolve st16_AddRoundKey st16_SubBytes st16_ShiftRows st16_MixColumns : aes.

#[local] Opaque AddRoundKey SubBytes ShiftRows MixColumns InvSubBytes InvShiftRows InvMixColumns.

(** The state after the first [n] rounds. *)
Definition rounds (s rk : list Z) (n : Z) : list Z :=
  for_range 1 (n + 1) (fun s round => AddRoundKey round (MixColumns (ShiftRows (SubBytes s))) rk) (AddRoundKey 0 s rk).

Lemma st16_rounds s rk n : bytes rk -> st16 s -> st16 (rounds s rk n).
Proof. intros Hk Hs. apply st16_range; auto with aes. Qed.

Lemma rounds_step s rk n : 0 <= n ->
  rounds s rk (n + 1) = AddRoundKey (n + 1) (MixColumns (ShiftRows (SubBytes (rounds s rk n)))) rk.
Proof. intros Hn. unfold rounds. by rewrite for_range_last by lia. Qed.

Lemma st16_Cipher s rk : bytes rk -> st16 s -> st16 (Cipher s rk).
Proof. intros Hk Hs. pose proof (st16_rounds s rk 13 Hk Hs). exact (st16_AddRoundKey Nr _ rk Hk (st16_ShiftRows _ (st16_SubBytes _ H))). Qed.

Lemma InvCipher_Cipher s rk : bytes rk -> st16 s -> InvCipher (Cipher s rk) rk = s.
Proof.
  intros Hk Hs. unfold InvCipher.
  change (Cipher s rk) with (AddRoundKey Nr (ShiftRows (SubBytes (rounds s rk 13))) rk).
  assert (Hst : forall n, st16 (rounds s rk n)) by (intros; by apply st16_rounds).
  assert (Hun : forall n, InvSubBytes (InvShiftRows (ShiftRows (SubBytes (rounds s rk n)))) = rounds s rk n).
  { intros n. rewrite InvShiftRows_ShiftRows by apply st16_SubBytes, Hst. by rewrite InvSubBytes_SubBytes. }
  rewrite AddRoundKey_twice by apply st16_ShiftRows, st16_SubBytes, Hst.
  match goal with |- AddRoundKey 0 (InvSubBytes (InvShiftRows ?x)) rk = s =>
    assert (Hx : x = ShiftRows (SubBytes (rounds s rk (Nr - 1 - (Nr - 1))))) end.
  - apply (for_range_ind (fun n t => t = ShiftRows (SubBytes (rounds s rk (Nr - 1 - n))))); [done|done|].
    intros n t Hn ->. rewrite Hun. unfold Nr in *.
    replace (14 - 1 - n) with (14 - 1 - (n + 1) + 1) by lia. rewrite rounds_step by lia.
    rewrite AddRoundKey_twice by apply st16_MixColumns, st16_ShiftRows, st16_SubBytes, Hst.
    by rewrite InvMixColumns_MixColumns by apply st16_ShiftRows, st16_SubBytes, Hst.
  - rewrite Hx, Hun. unfold rounds. rewrite for_range_empty by done. by rewrite AddRoundKey_twice by apply Hs.
Qed.

(** ** The key schedule *)

Definition word_ok (t : word) : Prop := is_u8 (w0 t) /\ is_u8 (w1 t) /\ is_u8 (w2 t) /\ is_u8 (w3 t).

Lemma SubWord_ok t : word_ok t -> word_ok (SubWord t).
Proof. intros (H0 & H1 & H2 & H3). repeat split; by apply sbox_inverse. Qed.

Lemma RotWord_ok t : word_ok t -> word_ok (RotWord t).
Proof. by intros (H0 & H1 & H2 & H3). Qed.

Lemma Rcon_bytes : bytes Rcon.
Proof. repeat constructor; unfold is_u8; lia. Qed.

Lemma expand_word_bytes rk i : bytes rk -> bytes (expand_word rk i) /\ alen (expand_word rk i) = alen rk.
Proof.
  intros Hb. unfold expand_word.
  set (t1 := if i mod Nk =? 0 then _ else _). set (t := if i mod Nk =? 4 then _ else _).
  assert (H1 : word_ok t1).
  { assert (H0 : word_ok (mkWord rk.[(i - 1) * 4 + 0] rk.[(i - 1) * 4 + 1] rk.[(i - 1) * 4 + 2] rk.[(i - 1) * 4 + 3]))
      by (repeat split; by apply aget_bytes).
    unfold t1. destruct (i mod Nk =? 0); [|done].
    destruct (SubWord_ok _ (RotWord_ok _ H0)) as (Ha & Hc & Hd & He).
    split; [|done]. apply is_u8_lxor; [done|apply aget_bytes, Rcon_bytes]. }
  assert (Ht : word_ok t) by (unfold t; destruct (i mod Nk =? 4); [by apply SubWord_ok|done]).
  destruct Ht as (Ha & Hc & Hd & He). rewrite !alen_aset. split; [|done].
  repeat first [apply bytes_aset | apply is_u8_lxor | apply aget_bytes]; done.
Qed.

(** The schedule is 240 bytes, whatever the array held before. *)
Lemma KeyExpansion_bytes rk key : bytes rk -> bytes key ->
  bytes (KeyExpansion rk key) /\ alen (KeyExpansion rk key) = alen rk.
Proof.
  intros Hr Hk. unfold KeyExpansion.
  apply (for_range_ind (fun _ t => bytes t /\ alen t = alen rk)); [done| |].
  - apply (for_range_ind (fun _ t => bytes t /\ alen t = alen rk)); [done|done|].
    intros i t _ [Ht Hl]. rewrite !alen_aset. split; [|done].
    repeat first [apply bytes_aset | apply aget_bytes]; done.
  - intros i t _ [Ht Hl]. destruct (expand_word_bytes t i Ht). by split; [|congruence].
Qed.

(** ** CBC against its definition on lists of blocks *)

Definition xor_block (b iv : list Z) : list Z := zip_with Z.lxor b iv.

(** With [E] and [D] the encryption and decryption of one block. *)
Fixpoint cbc_enc (E : list Z -> list Z) (iv : list Z) (bs : list (list Z)) : list (list Z) :=
  match bs with
  | [] => []
  | b :: bs' => E (xor_block b iv) :: cbc_enc E (E (xor_block b iv)) bs'
  end.

Fixpoint cbc_dec (D : list Z -> list Z) (iv : list Z) (bs : list (list Z)) : list (list Z) :=
  match bs with
  | [] => []
  | b :: bs' => xor_block (D b) iv :: cbc_dec D b bs'
  end.

Lemma XorWithIv_eq b iv : length b = 16%nat -> length iv = 16%nat -> XorWithIv b iv = xor_block b iv.
Proof. intros Hb Hi. explode b. explode iv. cbv -[Z.lxor]. done. Qed.

Lemma st16_xor b iv : st16 b -> st16 iv -> st16 (xor_block b iv).
Proof.
  intros [Hl Hb] [Hli Hbi]. split; [unfold xor_block; rewrite length_zip_with; lia|].
  apply Forall_lookup_2. intros i x Hx. apply lookup_zip_with_Some in Hx as (y & z & -> & Hy & Hz).
  apply is_u8_lxor; [exact (Forall_lookup_1 _ _ _ _ Hb Hy)|exact (Forall_lookup_1 _ _ _ _ Hbi Hz)].
Qed.

Lemma xor_block_cancel b iv : length b = 16%nat -> length iv = 16%nat -> xor_block (xor_block b iv) iv = b.
Proof. intros Hb Hi. explode b. explode iv. cbv -[Z.lxor]. by rewrite !lxor_cancel. Qed.

Section CbcBlocks.
Context (E D : list Z -> list Z).
Hypothesis E_st16 : forall b, st16 b -> st16 (E b).
Hypothesis D_E : forall b, st16 b -> D (E b) = b.

Lemma cbc_dec_enc bs : forall iv, st16 iv -> Forall st16 bs -> cbc_dec D iv (cbc_enc E iv bs) = bs.
Proof.
  induction bs as [|b bs IH]; intros iv Hi Hbs; [done|]. inversion_clear Hbs as [|? ? Hb Hbs'].
  assert (Hx : st16 (xor_block b iv)) by by apply st16_xor.
  cbn [cbc_enc cbc_dec]. rewrite D_E by done.
  rewrite xor_block_cancel by (apply Hb || apply Hi). rewrite IH; auto.
Qed.

Lemma st16_cbc_enc bs : forall iv, st16 iv -> Forall st16 bs -> Forall st16 (cbc_enc E iv bs).
Proof.
  induction bs as [|b bs IH]; intros iv Hi Hbs; [done|]. inversion_clear Hbs as [|? ? Hb Hbs'].
  constructor; [|apply IH]; auto using st16_xor.
Qed.

Lemma length_cbc_enc bs : forall iv, length (cbc_enc E iv bs) = length bs.
Proof. induction bs as [|b bs IH]; intros iv; simpl; congruence. Qed.
End CbcBlocks.

(** ** Blocks inside a buffer *)

Definition len16 (b : list Z) : Prop := length b = 16%nat.

Lemma len16_aset s i x : len16 s -> len16 (aset s i x).
Proof. unfold len16. intros Hs. pose proof (alen_aset s i x). unfold alen in *. lia. Qed.

Lemma len16_range s f a b : len16 s -> (forall t i, len16 t -> len16 (f t i)) -> len16 (for_range a b f s).
Proof.
  intros Hs Hf. destruct (Z.le_gt_cases a b); [|by rewrite for_range_empty by lia].
  apply (for_range_ind (fun _ t => len16 t)); [done|done|auto].
Qed.

#[local] Transparent AddRoundKey SubBytes ShiftRows MixColumns InvSubBytes InvShiftRows InvMixColumns.

Ltac keeps_length f :=
  intros Hs; unfold f; repeat first [apply len16_aset | apply len16_range; [|intros ? ? ?]]; done.

Lemma len16_AddRoundKey r s rk : len16 s -> len16 (AddRoundKey r s rk).
Proof. keeps_length AddRoundKey. Qed.
Lemma len16_InvSubBytes s : len16 s -> len16 (InvSubBytes s).
Proof. keeps_length InvSubBytes. Qed.
Lemma len16_InvShiftRows s : len16 s -> len16 (InvShiftRows s).
Proof. keeps_length InvShiftRows. Qed.
Lemma len16_InvMixColumns s : len16 s -> len16 (InvMixColumns s).
Proof. keeps_length InvMixColumns. Qed.

#[local] Opaque AddRoundKey SubBytes ShiftRows MixColumns InvSubBytes InvShiftRows InvMixColumns.

Lemma len16_InvCipher s rk : len16 s -> len16 (InvCipher s rk).
Proof.
  intros Hs. apply len16_AddRoundKey, len16_InvSubBytes, len16_InvShiftRows, len16_range.
  - by apply len16_AddRoundKey.
  - intros t i Ht. by apply len16_InvMixColumns, len16_AddRoundKey, len16_InvSubBytes, len16_InvShiftRows.
Qed.

Lemma length_blocks (bs : list (list Z)) : Forall len16 bs -> length (mjoin bs) = (16 * length bs)%nat.
Proof.
  induction 1 as [|b bs Hb _ IH]; [done|]. change (mjoin (b :: bs)) with (b ++ mjoin bs).
  rewrite length_app, IH, Hb. simpl. lia.
Qed.

Lemma block_at_eq pre b rest n : Forall len16 pre -> len16 b -> Z.of_nat (length pre) = n ->
  block_at (mjoin pre ++ b ++ rest) (16 * n) = b.
Proof.
  intros Hp Hb <-. unfold block_at. rewrite drop_app_length' by (rewrite length_blocks by done; lia).
  by rewrite <- Hb, take_app_length.
Qed.

Lemma set_block_eq pre b rest n c : Forall len16 pre -> len16 b -> len16 c -> Z.of_nat (length pre) = n ->
  set_block (mjoin pre ++ b ++ rest) (16 * n) c = mjoin (pre ++ [c]) ++ rest.
Proof.
  intros Hp Hb Hc <-. unfold set_block, len16 in *. pose proof (length_blocks pre Hp) as Hl.
  rewrite ft_memcpy_eq by (unfold alen, AES_BLOCKLEN; rewrite ?length_app, ?Hl, ?Hb, ?Hc; lia).
  rewrite take_app_length' by lia. rewrite (take_ge c) by (rewrite Hc; done).
  rewrite (app_assoc (mjoin pre) b), drop_app_length' by (unfold AES_BLOCKLEN; rewrite length_app, Hl, Hb; lia).
  rewrite join_app. change (mjoin [c]) with (c ++ []). by rewrite app_nil_r, app_assoc.
Qed.

Lemma copy_iv iv b : len16 iv -> len16 b -> ft_memcpy iv 0 b AES_BLOCKLEN = b.
Proof. intros Hi Hb. unfold len16 in *. explode iv. explode b. reflexivity. Qed.

Lemma blocks_of_whole n : blocks_of (16 * Z.of_nat n) = Z.of_nat n.
Proof. unfold blocks_of. zlia. Qed.

Section Cbc.
Context (rk : list Z) (rk_bytes : bytes rk).
Let E b := Cipher b rk.
Let D b := InvCipher b rk.

(** The loop of [AES_CBC_encrypt_buffer] on whole blocks; bytes after them stay. *)
Lemma cbc_encrypt_eq iv bs rest : st16 iv -> Forall st16 bs ->
  snd (AES_CBC_encrypt_buffer (mkAES rk iv) (mjoin bs ++ rest) (16 * Z.of_nat (length bs)))
  = mjoin (cbc_enc E iv bs) ++ rest.
Proof.
  intros Hi Hbs. unfold AES_CBC_encrypt_buffer. rewrite blocks_of_whole. cbn [RoundKey Iv].
  match goal with |- context [for_range 0 ?n ?f ?s0] => set (F := f); set (r := for_range 0 n F s0) end.
  assert (Hr : exists cs todo, Z.of_nat (length cs) = Z.of_nat (length bs) /\ Forall len16 cs /\
    fst r = mjoin cs ++ mjoin todo ++ rest /\ cbc_enc E iv bs = cs ++ cbc_enc E (snd r) todo /\
    (length cs + length todo = length bs)%nat /\ Forall st16 todo /\ st16 (snd r)).
  { unfold r. apply (for_range_ind (fun n t => exists cs todo, Z.of_nat (length cs) = n /\ Forall len16 cs /\
      fst t = mjoin cs ++ mjoin todo ++ rest /\ cbc_enc E iv bs = cs ++ cbc_enc E (snd t) todo /\
      (length cs + length todo = length bs)%nat /\ Forall st16 todo /\ st16 (snd t))); [lia|by exists [], bs|].
    intros n [buf v] Hn (cs & todo & Hn' & Hcs & Hbuf & Heq & Hlen & Htd & Hv). cbn [fst snd] in *.
    destruct todo as [|b todo]; [simpl in Hlen; lia|]. inversion_clear Htd as [|? ? Hb Htd'].
    change (mjoin (b :: todo)) with (b ++ mjoin todo) in Hbuf. rewrite <- app_assoc in Hbuf.
    assert (Hc : st16 (E (xor_block b v))) by by apply st16_Cipher, st16_xor.
    exists (cs ++ [E (xor_block b v)]), todo. subst buf. unfold F. cbn [fst snd].
    rewrite block_at_eq by (done || apply Hb). rewrite XorWithIv_eq by (apply Hb || apply Hv).
    change (Cipher (xor_block b v) rk) with (E (xor_block b v)).
    rewrite (set_block_eq cs b) by (done || apply Hb || apply Hc).
    rewrite length_app. cbn [length]. split; [lia|]. split; [apply Forall_app; split; [done|by repeat constructor; apply Hc]|].
    split; [done|]. split; [rewrite Heq, <- app_assoc; done|]. split; [simpl in Hlen; lia|]. done. }
  destruct Hr as (cs & todo & Hl & _ & Hbuf & Heq & Hlen & _). destruct r as [buf v]. cbn [fst snd] in *.
  destruct todo; [|simpl in Hlen; lia]. by rewrite Hbuf, Heq, app_nil_r.
Qed.

Lemma cbc_decrypt_eq iv bs rest : len16 iv -> Forall len16 bs ->
  snd (AES_CBC_decrypt_buffer (mkAES rk iv) (mjoin bs ++ rest) (16 * Z.of_nat (length bs)))
  = mjoin (cbc_dec D iv bs) ++ rest.
Proof.
  intros Hi Hbs. unfold AES_CBC_decrypt_buffer. rewrite blocks_of_whole.
  match goal with |- context [for_range 0 ?n ?f ?s0] => set (F := f); set (r := for_range 0 n F s0) end.
  assert (Hr : exists ps todo, Z.of_nat (length ps) = Z.of_nat (length bs) /\ Forall len16 ps /\
    snd r = mjoin ps ++ mjoin todo ++ rest /\ cbc_dec D iv bs = ps ++ cbc_dec D (Iv (fst r)) todo /\
    (length ps + length todo = length bs)%nat /\ Forall len16 todo /\ len16 (Iv (fst r)) /\ RoundKey (fst r) = rk).
  { unfold r. apply (for_range_ind (fun n t => exists ps todo, Z.of_nat (length ps) = n /\ Forall len16 ps /\
      snd t = mjoin ps ++ mjoin todo ++ rest /\ cbc_dec D iv bs = ps ++ cbc_dec D (Iv (fst t)) todo /\
      (length ps + length todo = length bs)%nat /\ Forall len16 todo /\ len16 (Iv (fst t)) /\ RoundKey (fst t) = rk));
      [lia|by exists [], bs|].
    intros n [[k v] buf] Hn (ps & todo & Hn' & Hps & Hbuf & Heq & Hlen & Htd & Hv & Hk). cbn [fst snd Iv RoundKey] in *.
    subst k. destruct todo as [|b todo]; [simpl in Hlen; lia|]. inversion_clear Htd as [|? ? Hb Htd'].
    change (mjoin (b :: todo)) with (b ++ mjoin todo) in Hbuf. rewrite <- app_assoc in Hbuf.
    assert (Hd : len16 (D b)) by by apply len16_InvCipher.
    assert (Hx : len16 (xor_block (D b) v)) by (unfold len16, xor_block in *; rewrite length_zip_with; lia).
    exists (ps ++ [xor_block (D b) v]), todo. subst buf. unfold F. cbn [fst snd Iv RoundKey].
    rewrite !block_at_eq by done. change (InvCipher b rk) with (D b). rewrite XorWithIv_eq by done.
    rewrite (set_block_eq ps b), copy_iv by done.
    rewrite length_app. cbn [length]. split; [lia|]. split; [apply Forall_app; split; [done|by repeat constructor]|].
    split; [done|]. split; [rewrite Heq, <- app_assoc; done|]. split; [simpl in Hlen; lia|]. done. }
  destruct Hr as (ps & todo & Hl & _ & Hbuf & Heq & Hlen & _). destruct r as [ctx buf]. cbn [fst snd] in *.
  destruct todo; [|simpl in Hlen; lia]. by rewrite Hbuf, Heq, app_nil_r.
Qed.
End Cbc.

(** ** Decryption yields bytes, whatever it is given *)

Lemma bytes_range s f a b : bytes s -> (forall t i, bytes t -> bytes (f t i)) -> bytes (for_range a b f s).
Proof.
  intros Hs Hf. destruct (Z.le_gt_cases a b); [|by rewrite for_range_empty by lia].
  apply (for_range_ind (fun _ t => bytes t)); [done|done|auto].
Qed.

Lemma Multiply_range x y : is_u8 x -> is_u8 (Multiply x y).
Proof.
  intros Hx.
  assert (Hm : forall k z, is_u8 z -> is_u8 (Z.land k 1 * z)).
  { intros k z Hz. change 1 with (Z.ones 1). rewrite Z.land_ones by lia.
    assert (k mod 2 ^ 1 = 0 \/ k mod 2 ^ 1 = 1) as [->| ->] by (pose proof (Z.mod_pos_bound k (2 ^ 1)); lia);
      [unfold is_u8; lia|by rewrite Z.mul_1_l]. }
  unfold Multiply. repeat apply is_u8_lxor; apply Hm; (done || apply xtime_range).
Qed.

Lemma rsbox_bytes : bytes rsbox.
Proof. apply Forall_forall. intros x Hx. repeat (apply elem_of_cons in Hx as [->|Hx]; [unfold is_u8; lia|]). by apply not_elem_of_nil in Hx. Qed.

#[local] Transparent AddRoundKey SubBytes ShiftRows MixColumns InvSubBytes InvShiftRows InvMixColumns.

Ltac keeps_bytes f :=
  intros; unfold f; cbv zeta;
  repeat match goal with
  | |- bytes (for_range _ _ _ _) => apply bytes_range; [|intros ? ? ?]
  | |- bytes (aset _ _ _) => apply bytes_aset
  | |- is_u8 (aget _ _) => apply aget_bytes
  | |- is_u8 (Z.lxor _ _) => apply is_u8_lxor
  | |- is_u8 (Multiply _ _) => apply Multiply_range
  | |- is_u8 (mul4 _ _ _ _ _ _ _ _) => unfold mul4
  | |- is_u8 (getSBoxInvert _) => unfold getSBoxInvert
  | |- is_u8 (key_byte _ _ _ _) => unfold key_byte
  | |- bytes rsbox => apply rsbox_bytes
  | H : ?P |- ?P => exact H
  end.

Lemma bytes_AddRoundKey r s rk : bytes rk -> bytes s -> bytes (AddRoundKey r s rk).
Proof. keeps_bytes AddRoundKey. Qed.
Lemma bytes_InvSubBytes s : bytes s -> bytes (InvSubBytes s).
Proof. keeps_bytes InvSubBytes. Qed.
Lemma bytes_InvShiftRows s : bytes s -> bytes (InvShiftRows s).
Proof. keeps_bytes InvShiftRows. Qed.
Lemma bytes_InvMixColumns s : bytes s -> bytes (InvMixColumns s).
Proof. keeps_bytes InvMixColumns. Qed.

#[local] Opaque AddRoundKey SubBytes ShiftRows MixColumns InvSubBytes InvShiftRows InvMixColumns.

Lemma bytes_InvCipher s rk : bytes rk -> bytes s -> bytes (InvCipher s rk).
Proof.
  intros Hk Hs. apply bytes_AddRoundKey, bytes_InvSubBytes, bytes_InvShiftRows, bytes_range; [done| |].
  - by apply bytes_AddRoundKey.
  - intros t i Ht. by apply bytes_InvMixColumns, bytes_AddRoundKey, bytes_InvSubBytes, bytes_InvShiftRows.
Qed.

Lemma decrypt_length ctx buf n : 0 <= n -> alen (snd (AES_CBC_decrypt_buffer ctx buf n)) = alen buf.
Proof.
  intros Hn. unfold AES_CBC_decrypt_buffer. apply (for_range_ind (fun _ t => alen (snd t) = alen buf)); [unfold blocks_of; zlia|done|].
  intros i [c b] _ Hb. simpl in *. unfold set_block. by rewrite alen_ft_memcpy.
Qed.

Lemma encrypt_length ctx buf n : 0 <= n -> alen (snd (AES_CBC_encrypt_buffer ctx buf n)) = alen buf.
Proof.
  intros Hn. unfold AES_CBC_encrypt_buffer.
  match goal with |- context [for_range 0 ?k ?f ?x] => assert (H : alen (fst (for_range 0 k f x)) = alen buf) end.
  { apply (for_range_ind (fun _ t => alen (fst t) = alen buf)); [unfold blocks_of; zlia|done|].
    intros i [b c] _ Hb. simpl in *. unfold set_block. by rewrite alen_ft_memcpy. }
  destruct (for_range _ _ _ _) as [b iv]. exact H.
Qed.

Lemma decrypt_bytes ctx buf n : bytes (RoundKey ctx) -> bytes (Iv ctx) -> bytes buf ->
  bytes (snd (AES_CBC_decrypt_buffer ctx buf n)).
Proof.
  intros Hk Hi Hb. unfold AES_CBC_decrypt_buffer.
  destruct (Z.le_gt_cases 0 (blocks_of n)); [|by rewrite for_range_empty by lia].
  apply (for_range_ind (fun _ t => bytes (snd t) /\ bytes (Iv (fst t)) /\ bytes (RoundKey (fst t)))); [done|done|].
  intros i [c b] _ (H1 & H2 & H3). cbn [fst snd Iv RoundKey] in *.
  assert (Hblk : bytes (block_at b (16 * i))) by by apply bytes_take, bytes_drop.
  split; [|split; [by apply bytes_ft_memcpy|done]]. apply bytes_ft_memcpy; [done|].
  apply bytes_range; [by apply bytes_InvCipher|]. intros t j Ht. apply bytes_aset; [done|].
  apply is_u8_lxor; by apply aget_bytes.
Qed.

Lemma blocks_split n : forall buf, bytes buf -> (16 * n <= length buf)%nat ->
  exists bs rest, buf = mjoin bs ++ rest /\ length bs = n /\ Forall st16 bs.
Proof.
  induction n as [|n IH]; intros buf Hb Hl; [by exists [], buf|].
  destruct (IH (drop 16 buf)) as (bs & rest & He & Hn & Hbs); [by apply bytes_drop|rewrite length_drop; lia|].
  exists (take 16 buf :: bs), rest. change (mjoin (take 16 buf :: bs)) with (take 16 buf ++ mjoin bs).
  rewrite <- app_assoc, <- He, take_drop. split; [done|]. split; [simpl; lia|].
  constructor; [|done]. split; [rewrite length_take; lia|by apply bytes_take].
Qed.

Lemma stack_aes_bytes key : bytes key -> bytes (KeyExpansion (RoundKey stack_aes) key).
Proof. intros Hk. apply KeyExpansion_bytes; [|done]. apply bytes_replicate. unfold is_u8. lia. Qed.

(** Only the first 16 bytes behind the pointer are the vector. *)
Lemma init_ctx_iv_app key iv rest : len16 iv ->
  AES_init_ctx_iv stack_aes key (iv ++ rest) = mkAES (KeyExpansion (RoundKey stack_aes) key) iv.
Proof. intros Hi. unfold AES_init_ctx_iv. f_equal. unfold len16 in *. explode iv. reflexivity. Qed.

Lemma init_ctx_iv_eq key iv : len16 iv ->
  AES_init_ctx_iv stack_aes key iv = mkAES (KeyExpansion (RoundKey stack_aes) key) iv.
Proof. intros Hi. rewrite <- (app_nil_r iv) at 1. by apply init_ctx_iv_app. Qed.

Lemma Forall_len16 bs : Forall st16 bs -> Forall len16 bs.
Proof. intros H. eapply Forall_impl; [exact H|]. by intros b [Hb _]. Qed.

(** The bytes after the blocks may change between the two calls. *)
Lemma cbc_dec_of_enc rk iv bs rest : bytes rk -> st16 iv -> Forall st16 bs ->
  snd (AES_CBC_decrypt_buffer (mkAES rk iv) (mjoin (cbc_enc (fun b => Cipher b rk) iv bs) ++ rest) (16 * Z.of_nat (length bs)))
  = mjoin bs ++ rest.
Proof.
  intros Hk Hi Hbs. rewrite <- (length_cbc_enc (fun b => Cipher b rk) bs iv), cbc_decrypt_eq.
  - rewrite cbc_dec_enc; [done| | |done|done]; intros; [by apply st16_Cipher|by apply InvCipher_Cipher].
  - apply Hi.
  - apply Forall_len16, st16_cbc_enc; [|done|done]. intros. by apply st16_Cipher.
Qed.

Lemma cbc_blocks_roundtrip rk iv bs rest : bytes rk -> st16 iv -> Forall st16 bs ->
  let n := 16 * Z.of_nat (length bs) in
  snd (AES_CBC_decrypt_buffer (mkAES rk iv) (snd (AES_CBC_encrypt_buffer (mkAES rk iv) (mjoin bs ++ rest) n)) n)
  = mjoin bs ++ rest.
Proof.
  intros Hk Hi Hbs n. unfold n. rewrite cbc_encrypt_eq by done. by apply cbc_dec_of_enc.
Qed.

(** C22: AES-256 round trip: with any 32-byte key, decrypting an encrypted block
    gives the block back, and [AES_CBC_decrypt_buffer] undoes
    [AES_CBC_encrypt_buffer] under the same key and initialisation vector for
    every buffer whose stated length is a whole number of blocks; bytes of the
    buffer beyond that length are left alone by both. *)
Theorem aes_roundtrip key iv b buf n :
  bytes key -> st16 iv -> st16 b -> bytes buf -> 0 <= n -> 16 * n <= alen buf ->
  let ctx := AES_init_ctx_iv stack_aes key iv in
  InvCipher (Cipher b (RoundKey ctx)) (RoundKey ctx) = b /\
  snd (AES_CBC_decrypt_buffer ctx (snd (AES_CBC_encrypt_buffer ctx buf (16 * n))) (16 * n)) = buf.
Proof.
  intros Hkey Hiv Hb Hbuf Hn Hl ctx. pose proof (stack_aes_bytes key Hkey) as Hk.
  unfold ctx. rewrite init_ctx_iv_eq by apply Hiv. cbn [RoundKey].
  split; [by apply InvCipher_Cipher|].
  destruct (blocks_split (Z.to_nat n) buf Hbuf) as (bs & rest & -> & Hbs & Hst); [unfold alen in Hl; lia|].
  replace n with (Z.of_nat (length bs)) by lia. by apply cbc_blocks_roundtrip.
Qed.

(** The block of FIPS 197, appendix C.3: the key is the bytes 0 to 31. *)
Definition fips_plain : list Z := [0; 17; 34; 51; 68; 85; 102; 119; 136; 153; 170; 187; 204; 221; 238; 255].
Definition fips_cipher : list Z := [142; 162; 183; 202; 81; 103; 69; 191; 234; 252; 73; 144; 75; 73; 96; 137].

Lemma aes_roundtrip_witness :
  let rk := RoundKey (AES_init_ctx_iv stack_aes (seqZ 0 32) fips_plain) in
  Cipher fips_plain rk = fips_cipher /\ InvCipher (Cipher fips_plain rk) rk = fips_plain.
Proof.
  assert (Hp : st16 fips_plain) by (split; [reflexivity|apply bytes_dec; reflexivity]).
  split; [vm_compute; reflexivity|].
  exact (proj1 (aes_roundtrip (seqZ 0 32) fips_plain fips_plain fips_plain 1
    (bytes_dec (seqZ 0 32) eq_refl) Hp Hp (proj2 Hp) ltac:(discriminate) ltac:(discriminate))).
Defined.

(** ** CTR *)

(** The number a counter block stands for, most significant byte first. *)
Definition block_value (l : list Z) : Z := foldl (fun acc x => acc * 256 + x) 0 l.

Lemma block_value_snoc l x : block_value (l ++ [x]) = block_value l * 256 + x.
Proof. unfold block_value. by rewrite foldl_app. Qed.

Lemma block_value_range l : bytes l -> 0 <= block_value l < 256 ^ alen l.
Proof.
  induction l as [|x l IH] using rev_ind; [done|]. intros [Hl Hx]%bytes_app.
  inversion_clear Hx as [|? ? Hx' _]. rewrite block_value_snoc, alen_app. change (alen [x]) with 1.
  pose proof (alen_nonneg l). rewrite Z.pow_add_r by lia. specialize (IH Hl). unfold is_u8 in Hx'. lia.
Qed.

(** Adding one carries through the bytes as it does through a 128-bit number. *)
Lemma increment_value n : forall iv, bytes iv -> (n <= length iv)%nat ->
  bytes (increment iv n) /\ length (increment iv n) = length iv /\
  drop n (increment iv n) = drop n iv /\
  block_value (take n (increment iv n)) = (block_value (take n iv) + 1) mod 256 ^ Z.of_nat n.
Proof.
  induction n as [|n IH]; intros iv Hb Hl; [by rewrite Z.mod_1_r|].
  cbn [increment].
  assert (Hx : iv !! n = Some iv.[Z.of_nat n]) by (rewrite <- (Nat2Z.id n) at 1; apply aget_lookup; unfold alen; lia).
  pose proof (aget_bytes iv (Z.of_nat n) Hb) as Hu. unfold is_u8 in Hu.
  pose proof (block_value_range (take n iv) (bytes_take _ _ Hb)) as Hv.
  assert (Hlt : alen (take n iv) = Z.of_nat n) by (unfold alen; rewrite length_take; lia).
  rewrite Hlt in Hv. set (x := iv.[Z.of_nat n]) in *.
  assert (Hset : forall y, iv.[Z.of_nat n <- y] = <[n := y]> iv)
    by (intros y; unfold aset; destruct (Z.ltb_spec (Z.of_nat n) 0); [lia|by rewrite Nat2Z.id]).
  assert (Hpow : 256 ^ Z.of_nat (S n) = 256 ^ Z.of_nat n * 256) by (rewrite Nat2Z.inj_succ, Z.pow_succ_r by lia; lia).
  rewrite !(take_S_r _ _ _ Hx), block_value_snoc, Hpow. rewrite !Hset.
  destruct (Z.eqb_spec x 255) as [E|E].
  - destruct (IH (<[n := 0]> iv)) as (H1 & H2 & H3 & H4);
      [apply Forall_insert; [done|unfold is_u8; lia]|rewrite length_insert; lia|].
    assert (Hn : increment (<[n := 0]> iv) n !! n = Some 0).
    { pose proof (f_equal (fun l => l !! 0%nat) H3) as H. cbv beta in H.
      rewrite !lookup_drop, Nat.add_0_r in H. rewrite H. apply list_lookup_insert_eq. lia. }
    split; [done|]. split; [by rewrite H2, length_insert|]. split.
    + rewrite <- (Nat.add_1_r n), <- !drop_drop, H3, !drop_drop. apply drop_insert_lt. lia.
    + rewrite (take_S_r _ _ _ Hn), block_value_snoc, H4, take_insert_ge, E by lia.
      replace (block_value (take n iv) * 256 + 255 + 1) with ((block_value (take n iv) + 1) * 256) by lia.
      rewrite Z.mul_mod_distr_r by lia. lia.
  - split; [apply Forall_insert; [done|unfold is_u8; lia]|]. split; [by rewrite length_insert|].
    split; [apply drop_insert_lt; lia|].
    rewrite (take_S_r _ _ (x + 1)) by (apply list_lookup_insert_eq; lia).
    rewrite block_value_snoc, take_insert_ge, Z.mod_small by lia. lia.
Qed.

(** The counter block after [n] increments. *)
Definition counter (iv : list Z) (n : Z) : list Z := Nat.iter (Z.to_nat n) (fun v => increment v 16) iv.

Lemma counter_succ iv n : 0 <= n -> counter iv (n + 1) = increment (counter iv n) 16.
Proof. intros Hn. unfold counter. by replace (Z.to_nat (n + 1)) with (S (Z.to_nat n)) by lia. Qed.

Lemma counter_value iv n : st16 iv -> 0 <= n ->
  st16 (counter iv n) /\ block_value (counter iv n) = (block_value iv + n) mod 2 ^ 128.
Proof.
  intros Hi. revert n. apply (natlike_ind (fun n => st16 (counter iv n) /\ _ = (_ + n) mod _)).
  - split; [done|]. rewrite Z.add_0_r, Z.mod_small; [done|].
    destruct Hi as [Hl Hb]. pose proof (block_value_range iv Hb) as Hv. unfold alen in Hv. rewrite Hl in Hv. exact Hv.
  - intros n Hn [[Hl Hb] IH]. unfold Z.succ. rewrite counter_succ by done.
    destruct (increment_value 16 (counter iv n) Hb) as (H1 & H2 & _ & H4); [lia|].
    split; [split; [by rewrite H2|done]|].
    rewrite !take_ge in H4 by lia. change (256 ^ Z.of_nat 16) with (2 ^ 128) in H4.
    rewrite H4, IH, Zplus_mod_idemp_l. f_equal. lia.
Qed.

(** Byte [i] of the key stream. *)
Definition keystream (rk iv : list Z) (i : Z) : Z := (Cipher (counter iv (i / 16)) rk).[i mod 16].

#[local] Opaque Cipher increment.

Lemma ctr_loop rk iv buf n : 0 <= n <= alen buf ->
  let '(ctx, out, buffer, bi) := for_range 0 n ctr_step (mkAES rk iv, buf, replicate 16 0, AES_BLOCKLEN) in
  ctx = mkAES rk (counter iv ((n + 15) / 16)) /\ bi = (n - 1) mod 16 + 1 /\
  (0 < n -> buffer = Cipher (counter iv ((n - 1) / 16)) rk) /\ alen out = alen buf /\
  forall j, 0 <= j -> out.[j] = if j <? n then Z.lxor buf.[j] (keystream rk iv j) else buf.[j].
Proof.
  intros Hn.
  apply (for_range_ind (fun n t => let '(ctx, out, buffer, bi) := t in
    ctx = mkAES rk (counter iv ((n + 15) / 16)) /\ bi = (n - 1) mod 16 + 1 /\
    (0 < n -> buffer = Cipher (counter iv ((n - 1) / 16)) rk) /\ alen out = alen buf /\
    forall j, 0 <= j -> out.[j] = if j <? n then Z.lxor buf.[j] (keystream rk iv j) else buf.[j])); [lia| |].
  - repeat split; [lia|]. intros j Hj. by destruct (Z.ltb_spec j 0); [lia|].
  - intros i [[[ctx out] buffer] bi] Hi (-> & -> & Hbuf & Hlen & Hout). unfold ctr_step, AES_BLOCKLEN.
    assert (Hb : forall ks m, ks = Cipher (counter iv (i / 16)) rk -> m = i mod 16 ->
      alen out.[i <- Z.lxor out.[i] ks.[m]] = alen buf /\
      forall j, 0 <= j -> (out.[i <- Z.lxor out.[i] ks.[m]]).[j]
        = if j <? i + 1 then Z.lxor buf.[j] (keystream rk iv j) else buf.[j]).
    { intros ks m -> ->. rewrite alen_aset. split; [done|]. intros j Hj. rewrite aget_aset by lia.
      destruct (Z.eqb_spec i j) as [->|Hne].
      - destruct (Z.ltb_spec j (j + 1)); [|lia]. rewrite Hout by lia. by destruct (Z.ltb_spec j j); [lia|].
      - rewrite Hout by lia. destruct (Z.ltb_spec j i), (Z.ltb_spec j (i + 1)); (done || lia). }
    destruct (Z.eqb_spec ((i - 1) mod 16 + 1) 16) as [E|E]; cbn [Iv RoundKey].
    + replace ((i + 15) / 16) with (i / 16) by zlia.
      destruct (Hb (Cipher (counter iv (i / 16)) rk) 0 eq_refl) as [H1 H2]; [zlia|].
      rewrite <- counter_succ by (apply Z.div_pos; lia). replace (i + 1 - 1) with i by lia.
      split; [do 2 f_equal; zlia|]. split; [zlia|]. done.
    + assert (Hi0 : 0 < i) by (destruct (Z.eq_dec i 0) as [->|]; [done|lia]).
      rewrite (Hbuf Hi0). replace ((i - 1) / 16) with (i / 16) by zlia.
      destruct (Hb (Cipher (counter iv (i / 16)) rk) ((i - 1) mod 16 + 1) eq_refl) as [H1 H2]; [zlia|].
      replace (i + 1 - 1) with i by lia.
      split; [do 2 f_equal; zlia|]. split; [zlia|]. done.
Qed.

(** Counter mode: [AES_CTR_xcrypt_buffer] adds to byte [i] of the buffer,
    for any length up to the buffer's, byte [i mod 16] of the encryption of the
    counter block that stands for the 128-bit number [iv + i / 16], with the carry
    through all sixteen bytes and the wrap at the end; running it twice from the
    same context restores the buffer. *)
Theorem ctr_keystream key iv buf n :
  bytes key -> st16 iv -> 0 <= n <= alen buf ->
  let ctx := AES_init_ctx_iv stack_aes key iv in
  let out := snd (AES_CTR_xcrypt_buffer ctx buf n) in
  (forall i, 0 <= i < n -> exists c, st16 c /\ block_value c = (block_value iv + i / 16) mod 2 ^ 128 /\
    out.[i] = Z.lxor buf.[i] (Cipher c (RoundKey ctx)).[i mod 16]) /\
  snd (AES_CTR_xcrypt_buffer ctx out n) = buf.
Proof.
  intros Hkey Hiv Hn ctx out.
  assert (Hrun : forall b, 0 <= n <= alen b -> alen (snd (AES_CTR_xcrypt_buffer ctx b n)) = alen b /\
    forall j, 0 <= j -> (snd (AES_CTR_xcrypt_buffer ctx b n)).[j]
      = if j <? n then Z.lxor b.[j] (keystream (RoundKey ctx) iv j) else b.[j]).
  { intros b Hb. unfold ctx, AES_CTR_xcrypt_buffer. rewrite init_ctx_iv_eq by apply Hiv.
    pose proof (ctr_loop (KeyExpansion (RoundKey stack_aes) key) iv b n Hb) as H.
    destruct (for_range _ _ _ _) as [[[c o] ?] ?]. by destruct H as (_ & _ & _ & H1 & H2). }
  destruct (Hrun buf Hn) as [Hl Hout]. fold out in Hl, Hout. split.
  - intros i Hi. exists (counter iv (i / 16)).
    destruct (counter_value iv (i / 16) Hiv) as [H1 H2]; [apply Z.div_pos; lia|].
    split; [done|]. split; [done|]. rewrite Hout by lia. by destruct (Z.ltb_spec i n); [|lia].
  - destruct (Hrun out ltac:(lia)) as [Hl2 Hout2]. apply aget_ext; [lia|]. intros j Hj.
    rewrite Hout2, Hout by lia. destruct (j <? n); [apply lxor_cancel|done].
Qed.

Lemma ctr_keystream_witness :
  let ctx := AES_init_ctx_iv stack_aes (seqZ 0 32) (replicate 16 255) in
  snd (AES_CTR_xcrypt_buffer ctx (snd (AES_CTR_xcrypt_buffer ctx (replicate 20 1) 20)) 20) = replicate 20 1.
Proof.
  assert (Hi : st16 (replicate 16 255)) by (split; [reflexivity|apply bytes_dec; reflexivity]).
  exact (proj2 (ctr_keystream (seqZ 0 32) (replicate 16 255) (replicate 20 1) 20
    (bytes_dec (seqZ 0 32) eq_refl) Hi ltac:(split; discriminate))).
Defined.

End Aes.
