(* ===== verification/CryptoFs.v ===== *)
(** * The sealed form of a file (fs/crypto_fs.c)

    What a file looks like on an encrypted disk: sixteen bytes of initialisation
    vector, then AES-256-CBC over the word "SAFE", the length, the HMAC-SHA256 of
    the contents, the contents and zeroes up to a whole block.  The functions here
    are those of crypto_fs.c that work on bytes in memory; CryptoVfs puts them
    under the file system. *)

From S2P Require Import Prelude CStr FsFormat Sha256 Hmac Aes.
Import FsFormat Hmac Aes.

Module CryptoFs.

(** ** The program *)

(** What [generate_random_bytes] and [entropy_next_counter] answer during one
    call of [derive_file_iv]. *)
Record draw := mkDraw { quality : Z; pool_bytes : list Z; counter : Z }.

Definition ENTROPY_FAIL : Z := -2.

(** ["esdumanOS-iv-v1"] with its terminator. *)
Definition iv_label : list Z := [101;115;100;117;109;97;110;79;83;45;105;118;45;118;49;0].

Definition derive_file_iv (key : list Z) (d : draw) : Z + list Z :=
  if quality d =? ENTROPY_FAIL then inl E_IO
  else
    let material := iv_label ++ le 8 (counter d) ++ pool_bytes d in
    inr (take 16 (hmac_sha256 key material)).

Definition SAFE_MAGIC : Z := 0x53414645.

(** [(x + 15) & ~15] *)
Definition round16 (x : Z) : Z := Z.land (u32 (x + 15)) (not32 15).

(** The buffer [fs_create_encrypted] hands to [fs_create_file_raw], once it has
    its vector.  Every byte of the allocation is written, so what it held before
    does not show. *)
Definition sealed_buffer (key iv data : list Z) (len : Z) : list Z :=
  let payload_len := u32 (40 + len) in
  let padded_len := round16 payload_len in
  let total_len := u32 (16 + padded_len) in
  let buf := replicate (Z.to_nat total_len) 0 in
  let buf := ft_memcpy buf 0 iv 16 in
  let buf := ft_memcpy buf 16 (le 4 SAFE_MAGIC) 4 in
  let buf := ft_memcpy buf 20 (le 4 len) 4 in
  let buf := ft_memcpy buf 24 (hmac_sha256 key (take (Z.to_nat len) data)) 32 in
  let buf := for_range 0 len (fun b i => b.[56 + i <- data.[i]]) buf in
  let buf := for_range (40 + len) padded_len (fun b i => b.[16 + i <- 0]) buf in
  let ctx := AES_init_ctx_iv stack_aes key buf in
  take 16 buf ++ snd (AES_CBC_encrypt_buffer ctx (drop 16 buf) padded_len).

Definition seal (key : list Z) (heap_ok : bool) (d : draw) (data : list Z) (len : Z) : Z + list Z :=
  if negb heap_ok then inl E_NOMEM
  else match derive_file_iv key d with
       | inl err => inl err
       | inr iv => inr (sealed_buffer key iv data len)
       end.

(** [len] bytes of [buf] are the blob; the decryption works on whole blocks, so
    [buf] also holds the bytes that follow it in memory. *)
Definition crypto_fs_open_blob (buf : list Z) (len : Z) (key : list Z) : Z + list Z :=
  if len <=? 56 then inl E_INVAL
  else
    let cipher_len := len - 16 in
    let ctx := AES_init_ctx_iv stack_aes key buf in
    let plain := snd (AES_CBC_decrypt_buffer ctx (drop 16 buf) cipher_len) in
    let magic := unle (take 4 plain) in
    let orig_len := unle (take 4 (drop 4 plain)) in
    let stored_hash := take 32 (drop 8 plain) in
    if negb (magic =? SAFE_MAGIC) then inl E_ACCES
    else if cipher_len - 40 <? orig_len then inl E_INVAL
    else
      let plaintext := take (Z.to_nat orig_len) (drop 40 plain) in
      let calc_hash := hmac_sha256 key plaintext in
      if negb (crypto_ct_cmp_bytes calc_hash stored_hash 32 =? 0) then inl E_IO
      else inr plaintext.

(** What [fs_size_encrypted] reads in the first sector: the length of the header,
    if there is a header. *)
Definition header_len (key sector : list Z) : option Z :=
  let block := take 16 (drop 16 sector) in
  let ctx := AES_init_ctx_iv stack_aes key sector in
  let block := snd (AES_CBC_decrypt_buffer ctx block AES_BLOCKLEN) in
  if unle (take 4 block) =? SAFE_MAGIC then Some (unle (take 4 (drop 4 block))) else None.

(** ** The layout *)

#[local] Opaque Cipher InvCipher KeyExpansion hmac_sha256 cbc_enc AES_CBC_encrypt_buffer AES_CBC_decrypt_buffer.

Definition padding (len : Z) : Z := (- (40 + len)) mod 16.

(** What is encrypted. *)
Definition payload (key data : list Z) : list Z :=
  le 4 SAFE_MAGIC ++ le 4 (alen data) ++ hmac_sha256 key data ++ data ++ replicate (Z.to_nat (padding (alen data))) 0.

Lemma round16_eq x : 0 <= x -> x + 15 < 2 ^ 32 -> round16 x = (x + 15) / 16 * 16.
Proof. intros Hx Hs. unfold round16. by rewrite land_not15, u32_small by (apply u32_range || lia). Qed.

Lemma round16_le x : 0 <= x -> 0 <= round16 x <= x + 15.
Proof.
  intros Hx. unfold round16. rewrite land_not15 by apply u32_range.
  pose proof (u32_range (x + 15)) as Hr. unfold is_u32 in Hr.
  assert (u32 (x + 15) <= x + 15) by (apply Z.mod_le; lia). zlia.
Qed.

Lemma round16_payload len : 0 <= len -> len + 71 < 2 ^ 32 -> round16 (u32 (40 + len)) = 40 + len + padding len.
Proof. intros Hl H. rewrite u32_small, round16_eq by lia. unfold padding. zlia. Qed.

Lemma padding_range len : 0 <= padding len < 16.
Proof. unfold padding. apply Z.mod_pos_bound. lia. Qed.

Lemma bytes_le n : forall x, bytes (le n x).
Proof.
  induction n as [|n IH]; intros x; [constructor|]. constructor; [|apply IH].
  unfold is_u8. apply Z.mod_pos_bound. lia.
Qed.

Lemma bytes_payload key data : bytes data -> bytes (payload key data).
Proof.
  intros Hd. unfold payload. rewrite !bytes_app. repeat split; try apply bytes_le; [apply hmac_bytes|done|].
  apply bytes_replicate. unfold is_u8. lia.
Qed.

Lemma length_hmac key m : length (hmac_sha256 key m) = 32%nat.
Proof. pose proof (proj2 (hmac_bytes key m)) as H. unfold alen in H. lia. Qed.

Lemma length_payload key data : Z.of_nat (length (payload key data)) = 40 + alen data + padding (alen data).
Proof.
  pose proof (padding_range (alen data)). unfold payload.
  rewrite !length_app, !length_le, length_hmac, length_replicate. unfold alen in *. lia.
Qed.

(** Writing consecutive pieces over a buffer of the right size leaves the pieces. *)
Lemma ft_memcpy_next pre src rest n : Z.of_nat (length src) <= Z.of_nat (length rest) -> alen src = n ->
  ft_memcpy (pre ++ rest) (alen pre) src n = (pre ++ src) ++ drop (length src) rest.
Proof.
  intros Hr <-. rewrite ft_memcpy_eq by (unfold alen; rewrite ?length_app; lia).
  rewrite take_app_length' by (unfold alen; lia). rewrite (take_ge src) by (unfold alen; lia).
  rewrite drop_app_ge by (unfold alen; lia). rewrite <- app_assoc. do 3 f_equal. unfold alen. lia.
Qed.

Section Sealed.
Context (key : list Z) (key_bytes : bytes key).
Let rk := KeyExpansion (RoundKey stack_aes) key.

Lemma rk_bytes : bytes rk.
Proof. by apply stack_aes_bytes. Qed.

Lemma plain_layout iv data : len16 iv -> alen data + 71 < 2 ^ 32 ->
  let len := alen data in
  let T := u32 (16 + round16 (u32 (40 + len))) in
  for_range (40 + len) (round16 (u32 (40 + len))) (fun b i => b.[16 + i <- 0])
    (ft_memcpy (ft_memcpy (ft_memcpy (ft_memcpy (ft_memcpy (replicate (Z.to_nat T) 0) 0 iv 16)
      16 (le 4 SAFE_MAGIC) 4) 20 (le 4 len) 4) 24 (hmac_sha256 key data) 32) 56 data len)
  = iv ++ payload key data.
Proof.
  intros Hiv Hl len T. pose proof (alen_nonneg data) as H0. fold len in Hl, H0. pose proof (padding_range len) as Hp.
  assert (HT : T = 56 + len + padding len) by (unfold T; rewrite round16_payload, u32_small; lia).
  unfold len16 in Hiv. rewrite HT. clear HT T. set (T := 56 + len + padding len).
  assert (Hlen : Z.of_nat (length data) = len) by done.
  pose proof (ft_memcpy_next [] iv (replicate (Z.to_nat T) 0) 16) as E1. simpl app in E1. change (alen []) with 0 in E1.
  rewrite E1 by (unfold alen; rewrite ?length_replicate; unfold T; lia). clear E1. rewrite drop_replicate, Hiv.
  replace 16 with (alen iv) at 1 by (unfold alen; lia).
  rewrite ft_memcpy_next by (unfold alen; rewrite ?length_le, ?length_replicate; unfold T; lia).
  rewrite drop_replicate, length_le. replace 20 with (alen (iv ++ le 4 SAFE_MAGIC)) by (unfold alen; rewrite length_app, length_le; lia).
  rewrite ft_memcpy_next by (unfold alen; rewrite ?length_le, ?length_replicate; unfold T; lia).
  rewrite drop_replicate, length_le.
  replace 24 with (alen ((iv ++ le 4 SAFE_MAGIC) ++ le 4 len)) by (unfold alen; rewrite !length_app, !length_le; lia).
  rewrite ft_memcpy_next by (unfold alen; rewrite ?length_hmac, ?length_replicate; unfold T; lia).
  rewrite drop_replicate, length_hmac.
  replace 56 with (alen (((iv ++ le 4 SAFE_MAGIC) ++ le 4 len) ++ hmac_sha256 key data))
    by (unfold alen; rewrite !length_app, !length_le, length_hmac; lia).
  rewrite ft_memcpy_next by (unfold alen in *; rewrite ?length_replicate; unfold T; lia).
  rewrite drop_replicate.
  replace (Z.to_nat T - 16 - 4 - 4 - 32 - length data)%nat with (Z.to_nat (padding len)) by (unfold T; lia).
  set (pre := (((iv ++ _) ++ _) ++ _) ++ data).
  assert (Hpre : alen pre = 56 + len) by (unfold pre, alen in *; rewrite !length_app, !length_le, length_hmac; lia).
  transitivity (pre ++ replicate (Z.to_nat (padding len)) 0).
  2: { unfold pre, payload. by rewrite <- !app_assoc. }
  rewrite round16_payload by lia.
  apply (for_range_ind (fun _ t => t = pre ++ replicate (Z.to_nat (padding len)) 0)); [lia|done|].
  intros i t Hi ->. transitivity ((pre ++ replicate (Z.to_nat (padding len)) 0).[16 + i <- (pre ++ replicate (Z.to_nat (padding len)) 0).[16 + i]]).
  2: { apply aget_aset_self. rewrite alen_app, alen_replicate; lia. }
  f_equal. unfold aget. rewrite app_nth2 by (unfold alen in Hpre; lia).
  rewrite nth_lookup, lookup_replicate_2; [done|]. unfold alen in Hpre. lia.
Qed.

(** The sealed form is the vector and the CBC encryption of the payload. *)
Lemma sealed_buffer_eq iv data bs : st16 iv -> alen data + 71 < 2 ^ 32 -> bytes data ->
  payload key data = mjoin bs -> Forall st16 bs ->
  sealed_buffer key iv data (alen data) = iv ++ mjoin (cbc_enc (fun b => Cipher b rk) iv bs).
Proof.
  intros Hiv Hl Hd Hbs Hst. pose proof (alen_nonneg data) as H0.
  unfold sealed_buffer. rewrite (take_ge data) by (unfold alen; lia).
  change (for_range 0 (alen data) (fun b i => b.[56 + i <- data.[i]]) ?x) with (ft_memcpy x 56 data (alen data)).
  rewrite plain_layout by (done || apply Hiv).
  rewrite take_app_length', drop_app_length' by (rewrite (proj1 Hiv); done).
  rewrite init_ctx_iv_app by apply Hiv. f_equal.
  assert (Hn : round16 (u32 (40 + alen data)) = 16 * Z.of_nat (length bs)).
  { rewrite round16_payload, <- (length_payload key) by lia. rewrite Hbs, length_blocks by by apply Forall_len16. lia. }
  rewrite Hn, Hbs. rewrite <- (app_nil_r (mjoin bs)), cbc_encrypt_eq, app_nil_r by (done || apply rk_bytes). done.
Qed.

Lemma alen_sealed_le iv data : alen (sealed_buffer key iv data (alen data)) <= alen data + 71.
Proof.
  pose proof (alen_nonneg data) as H0. unfold sealed_buffer.
  set (T := u32 (16 + round16 (u32 (40 + alen data)))).
  assert (HT : 0 <= T <= alen data + 71).
  { assert (Hle : forall x, 0 <= x -> 0 <= u32 x <= x).
    { intros x Hx. pose proof (u32_range x) as Hr. unfold is_u32 in Hr. split; [lia|]. apply Z.mod_le; lia. }
    pose proof (Hle (40 + alen data) ltac:(lia)). pose proof (round16_le (u32 (40 + alen data)) ltac:(lia)).
    pose proof (Hle (16 + round16 (u32 (40 + alen data))) ltac:(lia)). unfold T. lia. }
  match goal with |- alen (take 16 ?b ++ _) <= _ => set (buf := b) end.
  assert (Hb : alen buf = T).
  { unfold buf. rewrite !alen_for_aset, !alen_ft_memcpy. apply alen_replicate. lia. }
  rewrite alen_app, encrypt_length by (apply round16_le; apply u32_range). unfold alen in *. rewrite length_take, length_drop. lia.
Qed.

Lemma payload_blocks data : bytes data -> exists bs, payload key data = mjoin bs /\ Forall st16 bs /\
  16 * Z.of_nat (length bs) = 40 + alen data + padding (alen data).
Proof.
  intros Hd. pose proof (length_payload key data) as Hl. pose proof (padding_range (alen data)).
  pose proof (alen_nonneg data).
  assert (Hm : (40 + alen data + padding (alen data)) mod 16 = 0) by (unfold padding; zlia).
  destruct (blocks_split (Z.to_nat ((40 + alen data + padding (alen data)) / 16)) (payload key data)) as (bs & rest & He & Hn & Hst);
    [by apply bytes_payload|zlia|].
  exists bs. assert (Hr : rest = []).
  { apply length_zero_iff_nil. apply (f_equal (@length Z)) in He.
    rewrite length_app, length_blocks in He by by apply Forall_len16. zlia. }
  subst rest. rewrite app_nil_r in He. split; [done|]. split; [done|]. zlia.
Qed.

Lemma alen_sealed iv data : st16 iv -> bytes data -> alen data + 71 < 2 ^ 32 ->
  alen (sealed_buffer key iv data (alen data)) = 56 + alen data + padding (alen data).
Proof.
  intros Hiv Hd Hl. destruct (payload_blocks data Hd) as (bs & Hp & Hst & Hn).
  rewrite (sealed_buffer_eq iv data bs) by done. unfold alen at 1. rewrite length_app, (proj1 Hiv), length_blocks, length_cbc_enc; [lia|].
  apply Forall_len16, st16_cbc_enc; [|done|done]. intros. apply st16_Cipher; [apply rk_bytes|done].
Qed.

Lemma bytes_sealed iv data : st16 iv -> bytes data -> alen data + 71 < 2 ^ 32 ->
  bytes (sealed_buffer key iv data (alen data)).
Proof.
  intros Hiv Hd Hl. destruct (payload_blocks data Hd) as (bs & Hp & Hst & Hn).
  rewrite (sealed_buffer_eq iv data bs) by done. apply bytes_app. split; [apply Hiv|].
  assert (Hc : Forall st16 (cbc_enc (fun b => Cipher b rk) iv bs)).
  { apply st16_cbc_enc; [|done|done]. intros. apply st16_Cipher; [apply rk_bytes|done]. }
  induction Hc as [|c cs [_ Hb] _ IH]; [constructor|]. apply bytes_app. by split.
Qed.

(** ** Opening *)

(** The fields at the front of a payload. *)
Lemma payload_fields data rest : bytes data -> alen data < 2 ^ 32 ->
  let p := payload key data ++ rest in
  unle (take 4 p) = SAFE_MAGIC /\ unle (take 4 (drop 4 p)) = alen data /\
  take 32 (drop 8 p) = hmac_sha256 key data /\ take (length data) (drop 40 p) = data.
Proof.
  intros Hd Hl p. unfold p, payload. rewrite <- !app_assoc. pose proof (alen_nonneg data).
  assert (H4 : forall x, length (le 4 x) = 4%nat) by (intros; apply length_le).
  assert (H32 : length (hmac_sha256 key data) = 32%nat) by apply length_hmac.
  rewrite take_app_length' by by rewrite H4. rewrite drop_app_length' by by rewrite H4.
  rewrite take_app_length' by by rewrite H4.
  rewrite !unle_le by (unfold SAFE_MAGIC; lia). split; [done|]. split; [done|].
  split.
  - rewrite app_assoc, drop_app_length' by (rewrite length_app, !H4; done). by rewrite take_app_length' by by rewrite H32.
  - rewrite !app_assoc, <- (app_assoc (((_ ++ _) ++ _) ++ data)), <- (app_assoc _ data).
    rewrite drop_app_length' by (rewrite !length_app, !H4, H32; done). by rewrite take_app_length.
Qed.

Lemma ct_cmp_32 a b : length a = 32%nat -> length b = 32%nat -> (crypto_ct_cmp_bytes a b 32 =? 0) = bool_decide (a = b).
Proof.
  intros Ha Hb. pose proof (ct_cmp_eq a b) as H. unfold alen in H. rewrite Ha, Hb in H. specialize (H eq_refl).
  change (Z.of_nat 32) with 32 in H. case_bool_decide as E.
  - apply Z.eqb_eq. by apply H.
  - apply Z.eqb_neq. by rewrite H.
Qed.

Lemma open_sealed iv data slack : st16 iv -> bytes data -> alen data + 71 < 2 ^ 32 ->
  let b := sealed_buffer key iv data (alen data) in
  crypto_fs_open_blob (b ++ slack) (alen b) key = inr data.
Proof.
  intros Hiv Hd Hl b. pose proof (alen_nonneg data) as H0. pose proof (padding_range (alen data)) as Hp0.
  assert (Hb : alen b = 56 + alen data + padding (alen data)) by by apply alen_sealed.
  destruct (payload_blocks data Hd) as (bs & Hp & Hst & Hn).
  assert (Heq : b = iv ++ mjoin (cbc_enc (fun b => Cipher b rk) iv bs)) by by apply sealed_buffer_eq.
  unfold crypto_fs_open_blob. rewrite Hb. destruct (Z.leb_spec (56 + alen data + padding (alen data)) 56) as [Hle|Hgt].
  { assert (alen data = 0 /\ padding (alen data) = 0) as [E1 E2] by lia. rewrite E1 in E2. done. }
  rewrite Heq, <- app_assoc, init_ctx_iv_app by apply Hiv.
  rewrite drop_app_length' by by rewrite (proj1 Hiv).
  replace (56 + alen data + padding (alen data) - 16) with (16 * Z.of_nat (length bs)) by lia.
  rewrite cbc_dec_of_enc by (done || apply rk_bytes). rewrite <- Hp.
  destruct (payload_fields data slack Hd ltac:(lia)) as (-> & -> & -> & Hpl).
  assert (Hto : Z.to_nat (alen data) = length data) by (unfold alen; lia). rewrite Hto, Hpl. change (SAFE_MAGIC =? SAFE_MAGIC) with true. cbn [negb].
  destruct (Z.ltb_spec (16 * Z.of_nat (length bs) - 40) (alen data)); [lia|].
  rewrite ct_cmp_32 by apply length_hmac. by rewrite bool_decide_true.
Qed.

(** The first sector is enough to know the length. *)
Lemma header_sealed iv data sector : st16 iv -> bytes data -> alen data + 71 < 2 ^ 32 -> (32 <= length sector)%nat ->
  take 32 sector = take 32 (sealed_buffer key iv data (alen data)) -> header_len key sector = Some (alen data).
Proof.
  intros Hiv Hd Hl Hlen Hs. pose proof (alen_nonneg data) as H0. pose proof (padding_range (alen data)) as Hp0.
  destruct (payload_blocks data Hd) as (bs & Hp & Hst & Hn).
  rewrite (sealed_buffer_eq iv data bs) in Hs by done.
  destruct bs as [|b bs]; [simpl in Hn; lia|]. inversion_clear Hst as [|? ? Hb Hst'].
  assert (Hc : st16 (Cipher (xor_block b iv) rk)) by (apply st16_Cipher, st16_xor; [apply rk_bytes|done|done]).
  change (mjoin (b :: bs)) with (b ++ mjoin bs) in Hp.
  assert (Hsec : sector = iv ++ Cipher (xor_block b iv) rk ++ drop 32 sector).
  { rewrite <- (take_drop 32 sector) at 1. rewrite Hs. rewrite app_assoc. f_equal.
    assert (Henc : mjoin (cbc_enc (fun b => Cipher b rk) iv (b :: bs))
      = Cipher (xor_block b iv) rk ++ mjoin (cbc_enc (fun b => Cipher b rk) (Cipher (xor_block b iv) rk) bs)) by done.
    rewrite Henc, app_assoc. apply take_app_length'. by rewrite length_app, (proj1 Hiv), (proj1 Hc). }
  unfold header_len. rewrite Hsec. rewrite init_ctx_iv_app by apply Hiv.
  rewrite drop_app_length' by by rewrite (proj1 Hiv). rewrite take_app_length' by by rewrite (proj1 Hc).
  pose proof (cbc_dec_of_enc rk iv [b] [] rk_bytes Hiv ltac:(by repeat constructor; apply Hb)) as Hdec.
  assert (H1 : mjoin (cbc_enc (fun b => Cipher b rk) iv [b]) ++ [] = Cipher (xor_block b iv) rk)
    by (change (mjoin (cbc_enc (fun b => Cipher b rk) iv [b])) with (Cipher (xor_block b iv) rk ++ []); by rewrite !app_nil_r).
  assert (H2 : mjoin [b] ++ [] = b) by (change (mjoin [b]) with (b ++ []); by rewrite !app_nil_r).
  rewrite H1, H2 in Hdec. fold rk. change (16 * Z.of_nat (length [b])) with AES_BLOCKLEN in Hdec. rewrite Hdec.
  destruct (payload_fields data [] Hd ltac:(lia)) as (Hm & Ho & _). rewrite app_nil_r, Hp in Hm, Ho.
  destruct Hb as [Hb _]. rewrite take_app_le in Hm by lia.
  rewrite drop_app_le, take_app_le in Ho by (rewrite ?length_drop; lia).
  by rewrite Hm, Ho, Z.eqb_refl.
Qed.

Lemma unle_nonneg l : bytes l -> 0 <= unle l.
Proof. induction 1 as [|x l Hx _ IH]; cbn [unle]; [lia|]. unfold is_u8 in Hx. lia. Qed.

Lemma init_ctx_bytes iv : bytes iv -> bytes (RoundKey (AES_init_ctx_iv stack_aes key iv)) /\ bytes (Iv (AES_init_ctx_iv stack_aes key iv)).
Proof.
  intros Hi. split; [apply rk_bytes|]. apply bytes_ft_memcpy; [|done]. apply bytes_replicate. unfold is_u8. lia.
Qed.

(** What a blob that opens says of itself. *)
Lemma open_inr buf len p : bytes buf -> len <= alen buf -> crypto_fs_open_blob buf len key = inr p ->
  let plain := snd (AES_CBC_decrypt_buffer (AES_init_ctx_iv stack_aes key buf) (drop 16 buf) (len - 16)) in
  unle (take 4 plain) = SAFE_MAGIC /\ unle (take 4 (drop 4 plain)) = alen p /\
  take 32 (drop 8 plain) = hmac_sha256 key p /\ take (length p) (drop 40 plain) = p /\ alen p + 56 <= len.
Proof.
  intros Hbuf Hb. unfold crypto_fs_open_blob. destruct (Z.leb_spec len 56) as [|H56]; [done|].
  set (plain := snd _). assert (Hpl : alen plain = alen buf - 16).
  { unfold plain. rewrite decrypt_length by lia. unfold alen in *. rewrite length_drop. lia. }
  destruct (Z.eqb_spec (unle (take 4 plain)) SAFE_MAGIC) as [Hm|]; [|done]. cbn [negb].
  destruct (Z.ltb_spec (len - 16 - 40) (unle (take 4 (drop 4 plain)))) as [|Ho]; [done|].
  set (o := unle (take 4 (drop 4 plain))) in *.
  rewrite ct_cmp_32 by (rewrite ?length_hmac, ?length_take, ?length_drop; unfold alen in *; lia).
  case_bool_decide as Hh; [|done]. cbn [negb]. intros [= <-].
  assert (Ho0 : 0 <= o) by (apply unle_nonneg, bytes_take, bytes_drop, decrypt_bytes; [apply init_ctx_bytes..|apply bytes_drop]; done).
  assert (Hlp : length (take (Z.to_nat o) (drop 40 plain)) = Z.to_nat o)
    by (rewrite length_take, length_drop; unfold alen in *; lia).
  split; [done|]. split; [unfold alen; rewrite Hlp; lia|]. split; [done|].
  rewrite Hlp. split; [done|]. unfold alen. rewrite Hlp. lia.
Qed.

Lemma derive_file_iv_st16 d iv : derive_file_iv key d = inr iv -> st16 iv.
Proof.
  unfold derive_file_iv. case_bool; [done|]. intros [= <-].
  destruct (hmac_bytes key (iv_label ++ le 8 (counter d) ++ pool_bytes d)) as [Hb Hl].
  split; [by rewrite length_take, length_hmac|by apply bytes_take].
Qed.

Lemma seal_inr heap d data b : seal key heap d data (alen data) = inr b ->
  exists iv, st16 iv /\ b = sealed_buffer key iv data (alen data).
Proof.
  unfold seal. destruct heap; [|done]. cbn [negb]. destruct (derive_file_iv key d) as [|iv] eqn:E; [done|].
  intros [= <-]. exists iv. split; [by apply (derive_file_iv_st16 d)|done].
Qed.

Lemma seal_inl heap d data err : seal key heap d data (alen data) = inl err -> err < 0.
Proof.
  unfold seal, derive_file_iv. destruct heap; cbn [negb]; [|by intros [= <-]].
  destruct (quality d =? ENTROPY_FAIL); [|done]. by intros [= <-].
Qed.

End Sealed.

(** Sealed files open: whatever vector the entropy pool led to and whatever
    follows the blob in memory, opening the sealed form of a file under the same
    key gives exactly its contents; the form is the contents plus 56 bytes plus
    the padding to a whole block; and its first sector alone tells the length. *)
Theorem seal_open key heap d data b slack sector :
  bytes key -> bytes data -> alen data + 71 < 2 ^ 32 -> seal key heap d data (alen data) = inr b ->
  crypto_fs_open_blob (b ++ slack) (alen b) key = inr data /\
  alen b = 56 + alen data + padding (alen data) /\
  ((32 <= length sector)%nat -> take 32 sector = take 32 b -> header_len key sector = Some (alen data)).
Proof.
  intros Hk Hd Hl (iv & Hiv & ->)%seal_inr.
  split; [by apply open_sealed|]. split; [by apply alen_sealed|]. intros. by apply (header_sealed key Hk iv).
Qed.

Lemma seal_open_witness :
  let b := sealed_buffer (replicate 32 7) (take 16 (hmac_sha256 (replicate 32 7) (iv_label ++ le 8 3 ++ []))) [1; 2; 3] 3 in
  crypto_fs_open_blob (b ++ [9]) (alen b) (replicate 32 7) = inr [1; 2; 3].
Proof.
  exact (proj1 (seal_open (replicate 32 7) true (mkDraw 0 [] 3) [1; 2; 3] _ [9] []
    (bytes_dec (replicate 32 7) eq_refl) (bytes_dec [1; 2; 3] eq_refl) eq_refl eq_refl)).
Defined.

(** C20: Nothing else opens: for any bytes read off the disk, [crypto_fs_open_blob]
    hands out a plaintext only when the decrypted payload begins with the magic,
    the length of that plaintext and its HMAC under the key, followed by the
    plaintext itself, all of it inside the blob. *)
Theorem opened_is_authentic key buf len p :
  bytes key -> alen key = 32 -> bytes buf -> len <= alen buf -> len < 2 ^ 31 ->
  crypto_fs_open_blob buf len key = inr p ->
  let plain := snd (AES_CBC_decrypt_buffer (AES_init_ctx_iv stack_aes key buf) (drop 16 buf) (len - 16)) in
  unle (take 4 plain) = SAFE_MAGIC /\ unle (take 4 (drop 4 plain)) = alen p /\
  take 32 (drop 8 plain) = HMAC key p /\ take (length p) (drop 40 plain) = p /\ alen p + 56 <= len.
Proof.
  intros Hk Hk32 Hb Hl H31 Ho plain. destruct (open_inr key Hk buf len p Hb Hl Ho) as (H1 & H2 & H3 & H4 & H5).
  rewrite <- hmac_HMAC by lia. done.
Qed.

Definition sample_key : list Z := replicate 32 7.
Definition sample_iv : list Z := replicate 16 5.
Definition sample_blob : list Z := sealed_buffer sample_key sample_iv [1; 2; 3] 3.

Lemma opened_is_authentic_witness :
  let plain := snd (AES_CBC_decrypt_buffer (AES_init_ctx_iv stack_aes sample_key (sample_blob ++ []))
                      (drop 16 (sample_blob ++ [])) (alen sample_blob - 16)) in
  take 32 (drop 8 plain) = HMAC sample_key [1; 2; 3].
Proof.
  assert (Hk : bytes sample_key) by (apply bytes_dec; reflexivity).
  assert (Hd : bytes [1; 2; 3]) by (apply bytes_dec; reflexivity).
  assert (Hi : st16 sample_iv) by (split; [reflexivity|apply bytes_dec; reflexivity]).
  assert (Hl : alen sample_blob = 64) by exact (alen_sealed sample_key Hk sample_iv [1; 2; 3] Hi Hd eq_refl).
  assert (Hb : bytes (sample_blob ++ [])).
  { apply bytes_app. split; [exact (bytes_sealed sample_key Hk sample_iv [1; 2; 3] Hi Hd eq_refl)|constructor]. }
  apply (opened_is_authentic sample_key (sample_blob ++ []) (alen sample_blob) [1; 2; 3] Hk eq_refl Hb).
  - rewrite alen_app, Hl. discriminate.
  - rewrite Hl. reflexivity.
  - exact (open_sealed sample_key Hk sample_iv [1; 2; 3] [] Hi Hd eq_refl).
Defined.

End CryptoFs.
