(* ===== verification/Keyslot.v ===== *)
(** * The passphrase slot of the disk key (crypto/keyslot.c)

    A slot wraps the data key of a disk under a key derived from a passphrase,
    with a tag over everything else it holds.  The random bytes are what the
    entropy pool answers, [PBKDF2_DEFAULT_ITERATIONS] what the build was given. *)

From S2P Require Import Prelude CStr FsFormat Sha256 Hmac Aes CryptoFs.
Import FsFormat Hmac Aes CryptoFs.

Module Keyslot.

(** ** The program *)

Definition KEYSLOT_SALT_LEN : Z := 32.
Definition KEYSLOT_IV_LEN : Z := 16.
Definition KEYSLOT_KEY_LEN : Z := 32.
Definition KEYSLOT_TAG_LEN : Z := 32.
Definition KEYSLOT_MAX_PASSPHRASE : Z := 64.

Record keyslot := mkSlot {
  salt : list Z;
  iterations : Z;
  iv : list Z;
  wrapped : list Z;
  tag : list Z
}.

Definition keyslot_tag_input (slot : keyslot) : list Z :=
  let out := replicate 80 0 in
  let out := ft_memcpy out 0 (salt slot) KEYSLOT_SALT_LEN in
  let out := ft_memcpy out KEYSLOT_SALT_LEN (iv slot) KEYSLOT_IV_LEN in
  ft_memcpy out (KEYSLOT_SALT_LEN + KEYSLOT_IV_LEN) (wrapped slot) KEYSLOT_KEY_LEN.

Definition keyslot_derive_kek (slot : keyslot) (passphrase : list Z) : list Z :=
  pbkdf2_hmac_sha256 (cstr passphrase) (salt slot) (iterations slot) KEYSLOT_KEY_LEN.

(** A null pointer is [None]. *)
Definition passphrase_is_usable (passphrase : option (list Z)) : bool :=
  match passphrase with
  | None => false
  | Some p => (0 <? ft_strlen p) && (ft_strlen p <? KEYSLOT_MAX_PASSPHRASE)
  end.

(** The answer of one [generate_random_bytes] call: a failure or the bytes. *)
Definition random := option (list Z).

Section slots.
Context (PBKDF2_DEFAULT_ITERATIONS : Z).

Definition keyslot_create (passphrase : option (list Z)) (dek : list Z) (r_salt r_iv : random) : Z + keyslot :=
  match passphrase with
  | Some p =>
      if negb (passphrase_is_usable passphrase) then inl E_INVAL
      else match r_salt, r_iv with
           | Some s, Some v =>
               let slot := mkSlot s PBKDF2_DEFAULT_ITERATIONS v dek [] in
               let kek := keyslot_derive_kek slot p in
               let ctx := AES_init_ctx_iv stack_aes kek v in
               let w := snd (AES_CBC_encrypt_buffer ctx dek KEYSLOT_KEY_LEN) in
               let slot := mkSlot s PBKDF2_DEFAULT_ITERATIONS v w [] in
               let t := hmac_sha256 kek (keyslot_tag_input slot) in
               inr (mkSlot s PBKDF2_DEFAULT_ITERATIONS v w t)
           | _, _ => inl E_IO
           end
  | None => inl E_INVAL
  end.

Definition keyslot_unwrap (slot : keyslot) (passphrase : option (list Z)) : Z + list Z :=
  match passphrase with
  | Some p =>
      if negb (passphrase_is_usable passphrase) then inl E_INVAL
      else if negb (pbkdf2_iterations_are_acceptable PBKDF2_DEFAULT_ITERATIONS (iterations slot)) then inl E_INVAL
      else
        let kek := keyslot_derive_kek slot p in
        let expected_tag := hmac_sha256 kek (keyslot_tag_input slot) in
        let mismatch := crypto_ct_cmp_bytes expected_tag (tag slot) KEYSLOT_TAG_LEN in
        if negb (mismatch =? 0) then inl E_ACCES
        else
          let ctx := AES_init_ctx_iv stack_aes kek (iv slot) in
          inr (snd (AES_CBC_decrypt_buffer ctx (wrapped slot) KEYSLOT_KEY_LEN))
  | None => inl E_INVAL
  end.

Definition keyslot_is_present (slot : keyslot) : bool := negb (iterations slot =? 0).

(** The packed structure in the superblock. *)
Definition encode_slot (s : keyslot) : list Z := salt s ++ le 4 (iterations s) ++ iv s ++ wrapped s ++ tag s.

Definition decode_slot (b : list Z) : keyslot :=
  let '(s, b) := (take 32 b, drop 32 b) in
  let '(it, b) := get_le 4 b in
  mkSlot s it (take 16 b) (take 32 (drop 16 b)) (take 32 (drop 48 b)).

(** ** Slots as the structure holds them *)

Definition slot_typed (s : keyslot) : Prop :=
  length (salt s) = 32%nat /\ is_u32 (iterations s) /\ length (iv s) = 16%nat /\
  length (wrapped s) = 32%nat /\ length (tag s) = 32%nat.

Lemma decode_encode_slot s rest : slot_typed s ->
  decode_slot (encode_slot s ++ rest) = s /\ alen (encode_slot s) = KEYSLOT_SIZE.
Proof.
  intros (H1 & H2 & H3 & H4 & H5). split.
  - unfold decode_slot, encode_slot. rewrite <- !app_assoc.
    rewrite take_app_length', drop_app_length' by done. rewrite get_le_app by exact H2.
    rewrite (take_app_length' (iv s)), (drop_app_length' (iv s)) by done.
    rewrite (take_app_length' (wrapped s)) by done.
    rewrite app_assoc, drop_app_length', take_app_length' by (rewrite ?length_app, ?H3, ?H4; done).
    by destruct s.
  - unfold encode_slot, alen. rewrite !length_app, length_le, H1, H3, H4, H5. done.
Qed.

#[local] Opaque hmac_sha256 KeyExpansion AES_CBC_encrypt_buffer AES_CBC_decrypt_buffer.

Lemma kek_bytes s p : bytes (keyslot_derive_kek s p).
Proof. apply pbkdf2_bytes. unfold KEYSLOT_KEY_LEN. lia. Qed.

Lemma keyslot_tag_input_eq s : length (salt s) = 32%nat -> length (iv s) = 16%nat -> length (wrapped s) = 32%nat ->
  keyslot_tag_input s = salt s ++ iv s ++ wrapped s.
Proof.
  intros H1 H2 H3. unfold keyslot_tag_input, KEYSLOT_SALT_LEN, KEYSLOT_IV_LEN, KEYSLOT_KEY_LEN.
  change 0 with (alen (A := Z) []) at 2. rewrite <- (app_nil_l (replicate 80 0)).
  rewrite ft_memcpy_next by (unfold alen; rewrite ?length_replicate; lia). rewrite drop_replicate, H1, app_nil_l.
  replace 32 with (alen (salt s)) at 1 by (unfold alen; lia).
  rewrite ft_memcpy_next by (unfold alen; rewrite ?length_replicate; lia). rewrite drop_replicate, H2.
  replace (32 + 16) with (alen (salt s ++ iv s)) by (unfold alen; rewrite length_app; lia).
  rewrite ft_memcpy_next by (unfold alen; rewrite ?length_replicate; lia). rewrite drop_replicate, H3.
  simpl replicate. by rewrite app_nil_r, <- app_assoc.
Qed.

(** Two blocks under CBC, there and back. *)
Lemma wrap_unwrap kek v dek : bytes kek -> st16 v -> bytes dek -> length dek = 32%nat ->
  let ctx := AES_init_ctx_iv stack_aes kek v in
  snd (AES_CBC_decrypt_buffer ctx (snd (AES_CBC_encrypt_buffer ctx dek KEYSLOT_KEY_LEN)) KEYSLOT_KEY_LEN) = dek.
Proof.
  intros Hk Hv Hd Hl ctx. unfold ctx. rewrite init_ctx_iv_eq by apply Hv.
  destruct (blocks_split 2 dek Hd ltac:(lia)) as (bs & rest & -> & Hn & Hst).
  change KEYSLOT_KEY_LEN with (16 * Z.of_nat 2). rewrite <- Hn.
  apply cbc_blocks_roundtrip; [by apply stack_aes_bytes|done|done].
Qed.

Lemma unwrap_create p dek s v slot :
  PBKDF2_DEFAULT_ITERATIONS <= PBKDF2_MAX_ITERATIONS -> bytes dek -> length dek = 32%nat -> st16 v ->
  keyslot_create (Some p) dek (Some s) (Some v) = inr slot -> keyslot_unwrap slot (Some p) = inr dek.
Proof.
  intros Hit Hd Hl Hv. unfold keyslot_create, keyslot_unwrap.
  destruct (passphrase_is_usable (Some p)); [|done]. cbn [negb]. intros [= <-]. cbn [iterations tag iv wrapped].
  unfold pbkdf2_iterations_are_acceptable. rewrite Z.leb_refl. destruct (Z.leb_spec PBKDF2_DEFAULT_ITERATIONS PBKDF2_MAX_ITERATIONS); [|lia].
  cbn [andb negb].
  change (keyslot_derive_kek (mkSlot s PBKDF2_DEFAULT_ITERATIONS v ?w ?t) p)
    with (keyslot_derive_kek (mkSlot s PBKDF2_DEFAULT_ITERATIONS v dek []) p).
  set (kek := keyslot_derive_kek _ p). set (w := snd (AES_CBC_encrypt_buffer _ _ _)).
  change (keyslot_tag_input (mkSlot s PBKDF2_DEFAULT_ITERATIONS v w ?t))
    with (keyslot_tag_input (mkSlot s PBKDF2_DEFAULT_ITERATIONS v w [])).
  unfold KEYSLOT_TAG_LEN. rewrite ct_cmp_32, bool_decide_true by (done || apply length_hmac). cbn [negb].
  f_equal. apply wrap_unwrap; [apply kek_bytes|done|done|done].
Qed.

Lemma create_typed p dek s v slot :
  is_u32 PBKDF2_DEFAULT_ITERATIONS -> length dek = 32%nat -> st16 v -> length s = 32%nat ->
  keyslot_create (Some p) dek (Some s) (Some v) = inr slot -> slot_typed slot.
Proof.
  intros Hit Hl Hv Hs. unfold keyslot_create. destruct (passphrase_is_usable (Some p)); [|done]. cbn [negb].
  intros [= <-]. split; [done|]. split; [done|]. split; [apply Hv|].
  split; [|apply length_hmac]. cbn [wrapped].
  match goal with |- length (snd (AES_CBC_encrypt_buffer ?c dek ?n)) = _ =>
    pose proof (encrypt_length c dek n ltac:(unfold KEYSLOT_KEY_LEN; lia)) as H end.
  unfold alen in H. lia.
Qed.

Lemma unwrap_inr slot p d : slot_typed slot -> keyslot_unwrap slot (Some p) = inr d ->
  PBKDF2_DEFAULT_ITERATIONS <= iterations slot <= PBKDF2_MAX_ITERATIONS /\
  tag slot = hmac_sha256 (pbkdf2_hmac_sha256 (cstr p) (salt slot) (iterations slot) 32)
               (salt slot ++ iv slot ++ wrapped slot).
Proof.
  intros (H1 & _ & H3 & H4 & H5). unfold keyslot_unwrap, pbkdf2_iterations_are_acceptable.
  destruct (passphrase_is_usable (Some p)); [|done]. cbn [negb].
  destruct (_ && _) eqn:Ha; [|done]. cbn [negb]. unfold KEYSLOT_TAG_LEN. rewrite ct_cmp_32 by (done || apply length_hmac).
  case_bool_decide as Ht; [|done]. intros _. split; [lia|].
  rewrite <- Ht, keyslot_tag_input_eq by done. done.
Qed.

(** C21: The key slot keeps the key.  The slot [keyslot_create] makes around a
    data key opens with the same passphrase and gives that key back, also after a
    trip through the 116 bytes of the superblock.  Any slot at all opens only when
    its tag is the HMAC, under the key derived from the passphrase, of its salt,
    its vector and its wrapped key, so none of them can be replaced alone.  A slot
    whose iteration count is below the one the build uses, or above the ceiling of
    ten million, is refused whatever the passphrase. *)
Theorem keyslot_roundtrip p dek s v slot rest :
  0 <= PBKDF2_DEFAULT_ITERATIONS <= PBKDF2_MAX_ITERATIONS ->
  bytes dek -> length dek = 32%nat -> st16 v -> length s = 32%nat ->
  keyslot_create (Some p) dek (Some s) (Some v) = inr slot ->
  keyslot_unwrap (decode_slot (encode_slot slot ++ rest)) (Some p) = inr dek /\
  (forall slot' p' d', slot_typed slot' -> keyslot_unwrap slot' (Some p') = inr d' ->
     tag slot' = hmac_sha256 (pbkdf2_hmac_sha256 (cstr p') (salt slot') (iterations slot') 32)
                   (salt slot' ++ iv slot' ++ wrapped slot')) /\
  (forall slot' p', iterations slot' < PBKDF2_DEFAULT_ITERATIONS \/ 10000000 < iterations slot' -> keyslot_unwrap slot' (Some p') = inl E_INVAL).
Proof.
  intros Hit Hd Hl Hv Hs Hc. split; [|split].
  - assert (Hty : slot_typed slot).
    { apply (create_typed p dek s v); try done. unfold is_u32, PBKDF2_MAX_ITERATIONS in *. lia. }
    rewrite (proj1 (decode_encode_slot slot rest Hty)). apply (unwrap_create p dek s v); try done. lia.
  - intros slot' p' d' Hty Hu. by apply (unwrap_inr slot' p' d').
  - intros slot' p' Hout. unfold keyslot_unwrap, pbkdf2_iterations_are_acceptable, PBKDF2_MAX_ITERATIONS.
    destruct (passphrase_is_usable (Some p')); [|done].
    destruct (Z.leb_spec PBKDF2_DEFAULT_ITERATIONS (iterations slot')), (Z.leb_spec (iterations slot') 10000000); (lia || done).
Qed.

End slots.

(** One iteration, so that the slot is quick to make. *)
Lemma keyslot_roundtrip_witness :
  exists slot, keyslot_create 1 (Some [112; 119; 0]) (replicate 32 9) (Some (replicate 32 1)) (Some (replicate 16 2)) = inr slot /\
    keyslot_unwrap 1 (decode_slot (encode_slot slot ++ [0; 0])) (Some [112; 119; 0]) = inr (replicate 32 9).
Proof.
  destruct (keyslot_create 1 (Some [112; 119; 0]) (replicate 32 9) (Some (replicate 32 1)) (Some (replicate 16 2))) as [err|slot] eqn:Hc.
  { discriminate Hc. }
  exists slot. split; [reflexivity|].
  apply (keyslot_roundtrip 1 [112; 119; 0] (replicate 32 9) (replicate 32 1) (replicate 16 2) slot [0; 0]).
  - unfold PBKDF2_MAX_ITERATIONS. lia.
  - apply bytes_dec. reflexivity.
  - reflexivity.
  - split; [reflexivity|apply bytes_dec; reflexivity].
  - reflexivity.
  - exact Hc.
Defined.

End Keyslot.
