(* ===== verification/Entropy.v ===== *)
(** * The entropy pool (kernel/security/entropy.c)

    The pool, the ring of samples the interrupt handlers fill, the credit given
    to each source and the extraction.  What the hardware answers - the time-stamp
    counter, the clock registers, the RDRAND instruction - is an argument of the
    operation that reads it.  The theorems are about what the pool claims and what
    it gives: no source is credited past its caps, so the pool calls itself
    cryptographic only after enough keystrokes; and requests are served in full. *)

From S2P Require Import Prelude CStr FsFormat Sha256.
Import FsFormat Sha256.

Module Entropy.

(** ** The program *)

Definition ENTROPY_OK : Z := 0.
Definition ENTROPY_WEAK : Z := -1.
Definition ENTROPY_FAIL : Z := -2.
Definition ENTROPY_SRC_TIMER : Z := 0.
Definition ENTROPY_SRC_KBD : Z := 1.
Definition ENTROPY_SRC_ATA : Z := 2.
Definition ENTROPY_SRC_N : Z := 3.
Definition ENTROPY_RING_SIZE : Z := 64.
Definition ENTROPY_OK_THRESHOLD : Z := 256.
Definition ENTROPY_CREDIT_TIMER : Z := 0.
Definition ENTROPY_CREDIT_KBD : Z := 4.
Definition ENTROPY_CREDIT_ATA : Z := 2.
Definition ENTROPY_BUDGET_TIMER : Z := 0.
Definition ENTROPY_BUDGET_KBD : Z := 4096.
Definition ENTROPY_BUDGET_ATA : Z := 64.

Record pool := mkPool {
  state : list Z;
  ring : list Z;
  ring_head : Z;
  ring_count : Z;
  seq : Z;
  counter : Z;
  credited_bits : Z;
  events : list Z;
  credited_by_source : list Z;
  last_tsc : Z;
  last_d1 : Z;
  last_d2 : Z;
  delta_lsb_map : Z;
  min_delta : Z;
  max_delta : Z;
  seeded : bool
}.

Definition set_state (p : pool) (s : list Z) : pool :=
  mkPool s (ring p) (ring_head p) (ring_count p) (seq p) (counter p) (credited_bits p) (events p)
    (credited_by_source p) (last_tsc p) (last_d1 p) (last_d2 p) (delta_lsb_map p) (min_delta p) (max_delta p) (seeded p).

Definition set_seq (p : pool) (n : Z) : pool :=
  mkPool (state p) (ring p) (ring_head p) (ring_count p) n (counter p) (credited_bits p) (events p)
    (credited_by_source p) (last_tsc p) (last_d1 p) (last_d2 p) (delta_lsb_map p) (min_delta p) (max_delta p) (seeded p).

(** [pool.last_tsc = tsc; pool.seeded = 1;] *)
Definition set_seeded (p : pool) (tsc : Z) : pool :=
  mkPool (state p) (ring p) (ring_head p) (ring_count p) (seq p) (counter p) (credited_bits p) (events p)
    (credited_by_source p) tsc (last_d1 p) (last_d2 p) (delta_lsb_map p) (min_delta p) (max_delta p) true.

(** The pool in static storage, before [entropy_init]. *)
Definition static_pool : pool :=
  mkPool (replicate 32 0) (replicate 64 0) 0 0 0 0 0 [0; 0; 0] [0; 0; 0] 0 0 0 0 0 0 false.

(** [while (v) { n++; v >>= 1; }]; 32 turns end it for a 32-bit word. *)
Definition bit_length (v : Z) : Z :=
  snd (while_loop 32 (fun '(v, _) => negb (v =? 0)) (fun '(v, n) => (Z.shiftr v 1, n + 1)) (v, 0)).

Definition popcount32 (v : Z) : Z :=
  snd (while_loop 32 (fun '(v, _) => negb (v =? 0)) (fun '(v, n) => (Z.shiftr v 1, n + Z.land v 1)) (v, 0)).

(** [sha256_init], the updates in order, [sha256_final]. *)
Definition hash (pieces : list (list Z)) : list Z :=
  sha256_final (foldl sha256_update (sha256_init stack_ctx) pieces).

Definition pool_absorb_word (p : pool) (word : Z) : pool := set_state p (hash [state p; le 4 word]).

(** [seed] holds the ten words read from the counter, the clock and the addresses. *)
Definition entropy_init (p : pool) (seed : list Z) : pool :=
  let p := if negb (seeded p) then
             mkPool (replicate 32 0) (replicate 64 0) 0 0 0 0 0 [0; 0; 0] [0; 0; 0] 0 0 0 0 0xFFFFFFFF 0 false
           else p in
  let p := for_range 0 10 (fun p i => pool_absorb_word p seed.[i]) p in
  set_seeded p seed.[9].

Definition pool_absorb_bytes (p : pool) (label data : list Z) : pool :=
  set_state p (hash [state p; cstr label; data]).

(** The cap and the lifetime budget of a source. *)
Definition credit_cap (source : Z) : Z :=
  if source =? ENTROPY_SRC_KBD then ENTROPY_CREDIT_KBD
  else if source =? ENTROPY_SRC_ATA then ENTROPY_CREDIT_ATA else ENTROPY_CREDIT_TIMER.
Definition credit_budget (source : Z) : Z :=
  if source =? ENTROPY_SRC_KBD then ENTROPY_BUDGET_KBD
  else if source =? ENTROPY_SRC_ATA then ENTROPY_BUDGET_ATA else ENTROPY_BUDGET_TIMER.

Definition entropy_add_event (p : pool) (tsc source data : Z) : pool :=
  if ENTROPY_SRC_N <=? source then p
  else
    let d1 := u32 (tsc - last_tsc p) in
    let d2 := u32 (d1 - last_d1 p) in
    let d3 := u32 (d2 - last_d2 p) in
    let ring' := (ring p).[ring_head p <- Z.lxor (Z.lxor (Z.lxor d1 (u32 (Z.shiftl data 16))) source) tsc] in
    let head := Z.land (ring_head p + 1) (ENTROPY_RING_SIZE - 1) in
    let count := if ring_count p <? ENTROPY_RING_SIZE then ring_count p + 1 else ring_count p in
    let events' := (events p).[source <- u32 ((events p).[source] + 1)] in
    let map := Z.lor (delta_lsb_map p) (bit32 (Z.land d1 31)) in
    let mn := if d1 <? min_delta p then d1 else min_delta p in
    let mx := if max_delta p <? d1 then d1 else max_delta p in
    let credit := bit_length d1 in
    let credit := if bit_length d2 <? credit then bit_length d2 else credit in
    let credit := if bit_length d3 <? credit then bit_length d3 else credit in
    let credit := if credit_cap source <? credit then credit_cap source else credit in
    let spent := (credited_by_source p).[source] in
    let remaining := if credit_budget source <=? spent then 0 else credit_budget source - spent in
    let credit := if remaining <? credit then remaining else credit in
    let '(bits, by_source) :=
      if credit =? 0 then (credited_bits p, credited_by_source p)
      else (u32 (credited_bits p + credit), (credited_by_source p).[source <- u32 (spent + credit)]) in
    mkPool (state p) ring' head count (seq p) (counter p) bits events' by_source tsc d1 d2 map mn mx (seeded p).

Definition entropy_quality (has_rdrand : bool) (p : pool) : Z :=
  if negb (seeded p) then ENTROPY_FAIL
  else if has_rdrand then ENTROPY_OK
  else if ENTROPY_OK_THRESHOLD <=? credited_bits p then ENTROPY_OK else ENTROPY_WEAK.

Record entropy_stats := mkStats {
  st_events : list Z;
  st_credited_by_source : list Z;
  st_budget_by_source : list Z;
  st_credited_bits : Z;
  st_distinct_delta_lsb : Z;
  st_min_delta : Z;
  st_max_delta : Z;
  st_extractions : Z
}.

Definition entropy_get_stats (p : pool) : entropy_stats :=
  mkStats (events p) (credited_by_source p) [ENTROPY_BUDGET_TIMER; ENTROPY_BUDGET_KBD; ENTROPY_BUDGET_ATA]
    (credited_bits p) (popcount32 (delta_lsb_map p))
    (if min_delta p =? 0xFFFFFFFF then 0 else min_delta p) (max_delta p) (seq p).

Definition entropy_next_counter (p : pool) : Z * pool :=
  (counter p,
   mkPool (state p) (ring p) (ring_head p) (ring_count p) (seq p) ((counter p + 1) mod 2 ^ 64) (credited_bits p) (events p)
     (credited_by_source p) (last_tsc p) (last_d1 p) (last_d2 p) (delta_lsb_map p) (min_delta p) (max_delta p) (seeded p)).

Definition pool_drain_ring (p : pool) : pool :=
  let samples := take (Z.to_nat (ring_count p)) (ring p) in
  let count := ring_count p in
  let p := mkPool (state p) (ring p) 0 0 (seq p) (counter p) (credited_bits p) (events p)
    (credited_by_source p) (last_tsc p) (last_d1 p) (last_d2 p) (delta_lsb_map p) (min_delta p) (max_delta p) (seeded p) in
  if count =? 0 then p else set_state p (hash [state p; mjoin (le 4 <$> samples)]).

(** One block of 32 bytes, or what is left of the request. *)
Definition extract_block (st : list Z) (sq len : Z) (s : list Z * Z) : list Z * Z :=
  let '(buf, index) := s in
  let block := hash [st; le 4 sq; le 4 index] in
  (buf ++ take (Z.to_nat (len - alen buf)) block, u32 (index + 1)).

Definition pool_extract (p : pool) (len : Z) : list Z * pool :=
  let sq := u32 (seq p + 1) in
  let '(buf, _) := while_loop (Z.to_nat len) (fun s => alen (fst s) <? len) (extract_block (state p) sq len) ([], 0) in
  (buf, set_state (set_seq p sq) (hash [state p; [1]])).

(** Up to [n] attempts of the instruction; [None] is an attempt that fails. *)
Fixpoint rdrand_word (n : nat) (answers : list (option Z)) : option Z * list (option Z) :=
  match n, answers with
  | O, _ | _, [] => (None, answers)
  | S _, Some w :: rest => (Some w, rest)
  | S n', None :: rest => rdrand_word n' rest
  end.

(** The loop over the words of a request: the pool, the answers left, the bytes
    written and whether a word could not be had. *)
Definition rdrand_step (len : Z) (s : pool * list (option Z) * list Z * bool) : pool * list (option Z) * list Z * bool :=
  let '(p, answers, buf, _) := s in
  match rdrand_word 10 answers with
  | (None, answers) => (p, answers, buf, true)
  | (Some w, answers) =>
      (pool_absorb_word p w, answers, buf ++ take (Z.to_nat (len - alen buf)) (le 4 w), false)
  end.

(** [rdrand] is [None] on a processor without the instruction.  The result is
    the code, the bytes written - none when the pool refuses - and the pool. *)
Definition generate_random_bytes (rdrand : option (list (option Z))) (p : pool) (len : Z) : Z * list Z * pool :=
  if len =? 0 then (entropy_quality (if rdrand then true else false) p, [], p)
  else if negb (seeded p) then (ENTROPY_FAIL, [], p)
  else
    let '(p, served) :=
      match rdrand with
      | None => (p, None)
      | Some answers =>
          let '(p, _, buf, failed) := while_loop (Z.to_nat len)
            (fun s => let '(_, _, buf, failed) := s in (alen buf <? len) && negb failed) (rdrand_step len)
            (p, answers, [], false) in
          if failed then (p, None) else (p, Some buf)
      end in
    match served with
    | Some buf => (ENTROPY_OK, buf, set_seq p (u32 (seq p + 1)))
    | None =>
        let p := pool_drain_ring p in
        let '(buf, p) := pool_extract p len in
        ((if ENTROPY_OK_THRESHOLD <=? credited_bits p then ENTROPY_OK else ENTROPY_WEAK), buf, p)
    end.

(** ** What the pool keeps true *)

Definition credits (p : pool) (t k a : Z) : Prop :=
  credited_by_source p = [t; k; a] /\ credited_bits p = t + k + a /\
  0 <= t <= ENTROPY_BUDGET_TIMER /\ 0 <= k <= ENTROPY_BUDGET_KBD /\ 0 <= a <= ENTROPY_BUDGET_ATA.

Record pool_ok (p : pool) : Prop := {
  ok_state : alen (state p) = 32;
  ok_ring : alen (ring p) = ENTROPY_RING_SIZE;
  (** the samples to drain are the first [ring_count] slots *)
  ok_count : 0 <= ring_count p <= ENTROPY_RING_SIZE;
  ok_head : 0 <= ring_head p < ENTROPY_RING_SIZE;
  ok_filled : ring_count p = ENTROPY_RING_SIZE \/ ring_head p = ring_count p;
  ok_credits : exists t k a, credits p t k a
}.

Lemma alen_hash l : alen (hash l) = 32.
Proof. apply sha256_final_bytes. Qed.

Lemma hash_bytes l : bytes (hash l).
Proof. apply sha256_final_bytes. Qed.

#[local] Opaque hash.

Lemma static_pool_ok : pool_ok static_pool.
Proof.
  constructor; try done; [by right|]. exists 0, 0, 0. repeat split; try done; unfold ENTROPY_BUDGET_KBD, ENTROPY_BUDGET_ATA; lia.
Qed.

Lemma set_state_ok p s : pool_ok p -> alen s = 32 -> pool_ok (set_state p s).
Proof. intros [] Hs. by constructor. Qed.

Lemma entropy_init_ok p seed : pool_ok p -> pool_ok (entropy_init p seed).
Proof.
  intros Hp. unfold entropy_init. set (p1 := if negb (seeded p) then _ else p).
  assert (Hp1 : pool_ok p1).
  { unfold p1. destruct (seeded p); [done|]. destruct static_pool_ok. by constructor. }
  set (q := for_range 0 10 (fun p i => pool_absorb_word p seed.[i]) p1).
  assert (H : pool_ok q).
  { unfold q. apply (for_range_ind (fun _ t => pool_ok t)); [lia|done|]. intros i t _ Ht. apply set_state_ok; [done|apply alen_hash]. }
  clearbody q. destruct H. by constructor.
Qed.

Lemma credit_spec source : 0 <= credit_cap source /\ 0 <= credit_budget source /\
  credit_budget 0 = 0 /\ credit_budget 1 = 4096 /\ credit_budget 2 = 64.
Proof.
  unfold credit_cap, credit_budget, ENTROPY_CREDIT_KBD, ENTROPY_CREDIT_ATA, ENTROPY_CREDIT_TIMER,
    ENTROPY_BUDGET_KBD, ENTROPY_BUDGET_ATA, ENTROPY_BUDGET_TIMER.
  repeat split; repeat case_bool; lia.
Qed.

Lemma bit_length_nonneg v : 0 <= bit_length v.
Proof.
  unfold bit_length. apply (while_loop_ind (fun s : Z * Z => 0 <= snd s)); [done|].
  intros [w n] Hn _. simpl in *. lia.
Qed.

(** The credits after an event: one source gains, never past its budget. *)
Lemma event_credits p tsc source data t k a : credits p t k a -> 0 <= source ->
  exists t' k' a', credits (entropy_add_event p tsc source data) t' k' a' /\ t <= t' /\ k <= k' /\ a <= a' /\
    k' <= k + (if source =? ENTROPY_SRC_KBD then 4 else 0) /\ a' <= a + (if source =? ENTROPY_SRC_ATA then 2 else 0).
Proof.
  intros (Hby & Hbits & Ht & Hk & Ha) Hs. unfold entropy_add_event.
  destruct (Z.leb_spec ENTROPY_SRC_N source) as [Hn|Hn].
  { exists t, k, a. split; [done|]. repeat case_bool; lia. }
  unfold ENTROPY_SRC_N in Hn.
  set (c3 := if bit_length (u32 (u32 (u32 (tsc - last_tsc p) - last_d1 p) - last_d2 p)) <? _ then _ else _).
  assert (Hc3 : 0 <= c3).
  { unfold c3. repeat case_bool; apply bit_length_nonneg. }
  clearbody c3. rewrite Hby. destruct (credit_spec source) as (Hcap & Hbud & B0 & B1 & B2).
  set (c4 := if credit_cap source <? c3 then _ else _). assert (Hc4 : 0 <= c4 <= credit_cap source) by (unfold c4; case_bool; lia). clearbody c4.
  unfold ENTROPY_BUDGET_TIMER, ENTROPY_BUDGET_KBD, ENTROPY_BUDGET_ATA in *.
  assert (Hcases : source = 0 \/ source = 1 \/ source = 2) by lia.
  set (spent := aget [t; k; a] source).
  set (rem := if credit_budget source <=? spent then 0 else credit_budget source - spent).
  set (credit := if rem <? c4 then rem else c4).
  assert (Hspent : 0 <= spent <= credit_budget source)
    by (unfold spent; destruct Hcases as [->|[->| ->]];
        [change (aget [t; k; a] 0) with t|change (aget [t; k; a] 1) with k|change (aget [t; k; a] 2) with a]; lia).
  assert (Hcr : 0 <= credit <= credit_budget source - spent /\ credit <= credit_cap source)
    by (unfold credit, rem; destruct (Z.leb_spec (credit_budget source) spent), (Z.ltb_spec 0 c4),
        (Z.ltb_spec (credit_budget source - spent) c4); lia).
  clearbody credit. clear rem.
  destruct (Z.eqb_spec credit 0) as [E|E].
  - exists t, k, a. split; [done|]. repeat case_bool; lia.
  - unfold credits, ENTROPY_BUDGET_TIMER, ENTROPY_BUDGET_KBD, ENTROPY_BUDGET_ATA. cbn [credited_by_source credited_bits].
    unfold spent in *. destruct Hcases as [->|[->| ->]].
    + change (aget [t; k; a] 0) with t in *. lia.
    + change (aget [t; k; a] 1) with k in *. rewrite !u32_small by lia.
      change (credit_cap 1) with 4 in *. change (1 =? ENTROPY_SRC_KBD) with true. change (1 =? ENTROPY_SRC_ATA) with false.
      exists t, (k + credit), a. split; [|lia]. split; [done|]. lia.
    + change (aget [t; k; a] 2) with a in *. rewrite !u32_small by lia.
      change (credit_cap 2) with 2 in *. change (2 =? ENTROPY_SRC_KBD) with false. change (2 =? ENTROPY_SRC_ATA) with true.
      exists t, k, (a + credit). split; [|lia]. split; [done|]. lia.
Qed.

Lemma land_63 x : 0 <= x -> Z.land x (ENTROPY_RING_SIZE - 1) = x mod 64.
Proof. intros Hx. change (ENTROPY_RING_SIZE - 1) with (Z.ones 6). by rewrite Z.land_ones. Qed.

Lemma event_ok p tsc source data : pool_ok p -> 0 <= source -> pool_ok (entropy_add_event p tsc source data).
Proof.
  intros [H1 H2 H3 H4 H5 (t & k & a & Hc)] Hs.
  destruct (event_credits p tsc source data t k a Hc Hs) as (t' & k' & a' & Hc' & _).
  revert Hc'. unfold entropy_add_event. destruct (ENTROPY_SRC_N <=? source); [by constructor; eauto|].
  match goal with |- context [if ?c =? 0 then ?x else ?y] => destruct (if c =? 0 then x else y) as [bits by_source] end.
  intros Hc'. unfold ENTROPY_RING_SIZE in *.
  constructor; cbn [state ring ring_head ring_count]; unfold ENTROPY_RING_SIZE; try done.
  - by rewrite alen_aset.
  - case_bool; lia.
  - rewrite land_63 by lia. apply Z.mod_pos_bound. lia.
  - change (64 - 1) with (ENTROPY_RING_SIZE - 1). rewrite land_63 by lia. case_bool; [|left; lia].
    destruct (Z.eq_dec (ring_count p) 63) as [E|E]; [left; lia|right]. rewrite Z.mod_small by lia. lia.
  - by exists t', k', a'.
Qed.

Lemma drain_ok p : pool_ok p -> pool_ok (pool_drain_ring p).
Proof.
  intros [H1 H2 H3 H4 H5 H6]. unfold pool_drain_ring. unfold ENTROPY_RING_SIZE in *.
  destruct (ring_count p =? 0); constructor; unfold ENTROPY_RING_SIZE; cbn; try done; try lia; try (by right). apply alen_hash.
Qed.

(** ** Requests are served in full *)

Lemma extract_full p len : 0 <= len -> alen (fst (pool_extract p len)) = len.
Proof.
  intros Hlen. unfold pool_extract. set (sq := u32 (seq p + 1)).
  set (cond := fun s : list Z * Z => alen (fst s) <? len).
  assert (Hstep : forall s, alen (fst s) <= len -> cond s = true ->
    alen (fst (extract_block (state p) sq len s)) <= len /\
    (Z.to_nat (len - alen (fst (extract_block (state p) sq len s))) < Z.to_nat (len - alen (fst s)))%nat).
  { intros [buf index] Hle Hc. unfold cond in Hc. cbn [fst] in *. unfold extract_block. cbn [fst].
    pose proof (alen_hash [state p; le 4 sq; le 4 index]) as Hh. bool_to_prop.
    assert (Ht : 0 < alen (take (Z.to_nat (len - alen buf)) (hash [state p; le 4 sq; le 4 index])) <= len - alen buf)
      by (unfold alen in *; rewrite length_take; lia).
    rewrite alen_app. lia. }
  assert (Hdone : cond (while_loop (Z.to_nat len) cond (extract_block (state p) sq len) ([], 0)) = false).
  { apply (while_loop_done (fun s => alen (fst s) <= len) (fun s => Z.to_nat (len - alen (fst s))));
      [done|intros s Hs Hc; by apply Hstep|]. cbn [fst]. change (alen []) with 0. lia. }
  assert (Hinv : alen (fst (while_loop (Z.to_nat len) cond (extract_block (state p) sq len) ([], 0))) <= len).
  { apply (while_loop_ind (fun s => alen (fst s) <= len)); [done|]. intros s Hs Hc. by apply Hstep. }
  destruct (while_loop _ _ _ _) as [buf index]. unfold cond in Hdone. cbn [fst] in *. bool_to_prop. lia.
Qed.

Lemma extract_ok p len : pool_ok p -> pool_ok (snd (pool_extract p len)).
Proof.
  intros [H1 H2 H3 H4 H5 H6]. unfold pool_extract. destruct (while_loop _ _ _ _) as [buf index].
  constructor; cbn; try done. apply alen_hash.
Qed.

(** The loop over RDRAND words: it fails or fills the request. *)
Lemma rdrand_loop p answers len : pool_ok p -> 0 <= len ->
  let '(q, _, buf, failed) := while_loop (Z.to_nat len)
    (fun s => let '(_, _, buf, failed) := s in (alen buf <? len) && negb failed) (rdrand_step len) (p, answers, [], false) in
  pool_ok q /\ credited_by_source q = credited_by_source p /\ credited_bits q = credited_bits p /\ seeded q = seeded p /\
  (failed = false -> alen buf = len).
Proof.
  intros Hp Hlen.
  set (cond := fun s : pool * list (option Z) * list Z * bool => let '(_, _, buf, failed) := s in (alen buf <? len) && negb failed).
  set (P := fun s : pool * list (option Z) * list Z * bool => let '(q, _, buf, failed) := s in
    pool_ok q /\ credited_by_source q = credited_by_source p /\ credited_bits q = credited_bits p /\ seeded q = seeded p /\
    alen buf <= len).
  set (m := fun s : pool * list (option Z) * list Z * bool => let '(_, _, buf, failed) := s in
    if failed then 0%nat else Z.to_nat (len - alen buf)).
  assert (Hstep : forall s, P s -> cond s = true -> P (rdrand_step len s) /\ (m (rdrand_step len s) < m s)%nat).
  { intros [[[q ans] buf] failed] (Hq & Hby & Hbits & Hsd & Hle) Hc. unfold cond in Hc. unfold rdrand_step, P, m.
    destruct failed; [by rewrite andb_false_r in Hc|]. bool_to_prop.
    destruct (rdrand_word 10 ans) as [[w|] rest].
    - assert (Ht : 0 < alen (take (Z.to_nat (len - alen buf)) (le 4 w)) <= len - alen buf)
        by (unfold alen in *; rewrite length_take, length_le; lia).
      rewrite alen_app. split; [|lia]. split; [by apply set_state_ok, alen_hash|]. repeat (split; [done|]). lia.
    - split; [|lia]. split; [done|]. repeat (split; [done|]). lia. }
  assert (HP0 : P (p, answers, [], false)) by (split; [done|]; repeat (split; [done|]); done).
  pose proof (while_loop_ind P (Z.to_nat len) cond (rdrand_step len) (p, answers, [], false) HP0
    (fun s Hs Hc => proj1 (Hstep s Hs Hc))) as Hinv.
  pose proof (while_loop_done P m (Z.to_nat len) cond (rdrand_step len) (p, answers, [], false) HP0 Hstep) as Hdone.
  specialize (Hdone ltac:(unfold m; change (alen []) with 0; lia)).
  destruct (while_loop _ _ _ _) as [[[q ans] buf] failed]. destruct Hinv as (Hq & Hby & Hbits & Hsd & Hle).
  split; [done|]. repeat (split; [done|]). intros ->. unfold cond in Hdone. bool_to_prop. lia.
Qed.

Lemma generate_spec rdrand p len : pool_ok p -> 0 <= len ->
  let '(res, buf, q) := generate_random_bytes rdrand p len in
  pool_ok q /\ credited_by_source q = credited_by_source p /\ seeded q = seeded p /\
  (seeded p = false -> res = ENTROPY_FAIL /\ buf = [] /\ q = p) /\
  (seeded p = true -> alen buf = len /\ (res = ENTROPY_OK \/ res = ENTROPY_WEAK)) /\
  (rdrand = None -> res = entropy_quality false p).
Proof.
  intros Hp Hlen. unfold generate_random_bytes.
  destruct (Z.eqb_spec len 0) as [->|Hne].
  { split; [done|]. split; [done|]. split; [done|]. unfold entropy_quality.
    split; [intros Hs; by rewrite Hs|]. split; [|by intros ->]. intros Hs. rewrite Hs. cbn [negb]. split; [done|].
    destruct rdrand; [by left|]. case_bool; [by left|by right]. }
  destruct (seeded p) eqn:Hsd; cbn [negb].
  2: { split; [done|]. split; [done|]. split; [done|]. split; [done|]. split; [done|]. intros _.
       unfold entropy_quality. by rewrite Hsd. }
  assert (Hpool : forall q, pool_ok q -> credited_by_source q = credited_by_source p -> credited_bits q = credited_bits p ->
    seeded q = true ->
    let '(res, buf, q') := (let '(buf, q') := pool_extract (pool_drain_ring q) len in
      ((if ENTROPY_OK_THRESHOLD <=? credited_bits q' then ENTROPY_OK else ENTROPY_WEAK), buf, q')) in
    pool_ok q' /\ credited_by_source q' = credited_by_source p /\ seeded q' = true /\
    (true = false -> res = ENTROPY_FAIL /\ buf = [] /\ q' = p) /\
    (true = true -> alen buf = len /\ (res = ENTROPY_OK \/ res = ENTROPY_WEAK)) /\
    res = (if ENTROPY_OK_THRESHOLD <=? credited_bits p then ENTROPY_OK else ENTROPY_WEAK)).
  { intros q Hq Hby Hbits Hsq.
    pose proof (extract_full (pool_drain_ring q) len Hlen) as Hl. pose proof (extract_ok (pool_drain_ring q) len (drain_ok q Hq)) as Hok.
    assert (Hkeep : credited_by_source (snd (pool_extract (pool_drain_ring q) len)) = credited_by_source q /\
      credited_bits (snd (pool_extract (pool_drain_ring q) len)) = credited_bits q /\
      seeded (snd (pool_extract (pool_drain_ring q) len)) = seeded q).
    { unfold pool_extract. destruct (while_loop _ _ _ _). cbn. unfold pool_drain_ring. by destruct (ring_count q =? 0). }
    destruct (pool_extract (pool_drain_ring q) len) as [buf q']. cbn [fst snd] in *. destruct Hkeep as (K1 & K2 & K3).
    rewrite K2, Hbits. split; [done|]. split; [congruence|]. split; [congruence|]. split; [done|].
    split; [|done]. intros _. split; [done|]. case_bool; [by left|by right]. }
  destruct rdrand as [answers|].
  - pose proof (rdrand_loop p answers len Hp Hlen) as Hr. cbv zeta in Hr.
    destruct (while_loop _ _ _ _) as [[[q ans] buf] failed]. destruct Hr as (Hq & Hby & Hbits & Hsq & Hfull).
    destruct failed.
    + specialize (Hpool q Hq Hby Hbits ltac:(congruence)). destruct (pool_extract (pool_drain_ring q) len) as [b q'].
      destruct Hpool as (A & B & C & D & F & _). split; [done|]. repeat (split; [done|]). done.
    + destruct Hq. split; [by constructor|]. split; [done|]. split; [cbn; congruence|]. split; [done|].
      split; [|done]. intros _. split; [by apply Hfull|by left].
  - specialize (Hpool p Hp eq_refl eq_refl Hsd). destruct (pool_extract (pool_drain_ring p) len) as [b q'].
    destruct Hpool as (A & B & C & D & F & G). split; [done|]. repeat (split; [done|]). intros _.
    unfold entropy_quality. rewrite Hsd. exact G.
Qed.

(** ** Runs *)

Inductive op :=
| Init (seed : list Z)
| Event (tsc source data : Z)
| Counter
| Request (rdrand : option (list (option Z))) (len : Z).

Definition op_ok (o : op) : Prop :=
  match o with
  | Event _ source _ => 0 <= source
  | Request _ len => 0 <= len
  | _ => True
  end.

Definition step (p : pool) (o : op) : pool :=
  match o with
  | Init seed => entropy_init p seed
  | Event tsc source data => entropy_add_event p tsc source data
  | Counter => snd (entropy_next_counter p)
  | Request rdrand len => snd (generate_random_bytes rdrand p len)
  end.

(** How many events of a source there were. *)
Definition is_event (source : Z) (o : op) : Z := match o with Event _ s _ => if s =? source then 1 else 0 | _ => 0 end.
Definition events_of (source : Z) (ops : list op) : Z := foldr (fun o n => is_event source o + n) 0 ops.

Lemma is_event_nonneg source o : 0 <= is_event source o.
Proof. destruct o; cbn; [lia| |lia..]. case_bool; lia. Qed.

Lemma events_of_snoc source ops o : events_of source (ops ++ [o]) = events_of source ops + is_event source o.
Proof. unfold events_of. induction ops as [|x ops IH]; cbn; lia. Qed.

Lemma events_of_nonneg source ops : 0 <= events_of source ops.
Proof. induction ops as [|o ops IH]; cbn; [lia|]. pose proof (is_event_nonneg source o). unfold events_of in IH. lia. Qed.

Lemma absorb_words_credit seed p :
  credited_by_source (for_range 0 10 (fun p i => pool_absorb_word p seed.[i]) p) = credited_by_source p /\
  credited_bits (for_range 0 10 (fun p i => pool_absorb_word p seed.[i]) p) = credited_bits p.
Proof.
  apply (for_range_ind (fun _ t => credited_by_source t = credited_by_source p /\ credited_bits t = credited_bits p)); [lia|done|].
  intros i t _ [<- <-]. done.
Qed.

Lemma set_seeded_credit p tsc t k a : credits p t k a -> credits (set_seeded p tsc) t k a.
Proof. done. Qed.

Lemma entropy_init_credit p seed t k a : credits p t k a ->
  credits (entropy_init p seed) t k a \/ credits (entropy_init p seed) 0 0 0.
Proof.
  intros Hc. unfold entropy_init. cbv zeta. set (p1 := if negb (seeded p) then _ else p).
  destruct (absorb_words_credit seed p1) as [H1 H2]. set (q := for_range _ _ _ p1) in *. clearbody q.
  destruct (seeded p); cbn [negb] in p1.
  - left. apply set_seeded_credit. unfold credits in *. rewrite H1, H2. exact Hc.
  - right. apply set_seeded_credit. unfold credits. rewrite H1, H2. unfold p1. cbn [credited_by_source credited_bits].
    unfold ENTROPY_BUDGET_TIMER, ENTROPY_BUDGET_KBD, ENTROPY_BUDGET_ATA. split; [done|]. lia.
Qed.

Lemma step_ok p o : pool_ok p -> op_ok o -> pool_ok (step p o).
Proof.
  intros Hp Ho. destruct o as [seed|tsc source data| |rdrand len]; cbn [step op_ok] in *.
  - by apply entropy_init_ok.
  - by apply event_ok.
  - destruct Hp. by constructor.
  - pose proof (generate_spec rdrand p len Hp Ho) as H. destruct (generate_random_bytes rdrand p len) as [[res buf] q]. apply H.
Qed.

(** One operation: what the sources have earned grows by no more than the cap of
    the event, if it is one. *)
Lemma step_credits p o t k a : pool_ok p -> op_ok o -> credits p t k a ->
  exists t' k' a', credits (step p o) t' k' a' /\
    k' <= k + 4 * is_event ENTROPY_SRC_KBD o /\ a' <= a + 2 * is_event ENTROPY_SRC_ATA o.
Proof.
  intros Hp Ho Hc. pose proof Hc as (_ & _ & _ & Hk & Ha). destruct o as [seed|tsc source data| |rdrand len]; cbn [step op_ok is_event] in *.
  - destruct (entropy_init_credit p seed t k a Hc) as [H|H]; [exists t, k, a|exists 0, 0, 0]; (split; [done|lia]).
  - destruct (event_credits p tsc source data t k a Hc Ho) as (t' & k' & a' & Hc' & _ & _ & _ & Hk' & Ha').
    exists t', k', a'. split; [done|]. revert Hk' Ha'. repeat case_bool; lia.
  - exists t, k, a. split; [done|lia].
  - pose proof (generate_spec rdrand p len Hp Ho) as H. destruct (generate_random_bytes rdrand p len) as [[res buf] q].
    destruct H as (Hq & Hby & _). destruct (ok_credits q Hq) as (t' & k' & a' & Hc'). exists t', k', a'. cbn [snd].
    split; [done|]. destruct Hc as (Hc & _), Hc' as (Hc' & _). rewrite Hby, Hc in Hc'. injection Hc' as -> -> ->. lia.
Qed.

Lemma run_ok ops : forall p, pool_ok p -> Forall op_ok ops -> pool_ok (foldl step p ops).
Proof. induction ops as [|o ops IH]; intros p Hp Ho; [done|]. inversion_clear Ho. by apply IH; [apply step_ok|]. Qed.

Lemma run_credits ops : Forall op_ok ops -> exists t k a, credits (foldl step static_pool ops) t k a /\
  k <= 4 * events_of ENTROPY_SRC_KBD ops /\ a <= 2 * events_of ENTROPY_SRC_ATA ops.
Proof.
  induction ops as [|o ops IH] using rev_ind; intros Ho.
  { exists 0, 0, 0. unfold credits, ENTROPY_BUDGET_TIMER, ENTROPY_BUDGET_KBD, ENTROPY_BUDGET_ATA. cbn. split; [|lia]. split; [done|lia]. }
  apply Forall_app in Ho as [Ho1 Ho2]. inversion_clear Ho2 as [|? ? Ho' _].
  destruct (IH Ho1) as (t & k & a & Hc & Hk & Ha). rewrite foldl_app. cbn [foldl].
  destruct (step_credits _ o t k a (run_ok ops _ static_pool_ok Ho1) Ho' Hc) as (t' & k' & a' & Hc' & Hk' & Ha').
  exists t', k', a'. split; [done|]. rewrite !events_of_snoc. lia.
Qed.

(** C25: The pool does not overclaim.  After any sequence of initialisations,
    events, counter draws and requests, with any timings and any amount of
    traffic: the credit of the pool is the sum of what its sources earned; the
    timer earned nothing, the keyboard at most four bits a keystroke and 4096 in
    all, the disk at most two bits an event and 64 in all; and on a processor
    without RDRAND the pool reports itself as cryptographic, or serves a request
    as such, only after at least 48 keystrokes. *)
Theorem pool_never_overclaims ops len :
  Forall op_ok ops -> 0 <= len ->
  let p := foldl step static_pool ops in
  (exists k a, credited_by_source p = [0; k; a] /\ credited_bits p = k + a /\
     0 <= k <= Z.min 4096 (4 * events_of ENTROPY_SRC_KBD ops) /\ 0 <= a <= Z.min 64 (2 * events_of ENTROPY_SRC_ATA ops)) /\
  (entropy_quality false p = ENTROPY_OK -> 48 <= events_of ENTROPY_SRC_KBD ops) /\
  (fst (fst (generate_random_bytes None p len)) = ENTROPY_OK -> 48 <= events_of ENTROPY_SRC_KBD ops).
Proof.
  intros Ho Hl p. assert (Hp : pool_ok p) by (apply run_ok; [apply static_pool_ok|done]).
  destruct (run_credits ops Ho) as (t & k & a & Hc & Hk & Ha). fold p in Hc. clearbody p.
  destruct Hc as (Hby & Hbits & Ht & Hkb & Hab). unfold ENTROPY_BUDGET_TIMER, ENTROPY_BUDGET_KBD, ENTROPY_BUDGET_ATA in *.
  assert (t = 0) as -> by lia.
  assert (Hq : entropy_quality false p = ENTROPY_OK -> 48 <= events_of ENTROPY_SRC_KBD ops).
  { unfold entropy_quality, ENTROPY_OK_THRESHOLD. destruct (seeded p); [|done]. cbn [negb].
    destruct (Z.leb_spec 256 (credited_bits p)); [lia|done]. }
  split; [exists k, a; split; [done|lia]|]. split; [done|]. pose proof (generate_spec None p len Hp Hl) as H.
  destruct (generate_random_bytes None p len) as [[res buf] q]. destruct H as (_ & _ & _ & _ & _ & H).
  cbn [fst]. by rewrite (H eq_refl).
Qed.

(** Two disk events and a keystroke. *)
Lemma pool_never_overclaims_witness :
  let ops := [Init (replicate 10 5); Event 1000 ENTROPY_SRC_ATA 0; Event 7777 ENTROPY_SRC_KBD 0; Event 9999 ENTROPY_SRC_ATA 0] in
  credited_bits (foldl step static_pool ops) <= 8 /\ entropy_quality false (foldl step static_pool ops) <> ENTROPY_OK.
Proof.
  intros ops. assert (Ho : Forall op_ok ops) by (repeat constructor; unfold ENTROPY_SRC_ATA, ENTROPY_SRC_KBD; cbn; lia).
  destruct (pool_never_overclaims ops 16 Ho ltac:(lia)) as ((k & a & _ & Hb & Hk & Ha) & Hq & _).
  change (events_of ENTROPY_SRC_KBD ops) with 1 in *. change (events_of ENTROPY_SRC_ATA ops) with 2 in *.
  split; [rewrite Hb; lia|]. intros H. specialize (Hq H). lia.
Defined.

(** C26: Requests for random bytes end and are served in full.  A request on an
    initialised pool of any state returns exactly as many bytes as were asked for,
    whether or not RDRAND exists and wherever it starts to fail, with a code that
    is not a refusal; on a pool that was never seeded it is refused and nothing
    is written.  Without RDRAND the code is the one [entropy_quality] announces. *)
Theorem random_requests_served rdrand p len :
  pool_ok p -> 0 < len ->
  let '(res, buf, q) := generate_random_bytes rdrand p len in
  pool_ok q /\ seeded q = seeded p /\
  (seeded p = false -> res = ENTROPY_FAIL /\ buf = [] /\ q = p) /\
  (seeded p = true -> alen buf = len /\ (res = ENTROPY_OK \/ res = ENTROPY_WEAK)) /\
  (rdrand = None -> res = entropy_quality false p).
Proof.
  intros Hp Hl. pose proof (generate_spec rdrand p len Hp ltac:(lia)) as H.
  destruct (generate_random_bytes rdrand p len) as [[res buf] q]. destruct H as (H1 & _ & H2 & H3 & H4 & H5). done.
Qed.

(** RDRAND answers one word and then fails. *)
Lemma random_requests_served_witness :
  alen (snd (fst (generate_random_bytes (Some [Some 5; None]) (set_seeded static_pool 0) 16))) = 16.
Proof.
  assert (Hp : pool_ok (set_seeded static_pool 0)) by (destruct static_pool_ok; by constructor).
  pose proof (random_requests_served (Some [Some 5; None]) (set_seeded static_pool 0) 16 Hp eq_refl) as H.
  destruct (generate_random_bytes (Some [Some 5; None]) (set_seeded static_pool 0) 16) as [[res buf] q].
  exact (proj1 (proj1 (proj2 (proj2 (proj2 H))) eq_refl)).
Defined.

End Entropy.
