(* ===== verification/Chacha20.v ===== *)
(** * ChaCha20 and the random devices (crypto/chacha20.c, fs/devfs.c)

    The stream cipher, and the generator of /dev/random and /dev/urandom that
    keys it from the entropy pool, re-keys it and ratchets it forward after every
    request.  The theorem says that a read is refused only while no key was ever
    drawn, and otherwise hands out exactly the bytes asked for. *)

From S2P Require Import Prelude CStr FsFormat Sha256 Entropy.
Import FsFormat Entropy.

Module Chacha20.

(** ** The cipher *)

Definition ROTL (a b : Z) : Z := Z.lor (u32 (Z.shiftl a b)) (Z.shiftr a (32 - b)).

(** [a += b, d ^= a, d = ROTL(d, 16), ...] on the words at four indices. *)
Definition QR (s : list Z) (a b c d : Z) : list Z :=
  let s := s.[a <- u32 (s.[a] + s.[b])] in
  let s := s.[d <- Z.lxor s.[d] s.[a]] in
  let s := s.[d <- ROTL s.[d] 16] in
  let s := s.[c <- u32 (s.[c] + s.[d])] in
  let s := s.[b <- Z.lxor s.[b] s.[c]] in
  let s := s.[b <- ROTL s.[b] 12] in
  let s := s.[a <- u32 (s.[a] + s.[b])] in
  let s := s.[d <- Z.lxor s.[d] s.[a]] in
  let s := s.[d <- ROTL s.[d] 8] in
  let s := s.[c <- u32 (s.[c] + s.[d])] in
  let s := s.[b <- Z.lxor s.[b] s.[c]] in
  s.[b <- ROTL s.[b] 7].

(** [((uint32_t * )p)[i]] *)
Definition word_at (p : list Z) (i : Z) : Z := unle (take 4 (drop (Z.to_nat (4 * i)) p)).

(** ["expand 32-byte k"] *)
Definition constants : list Z := [101;120;112;97;110;100;32;51;50;45;98;121;116;101;32;107].

Definition chacha20_init (ctx key nonce : list Z) : list Z :=
  let s := ctx.[0 <- word_at constants 0].[1 <- word_at constants 1]
              .[2 <- word_at constants 2].[3 <- word_at constants 3] in
  let s := for_range 0 8 (fun s i => s.[4 + i <- word_at key i]) s in
  s.[12 <- 0].[13 <- 0].[14 <- word_at nonce 0].[15 <- word_at nonce 1].

Definition double_round (s : list Z) : list Z :=
  let s := QR s 0 4 8 12 in
  let s := QR s 1 5 9 13 in
  let s := QR s 2 6 10 14 in
  let s := QR s 3 7 11 15 in
  let s := QR s 0 5 10 15 in
  let s := QR s 1 6 11 12 in
  let s := QR s 2 7 8 13 in
  QR s 3 4 9 14.

(** The block and the context with its 64-bit counter advanced. *)
Definition chacha20_next_block (ctx : list Z) : list Z * list Z :=
  let working_state := for_range 0 16 (fun w i => w.[i <- ctx.[i]]) (replicate 16 0) in
  let w := for_range 0 10 (fun w _ => double_round w) working_state in
  let '(w, out) := for_range 0 16 (fun '(w, out) i =>
    let w := w.[i <- u32 (w.[i] + ctx.[i])] in
    (w, ft_memcpy out (4 * i) (le 4 w.[i]) 4)) (w, replicate 64 0) in
  let ctx := ctx.[12 <- u32 (ctx.[12] + 1)] in
  let ctx := if ctx.[12] =? 0 then ctx.[13 <- u32 (ctx.[13] + 1)] else ctx in
  (out, ctx).

(** The first block under the zero key and nonce, as the cipher's test vectors
    give it. *)
Lemma zero_key_block :
  take 16 (fst (chacha20_next_block (chacha20_init (replicate 16 0) (replicate 32 0) (replicate 8 0))))
  = [118; 184; 224; 173; 160; 241; 61; 144; 64; 93; 106; 229; 83; 134; 189; 40].
Proof. vm_compute. reflexivity. Qed.

Lemma alen_next_block ctx : alen (fst (chacha20_next_block ctx)) = 64.
Proof.
  unfold chacha20_next_block.
  match goal with |- context [for_range 0 16 (fun '(w, out) i => _) ?x] => set (s0 := x) end.
  match goal with |- context [for_range 0 16 ?f s0] => assert (H : alen (snd (for_range 0 16 f s0)) = 64) end.
  { apply (for_range_ind (fun _ t => alen (snd t) = 64)); [lia|done|]. intros i [w out] _ Ho. cbn [snd] in *.
    by rewrite alen_ft_memcpy. }
  destruct (for_range 0 16 _ s0) as [w out]. exact H.
Qed.

(** The counter is a 64-bit number in words 12 and 13. *)
Definition block_counter (ctx : list Z) : Z := ctx.[12] + 2 ^ 32 * ctx.[13].

Lemma next_block_counter ctx : alen ctx = 16 -> is_u32 ctx.[12] -> is_u32 ctx.[13] ->
  block_counter (snd (chacha20_next_block ctx)) = (block_counter ctx + 1) mod 2 ^ 64.
Proof.
  intros Hl Hlo Hhi. unfold chacha20_next_block. destruct (for_range 0 16 _ _) as [w out]. cbn [snd].
  unfold is_u32, block_counter in *.
  assert (G : forall i x j, 0 <= i < 16 -> 0 <= j -> aget (aset ctx i x) j = if i =? j then x else aget ctx j)
    by (intros; apply aget_aset; lia).
  rewrite !(G 12) by lia. cbn [Z.eqb Pos.eqb].
  destruct (Z.eqb_spec (u32 (ctx.[12] + 1)) 0) as [E|E].
  - rewrite !aget_aset by (rewrite ?alen_aset; lia). cbn [Z.eqb Pos.eqb]. unfold u32 in *. zlia.
  - rewrite !aget_aset by (rewrite ?alen_aset; lia). cbn [Z.eqb Pos.eqb]. unfold u32 in *. zlia.
Qed.

(** ** The generator behind the devices *)

Definition TIMER_HZ : Z := 100.
Definition DRBG_REKEY_BYTES : Z := 4096.
Definition DRBG_REKEY_TICKS : Z := TIMER_HZ * 5.

Record drbg := mkDrbg {
  ctx : list Z;
  bytes_served : Z;
  rekey_tick : Z;
  quality : Z;
  keyed : bool;
  warned : bool
}.

(** What the rest of the kernel answers during a read: the ticks when the age of
    the key is looked at and when a new one is installed (the timer runs in
    between), the RDRAND instruction, and the pool. *)
Record sources := mkSources { ticks : Z; install_ticks : Z; rdrand : option (list (option Z)); entropy : pool }.

Definition drbg_rekey (src : sources) (g : drbg) : Z * drbg * pool :=
  let '(q, seed, p) := generate_random_bytes (rdrand src) (entropy src) 40 in
  if q =? ENTROPY_FAIL then (E_IO, g, p)
  else
    let '(seed, c) :=
      if keyed g then
        let '(carry, c) := chacha20_next_block (ctx g) in
        (for_range 0 40 (fun s i => s.[i <- Z.lxor s.[i] carry.[i]]) seed, c)
      else (seed, ctx g) in
    (E_OK, mkDrbg (chacha20_init c seed (drop 32 seed)) 0 (install_ticks src) q true (warned g), p).

Definition drbg_needs_rekey (src : sources) (g : drbg) : bool :=
  negb (keyed g)
  || (DRBG_REKEY_BYTES <=? bytes_served g)
  || (DRBG_REKEY_TICKS <=? u32 (ticks src - rekey_tick g))
  || (negb (quality g =? ENTROPY_OK)
      && (entropy_quality (if rdrand src then true else false) (entropy src) =? ENTROPY_OK)).

(** One block of output, or what is left of the request. *)
Definition fill_block (len : Z) (s : list Z * list Z) : list Z * list Z :=
  let '(c, buf) := s in
  let '(block, c) := chacha20_next_block c in
  (c, buf ++ take (Z.to_nat (len - alen buf)) block).

Definition drbg_fill (g : drbg) (len : Z) : list Z * drbg :=
  let '(c, buf) := while_loop (Z.to_nat len) (fun s => alen (snd s) <? len) (fill_block len) (ctx g, []) in
  let '(block, c) := chacha20_next_block c in
  (buf, mkDrbg (chacha20_init c block (drop 32 block)) (u32 (bytes_served g + len)) (rekey_tick g) (quality g) (keyed g) (warned g)).

(** The warning about a weak pool is logged once per boot. *)
Definition warn_once (warn_when_weak : bool) (g : drbg) : drbg :=
  if warn_when_weak && (quality g =? ENTROPY_WEAK) && negb (warned g)
  then mkDrbg (ctx g) (bytes_served g) (rekey_tick g) (quality g) (keyed g) true else g.

(** [buf] is the caller's pointer, [None] when null.  The result is the code, the
    bytes stored, the generator and the pool.  The texts of the log messages are
    left out. *)
Definition random_device_read (src : sources) (g : drbg) (buf : option unit) (size : Z) (warn_when_weak : bool) : Z * list Z * drbg * pool :=
  match buf with
  | None => (E_FAULT, [], g, entropy src)
  | Some _ =>
      if size <? 0 then (E_INVAL, [], g, entropy src)
      else if size =? 0 then (0, [], g, entropy src)
      else
        let '(res, g, p) :=
          if drbg_needs_rekey src g then drbg_rekey src g else (E_OK, g, entropy src) in
        if negb (res =? E_OK) && negb (keyed g) then (E_IO, [], g, p)
        else let '(out, g) := drbg_fill (warn_once warn_when_weak g) size in (size, out, g, p)
  end.

Definition dev_random_read src g buf size := random_device_read src g buf size true.
Definition dev_urandom_read src g buf size := random_device_read src g buf size false.
Definition dev_random_write : Z := E_PERM.
Definition dev_null_read : Z := 0.
Definition dev_null_write (size : Z) : Z := size.

(** ** Proofs *)

#[local] Opaque chacha20_next_block chacha20_init generate_random_bytes.

Lemma fill_full g len : 0 <= len -> alen (fst (drbg_fill g len)) = len.
Proof.
  intros Hlen. unfold drbg_fill. set (cond := fun s : list Z * list Z => alen (snd s) <? len).
  assert (Hstep : forall s, alen (snd s) <= len -> cond s = true ->
    alen (snd (fill_block len s)) <= len /\ (Z.to_nat (len - alen (snd (fill_block len s))) < Z.to_nat (len - alen (snd s)))%nat).
  { intros [c buf] Hle Hc. unfold cond in Hc. cbn [snd] in *. unfold fill_block.
    pose proof (alen_next_block c) as Hb. destruct (chacha20_next_block c) as [block c']. cbn [fst snd] in *. bool_to_prop.
    assert (Ht : 0 < alen (take (Z.to_nat (len - alen buf)) block) <= len - alen buf)
      by (unfold alen in *; rewrite length_take; lia).
    rewrite alen_app. lia. }
  pose proof (while_loop_done (fun s => alen (snd s) <= len) (fun s => Z.to_nat (len - alen (snd s)))
    (Z.to_nat len) cond (fill_block len) (ctx g, []) Hlen Hstep) as Hdone.
  pose proof (while_loop_ind (fun s => alen (snd s) <= len) (Z.to_nat len) cond (fill_block len) (ctx g, []) Hlen
    (fun s Hs Hc => proj1 (Hstep s Hs Hc))) as Hinv.
  specialize (Hdone ltac:(cbn [snd]; change (alen []) with 0; lia)).
  destruct (while_loop _ _ _ _) as [c buf]. destruct (chacha20_next_block c) as [block c'].
  unfold cond in Hdone. cbn [fst snd] in *. bool_to_prop. lia.
Qed.

Lemma rekey_spec src g : pool_ok (entropy src) ->
  let '(res, g', p) := drbg_rekey src g in
  pool_ok p /\ (seeded (entropy src) = true -> res = E_OK /\ keyed g' = true /\ bytes_served g' = 0) /\
  (seeded (entropy src) = false -> res = E_IO /\ g' = g).
Proof.
  intros Hp. unfold drbg_rekey. pose proof (generate_spec (rdrand src) (entropy src) 40 Hp ltac:(lia)) as Hg.
  destruct (generate_random_bytes (rdrand src) (entropy src) 40) as [[q seed] p].
  destruct Hg as (Hp' & _ & _ & Hno & Hyes & _). destruct (Z.eqb_spec q ENTROPY_FAIL) as [E|E].
  - split; [done|]. split; [|done]. intros Hs. destruct (Hyes Hs) as [_ [Hq|Hq]]; subst q; discriminate.
  - destruct (if keyed g then _ else _) as [s c]. split; [done|]. split; [done|].
    intros Hs. by destruct (Hno Hs).
Qed.

Lemma warn_once_keeps w g : keyed (warn_once w g) = keyed g /\ bytes_served (warn_once w g) = bytes_served g.
Proof. unfold warn_once. by destruct (_ && _). Qed.

(** The random devices serve.  A read with a valid buffer and a positive size
    gives exactly that many bytes, whatever the pool's quality, unless the pool
    was never seeded and no key was ever drawn, in which case it is refused and
    nothing is handed out; no key outlives 4096 bytes of output by more than the
    one request that reached the limit. *)
Theorem random_devices_serve src g size warn_when_weak :
  pool_ok (entropy src) -> 0 < size -> 0 <= bytes_served g -> bytes_served g + size < 2 ^ 32 -> size + 4096 < 2 ^ 32 ->
  let '(res, out, g', p) := random_device_read src g (Some tt) size warn_when_weak in
  pool_ok p /\
  (if seeded (entropy src) || keyed g then res = size /\ alen out = size /\ keyed g' = true
   else res = E_IO /\ out = [] /\ g' = g) /\
  (seeded (entropy src) = true -> bytes_served g' < DRBG_REKEY_BYTES + size).
Proof.
  intros Hp Hs Hb H32 H32'. unfold random_device_read.
  destruct (Z.ltb_spec size 0); [lia|]. destruct (Z.eqb_spec size 0); [lia|].
  assert (Hfill : forall h, keyed h = true -> 0 <= bytes_served h -> bytes_served h + size < 2 ^ 32 ->
    let '(out, h') := drbg_fill (warn_once warn_when_weak h) size in alen out = size /\ keyed h' = true /\ bytes_served h' = bytes_served h + size).
  { intros h Hk Hb0 Hb1. destruct (warn_once_keeps warn_when_weak h) as [Ek Eb]. rewrite <- Ek in Hk. rewrite <- Eb in *.
    generalize dependent (warn_once warn_when_weak h). intros h' Ek Eb Hk Hb0 Hb1.
    pose proof (fill_full h' size ltac:(lia)) as Hf. unfold drbg_fill in *.
    destruct (while_loop _ _ _ _) as [c buf]. destruct (chacha20_next_block c) as [block c']. cbn [fst keyed bytes_served] in *.
    by rewrite u32_small by lia. }
  destruct (drbg_needs_rekey src g) eqn:Hn.
  - pose proof (rekey_spec src g Hp) as Hr. destruct (drbg_rekey src g) as [[res g1] p]. destruct Hr as (Hp' & Hyes & Hno).
    destruct (seeded (entropy src)) eqn:Hsd; cbn [orb].
    + destruct (Hyes eq_refl) as (-> & Hk & Hb1). change (E_OK =? E_OK) with true. cbn [negb andb].
      specialize (Hfill g1 Hk ltac:(lia) ltac:(lia)). destruct (drbg_fill (warn_once warn_when_weak g1) size) as [out g'].
      destruct Hfill as (F1 & F2 & F3). split; [done|]. split; [done|]. intros _. unfold DRBG_REKEY_BYTES. lia.
    + destruct (Hno eq_refl) as [-> ->]. change (E_IO =? E_OK) with false. cbn [negb andb].
      destruct (keyed g) eqn:Hk; cbn [negb]; [|done].
      specialize (Hfill g Hk Hb H32). destruct (drbg_fill (warn_once warn_when_weak g) size) as [out g']. by destruct Hfill as (F1 & F2 & F3).
  - unfold drbg_needs_rekey in Hn. apply orb_false_elim in Hn as [Hn _]. apply orb_false_elim in Hn as [Hn _].
    apply orb_false_elim in Hn as [Hk Hby]. destruct (keyed g) eqn:Hkg; [|done]. clear Hk.
    change (E_OK =? E_OK) with true. cbn [negb andb]. rewrite orb_true_r.
    specialize (Hfill g Hkg Hb H32). destruct (drbg_fill (warn_once warn_when_weak g) size) as [out g']. destruct Hfill as (F1 & F2 & F3).
    split; [done|]. split; [done|]. intros _. unfold DRBG_REKEY_BYTES in *. lia.
Qed.

(** The first read after boot. *)
Lemma random_devices_serve_witness :
  let src := mkSources 0 0 None (set_seeded static_pool 0) in
  let g := mkDrbg (replicate 16 0) 0 0 0 false false in
  alen (snd (fst (fst (dev_random_read src g (Some tt) 100)))) = 100.
Proof.
  intros src g. assert (Hp : pool_ok (set_seeded static_pool 0)) by (destruct static_pool_ok; by constructor).
  pose proof (random_devices_serve src g 100 true Hp eq_refl ltac:(cbn; lia) ltac:(cbn; lia) ltac:(lia)) as H. unfold dev_random_read.
  destruct (random_device_read src g (Some tt) 100 true) as [[[res out] g'] p]. apply H.
Defined.

End Chacha20.
