(* ===== verification/Security.v ===== *)
(** * Security levels and privileges (kernel/security/security.c,
    kernel/syscall/sys_sec.c)

    The security level and the keys in memory, the calls that raise the level,
    and the calls by which a task proves who it is.  Checking a password reads
    the file system, so those calls are written against any checker that threads
    a state of its own; the password file provides one. *)

From S2P Require Import Prelude CStr Sha256 Entropy Vfs.
Import Sha256.

Module Security.

(** ** The level and the keys *)

Definition SEC_LEVEL_NORMAL : Z := 0.
Definition SEC_LEVEL_CRYPTO_ENFORCED : Z := Vfs.SEC_LEVEL_CRYPTO_ENFORCED.
Definition SEC_LEVEL_LOCKDOWN : Z := Vfs.SEC_LEVEL_LOCKDOWN.
Definition SEC_LEVEL_IMMUTABLE : Z := Vfs.SEC_LEVEL_IMMUTABLE.

(** The enumeration is an unsigned word, and a caller may hand in any. *)
Record security := mkSec {
  current_sec_level : Z;
  kernel_master_key : list Z;
  master_key_available : bool;
  elf_asset_key : list Z;
  asset_key_available : bool
}.

Definition static_security : security :=
  mkSec SEC_LEVEL_CRYPTO_ENFORCED (replicate 32 0) false (replicate 32 0) false.

Definition kernel_master_key_available (s : security) : bool := master_key_available s.

Definition crypto_fs_key_is_usable (s : security) : bool :=
  if current_sec_level s <? SEC_LEVEL_CRYPTO_ENFORCED then true else master_key_available s.

Definition zeroize (key : list Z) : list Z := for_range 0 32 (fun k i => k.[i <- 0]) key.

Definition set_security_level (s : security) (level : Z) : security :=
  if level <? current_sec_level s then s
  else if level =? SEC_LEVEL_LOCKDOWN then
    mkSec level (zeroize (kernel_master_key s)) false (elf_asset_key s) (asset_key_available s)
  else mkSec level (kernel_master_key s) (master_key_available s) (elf_asset_key s) (asset_key_available s).

(** [None] is the null pointer. *)
Definition install_master_key (s : security) (key : option (list Z)) : security :=
  match key with
  | None => s
  | Some key =>
      mkSec (current_sec_level s) (for_range 0 32 (fun k i => k.[i <- key.[i]]) (kernel_master_key s)) true
        (elf_asset_key s) (asset_key_available s)
  end.

(** ** Hexadecimal *)

Definition bytes_to_hex (bytes : list Z) (len : Z) (hex_out : list Z) : list Z :=
  let h := for_range 0 len (fun h i =>
    h.[i * 2 <- hex_chars.[Z.land (Z.shiftr bytes.[i] 4) 0x0F]].[i * 2 + 1 <- hex_chars.[Z.land bytes.[i] 0x0F]]) hex_out in
  h.[len * 2 <- 0].

Definition nibble (c : Z) : option Z :=
  if (48 <=? c) && (c <=? 57) then Some (c - 48)
  else if (97 <=? c) && (c <=? 102) then Some (c - 97 + 10)
  else if (65 <=? c) && (c <=? 70) then Some (c - 65 + 10)
  else None.

(** One turn of the loop; the flag is cleared by [return -1]. *)
Definition hex_step (hex : list Z) (s : bool * list Z) (i : Z) : bool * list Z :=
  let '(ok, out) := s in
  if negb ok then s
  else
    let ch := hex.[i * 2] in
    let cl := hex.[i * 2 + 1] in
    if (ch =? 0) || (cl =? 0) then (false, out)
    else match nibble ch, nibble cl with
         | Some hi, Some lo => (true, out.[i <- Z.lor (u8 (Z.shiftl hi 4)) lo])
         | _, _ => (false, out)
         end.

Definition hex_to_bytes (hex out : list Z) (out_len : Z) : Z * list Z :=
  let '(ok, out) := for_range 0 out_len (hex_step hex) (true, out) in
  ((if ok then 0 else -1), out).

Definition elf_asset_key_available (s : security) : bool := asset_key_available s.

(** [ELF_ENCRYPTION_KEY] is [None] when the build does not define it. *)
Definition init_image_asset_key (ELF_ENCRYPTION_KEY : option (list Z)) (s : security) : security :=
  let fail key := mkSec (current_sec_level s) (kernel_master_key s) (master_key_available s) (zeroize key) false in
  match ELF_ENCRYPTION_KEY with
  | Some hex_key =>
      let '(res, key) := hex_to_bytes hex_key (elf_asset_key s) 32 in
      if negb (res =? 0) then fail key
      else mkSec (current_sec_level s) (kernel_master_key s) (master_key_available s) key true
  | None => fail (elf_asset_key s)
  end.

(** ** The calls *)

Record task := mkTask { uid : Z; gid : Z; auth_fail_ticks : Z }.

Definition sys_set_sec_level (t : task) (s : security) (ebx : Z) : Z * security :=
  if negb (uid t =? 0) then (E_PERM, s) else (0, set_security_level s ebx).

Definition sys_lockdown (t : task) (s : security) : Z * security :=
  if negb (uid t =? 0) then (E_PERM, s)
  else if SEC_LEVEL_LOCKDOWN <=? current_sec_level s then (0, s)
  else (0, set_security_level s SEC_LEVEL_LOCKDOWN).

Definition sys_set_layout (t : task) (current_layout ebx : Z) : Z * Z :=
  if negb (uid t =? 0) then (E_PERM, current_layout) else (0, ebx).

(** ["root"] *)
Definition root_name : list Z := [114; 111; 111; 116].

(** The loop that cuts line ends off a password held in a buffer. *)
Definition trim (strip : Z -> bool) (pass : list Z) : list Z :=
  fst (while_loop (length pass) (fun '(p, n) => (0 <? n) && strip p.[n - 1])
         (fun '(p, n) => (p.[n - 1 <- 0], n - 1)) (pass, ft_strlen pass)).

Definition newline (c : Z) : bool := (c =? 10) || (c =? 13).
Definition newline_or_space (c : Z) : bool := newline c || (c =? 32).

Definition throttled (t : task) (current_ticks : Z) : bool :=
  negb (auth_fail_ticks t =? 0) && (u32 (current_ticks - auth_fail_ticks t) <? 300).

Definition set_fail (t : task) (ticks : Z) : task := mkTask (uid t) (gid t) ticks.

Section auth.
(** [verify_user_password] over the state it reads. *)
Context {W : Type} (verify_user_password : W -> list Z -> list Z -> Z * W).

(** The strings are [None] when the pointer is refused.  [ticks] is the counter
    at the test and [after] the counter when a failure is recorded. *)
Definition sys_auth (t : task) (w : W) (user pass : option (list Z)) (ticks after : Z) : Z * task * W :=
  match user, pass with
  | Some user, Some pass =>
      if throttled t ticks then (E_FAULT, t, w)
      else
        let '(auth_res, w) := verify_user_password w user (trim newline_or_space pass) in
        if 0 <=? auth_res then (auth_res, set_fail t 0, w) else (E_FAULT, set_fail t after, w)
  | _, _ => (E_FAULT, t, w)
  end.

Definition sys_setuid_call (t : task) (w : W) (requested_uid : Z) (pass : option (list Z)) (ticks after : Z) : Z * task * W :=
  if uid t =? 0 then (E_OK, mkTask requested_uid requested_uid (auth_fail_ticks t), w)
  else if requested_uid =? 0 then
    match pass with
    | None => (E_FAULT, t, w)
    | Some pass =>
        if throttled t ticks then (E_ACCES, t, w)
        else
          let '(auth_uid, w) := verify_user_password w root_name (trim newline pass) in
          if auth_uid =? 0 then (E_OK, mkTask 0 0 0, w) else (E_ACCES, set_fail t after, w)
    end
  else (E_PERM, t, w).

(** A call of a task, and a run of them. *)
Inductive call :=
| Auth (user pass : option (list Z)) (ticks after : Z)
| Setuid (requested_uid : Z) (pass : option (list Z)) (ticks after : Z).

Definition do_call (s : task * W) (c : call) : task * W :=
  let '(t, w) := s in
  match c with
  | Auth user pass ticks after => let '(_, t, w) := sys_auth t w user pass ticks after in (t, w)
  | Setuid u pass ticks after => let '(_, t, w) := sys_setuid_call t w u pass ticks after in (t, w)
  end.

Definition run (s : task * W) (cs : list call) : task * W := foldl do_call s cs.

(** What a call must be to change the uid of a task that is not root. *)
Definition proves_root (s : task * W) (c : call) : Prop :=
  exists pass ticks after, c = Setuid 0 (Some pass) ticks after /\ throttled (fst s) ticks = false /\
    fst (verify_user_password (snd s) root_name (trim newline pass)) = 0.

Lemma do_call_uid s c : uid (fst s) <> 0 ->
  uid (fst (do_call s c)) = uid (fst s) \/ proves_root s c.
Proof.
  destruct s as [t w]. cbn [fst]. intros Hu. destruct c as [user pass ticks after|u pass ticks after]; cbn [do_call].
  - left. unfold sys_auth. destruct user; [|done]. destruct pass; [|done]. destruct (throttled t ticks); [done|].
    destruct (verify_user_password _ _ _) as [r w']. by destruct (0 <=? r).
  - unfold sys_setuid_call. destruct (Z.eqb_spec (uid t) 0); [done|]. destruct (Z.eqb_spec u 0) as [->|]; [|by left].
    destruct pass as [pass|]; [|by left]. destruct (throttled t ticks) eqn:Ht; [by left|].
    destruct (verify_user_password w root_name (trim newline pass)) as [r w'] eqn:Hv.
    destruct (Z.eqb_spec r 0) as [->|]; [|by left]. right. exists pass, ticks, after. cbn [fst snd]. by rewrite Hv.
Qed.

(** C28: Privilege needs the password.  In any run of authentication and setuid
    calls of a task that is not root, its uid changes only if some call of the
    run, made while the uid was still the old one and outside the waiting time,
    offered a password the password file accepts for root. *)
Theorem root_needs_password s cs : uid (fst s) <> 0 -> uid (fst (run s cs)) <> uid (fst s) ->
  exists before c after, cs = before ++ c :: after /\
    uid (fst (run s before)) = uid (fst s) /\ proves_root (run s before) c.
Proof.
  induction cs as [|c cs IH] using rev_ind; intros Hu Hne; [done|]. unfold run in *. rewrite foldl_app in Hne.
  cbn [foldl] in Hne. destruct (Z.eq_dec (uid (fst (foldl do_call s cs))) (uid (fst s))) as [E|E].
  - destruct (do_call_uid (foldl do_call s cs) c) as [H|H]; [congruence..|]. by exists cs, c, [].
  - destruct (IH Hu E) as (b & c' & a & -> & H1 & H2). exists b, c', (a ++ [c]). by rewrite <- app_assoc.
Qed.

(** C29: Guessing is slow and waiting ends.  After a wrong root password at tick
    [T], every attempt of the next 300 ticks, also across the wrap-around of the
    counter, is turned away without looking at the password and changes nothing;
    the first attempt after them is judged on its password, so the right one
    gives root. *)
Theorem lockout_holds_and_ends t w pass ticks T wrong : uid t <> 0 -> throttled t ticks = false -> is_u32 T -> T <> 0 ->
  fst (verify_user_password w root_name (trim newline wrong)) <> 0 ->
  let '(res, t1, w1) := sys_setuid_call t w 0 (Some wrong) ticks T in
  res = E_ACCES /\ uid t1 = uid t /\
  (forall d, 0 <= d < 300 -> sys_setuid_call t1 w1 0 (Some pass) (u32 (T + d)) (u32 (T + d)) = (E_ACCES, t1, w1)) /\
  (forall d, 300 <= d < 2 ^ 32 -> fst (verify_user_password w1 root_name (trim newline pass)) = 0 ->
     let '(res, t2, _) := sys_setuid_call t1 w1 0 (Some pass) (u32 (T + d)) (u32 (T + d)) in
     res = E_OK /\ uid t2 = 0).
Proof.
  intros Hu Ht HT H0 Hv. unfold sys_setuid_call at 1. rewrite Ht. destruct (Z.eqb_spec (uid t) 0); [done|].
  change (0 =? 0) with true. cbv iota.
  destruct (verify_user_password w root_name (trim newline wrong)) as [r w1]. cbn [fst] in Hv.
  destruct (Z.eqb_spec r 0); [done|].
  assert (Hth : forall d, 0 <= d < 2 ^ 32 -> throttled (set_fail t T) (u32 (T + d)) = (d <? 300)).
  { intros d Hd. unfold throttled, set_fail, u32, is_u32 in *. cbn [auth_fail_ticks].
    destruct (Z.eqb_spec T 0); [done|]. cbn [negb andb]. f_equal. rewrite Zminus_mod_idemp_l.
    replace (T + d - T) with d by lia. apply Z.mod_small. lia. }
  split; [done|]. split; [done|]. split; intros d Hd; [|intros Hok]; unfold sys_setuid_call; cbn [set_fail uid];
    (destruct (Z.eqb_spec (uid t) 0); [done|]); change (0 =? 0) with true; cbv iota.
  - rewrite Hth by lia. by destruct (Z.ltb_spec d 300); [|lia].
  - rewrite Hth by lia. destruct (Z.ltb_spec d 300); [lia|].
    destruct (verify_user_password w1 root_name (trim newline pass)) as [r' w']. cbn [fst] in Hok. by subst r'.
Qed.

End auth.

(** A checker that accepts one password, from tick 1000 to tick 1300. *)
Definition one_password (w : unit) (user pass : list Z) : Z * unit :=
  (if bool_decide (cstr pass = [112; 119]) then 0 else E_ACCES, w).

Lemma root_needs_password_witness :
  exists before c after, [Setuid 0 (Some [112; 119; 10; 0]) 5 5] = before ++ c :: after /\
    uid (fst (run one_password (mkTask 1000 1000 0, tt) before)) = 1000 /\
    proves_root one_password (run one_password (mkTask 1000 1000 0, tt) before) c.
Proof.
  apply (root_needs_password one_password (mkTask 1000 1000 0, tt) [Setuid 0 (Some [112; 119; 10; 0]) 5 5]); vm_compute; lia.
Defined.

Lemma lockout_holds_and_ends_witness :
  let '(res, t1, w1) := sys_setuid_call one_password (mkTask 1000 1000 0) tt 0 (Some [120; 0]) 1000 1000 in
  sys_setuid_call one_password t1 w1 0 (Some [112; 119; 0]) 1299 1299 = (E_ACCES, t1, w1).
Proof.
  pose proof (lockout_holds_and_ends one_password (mkTask 1000 1000 0) tt [112; 119; 0] 1000 1000 [120; 0]
    ltac:(cbn; lia) eq_refl ltac:(unfold is_u32; lia) ltac:(lia) ltac:(vm_compute; lia)) as H.
  destruct (sys_setuid_call one_password (mkTask 1000 1000 0) tt 0 (Some [120; 0]) 1000 1000) as [[res t1] w1].
  destruct H as (_ & _ & H & _). exact (H 299 ltac:(lia)).
Defined.

(** ** The ratchet *)

(** The calls that reach the security state once the system runs; each comes
    with the uid of its caller. *)
Inductive sec_op := SetLevel (u level : Z) | Lockdown (u : Z).

Definition sec_step (s : security) (o : sec_op) : security :=
  match o with
  | SetLevel u level => snd (sys_set_sec_level (mkTask u u 0) s level)
  | Lockdown u => snd (sys_lockdown (mkTask u u 0) s)
  end.

Definition by_root (o : sec_op) : bool := match o with SetLevel u _ | Lockdown u => u =? 0 end.

Definition key_gone (s : security) : Prop :=
  master_key_available s = false /\ kernel_master_key s = replicate 32 0.

Lemma zeroize_zero key : alen key = 32 -> zeroize key = replicate 32 0.
Proof.
  intros Hl. unfold zeroize.
  assert (H : alen (for_range 0 32 (fun k i => k.[i <- 0]) key) = 32 /\
    forall j, 0 <= j < 32 -> aget (for_range 0 32 (fun k i => k.[i <- 0]) key) j = 0).
  { apply (for_range_ind (fun i k => alen k = 32 /\ forall j, 0 <= j < i -> aget k j = 0)); [lia|split; [done|lia]|].
    intros i k Hi [Hk Hz]. rewrite alen_aset. split; [done|]. intros j Hj. rewrite aget_aset by lia.
    destruct (Z.eqb_spec i j); [done|]. apply Hz. lia. }
  destruct H as [H1 H2]. apply aget_ext; [by rewrite H1|]. intros j Hj. rewrite H1 in Hj. rewrite H2 by lia.
  symmetry. change 32%nat with (Z.to_nat 32). apply aget_replicate. lia.
Qed.

Lemma sec_step_spec s o : alen (kernel_master_key s) = 32 ->
  alen (kernel_master_key (sec_step s o)) = 32 /\ current_sec_level s <= current_sec_level (sec_step s o) /\
  (key_gone s -> key_gone (sec_step s o)) /\ (by_root o = false -> sec_step s o = s) /\
  (current_sec_level (sec_step s o) = SEC_LEVEL_LOCKDOWN -> current_sec_level s = SEC_LEVEL_LOCKDOWN \/ key_gone (sec_step s o)).
Proof.
  intros Hl. assert (Hset : forall level,
    alen (kernel_master_key (set_security_level s level)) = 32 /\ current_sec_level s <= current_sec_level (set_security_level s level) /\
    (key_gone s -> key_gone (set_security_level s level)) /\
    (current_sec_level (set_security_level s level) = SEC_LEVEL_LOCKDOWN ->
       current_sec_level s = SEC_LEVEL_LOCKDOWN \/ key_gone (set_security_level s level))).
  { intros level. unfold set_security_level. destruct (Z.ltb_spec level (current_sec_level s)); [by split_and!; [..|left]|].
    destruct (Z.eqb_spec level SEC_LEVEL_LOCKDOWN) as [->|Hn]; unfold key_gone; cbn -[SEC_LEVEL_LOCKDOWN].
    - rewrite zeroize_zero by done. split_and!; [done|lia|done|by right].
    - split_and!; [done|lia|done|by intros]. }
  destruct o as [u level|u]; unfold sec_step, sys_set_sec_level, sys_lockdown; cbn [uid by_root];
    destruct (Z.eqb_spec u 0); cbn [negb snd]; try (split_and!; [done|lia|done|done|by left]).
  - destruct (Hset level) as (H1 & H2 & H3 & H4). by split_and!.
  - destruct (Z.leb_spec SEC_LEVEL_LOCKDOWN (current_sec_level s)); cbn [snd]; [split_and!; [done|lia|done|done|by left]|].
    destruct (Hset SEC_LEVEL_LOCKDOWN) as (H1 & H2 & H3 & H4). by split_and!.
Qed.

(** C30: The level is a ratchet.  Whatever calls are made, by whomever: the level
    never falls, calls of other users change nothing, a destroyed key stays
    destroyed, and a system that enters LOCKDOWN has zeroed its key and refuses
    encrypted access.  A system that jumps from below straight to IMMUTABLE keeps
    its key, and a later lockdown call leaves it there. *)
Theorem level_is_a_ratchet s ops : alen (kernel_master_key s) = 32 ->
  let s' := foldl sec_step s ops in
  current_sec_level s <= current_sec_level s' /\
  (forallb (fun o => negb (by_root o)) ops = true -> s' = s) /\
  (key_gone s -> key_gone s') /\
  (current_sec_level s <> SEC_LEVEL_LOCKDOWN -> current_sec_level s' = SEC_LEVEL_LOCKDOWN ->
     key_gone s' /\ crypto_fs_key_is_usable s' = false) /\
  (current_sec_level s < SEC_LEVEL_IMMUTABLE ->
     kernel_master_key (foldl sec_step s [SetLevel 0 SEC_LEVEL_IMMUTABLE; Lockdown 0]) = kernel_master_key s).
Proof.
  intros Hl s'. assert (H : alen (kernel_master_key s') = 32 /\ current_sec_level s <= current_sec_level s' /\
    (forallb (fun o => negb (by_root o)) ops = true -> s' = s) /\ (key_gone s -> key_gone s') /\
    (current_sec_level s <> SEC_LEVEL_LOCKDOWN -> current_sec_level s' = SEC_LEVEL_LOCKDOWN -> key_gone s')).
  { subst s'. induction ops as [|o ops IH] using rev_ind; [split_and!; [done|cbn; lia|done|done|done]|].
    rewrite foldl_app. cbn [foldl]. destruct IH as (I1 & I2 & I3 & I4 & I5).
    destruct (sec_step_spec (foldl sec_step s ops) o I1) as (S1 & S2 & S3 & S4 & S5).
    split_and!; [done|lia| |tauto|].
    - rewrite forallb_app. cbn [forallb]. rewrite andb_true_r, andb_true_iff, negb_true_iff. intros [Ha Hb].
      rewrite S4 by done. by apply I3.
    - intros Hn Hd. destruct (S5 Hd) as [E|E]; [|done]. apply S3, I5; done. }
  destruct H as (_ & H2 & H3 & H4 & H5). split_and!; [done..| |].
  - intros Hn Hd. destruct (H5 Hn Hd) as [Ha Hk]. split; [done|]. unfold crypto_fs_key_is_usable. by rewrite Hd, Ha.
  - intros Hlt. cbn -[set_security_level SEC_LEVEL_IMMUTABLE SEC_LEVEL_LOCKDOWN]. unfold sys_lockdown. cbn [uid].
    change (0 =? 0) with true. cbn [negb]. unfold set_security_level at 1 2.
    destruct (Z.ltb_spec SEC_LEVEL_IMMUTABLE (current_sec_level s)); [lia|]. done.
Qed.

(** From the state after a passphrase was accepted. *)
Lemma level_is_a_ratchet_witness :
  let s := install_master_key static_security (Some (replicate 32 9)) in
  key_gone (foldl sec_step s [SetLevel 1000 2; Lockdown 1000; Lockdown 0]).
Proof.
  intros s.
  destruct (level_is_a_ratchet s [SetLevel 1000 2; Lockdown 1000; Lockdown 0] eq_refl) as (_ & _ & _ & H & _).
  apply H; [intros Hc; vm_compute in Hc; lia|reflexivity].
Defined.

End Security.
