(* ===== verification/Passwd.v ===== *)
(** * The password file (kernel/security/passwd.c)

    Lines of /etc/shadow as [create_shadow_entry] writes them and as
    [verify_user_password] reads them back.  The theorem says that a line written
    for an account admits exactly the passwords that derive the stored key. *)

From S2P Require Import Prelude CStr FsFormat BlockStore Sha256 Hmac Entropy CryptoFs Security Vfs.
Import Sha256 Hmac Entropy Security.

Module Passwd.

(** ** The program *)

(** An [int] has at most ten digits. *)
Definition uid_to_str (uid : Z) (buf : list Z) : list Z :=
  if uid =? 0 then buf.[0 <- 48].[1 <- 0]
  else
    let '(_, len) := while_loop 10 (fun '(temp, _) => 0 <? temp) (fun '(temp, len) => (temp / 10, len + 1)) (uid, 0) in
    let buf := buf.[len <- 0] in
    fst (for_range 0 len (fun '(buf, temp) j => (buf.[len - 1 - j <- temp mod 10 + 48], temp / 10)) (buf, uid)).

(** [simple_strcpy(dest + off, src)] *)
Definition simple_strcpy (dest : list Z) (off : Z) (src : list Z) : list Z :=
  ft_memcpy dest off (cstr src ++ [0]) (ft_strlen src + 1).

(** The warning logged once per boot about a weak pool is left out. *)
Definition derive_shadow_salt (rdrand : option (list (option Z))) (p : pool) (username : list Z) : option (list Z) * pool :=
  let '(quality, pool_bytes, p) := generate_random_bytes rdrand p 32 in
  if quality =? ENTROPY_FAIL then (None, p)
  else (Some (take 16 (Entropy.hash [pool_bytes; cstr username])), p).

(** The digits of the iteration count: pushed in reverse, then turned round. *)
Definition iteration_digits (n : Z) : list Z :=
  if n =? 0 then [48]
  else
    let '(tmp, _) := while_loop 10 (fun '(_, v) => 0 <? v) (fun '(tmp, v) => (tmp ++ [48 + v mod 10], v / 10)) ([], n) in
    for_range 0 (alen tmp) (fun b j => b ++ [tmp.[alen tmp - 1 - j]]) [].

(** [":$v1$"] *)
Definition v1_prefix : list Z := [58; 36; 118; 49; 36].

(** The pieces of a line, one after the other. *)
Definition write_line (out_buf username iters salt_hex dk_hex uid_str : list Z) : list Z :=
  let pos := 0 in
  let out_buf := simple_strcpy out_buf pos username in
  let pos := pos + ft_strlen username in
  let out_buf := simple_strcpy out_buf pos v1_prefix in
  let pos := pos + ft_strlen v1_prefix in
  let out_buf := simple_strcpy out_buf pos iters in
  let pos := pos + ft_strlen iters in
  let out_buf := simple_strcpy out_buf pos salt_hex in
  let pos := pos + 32 in
  let out_buf := out_buf.[pos <- 36] in
  let pos := pos + 1 in
  let out_buf := simple_strcpy out_buf pos dk_hex in
  let pos := pos + 64 in
  let out_buf := out_buf.[pos <- 58] in
  let pos := pos + 1 in
  let out_buf := simple_strcpy out_buf pos uid_str in
  let pos := pos + ft_strlen uid_str in
  out_buf.[pos <- 0].

Section passwd.
Context (PBKDF2_DEFAULT_ITERATIONS : Z).

(** The buffers on the stack are zero where the model needs a value for bytes that
    are written before they are read. *)
Definition create_shadow_entry (rdrand : option (list (option Z))) (p : pool) (username password : list Z) (uid : Z)
    (out_buf : list Z) (buf_size : Z) : Z * list Z * pool :=
  match derive_shadow_salt rdrand p username with
  | (None, p) => (-1, out_buf, p)
  | (Some salt, p) =>
      let dk := pbkdf2_hmac_sha256 (cstr password) salt PBKDF2_DEFAULT_ITERATIONS 32 in
      let salt_hex := bytes_to_hex salt 16 (replicate 33 0) in
      let dk_hex := bytes_to_hex dk 32 (replicate 65 0) in
      let uid_str := uid_to_str uid (replicate 16 0) in
      let out_buf := out_buf.[0 <- 0] in
      let iters := iteration_digits PBKDF2_DEFAULT_ITERATIONS ++ [36; 0] in
      let total_len := ft_strlen username + ft_strlen v1_prefix + ft_strlen iters + 32 + 1 + 64 + 1 + ft_strlen uid_str in
      if buf_size <=? total_len then (-1, out_buf, p)
      else
        (0, write_line out_buf username iters salt_hex dk_hex uid_str, p)
  end.

(** The fields of a line while its characters are handed out. *)
Record fields := mkFields { colon : Z; k : Z; db_user : list Z; db_hash : list Z; db_uid : list Z }.

Definition no_fields : fields := mkFields 0 0 (replicate 32 0) (replicate 150 0) (replicate 16 0).

Definition field_step (f : fields) (c : Z) : fields :=
  if c =? 58 then mkFields (colon f + 1) 0 (db_user f) (db_hash f) (db_uid f)
  else if (colon f =? 0) && (k f <? 31) then mkFields (colon f) (k f + 1) (db_user f).[k f <- c] (db_hash f) (db_uid f)
  else if (colon f =? 1) && (k f <? 149) then mkFields (colon f) (k f + 1) (db_user f) (db_hash f).[k f <- c] (db_uid f)
  else if (colon f =? 2) && (k f <? 15) then mkFields (colon f) (k f + 1) (db_user f) (db_hash f) (db_uid f).[k f <- c]
  else f.

Definition line_fields (buf : list Z) (line_start i : Z) : fields :=
  for_range line_start i (fun f j => field_step f buf.[j]) no_fields.

(** [while (!stop(l[e])) e++;] *)
Definition scan (stop : Z -> bool) (l : list Z) (e : Z) : Z :=
  while_loop (length l) (fun e => negb (stop l.[e])) (fun e => e + 1) e.

Definition dollar_or_end (c : Z) : bool := (c =? 36) || (c =? 0).

(** The count between two positions; [None] at a character that is no digit. *)
Definition parse_iterations (h : list Z) (a b : Z) : option Z :=
  for_range a b (fun acc j =>
    match acc with
    | None => None
    | Some n => if (h.[j] <? 48) || (57 <? h.[j]) then None else Some (u32 (n * 10 + (h.[j] - 48)))
    end) (Some 0).

(** A [char] is signed. *)
Definition schar (c : Z) : Z := if c <? 128 then c else c - 256.

Definition parse_uid (d : list Z) : Z :=
  foldl (fun uid c => s32 (uid * 10 + (schar c - 48))) 0 (cstr d).

(** What the code answers once the line of the user is found. *)
Definition check_line (f : fields) (password : list Z) : Z :=
  let h := db_hash f in
  if negb (h.[0] =? 36) || negb (h.[1] =? 118) || negb (h.[2] =? 49) || negb (h.[3] =? 36) then E_INVAL
  else
    let iter_start := 4 in
    let iter_end := scan dollar_or_end h iter_start in
    if negb (h.[iter_end] =? 36) then E_INVAL
    else
      let iter_digits := iter_end - iter_start in
      if (iter_digits <=? 0) || (8 <? iter_digits) then E_INVAL
      else match parse_iterations h iter_start iter_end with
      | None => E_INVAL
      | Some iterations =>
          if negb (pbkdf2_iterations_are_acceptable PBKDF2_DEFAULT_ITERATIONS iterations) then E_INVAL
          else
            let salt_start := iter_end + 1 in
            let salt_end := scan dollar_or_end h salt_start in
            if negb (h.[salt_end] =? 36) || negb (salt_end - salt_start =? 32) then E_INVAL
            else
              let dk_start := salt_end + 1 in
              let dk_end := scan (fun c => c =? 0) h dk_start in
              if negb (dk_end - dk_start =? 64) then E_INVAL
              else
                let salt_hex := ft_memcpy (replicate 33 0) 0 (drop (Z.to_nat salt_start) h) 32 in
                let dk_hex := ft_memcpy (replicate 65 0) 0 (drop (Z.to_nat dk_start) h) 64 in
                let '(r1, salt_bytes) := hex_to_bytes salt_hex (replicate 16 0) 16 in
                let '(r2, stored_dk) := hex_to_bytes dk_hex (replicate 32 0) 32 in
                if negb (r1 =? 0) then E_INVAL
                else if negb (r2 =? 0) then E_INVAL
                else
                  let computed_dk := pbkdf2_hmac_sha256 (cstr password) salt_bytes iterations 32 in
                  if crypto_ct_cmp_bytes stored_dk computed_dk 32 =? 0 then parse_uid (db_uid f) else E_ACCES
      end.

(** One turn of the loop over the file: the start of the current line, or the
    answer. *)
Definition scan_step (buf username password : list Z) (s : Z + Z) (i : Z) : Z + Z :=
  match s with
  | inr _ => s
  | inl line_start =>
      if (buf.[i] =? 10) || (buf.[i] =? 0) then
        let f := line_fields buf line_start i in
        if ft_strcmp username (db_user f) =? 0 then inr (check_line f password)
        else if buf.[i] =? 0 then inr E_NOENT else inl (i + 1)
      else s
  end.

(** The search in the [bytes] characters of [buf] before its terminator. *)
Definition verify_in (buf : list Z) (bytes : Z) (username password : list Z) : Z :=
  match for_range 0 (bytes + 1) (scan_step buf username password) (inl 0) with
  | inl _ => E_NOENT
  | inr res => res
  end.

(** ["etc"] and ["shadow"] *)
Definition etc_name : list Z := [101; 116; 99].
Definition shadow_name : list Z := [115; 104; 97; 100; 111; 119].

Section file.
Context {S : Type} {bs : BlockStore.BlockStore S} {fc : Vfs.FileCrypto}.

(** [p_file] is the file structure on the stack and [stack] the sector buffers. *)
Definition verify_user_password (e : Vfs.env) (stack : list Z) (p_file : Vfs.vfs_file) (v : Vfs.vfs S)
    (username password : list Z) : Z * Vfs.vfs S :=
  let etc_idx := Vfs.fs_get_entry_idx v etc_name 0 in
  if etc_idx =? -1 then (E_NOENT, v)
  else
    let etc_id := FsFormat.entry_id (Vfs.entry v etc_idx) in
    let '(res, f) := Vfs.fs_open v shadow_name etc_id p_file in
    if negb (res =? 0) then (E_NOENT, v)
    else
      let '(bytes, data, _, v) := Vfs.fs_read e stack v f 1023 in
      if bytes <? 0 then (E_IO, v) else (verify_in (data ++ [0]) bytes username password, v).

End file.

End passwd.

(** ** Decimal digits *)

(** The last [n] digits of a number. *)
Fixpoint digits (n : nat) (x : Z) : list Z :=
  match n with O => [] | Datatypes.S n' => digits n' (x / 10) ++ [48 + x mod 10] end.

Lemma length_digits n : forall x, length (digits n x) = n.
Proof. induction n as [|n IH]; intros x; [done|]. cbn [digits]. rewrite length_app, IH. cbn. lia. Qed.

Lemma digits_range n : forall x, Forall (fun c => 48 <= c <= 57) (digits n x).
Proof.
  induction n as [|n IH]; intros x; cbn [digits]; [constructor|]. apply Forall_app. split; [done|].
  constructor; [|constructor]. pose proof (Z.mod_pos_bound x 10). lia.
Qed.

Lemma digits_front n : forall x, 0 <= x -> digits (Datatypes.S n) x = [48 + (x / 10 ^ Z.of_nat n) mod 10] ++ digits n x.
Proof.
  induction n as [|n IH]; intros x Hx; [cbn; by rewrite Z.div_1_r|].
  change (digits (Datatypes.S (Datatypes.S n)) x) with (digits (Datatypes.S n) (x / 10) ++ [48 + x mod 10]).
  rewrite IH by (apply Z.div_pos; lia). rewrite <- app_assoc. f_equal.
  rewrite Z.div_div by lia. do 4 f_equal. rewrite Nat2Z.inj_succ, Z.pow_succ_r by lia. done.
Qed.

(** [x] has [n] digits, zero none. *)
Definition width (n : nat) (x : Z) : Prop :=
  0 <= x < 10 ^ Z.of_nat n /\ (n <> 0%nat -> 10 ^ (Z.of_nat n - 1) <= x).

Lemma pow10_succ (n : nat) : 10 ^ Z.of_nat (Datatypes.S n) = 10 * 10 ^ Z.of_nat n.
Proof. rewrite Nat2Z.inj_succ, Z.pow_succ_r by lia. done. Qed.

Lemma width_ex (m : nat) : forall x, 0 <= x < 10 ^ Z.of_nat m -> exists n, (n <= m)%nat /\ width n x.
Proof.
  induction m as [|m IH]; intros x Hx.
  - exists 0%nat. split; [lia|]. split; [done|lia].
  - destruct (Z.lt_ge_cases x (10 ^ Z.of_nat m)) as [Hl|Hg].
    + destruct (IH x ltac:(lia)) as (n & Hn & Hw). exists n. split; [lia|done].
    + exists (Datatypes.S m). split; [lia|]. split; [done|]. intros _.
      replace (Z.of_nat (Datatypes.S m) - 1) with (Z.of_nat m) by lia. done.
Qed.

Lemma width_step n x : width (Datatypes.S n) x -> 0 < x /\ width n (x / 10).
Proof.
  intros [Hx Hl]. specialize (Hl ltac:(lia)). rewrite pow10_succ in Hx.
  replace (Z.of_nat (Datatypes.S n) - 1) with (Z.of_nat n) in Hl by lia.
  pose proof (Z.pow_pos_nonneg 10 (Z.of_nat n) ltac:(lia) ltac:(lia)). split; [lia|].
  split; [split; [apply Z.div_pos; lia|apply Z.div_lt_upper_bound; lia]|]. intros Hn.
  apply Z.div_le_lower_bound; [lia|]. rewrite <- Z.pow_succ_r by lia.
  by replace (Z.succ (Z.of_nat n - 1)) with (Z.of_nat n) by lia.
Qed.

Lemma width_zero x : width 0 x -> x = 0.
Proof. intros [Hx _]. change (10 ^ Z.of_nat 0) with 1 in Hx. lia. Qed.

Lemma count_digits fuel : forall n x len, (n <= fuel)%nat -> width n x ->
  while_loop fuel (fun '(temp, _) => 0 <? temp) (fun '(temp, len) => (temp / 10, len + 1)) (x, len) = (0, len + Z.of_nat n).
Proof.
  induction fuel as [|fuel IH]; intros n x len Hn Hw.
  - replace n with 0%nat in * by lia. apply width_zero in Hw as ->. cbn. f_equal. lia.
  - cbn [while_loop]. destruct n as [|n].
    + apply width_zero in Hw as ->. cbn. f_equal. lia.
    + destruct (width_step n x Hw) as [Hp Hw']. destruct (Z.ltb_spec 0 x); [|lia].
      rewrite (IH n) by (done || lia). f_equal. lia.
Qed.

Lemma push_digits fuel : forall n x tmp, (n <= fuel)%nat -> width n x ->
  while_loop fuel (fun '(_, v) => 0 <? v) (fun '(tmp, v) => (tmp ++ [48 + v mod 10], v / 10)) (tmp, x)
  = (tmp ++ reverse (digits n x), 0).
Proof.
  induction fuel as [|fuel IH]; intros n x tmp Hn Hw.
  - replace n with 0%nat in * by lia. apply width_zero in Hw as ->. cbn. by rewrite app_nil_r.
  - cbn [while_loop]. destruct n as [|n].
    + apply width_zero in Hw as ->. cbn. by rewrite app_nil_r.
    + destruct (width_step n x Hw) as [Hp Hw']. destruct (Z.ltb_spec 0 x); [|lia].
      rewrite (IH n) by (done || lia). cbn [digits]. rewrite reverse_app, <- app_assoc. done.
Qed.

Lemma turn_round (tmp : list Z) : for_range 0 (alen tmp) (fun b j => b ++ [tmp.[alen tmp - 1 - j]]) [] = reverse tmp.
Proof.
  pose proof (alen_nonneg tmp) as H0.
  transitivity (take (Z.to_nat (alen tmp)) (reverse tmp)); [|rewrite take_ge; [done|rewrite length_reverse; unfold alen; lia]].
  apply (for_range_ind (fun i b => b = take (Z.to_nat i) (reverse tmp)) 0 (alen tmp)); [done|done|].
  - intros i t Hi ->. replace (Z.to_nat (i + 1)) with (Datatypes.S (Z.to_nat i)) by lia.
    assert (Hl : reverse tmp !! Z.to_nat i = Some (tmp.[alen tmp - 1 - i])).
    { rewrite reverse_lookup by (unfold alen in *; lia). rewrite <- aget_lookup by lia. f_equal. unfold alen. lia. }
    by rewrite (take_S_r _ _ _ Hl).
Qed.

Lemma digits_value n x : 0 <= x < 10 ^ Z.of_nat n -> foldl (fun a c => a * 10 + (c - 48)) 0 (digits n x) = x.
Proof.
  revert x. induction n as [|n IH]; intros x Hx; [cbn in *; lia|]. cbn [digits]. rewrite foldl_app.
  rewrite Nat2Z.inj_succ, Z.pow_succ_r in Hx by lia. rewrite IH by (split; [apply Z.div_pos; lia|apply Z.div_lt_upper_bound; lia]).
  cbn [foldl]. pose proof (Z.div_mod x 10). lia.
Qed.

Lemma aset_insert (a : list Z) i x : 0 <= i -> a.[i <- x] = <[Z.to_nat i := x]> a.
Proof. intros Hi. unfold aset. by destruct (Z.ltb_spec i 0); [lia|]. Qed.

(** A decimal numeral of a number below [10 ^ m]. *)
Definition numeral (m : nat) (x : Z) (l : list Z) : Prop :=
  exists n, (1 <= n <= m)%nat /\ l = digits n x /\ 0 <= x < 10 ^ Z.of_nat n.

Lemma iteration_digits_numeral m x : (1 <= m <= 10)%nat -> 0 <= x < 10 ^ Z.of_nat m -> numeral m x (iteration_digits x).
Proof.
  intros Hm Hx. unfold iteration_digits. destruct (Z.eqb_spec x 0) as [->|Hne].
  { exists 1%nat. split; [lia|]. split; [done|]. cbn. lia. }
  destruct (width_ex m x Hx) as (n & Hn & Hw). exists n.
  assert (n <> 0%nat) by (intros ->; apply width_zero in Hw; lia).
  rewrite (push_digits 10 n) by (done || lia). cbn [app]. rewrite turn_round, reverse_involutive.
  split; [lia|]. split; [done|apply Hw].
Qed.

Lemma uid_to_str_numeral x : 0 <= x < 2 ^ 31 -> numeral 10 x (cstr (uid_to_str x (replicate 16 0))).
Proof.
  intros Hx. unfold uid_to_str. destruct (Z.eqb_spec x 0) as [->|Hne].
  { exists 1%nat. split; [lia|]. split; [done|]. cbn. lia. }
  destruct (width_ex 10 x ltac:(change (10 ^ Z.of_nat 10) with 10000000000; lia)) as (n & Hn & Hw). exists n.
  assert (n <> 0%nat) by (intros ->; apply width_zero in Hw; lia).
  rewrite (count_digits 10 n) by (done || lia). rewrite Z.add_0_l. split; [lia|]. split; [|apply Hw].
  assert (Hz : Forall (fun c => c <> 0) (digits n x)) by (eapply Forall_impl; [apply digits_range|cbn; lia]).
  enough (Hgoal : fst (for_range 0 (Z.of_nat n) (fun '(buf, temp) j => (buf.[Z.of_nat n - 1 - j <- temp mod 10 + 48], temp / 10))
            ((replicate 16 0).[Z.of_nat n <- 0], x)) = digits n x ++ replicate (16 - n) 0).
  { rewrite Hgoal. replace (16 - n)%nat with (Datatypes.S (15 - n)) by lia. by apply cstr_app_zero. }
  assert (Hi : (replicate 16 0).[Z.of_nat n <- 0] = replicate (n - 0) 0 ++ digits 0 x ++ replicate (16 - n) 0).
  { rewrite aset_insert, Nat2Z.id by lia. cbn [digits app]. rewrite <- replicate_add, insert_replicate.
    by replace (n - 0 + (16 - n))%nat with 16%nat by lia. }
  assert (Hl : forall j : nat, (j <= n)%nat ->
    for_range 0 (Z.of_nat j) (fun '(buf, temp) j => (buf.[Z.of_nat n - 1 - j <- temp mod 10 + 48], temp / 10))
      ((replicate 16 0).[Z.of_nat n <- 0], x) = (replicate (n - j) 0 ++ digits j x ++ replicate (16 - n) 0, x / 10 ^ Z.of_nat j)).
  { induction j as [|j IH]; intros Hj.
    - rewrite for_range_empty by lia. rewrite Hi. f_equal. by rewrite Z.div_1_r.
    - replace (Z.of_nat (Datatypes.S j)) with (Z.of_nat j + 1) at 1 by lia. rewrite for_range_last, IH by lia.
      f_equal; [|rewrite Z.div_div, pow10_succ by lia; f_equal; lia].
      rewrite digits_front, aset_insert by lia. replace (n - j)%nat with ((n - Datatypes.S j) + 1)%nat by lia.
      rewrite replicate_add, <- !app_assoc. rewrite insert_app_r_alt by (rewrite length_replicate; lia).
      rewrite length_replicate. f_equal. replace (_ - _)%nat with 0%nat by lia. cbn. f_equal. lia. }
  rewrite Hl by lia. cbn [fst]. by rewrite Nat.sub_diag.
Qed.

(** ** Hexadecimal *)

Definition hex2 (b : Z) : list Z := [hex_chars.[Z.land (Z.shiftr b 4) 0x0F]; hex_chars.[Z.land b 0x0F]].
Definition hexes (l : list Z) : list Z := mjoin (hex2 <$> l).

Lemma hexes_cons b l : hexes (b :: l) = hex2 b ++ hexes l.
Proof. done. Qed.

Lemma length_hexes l : length (hexes l) = (2 * length l)%nat.
Proof. induction l as [|b l IH]; [done|]. rewrite hexes_cons, length_app, IH. cbn [hex2 length]. lia. Qed.

Lemma hexes_app l1 l2 : hexes (l1 ++ l2) = hexes l1 ++ hexes l2.
Proof. unfold hexes. by rewrite fmap_app, join_app. Qed.

Definition hex_char (c : Z) : bool := ((48 <=? c) && (c <=? 57)) || ((97 <=? c) && (c <=? 102)).

Lemma hex2_ok b : is_u8 b ->
  forallb hex_char (hex2 b) &&
  match nibble (hex2 b).[0], nibble (hex2 b).[1] with
  | Some hi, Some lo => Z.lor (u8 (Z.shiftl hi 4)) lo =? b
  | _, _ => false
  end = true.
Proof.
  apply (byte_forall (fun b => forallb hex_char (hex2 b) &&
    match nibble (hex2 b).[0], nibble (hex2 b).[1] with
    | Some hi, Some lo => Z.lor (u8 (Z.shiftl hi 4)) lo =? b
    | _, _ => false
    end)). vm_compute. reflexivity.
Qed.

Lemma hexes_chars l : bytes l -> Forall (fun c => 48 <= c <= 102 /\ c <> 58) (hexes l).
Proof.
  intros Hl. induction Hl as [|b l Hb _ IH]; [constructor|]. rewrite hexes_cons.
  apply Forall_app. split; [|done]. pose proof (hex2_ok b Hb) as H. apply andb_prop in H as [H _].
  apply Forall_forall. intros c Hc. rewrite forallb_forall in H. specialize (H c ltac:(by apply list_elem_of_In)).
  unfold hex_char in H. bool_to_prop. lia.
Qed.

Lemma aget_hexes l rest (i : nat) b : l !! i = Some b ->
  (hexes l ++ rest).[Z.of_nat i * 2] = (hex2 b).[0] /\ (hexes l ++ rest).[Z.of_nat i * 2 + 1] = (hex2 b).[1].
Proof.
  intros Hi. rewrite <- (take_drop_middle l i b Hi). rewrite hexes_app.
  assert (Hlen : length (hexes (take i l)) = (2 * i)%nat).
  { rewrite length_hexes, length_take. apply lookup_lt_Some in Hi. lia. }
  rewrite hexes_cons, <- !app_assoc. unfold aget. split; rewrite app_nth2 by lia; rewrite Hlen.
  - by replace (Z.to_nat (Z.of_nat i * 2) - 2 * i)%nat with 0%nat by lia.
  - by replace (Z.to_nat (Z.of_nat i * 2 + 1) - 2 * i)%nat with 1%nat by lia.
Qed.

Lemma bytes_to_hex_eq l n : alen l = n -> bytes_to_hex l n (replicate (Z.to_nat (2 * n + 1)) 0) = hexes l ++ [0].
Proof.
  intros Hn. pose proof (alen_nonneg l). unfold bytes_to_hex.
  match goal with |- context [for_range 0 n ?f ?x] => assert (H1 : for_range 0 n f x = hexes l ++ replicate 1 0) end.
  { transitivity (hexes (take (Z.to_nat n) l) ++ replicate (Z.to_nat (2 * n + 1 - 2 * n)) 0).
    2: { rewrite take_ge by (unfold alen in *; lia). by replace (2 * n + 1 - 2 * n) with 1 by lia. }
    apply (for_range_ind (fun i h => h = hexes (take (Z.to_nat i) l) ++ replicate (Z.to_nat (2 * n + 1 - 2 * i)) 0)); [lia| |].
    - by replace (2 * n + 1 - 2 * 0) with (2 * n + 1) by lia.
    - intros i h Hi ->. pose proof (aget_lookup l i ltac:(lia)) as Hg.
      replace (Z.to_nat (i + 1)) with (Datatypes.S (Z.to_nat i)) by lia. rewrite (take_S_r _ _ _ Hg), hexes_app, <- app_assoc.
      assert (Hlen : length (hexes (take (Z.to_nat i) l)) = Z.to_nat (2 * i)).
      { rewrite length_hexes, length_take. unfold alen in *. lia. }
      rewrite !aset_insert by lia. rewrite !insert_app_r_alt by lia. rewrite Hlen. f_equal.
      replace (Z.to_nat (2 * n + 1 - 2 * i)) with (2 + Z.to_nat (2 * n + 1 - 2 * (i + 1)))%nat by lia.
      replace (Z.to_nat (i * 2) - Z.to_nat (2 * i))%nat with 0%nat by lia.
      replace (Z.to_nat (i * 2 + 1) - Z.to_nat (2 * i))%nat with 1%nat by lia. done. }
  rewrite H1, aset_insert by lia. rewrite insert_app_r_alt by (rewrite length_hexes; unfold alen in *; lia).
  rewrite length_hexes. by replace (Z.to_nat (n * 2) - 2 * length l)%nat with 0%nat by (unfold alen in *; lia).
Qed.

Lemma hex_to_bytes_eq l rest n : bytes l -> alen l = n ->
  hex_to_bytes (hexes l ++ rest) (replicate (Z.to_nat n) 0) n = (0, l).
Proof.
  intros Hb Hn. pose proof (alen_nonneg l). unfold hex_to_bytes.
  match goal with |- context [for_range 0 n ?f ?x] => assert (H1 : for_range 0 n f x = (true, take (Z.to_nat n) l ++ replicate (Z.to_nat (n - n)) 0)) end.
  2: { rewrite H1, take_ge by (unfold alen in *; lia). by rewrite Z.sub_diag, app_nil_r. }
  apply (for_range_ind (fun i s => s = (true, take (Z.to_nat i) l ++ replicate (Z.to_nat (n - i)) 0))); [lia| |].
  - by replace (n - 0) with n by lia.
  - intros i s Hi ->. pose proof (aget_lookup l i ltac:(lia)) as Hg. unfold hex_step. cbn [negb].
    destruct (aget_hexes l rest (Z.to_nat i) _ Hg) as [E1 E2]. rewrite Z2Nat.id in E1, E2 by lia. rewrite E1, E2.
    pose proof (hex2_ok l.[i] ltac:(by apply aget_bytes)) as H2. apply andb_prop in H2 as [Hc H2].
    rewrite forallb_forall in Hc. assert (Hz : forall j, j = 0 \/ j = 1 -> (hex2 l.[i]).[j] <> 0).
    { intros j Hj. assert (Hin : hex_char (hex2 l.[i]).[j] = true).
      { apply Hc. destruct Hj as [-> | ->]; [by left|right; by left]. }
      intros E. by rewrite E in Hin. }
    destruct (Z.eqb_spec (hex2 l.[i]).[0] 0) as [E|_]; [by specialize (Hz 0 ltac:(lia))|].
    destruct (Z.eqb_spec (hex2 l.[i]).[1] 0) as [E|_]; [by specialize (Hz 1 ltac:(lia))|]. cbn [orb].
    destruct (nibble _) as [hi|]; [|done]. destruct (nibble _) as [lo|]; [|done]. apply Z.eqb_eq in H2. rewrite H2. f_equal.
    replace (Z.to_nat (i + 1)) with (Datatypes.S (Z.to_nat i)) by lia. rewrite (take_S_r _ _ _ Hg), <- app_assoc.
    rewrite aset_insert by lia. rewrite insert_app_r_alt by (rewrite length_take; lia). rewrite length_take. f_equal.
    replace (Z.to_nat (n - i)) with (1 + Z.to_nat (n - (i + 1)))%nat by lia.
    by replace (Z.to_nat i - Z.to_nat i `min` length l)%nat with 0%nat by (unfold alen in *; lia).
Qed.

(** ** The line that is written *)

Definition shadow_line (name it salt dk us : list Z) : list Z :=
  name ++ v1_prefix ++ it ++ [36] ++ hexes salt ++ [36] ++ hexes dk ++ [58] ++ us.

(** The buffer starts with [pre]. *)
Definition holds (out pre : list Z) (n : Z) : Prop := alen out = n /\ exists rest, out = pre ++ rest.

Lemma holds_strcpy out pre n src pos : holds out pre n -> pos = alen pre -> pos + ft_strlen src < n ->
  holds (simple_strcpy out pos src) (pre ++ cstr src) n.
Proof.
  intros [Hl [rest ->]] -> Hn. rewrite ft_strlen_cstr in Hn. unfold simple_strcpy. split; [by rewrite alen_ft_memcpy|].
  rewrite alen_app in Hl. rewrite ft_strlen_cstr. exists ([0] ++ drop (length (cstr src ++ [0])) rest).
  rewrite CryptoFs.ft_memcpy_next.
  - by rewrite <- !app_assoc.
  - unfold alen in *. rewrite length_app. cbn [length]. lia.
  - rewrite alen_app. done.
Qed.

Lemma holds_put out pre n c pos : holds out pre n -> pos = alen pre -> pos < n -> holds out.[pos <- c] (pre ++ [c]) n.
Proof.
  intros [Hl [rest ->]] -> Hn. split; [by rewrite alen_aset|]. rewrite alen_app in Hl.
  destruct rest as [|x rest]; [change (alen []) with 0 in Hl; lia|]. exists rest.
  rewrite aset_insert by apply alen_nonneg. rewrite insert_app_r_alt by (unfold alen; lia).
  replace (Z.to_nat (alen pre) - length pre)%nat with 0%nat by (unfold alen; lia). by rewrite <- app_assoc.
Qed.

Lemma numeral_facts m x l : numeral m x l ->
  Forall (fun c => 48 <= c <= 57) l /\ 1 <= alen l <= Z.of_nat m /\ foldl (fun a c => a * 10 + (c - 48)) 0 l = x.
Proof.
  intros (n & Hn & -> & Hx). split; [apply digits_range|]. split; [unfold alen; rewrite length_digits; lia|].
  by apply digits_value.
Qed.

Lemma cstr_iters it : Forall (fun c => 48 <= c <= 57) it -> cstr (it ++ [36; 0]) = it ++ [36].
Proof. intros H. by rewrite cstr_app_nonzero by (eapply Forall_impl; [apply H|cbn; lia]). Qed.

Lemma cstr_hexes l : bytes l -> cstr (hexes l ++ [0]) = hexes l.
Proof. intros Hb. apply cstr_app_zero. eapply Forall_impl; [by apply hexes_chars|cbn; lia]. Qed.

Lemma alen_hexes l : alen (hexes l) = 2 * alen l.
Proof. unfold alen. rewrite length_hexes. lia. Qed.

Lemma alen_one (c : Z) : alen [c] = 1.
Proof. done. Qed.

Ltac len := autorewrite with carr; rewrite ?alen_one; lia.

Lemma write_line_holds out n name it salt dk ub :
  alen out = n -> Forall (fun c => 48 <= c <= 57) it -> bytes salt -> alen salt = 16 -> bytes dk -> alen dk = 32 ->
  ft_strlen name + alen it + alen (cstr ub) + 104 < n ->
  holds (write_line out name (it ++ [36; 0]) (hexes salt ++ [0]) (hexes dk ++ [0]) ub)
        (shadow_line (cstr name) it salt dk (cstr ub) ++ [0]) n.
Proof.
  intros Hl Hit Hsb Hsl Hkb Hkl Hn. unfold write_line. cbv zeta. rewrite Z.add_0_l.
  assert (L1 : ft_strlen (it ++ [36; 0]) = alen it + 1) by (rewrite ft_strlen_cstr, cstr_iters, alen_app by done; done).
  assert (S1 : ft_strlen (hexes salt ++ [0]) = 32) by (rewrite ft_strlen_cstr, cstr_hexes, alen_hexes by done; lia).
  assert (S2 : ft_strlen (hexes dk ++ [0]) = 64) by (rewrite ft_strlen_cstr, cstr_hexes, alen_hexes by done; lia).
  pose proof (ft_strlen_cstr name) as L4. pose proof (ft_strlen_cstr ub) as L2. assert (L3 : ft_strlen v1_prefix = 5) by done.
  pose proof (alen_hexes salt). pose proof (alen_hexes dk). assert (alen v1_prefix = 5) by done.
  pose proof (alen_nonneg it). pose proof (alen_nonneg (cstr ub)). pose proof (alen_nonneg (cstr name)).
  assert (Hh : holds out [] n) by (split; [done|by eexists]).
  set (p1 := ft_strlen name + ft_strlen v1_prefix). set (p2 := p1 + ft_strlen (it ++ [36; 0])).
  apply (holds_strcpy _ _ _ name 0) in Hh; [|done|lia]. cbn [app] in Hh.
  apply (holds_strcpy _ _ _ v1_prefix (ft_strlen name)) in Hh; [|lia|lia]. change (cstr v1_prefix) with v1_prefix in Hh.
  apply (holds_strcpy _ _ _ (it ++ [36; 0]) p1) in Hh; [|len|len]. rewrite cstr_iters in Hh by done.
  apply (holds_strcpy _ _ _ (hexes salt ++ [0]) p2) in Hh; [|len|len]. rewrite cstr_hexes in Hh by done.
  apply (holds_put _ _ _ 36 (p2 + 32)) in Hh; [|len|len].
  apply (holds_strcpy _ _ _ (hexes dk ++ [0]) (p2 + 32 + 1)) in Hh; [|len|len]. rewrite cstr_hexes in Hh by done.
  apply (holds_put _ _ _ 58 (p2 + 32 + 1 + 64)) in Hh; [|len|len].
  apply (holds_strcpy _ _ _ ub (p2 + 32 + 1 + 64 + 1)) in Hh; [|len|len].
  apply (holds_put _ _ _ 0 (p2 + 32 + 1 + 64 + 1 + ft_strlen ub)) in Hh; [|len|len].
  unfold shadow_line. rewrite <- !app_assoc in *. exact Hh.
Qed.

Section written.
Context (D : Z) (HD : 0 <= D <= PBKDF2_MAX_ITERATIONS).

Definition key_of (password salt : list Z) : list Z := pbkdf2_hmac_sha256 (cstr password) salt D 32.

#[local] Opaque pbkdf2_hmac_sha256 Entropy.hash generate_random_bytes bytes_to_hex.

Lemma create_spec rdrand p name password uid out n :
  pool_ok p -> seeded p = true -> 0 <= uid < 2 ^ 31 -> alen out = n -> ft_strlen name + 122 < n ->
  exists salt it us out' p', create_shadow_entry D rdrand p name password uid out n = (0, out', p') /\
    bytes salt /\ alen salt = 16 /\ numeral 8 D it /\ numeral 10 uid us /\
    cstr out' = shadow_line (cstr name) it salt (key_of password salt) us.
Proof.
  intros Hp Hs Hu Hl Hn. unfold create_shadow_entry, derive_shadow_salt.
  pose proof (generate_spec rdrand p 32 Hp ltac:(lia)) as Hg.
  destruct (generate_random_bytes rdrand p 32) as [[q pb] p']. destruct Hg as (_ & _ & _ & _ & Hyes & _).
  destruct (Hyes Hs) as [_ Hq]. destruct (Z.eqb_spec q ENTROPY_FAIL) as [E|_]; [destruct Hq; subst q; discriminate|].
  set (salt := take 16 (Entropy.hash [pb; cstr name])).
  assert (Hsalt : bytes salt /\ alen salt = 16).
  { subst salt. pose proof (alen_hash [pb; cstr name]) as Ha.
    split; [apply bytes_take, hash_bytes|]. change 16%nat with (Z.to_nat 16). apply alen_take. lia. }
  destruct Hsalt as [Hsb Hsl]. clearbody salt. cbv zeta. fold (key_of password salt).
  destruct (pbkdf2_bytes (cstr password) salt D 32 ltac:(lia)) as [Hkb Hkl]. fold (key_of password salt) in Hkb, Hkl.
  remember (key_of password salt) as dk eqn:Edk.
  rewrite (bytes_to_hex_eq salt 16 Hsl : bytes_to_hex salt 16 (replicate 33 0) = _).
  rewrite (bytes_to_hex_eq dk 32 Hkl : bytes_to_hex dk 32 (replicate 65 0) = _).
  pose proof (iteration_digits_numeral 8 D ltac:(lia) ltac:(unfold PBKDF2_MAX_ITERATIONS in HD; cbn; lia)) as Hit.
  pose proof (uid_to_str_numeral uid Hu) as Hus. set (it := iteration_digits D) in *. clearbody it.
  set (ub := uid_to_str uid (replicate 16 0)) in *. clearbody ub.
  destruct (numeral_facts _ _ _ Hit) as (Hitc & Hitl & _). destruct (numeral_facts _ _ _ Hus) as (Husc & Husl & _).
  assert (L1 : ft_strlen (it ++ [36; 0]) = alen it + 1) by (rewrite ft_strlen_cstr, cstr_iters, alen_app by done; done).
  assert (L2 : ft_strlen ub = alen (cstr ub)) by apply ft_strlen_cstr.
  assert (L3 : ft_strlen v1_prefix = 5) by done. rewrite L1, L2, L3.
  pose proof (ft_strlen_cstr name) as L4. destruct (Z.leb_spec n (ft_strlen name + 5 + (alen it + 1) + 32 + 1 + 64 + 1 + alen (cstr ub))); [lia|].
  exists salt, it, (cstr ub). eexists _, p'. split; [reflexivity|]. do 4 (split; [done|]). rewrite <- Edk.
  destruct (write_line_holds out.[0 <- 0] n name it salt dk ub) as [_ [rest ->]]; try done; [by rewrite alen_aset|lia|].
  rewrite <- app_assoc. apply cstr_app_zero. unfold shadow_line.
  rewrite !Forall_app. split_and!; try (repeat constructor; lia); try apply cstr_nonzero;
    (eapply Forall_impl; [eassumption || by apply hexes_chars|cbn; lia]).
Qed.

End written.

(** ** The line that is read *)

Definition pad (n : nat) (l : list Z) : list Z := l ++ replicate (n - length l) 0.

Lemma pad_push n l c : (length l < n)%nat -> (pad n l).[alen l <- c] = pad n (l ++ [c]).
Proof.
  intros Hn. unfold pad. rewrite aset_insert by apply alen_nonneg. rewrite insert_app_r_alt by (unfold alen; lia).
  replace (Z.to_nat (alen l) - length l)%nat with 0%nat by (unfold alen; lia). rewrite length_app. cbn [length].
  replace (n - length l)%nat with (1 + (n - (length l + 1)))%nat by lia. by rewrite <- app_assoc.
Qed.

Lemma cstr_pad n l : Forall (fun c => c <> 0) l -> (length l < n)%nat -> cstr (pad n l) = l.
Proof.
  intros Hl Hn. unfold pad. replace (n - length l)%nat with (Datatypes.S (n - length l - 1)) by lia. by apply cstr_app_zero.
Qed.

Lemma line_fields_eq a line rest :
  line_fields (a ++ line ++ rest) (alen a) (alen a + alen line) = foldl field_step no_fields line.
Proof.
  unfold line_fields. revert rest. induction line as [|c line IH] using rev_ind; intros rest.
  - rewrite for_range_empty by (change (alen (@nil Z)) with 0; lia). done.
  - pose proof (alen_nonneg line). rewrite alen_app, alen_one, Z.add_assoc, for_range_last by lia.
    rewrite <- app_assoc. rewrite IH, foldl_app. cbn [foldl]. f_equal.
    unfold aget. rewrite !app_nth2 by (unfold alen; lia).
    by replace (_ - _ - _)%nat with 0%nat by (unfold alen; lia).
Qed.

(** Characters of a field go into its buffer while there is room. *)
Ltac fill_field seg lim :=
  induction seg as [|c seg IH]; intros done0 Hs Hl; [by rewrite app_nil_r|];
  apply Forall_cons in Hs as [Hc Hs]; rewrite cons_middle, app_assoc in *; rewrite <- IH by done; cbn [foldl]; f_equal;
  unfold field_step; rewrite !length_app in Hl; cbn [length colon k db_user db_hash db_uid] in *;
  destruct (Z.eqb_spec c 58); [done|]; destruct (Z.ltb_spec (alen done0) lim); [|unfold alen in *; lia];
  cbn [Z.eqb andb]; rewrite pad_push by lia; by rewrite alen_app.

Lemma fill_user h d seg : forall done0, Forall (fun c => c <> 58) seg -> (length (done0 ++ seg) <= 31)%nat ->
  foldl field_step (mkFields 0 (alen done0) (pad 32 done0) h d) seg = mkFields 0 (alen (done0 ++ seg)) (pad 32 (done0 ++ seg)) h d.
Proof. fill_field seg 31. Qed.

Lemma fill_hash u d seg : forall done0, Forall (fun c => c <> 58) seg -> (length (done0 ++ seg) <= 149)%nat ->
  foldl field_step (mkFields 1 (alen done0) u (pad 150 done0) d) seg = mkFields 1 (alen (done0 ++ seg)) u (pad 150 (done0 ++ seg)) d.
Proof. fill_field seg 149. Qed.

Lemma fill_uid u h seg : forall done0, Forall (fun c => c <> 58) seg -> (length (done0 ++ seg) <= 15)%nat ->
  foldl field_step (mkFields 2 (alen done0) u h (pad 16 done0)) seg = mkFields 2 (alen (done0 ++ seg)) u h (pad 16 (done0 ++ seg)).
Proof. fill_field seg 15. Qed.

Lemma field_colon f : field_step f 58 = mkFields (colon f + 1) 0 (db_user f) (db_hash f) (db_uid f).
Proof. done. Qed.

Lemma fields_of_line name h us : Forall (fun c => c <> 58) name -> Forall (fun c => c <> 58) h -> Forall (fun c => c <> 58) us ->
  (length name <= 31)%nat -> (length h <= 149)%nat -> (length us <= 15)%nat ->
  foldl field_step no_fields (name ++ [58] ++ h ++ [58] ++ us) = mkFields 2 (alen us) (pad 32 name) (pad 150 h) (pad 16 us).
Proof.
  intros Hn Hh Hu Ln Lh Lu. rewrite !foldl_app.
  rewrite (fill_user (replicate 150 0) (replicate 16 0) name [] Hn Ln : foldl field_step no_fields name = _).
  cbn [foldl app]. rewrite !field_colon. cbn [colon db_user db_hash db_uid].
  rewrite (fill_hash _ (replicate 16 0) h [] Hh Lh : foldl field_step (mkFields (0 + 1) 0 _ (replicate 150 0) _) h = _).
  cbn [colon db_user db_hash db_uid app].
  by rewrite (fill_uid _ _ us [] Hu Lu : foldl field_step (mkFields (1 + 1) 0 _ _ (replicate 16 0)) us = _).
Qed.

Lemma aget_mid (a b : list Z) c rest : (a ++ b ++ c :: rest).[alen a + alen b] = c.
Proof.
  unfold aget, alen. rewrite app_assoc, app_nth2 by (rewrite length_app; lia). rewrite length_app.
  by replace (Z.to_nat (Z.of_nat (length a) + Z.of_nat (length b)) - (length a + length b))%nat with 0%nat by lia.
Qed.

Lemma scan_to stop (a seg : list Z) c rest : Forall (fun x => stop x = false) seg -> stop c = true ->
  scan stop (a ++ seg ++ c :: rest) (alen a) = alen a + alen seg.
Proof.
  intros Hs Hc. unfold scan. set (l := a ++ seg ++ c :: rest).
  assert (H : forall n seg1 seg2, seg = seg1 ++ seg2 -> (length seg2 < n)%nat ->
    while_loop n (fun e => negb (stop l.[e])) (fun e => e + 1) (alen a + alen seg1) = alen a + alen seg).
  { induction n as [|n IH]; intros seg1 seg2 E Hn; [lia|]. cbn [while_loop]. destruct seg2 as [|x seg2].
    - rewrite app_nil_r in E. subst seg1. subst l. rewrite aget_mid, Hc. done.
    - assert (Hx : l.[alen a + alen seg1] = x) by (subst l seg; rewrite <- app_assoc; apply aget_mid).
      rewrite Hx. rewrite E in Hs. apply Forall_app in Hs as [_ Hs]. apply Forall_cons in Hs as [-> Hs]. cbn [negb].
      specialize (IH (seg1 ++ [x]) seg2). rewrite <- IH; [|by rewrite <- app_assoc|cbn in Hn; lia].
      rewrite alen_app, alen_one. f_equal. lia. }
  specialize (H (length l) [] seg eq_refl). change (alen (@nil Z)) with 0 in H. rewrite Z.add_0_r in H. apply H.
  subst l. rewrite !length_app. cbn [length]. lia.
Qed.

Lemma value_bound l : Forall (fun c => 48 <= c <= 57) l ->
  0 <= foldl (fun a c => a * 10 + (c - 48)) 0 l < 10 ^ alen l.
Proof.
  induction l as [|c l IH] using rev_ind; intros Hl; [change (alen []) with 0; change (10 ^ 0) with 1; cbn [foldl]; lia|]. apply Forall_app in Hl as [Hl Hc]. apply Forall_cons in Hc as [Hc _].
  specialize (IH Hl). rewrite foldl_app, alen_app, alen_one, Z.pow_add_r by (try apply alen_nonneg; lia). cbn [foldl]. lia.
Qed.

Lemma parse_iterations_eq a it rest : Forall (fun c => 48 <= c <= 57) it -> alen it <= 9 ->
  parse_iterations (a ++ it ++ rest) (alen a) (alen a + alen it) = Some (foldl (fun a c => a * 10 + (c - 48)) 0 it).
Proof.
  unfold parse_iterations. revert rest. induction it as [|c it IH] using rev_ind; intros rest Hl Hn.
  - rewrite for_range_empty by (change (alen (@nil Z)) with 0; lia). done.
  - apply Forall_app in Hl as [Hl Hc]. apply Forall_cons in Hc as [Hc _]. pose proof (alen_nonneg it). pose proof (value_bound it Hl) as Hv.
    rewrite alen_app, alen_one in *. rewrite Z.add_assoc, for_range_last by lia. rewrite <- app_assoc, IH by (done || lia).
    cbn [app]. rewrite aget_mid. destruct (Z.ltb_spec c 48); [lia|]. destruct (Z.ltb_spec 57 c); [lia|]. cbn [orb].
    rewrite foldl_app. cbn [foldl]. f_equal. apply u32_small.
    pose proof (Z.pow_le_mono_r 10 (alen it) 8 ltac:(lia) ltac:(lia)). change (10 ^ 8) with 100000000 in *. lia.
Qed.

Lemma parse_uid_eq us : Forall (fun c => 48 <= c <= 57) us -> foldl (fun a c => a * 10 + (c - 48)) 0 us < 2 ^ 31 -> (length us < 16)%nat ->
  parse_uid (pad 16 us) = foldl (fun a c => a * 10 + (c - 48)) 0 us.
Proof.
  intros Hl Hv Hn. unfold parse_uid. rewrite cstr_pad by (done || (eapply Forall_impl; [apply Hl|cbn; lia])). clear Hn.
  induction us as [|c us IH] using rev_ind; [done|]. apply Forall_app in Hl as [Hl Hc]. apply Forall_cons in Hc as [Hc _].
  pose proof (value_bound us Hl). rewrite !foldl_app in *. cbn [foldl] in *. rewrite IH by (done || lia).
  unfold schar. destruct (Z.ltb_spec c 128); [|lia]. unfold s32. rewrite Z.mod_small by lia. lia.
Qed.

(** ** The answer for a line *)

Section read.
Context (D : Z) (HD : 0 <= D <= PBKDF2_MAX_ITERATIONS).

#[local] Opaque pbkdf2_hmac_sha256.

(** The second field of a line. *)
Definition hash_field (it salt dk : list Z) : list Z := [36; 118; 49; 36] ++ it ++ [36] ++ hexes salt ++ [36] ++ hexes dk.

Lemma copy_hex salt rest m n : alen (hexes salt) = n -> (Z.to_nat n < m)%nat ->
  ft_memcpy (replicate m 0) 0 (hexes salt ++ rest) n = hexes salt ++ replicate (m - Z.to_nat n) 0.
Proof.
  intros Hl Hm. pose proof (alen_nonneg (hexes salt)).
  rewrite ft_memcpy_eq by (rewrite ?alen_app; pose proof (alen_nonneg rest); unfold alen; rewrite ?length_replicate; unfold alen in *; lia).
  change (Z.to_nat 0) with 0%nat. rewrite take_0, Z.add_0_l, drop_replicate. cbn [app].
  by rewrite take_app_length' by (unfold alen in *; lia).
Qed.

Lemma field_chars l : bytes l ->
  Forall (fun c => dollar_or_end c = false) (hexes l) /\ Forall (fun c => (c =? 0) = false) (hexes l).
Proof.
  intros Hl. split; (eapply Forall_impl; [by apply hexes_chars|]); intros c Hc; unfold dollar_or_end; cbn beta in *;
    rewrite ?orb_false_iff, ?Z.eqb_neq; lia.
Qed.

(** Where the parts of the field are found. *)
Lemma hash_layout it salt dk h : numeral 8 D it -> bytes salt -> alen salt = 16 -> bytes dk -> alen dk = 32 ->
  h = pad 150 (hash_field it salt dk) ->
  let p := 4 + alen it in
  (h.[0] = 36 /\ h.[1] = 118 /\ h.[2] = 49 /\ h.[3] = 36) /\
  (scan dollar_or_end h 4 = p /\ h.[p] = 36 /\ parse_iterations h 4 p = Some D) /\
  (scan dollar_or_end h (p + 1) = p + 33 /\ h.[p + 33] = 36 /\ exists r, drop (Z.to_nat (p + 1)) h = hexes salt ++ r) /\
  (scan (fun c => c =? 0) h (p + 34) = p + 98 /\ exists r, drop (Z.to_nat (p + 34)) h = hexes dk ++ r).
Proof.
  intros Hit Hsb Hsl Hkb Hkl Hh p. destruct (numeral_facts _ _ _ Hit) as (Hitc & Hitl & Hitv).
  pose proof (alen_hexes salt) as Ls. pose proof (alen_hexes dk) as Lk.
  set (a1 := [36; 118; 49; 36]). set (a2 := a1 ++ it ++ [36]). set (a3 := a2 ++ hexes salt ++ [36]).
  assert (Hz : exists z, h = a3 ++ hexes dk ++ 0 :: z).
  { rewrite Hh. unfold pad. destruct (150 - length (hash_field it salt dk))%nat as [|m] eqn:E.
    - unfold hash_field in E. rewrite !length_app, !length_hexes in E. cbn [length] in E. unfold alen in *. lia.
    - exists (replicate m 0). subst a3 a2 a1. unfold hash_field. rewrite <- !app_assoc. done. }
  destruct Hz as [z E3]. clear Hh.
  assert (E2 : h = a2 ++ hexes salt ++ 36 :: hexes dk ++ 0 :: z) by (rewrite E3; subst a3; by rewrite <- !app_assoc).
  assert (E1 : h = a1 ++ it ++ 36 :: hexes salt ++ 36 :: hexes dk ++ 0 :: z) by (rewrite E2; subst a2; by rewrite <- !app_assoc).
  assert (L1 : alen a1 = 4) by done. assert (L2 : alen a2 = p + 1) by (subst a2 p; len).
  assert (L3 : alen a3 = p + 34) by (subst a3; len).
  assert (Hi1 : Forall (fun c => dollar_or_end c = false) it).
  { eapply Forall_impl; [apply Hitc|]. intros c Hc. unfold dollar_or_end. cbn beta in *. rewrite orb_false_iff, !Z.eqb_neq. lia. }
  split; [rewrite E1; done|]. split; [|split].
  - rewrite E1. subst p. rewrite <- L1. split; [by apply scan_to|]. split; [apply aget_mid|].
    rewrite parse_iterations_eq by (done || lia). by rewrite Hitv.
  - rewrite E2. replace (p + 33) with (alen a2 + alen (hexes salt)) by lia. rewrite <- L2.
    split; [by apply scan_to; [apply field_chars|]|]. split; [apply aget_mid|]. eexists. apply drop_app_length'. unfold alen. lia.
  - rewrite E3. replace (p + 98) with (alen a3 + alen (hexes dk)) by lia. rewrite <- L3.
    split; [by apply (scan_to (fun c => c =? 0)); [apply field_chars|]|]. eexists. apply drop_app_length'. unfold alen. lia.
Qed.

Lemma check_line_eq f it salt dk us uid attempt :
  numeral 8 D it -> numeral 10 uid us -> 0 <= uid < 2 ^ 31 -> bytes salt -> alen salt = 16 -> bytes dk -> alen dk = 32 ->
  db_hash f = pad 150 (hash_field it salt dk) -> db_uid f = pad 16 us ->
  check_line D f attempt = if bool_decide (key_of D attempt salt = dk) then uid else E_ACCES.
Proof.
  intros Hit Hus Huid Hsb Hsl Hkb Hkl Hh Hu.
  destruct (hash_layout it salt dk _ Hit Hsb Hsl Hkb Hkl Hh) as ((E1 & E2 & E3 & E4) & (S1 & G1 & P1) & (S2 & G2 & r2 & D2) & S3 & r3 & D3).
  destruct (numeral_facts _ _ _ Hit) as (_ & Hitl & _). destruct (numeral_facts _ _ _ Hus) as (Husc & Husl & Husv).
  pose proof (alen_hexes salt) as Ls. pose proof (alen_hexes dk) as Lk.
  unfold check_line. rewrite Hu, E1, E2, E3, E4, S1, G1, P1, S2, G2. set (p := 4 + alen it) in *.
  replace (p + 33 + 1) with (p + 34) by lia. rewrite S3, D2, D3. cbn [Z.eqb Pos.eqb negb orb].
  destruct (Z.leb_spec (p - 4) 0); [lia|]. destruct (Z.ltb_spec 8 (p - 4)); [lia|]. cbn [orb].
  unfold pbkdf2_iterations_are_acceptable. rewrite Z.leb_refl. destruct (Z.leb_spec D PBKDF2_MAX_ITERATIONS); [|lia]. cbn [andb negb].
  destruct (Z.eqb_spec (p + 33 - (p + 1)) 32); [|lia]. destruct (Z.eqb_spec (p + 98 - (p + 34)) 64); [|lia]. cbn [negb].
  rewrite !copy_hex by lia.
  rewrite (hex_to_bytes_eq salt _ 16 Hsb Hsl : hex_to_bytes _ (replicate 16 0) 16 = _).
  rewrite (hex_to_bytes_eq dk _ 32 Hkb Hkl : hex_to_bytes _ (replicate 32 0) 32 = _). cbn [Z.eqb negb].
  fold (key_of D attempt salt). destruct (pbkdf2_bytes (cstr attempt) salt D 32 ltac:(lia)) as [_ Hcl]. fold (key_of D attempt salt) in Hcl.
  rewrite parse_uid_eq by (done || lia || (unfold alen in *; lia)). rewrite Husv.
  pose proof (ct_cmp_eq dk (key_of D attempt salt) ltac:(lia)) as Hct. rewrite Hkl in Hct.
  destruct (Z.eqb_spec (crypto_ct_cmp_bytes dk (key_of D attempt salt) 32) 0) as [E|E].
  - rewrite bool_decide_true; [done|]. symmetry. by apply Hct.
  - rewrite bool_decide_false; [done|]. intros E'. apply E, Hct. done.
Qed.

(** ** The search *)

Fixpoint before_colon (l : list Z) : list Z :=
  match l with [] => [] | c :: l' => if c =? 58 then [] else c :: before_colon l' end.

(** The user a line is about, as the code sees it. *)
Definition user_field (line : list Z) : list Z := take 31 (before_colon line).

Definition text_line (line : list Z) : Prop := Forall (fun c => c <> 0 /\ c <> 10) line.

Lemma user_kept l : forall f, 1 <= colon f -> db_user (foldl field_step f l) = db_user f.
Proof.
  induction l as [|c l IH]; intros f Hf; [done|]. cbn [foldl].
  assert (H : 1 <= colon (field_step f c) /\ db_user (field_step f c) = db_user f).
  { unfold field_step. destruct (c =? 58); [cbn; split; [lia|done]|].
    destruct (Z.eqb_spec (colon f) 0); [lia|]. cbn [andb]. by repeat case_match. }
  destruct H as [H1 H2]. by rewrite IH, H2.
Qed.

Lemma user_full l : forall f, 31 <= k f -> colon f = 0 -> db_user (foldl field_step f l) = db_user f.
Proof.
  induction l as [|c l IH]; intros f Hk Hc; [done|]. cbn [foldl]. unfold field_step at 2. destruct (Z.eqb_spec c 58).
  - rewrite user_kept by (cbn; lia). done.
  - rewrite Hc. cbn [Z.eqb andb]. destruct (Z.ltb_spec (k f) 31); [lia|]. by apply IH.
Qed.

Lemma user_of l : forall done0, (length done0 <= 31)%nat ->
  db_user (foldl field_step (mkFields 0 (alen done0) (pad 32 done0) (replicate 150 0) (replicate 16 0)) l)
  = pad 32 (take 31 (done0 ++ before_colon l)).
Proof.
  intros done0 Hd. revert done0 Hd.
  enough (H : forall h d done0, (length done0 <= 31)%nat ->
    db_user (foldl field_step (mkFields 0 (alen done0) (pad 32 done0) h d) l) = pad 32 (take 31 (done0 ++ before_colon l))) by (intros; apply H; done).
  induction l as [|c l IH]; intros h d done0 Hd; [cbn; by rewrite app_nil_r, take_ge by lia|].
  destruct (decide (length done0 = 31)%nat) as [Hf|Hf].
  { rewrite user_full by (cbn; unfold alen; lia). cbn [db_user]. by rewrite take_app_length'. }
  cbn [foldl before_colon]. unfold field_step at 2. cbn [colon k db_user db_hash db_uid]. destruct (Z.eqb_spec c 58).
  - rewrite user_kept by (cbn; lia). cbn [db_user]. by rewrite app_nil_r, take_ge by lia.
  - destruct (Z.ltb_spec (alen done0) 31); [|unfold alen in *; lia]. cbn [Z.eqb andb]. rewrite pad_push by lia.
    specialize (IH h d (done0 ++ [c])). rewrite alen_app, alen_one in IH. rewrite IH by (rewrite length_app; cbn; lia).
    by rewrite <- app_assoc.
Qed.

Lemma before_colon_nonzero l : text_line l -> Forall (fun c => c <> 0) (before_colon l).
Proof. induction 1 as [|c l [Hc _] _ IH]; cbn; [constructor|]. destruct (c =? 58); by constructor. Qed.

Lemma line_user line : text_line line -> cstr (db_user (foldl field_step no_fields line)) = user_field line.
Proof.
  intros Ht. pose proof (user_of line [] ltac:(cbn; lia)) as H. change (mkFields 0 (alen []) (pad 32 []) _ _) with no_fields in H.
  rewrite H. cbn [app]. unfold user_field. apply cstr_pad; [by apply Forall_take, before_colon_nonzero|rewrite length_take; lia].
Qed.

(** One line of the file is looked at when its end is reached. *)
Lemma scan_line a line c rest name attempt : text_line line -> c = 0 \/ c = 10 ->
  for_range (alen a) (alen a + alen line + 1) (scan_step D (a ++ line ++ c :: rest) name attempt) (inl (alen a))
  = if bool_decide (cstr name = user_field line) then inr (check_line D (foldl field_step no_fields line) attempt)
    else if c =? 0 then inr E_NOENT else inl (alen a + alen line + 1).
Proof.
  intros Ht Hc. pose proof (alen_nonneg line). rewrite for_range_last by lia.
  assert (Hskip : for_range (alen a) (alen a + alen line) (scan_step D (a ++ line ++ c :: rest) name attempt) (inl (alen a)) = inl (alen a)).
  { apply (for_range_ind (fun _ s => s = inl (alen a))); [lia|done|]. intros i s Hi ->. cbn [scan_step].
    assert (Hg : (a ++ line ++ c :: rest).[i] <> 0 /\ (a ++ line ++ c :: rest).[i] <> 10).
    { assert (Hl : (Z.to_nat i - length a < length line)%nat) by (unfold alen in *; lia).
      unfold aget. rewrite app_nth2 by (unfold alen in *; lia). rewrite app_nth1 by done.
      unfold text_line in Ht. rewrite List.Forall_forall in Ht. apply Ht, nth_In. done. }
    destruct (Z.eqb_spec (a ++ line ++ c :: rest).[i] 10); [tauto|]. by destruct (Z.eqb_spec (a ++ line ++ c :: rest).[i] 0); [tauto|]. }
  rewrite Hskip. cbn [scan_step]. rewrite aget_mid, line_fields_eq.
  replace ((c =? 10) || (c =? 0)) with true by (destruct Hc; by subst c).
  rewrite ft_strcmp_eqb, line_user by done. by case_bool_decide.
Qed.

Lemma scan_done a b buf name attempt r : for_range a b (scan_step D buf name attempt) (inr r) = inr r.
Proof.
  destruct (Z.le_gt_cases a b); [|by rewrite for_range_empty by lia].
  apply (for_range_ind (fun _ s => s = inr r)); [done|done|]. by intros i s _ ->.
Qed.

Definition file_text (lines : list (list Z)) : list Z := mjoin ((fun l => l ++ [10]) <$> lines).

(** Lines of other users are passed over. *)
Lemma scan_lines name attempt rest lines : forall a, Forall (fun l => text_line l /\ user_field l <> cstr name) lines ->
  for_range (alen a) (alen a + alen (file_text lines)) (scan_step D (a ++ file_text lines ++ rest) name attempt) (inl (alen a))
  = inl (alen a + alen (file_text lines)).
Proof.
  induction lines as [|l lines IH]; intros a Hl.
  - rewrite for_range_empty by (change (alen (file_text [])) with 0; lia). change (alen (file_text [])) with 0. f_equal. lia.
  - apply Forall_cons in Hl as [[Ht Hu] Hl]. change (file_text (l :: lines)) with ((l ++ [10]) ++ file_text lines).
    pose proof (alen_nonneg l). pose proof (alen_nonneg (file_text lines)). rewrite !alen_app, alen_one.
    rewrite (for_range_split _ (alen a + alen l + 1)) by lia.
    replace (a ++ ((l ++ [10]) ++ file_text lines) ++ rest) with (a ++ l ++ 10 :: (file_text lines ++ rest)) by (by rewrite <- !app_assoc).
    rewrite scan_line by (done || by right). rewrite bool_decide_false by congruence. cbn [Z.eqb].
    specialize (IH (a ++ l ++ [10]) Hl). rewrite !alen_app, alen_one in IH.
    replace ((a ++ l ++ [10]) ++ file_text lines ++ rest) with (a ++ l ++ 10 :: file_text lines ++ rest) in IH by (by rewrite <- !app_assoc).
    replace (alen a + alen l + 1) with (alen a + (alen l + 1)) by lia.
    replace (alen a + (alen l + 1 + alen (file_text lines))) with (alen a + (alen l + 1) + alen (file_text lines)) by lia. exact IH.
Qed.

Lemma verify_in_finds before line after name attempt :
  Forall (fun l => text_line l /\ user_field l <> cstr name) before -> text_line line -> user_field line = cstr name ->
  let text := file_text before ++ line ++ [10] ++ after in
  verify_in D (text ++ [0]) (alen text) name attempt = check_line D (foldl field_step no_fields line) attempt.
Proof.
  intros Hb Ht Hu text. unfold verify_in. pose proof (alen_nonneg (file_text before)). pose proof (alen_nonneg line). pose proof (alen_nonneg after).
  assert (Hl : alen text = alen (file_text before) + alen line + 1 + alen after) by (subst text; len).
  rewrite (for_range_split _ (alen (file_text before))) by lia.
  pose proof (scan_lines name attempt ((line ++ [10] ++ after) ++ [0]) before [] Hb) as Hpre.
  change (alen (@nil Z)) with 0 in Hpre. rewrite Z.add_0_l in Hpre. cbn [app] in Hpre.
  replace (text ++ [0]) with (file_text before ++ (line ++ 10 :: after) ++ [0]) by (subst text; by rewrite <- !app_assoc).
  cbn [app] in Hpre. rewrite Hpre.
  rewrite (for_range_split _ (alen (file_text before) + alen line + 1)) by lia.
  replace (file_text before ++ (line ++ 10 :: after) ++ [0]) with (file_text before ++ line ++ 10 :: (after ++ [0])) by (by rewrite <- !app_assoc).
  rewrite scan_line by (done || by right). rewrite bool_decide_true by done. by rewrite scan_done.
Qed.

Lemma verify_in_unknown lines name attempt : cstr name <> [] ->
  Forall (fun l => text_line l /\ user_field l <> cstr name) lines ->
  verify_in D (file_text lines ++ [0]) (alen (file_text lines)) name attempt = E_NOENT.
Proof.
  intros Hne Hb. unfold verify_in. pose proof (alen_nonneg (file_text lines)).
  rewrite (for_range_split _ (alen (file_text lines))) by lia.
  pose proof (scan_lines name attempt [0] lines [] Hb) as Hpre.
  change (alen (@nil Z)) with 0 in Hpre. rewrite Z.add_0_l in Hpre. cbn [app] in Hpre. rewrite Hpre.
  pose proof (scan_line (file_text lines) [] 0 [] name attempt ltac:(constructor) ltac:(by left)) as Hlast.
  change (alen (@nil Z)) with 0 in Hlast. rewrite Z.add_0_r in Hlast. cbn [app] in Hlast. rewrite Hlast.
  rewrite bool_decide_false by done. done.
Qed.

(** ** Accounts *)

Lemma user_of_written name rest : Forall (fun c => c <> 58) name -> (length name <= 31)%nat ->
  user_field (name ++ 58 :: rest) = name.
Proof.
  intros Hn Hl. unfold user_field. assert (H : before_colon (name ++ 58 :: rest) = name).
  { clear Hl. induction Hn as [|c l Hc _ IH]; [done|]. cbn. rewrite IH. by destruct (Z.eqb_spec c 58). }
  by rewrite H, take_ge.
Qed.

(** What a name must be for its line to be found again. *)
Definition account_name (name : list Z) : Prop :=
  Forall (fun c => c <> 58 /\ c <> 10) (cstr name) /\ ft_strlen name <= 31.

Lemma written_line_answer name it salt dk us uid before after attempt :
  account_name name -> numeral 8 D it -> numeral 10 uid us -> 0 <= uid < 2 ^ 31 ->
  bytes salt -> alen salt = 16 -> bytes dk -> alen dk = 32 ->
  Forall (fun l => text_line l /\ user_field l <> cstr name) before ->
  let text := file_text before ++ shadow_line (cstr name) it salt dk us ++ [10] ++ after in
  verify_in D (text ++ [0]) (alen text) name attempt = if bool_decide (key_of D attempt salt = dk) then uid else E_ACCES.
Proof.
  intros [Hn Hln] Hit Hus Hu Hsb Hsl Hkb Hkl Hb text. rewrite ft_strlen_cstr in Hln.
  destruct (numeral_facts _ _ _ Hit) as (Hitc & Hitl & _). destruct (numeral_facts _ _ _ Hus) as (Husc & Husl & _).
  assert (El : shadow_line (cstr name) it salt dk us = cstr name ++ [58] ++ hash_field it salt dk ++ [58] ++ us).
  { unfold shadow_line, hash_field. change v1_prefix with ([58] ++ [36; 118; 49; 36]). by rewrite <- !app_assoc. }
  assert (H58 : Forall (fun c => c <> 58) (cstr name)) by (eapply Forall_impl; [apply Hn|cbn; tauto]).
  assert (Hh : Forall (fun c => c <> 58 /\ c <> 0 /\ c <> 10) (hash_field it salt dk)).
  { unfold hash_field. rewrite !Forall_app. split_and!; try (repeat constructor; lia);
      (eapply Forall_impl; [eassumption || by apply hexes_chars|cbn; lia]). }
  subst text. rewrite verify_in_finds; [|done| |].
  - rewrite El, fields_of_line; [|done|eapply Forall_impl; [apply Hh|cbn; tauto]|eapply Forall_impl; [apply Husc|cbn; lia]|unfold alen in *; lia| |unfold alen in *; lia].
    + by apply (check_line_eq _ it salt dk us).
    + unfold hash_field. rewrite !length_app, !length_hexes. cbn [length]. unfold alen in *. lia.
  - rewrite El. unfold text_line. rewrite !Forall_app. split_and!; try (repeat constructor; lia).
    + pose proof (cstr_nonzero name) as Hz. rewrite List.Forall_forall in *. intros c Hc. split; [by apply Hz|by apply Hn].
    + eapply Forall_impl; [apply Hh|cbn; tauto].
    + eapply Forall_impl; [apply Husc|cbn; lia].
  - rewrite El. cbn [app]. apply user_of_written; [done|unfold alen in *; lia].
Qed.

End read.

#[local] Opaque pbkdf2_hmac_sha256 Entropy.hash generate_random_bytes.

(** C27: An account's line admits its password.  The entry written for a user is
    complete, and wherever it stands in the file after lines of other users, the
    check for that user answers the uid exactly for the passwords that derive the
    stored key - the user's own among them - and E_ACCES for all others; so does
    the whole call when /etc/shadow opens and reads as that text.  A user without
    a line is not found. *)
Theorem account_admits_password D rdrand p name password uid out n :
  0 <= D <= PBKDF2_MAX_ITERATIONS -> pool_ok p -> seeded p = true -> account_name name ->
  0 <= uid < 2 ^ 31 -> alen out = n -> ft_strlen name + 122 < n ->
  let '(res, line, _) := create_shadow_entry D rdrand p name password uid out n in
  res = 0 /\ exists salt, forall before after attempt,
    Forall (fun l => text_line l /\ user_field l <> cstr name) before ->
    let text := file_text before ++ cstr line ++ [10] ++ after in
    let answer := if bool_decide (key_of D attempt salt = key_of D password salt) then uid else E_ACCES in
    verify_in D (text ++ [0]) (alen text) name attempt = answer /\
    (cstr name <> [] -> verify_in D (file_text before ++ [0]) (alen (file_text before)) name attempt = E_NOENT) /\
    forall (S : Type) (bs : BlockStore.BlockStore S) (fc : Vfs.FileCrypto) e stack f0 f1 f2 (v v' : Vfs.vfs S),
      Vfs.fs_get_entry_idx v etc_name 0 <> -1 ->
      Vfs.fs_open v shadow_name (FsFormat.entry_id (Vfs.entry v (Vfs.fs_get_entry_idx v etc_name 0))) f0 = (E_OK, f1) ->
      Vfs.fs_read e stack v f1 1023 = (alen text, text, f2, v') ->
      verify_user_password D e stack f0 v name attempt = (answer, v').
Proof.
  intros HD Hp Hs Hname Hu Hl Hn.
  destruct (create_spec D HD rdrand p name password uid out n Hp Hs Hu Hl Hn)
    as (salt & it & us & line & p' & -> & Hsb & Hsl & Hit & Hus & Hline).
  split; [done|]. exists salt. intros before after attempt Hb text answer.
  destruct (pbkdf2_bytes (cstr password) salt D 32 ltac:(lia)) as [Hkb Hkl]. fold (key_of D password salt) in Hkb, Hkl.
  assert (Hv : verify_in D (text ++ [0]) (alen text) name attempt = answer).
  { subst text. rewrite Hline. by apply written_line_answer with (us := us). }
  split; [done|]. split; [intros Hne; by apply verify_in_unknown|].
  intros S bs fc e stack f0 f1 f2 v v' He Ho Hr. unfold verify_user_password.
  destruct (Z.eqb_spec (Vfs.fs_get_entry_idx v etc_name 0) (-1)); [done|]. rewrite Ho. cbn [Z.eqb E_OK negb]. rewrite Hr.
  destruct (Z.ltb_spec (alen text) 0); [pose proof (alen_nonneg text); lia|]. by rewrite Hv.
Qed.

(** The second account of a file; the first is root's. *)
Lemma account_admits_password_witness :
  let p := set_seeded static_pool 0 in
  let '(res, line, _) := create_shadow_entry 2 None p [97; 100; 97; 0] [112; 119; 0] 1000 (replicate 200 0) 200 in
  let text := file_text [root_name ++ [58; 120]] ++ cstr line ++ [10] in
  verify_in 2 (text ++ [0]) (alen text) [97; 100; 97; 0] [112; 119; 0] = 1000.
Proof.
  intros p. assert (Hp : pool_ok p) by (destruct static_pool_ok; by constructor).
  assert (Hname : account_name [97; 100; 97; 0]) by (split; [repeat constructor; lia|vm_compute; discriminate]).
  pose proof (account_admits_password 2 None p [97; 100; 97; 0] [112; 119; 0] 1000 (replicate 200 0) 200
    ltac:(unfold PBKDF2_MAX_ITERATIONS; lia) Hp eq_refl Hname ltac:(lia) eq_refl ltac:(vm_compute; reflexivity)) as H.
  destruct (create_shadow_entry 2 None p [97; 100; 97; 0] [112; 119; 0] 1000 (replicate 200 0) 200) as [[res line] q].
  destruct H as (_ & salt & H). specialize (H [root_name ++ [58; 120]] [] [112; 119; 0]).
  rewrite app_nil_r in H. rewrite bool_decide_true in H by reflexivity. apply H.
  constructor; [|constructor]. split; [repeat constructor; lia|discriminate].
Defined.

End Passwd.
