(* ===== verification/DiskKey.v ===== *)
(** * The disk's key slot (fs/vfs.c, kernel/syscall/sys_sec.c)

    The calls that put a key slot into the superblock, open it and move it to a
    new passphrase.  The theorem follows a data key from the first boot through a
    change of the passphrase and a loss of power to the next boot. *)

From S2P Require Import Prelude CStr Fat FsFormat BlockStore Hmac Aes Keyslot Security Vfs VfsDisk VfsData VfsInv VfsOps VfsSpec VfsMount VfsProps.
Import Fat FsFormat BlockStore Hmac Aes Keyslot Vfs VfsDisk VfsData VfsInv VfsOps VfsSpec VfsMount VfsProps.

Module DiskKey.

Section key.
Context (PBKDF2_DEFAULT_ITERATIONS : Z).
Context {S : Type} {bs : BlockStore S}.
Implicit Types (v w : vfs S).

(** [fs_super.keyslot] *)
Definition live_slot v : keyslot := decode_slot (sb_keyslot (fs_super v)).

Definition with_slot (sb : disk_superblock) (slot : keyslot) : disk_superblock :=
  mk_super (sb_magic sb) (sb_format_version sb) (sb_sector_size sb) (sb_total_sectors sb) (sb_dir_start sb)
    (sb_dir_sectors sb) (sb_max_entries sb) (sb_entry_size sb) (sb_cluster_sectors sb) (sb_fat_start sb)
    (sb_data_start sb) (sb_total_clusters sb) (sb_flags sb) (encode_slot slot).

(** [save_superblock(); bcache_flush();] *)
Definition store_slot v (slot : keyslot) : vfs S :=
  let v := save_superblock (set_super v (with_slot (fs_super v) slot)) in
  let '(_, s) := bs_flush (store v) in
  set_store v s.

Definition fs_keyslot_present v : bool := fs_mounted v && keyslot_is_present (live_slot v).

(** [r_dek], [r_salt] and [r_iv] are the answers of the entropy pool, [None] for a
    refusal.  The pool refuses as long as it is not seeded, so the draws of one
    call are refused together or not at all. *)
Definition fs_keyslot_install (sec : Security.security) v (passphrase : option (list Z)) (r_dek r_salt r_iv : random)
    : Z * vfs S * Security.security :=
  if negb (fs_mounted v) then (E_NODEV, v, sec)
  else match r_dek with
       | None => (E_IO, v, sec)
       | Some dek =>
           match keyslot_create PBKDF2_DEFAULT_ITERATIONS passphrase dek r_salt r_iv with
           | inl res => (res, v, sec)
           | inr slot => (E_OK, store_slot v slot, Security.install_master_key sec (Some dek))
           end
       end.

Definition fs_keyslot_unlock (sec : Security.security) v (passphrase : option (list Z)) : Z * Security.security :=
  if negb (fs_mounted v) then (E_NODEV, sec)
  else if negb (keyslot_is_present (live_slot v)) then (E_INVAL, sec)
  else match keyslot_unwrap PBKDF2_DEFAULT_ITERATIONS (live_slot v) passphrase with
       | inl res => (res, sec)
       | inr dek => (E_OK, Security.install_master_key sec (Some dek))
       end.

Definition fs_keyslot_rewrap (current_sec_level : Z) v (old_pass new_pass : option (list Z)) (r_salt r_iv : random) : Z * vfs S :=
  if negb (fs_mounted v) then (E_NODEV, v)
  else if SEC_LEVEL_IMMUTABLE <=? current_sec_level then (E_ROFS, v)
  else if negb (keyslot_is_present (live_slot v)) then (E_INVAL, v)
  else match keyslot_unwrap PBKDF2_DEFAULT_ITERATIONS (live_slot v) old_pass with
       | inl res => (res, v)
       | inr dek =>
           match keyslot_create PBKDF2_DEFAULT_ITERATIONS new_pass dek r_salt r_iv with
           | inl res => (res, v)
           | inr fresh => (E_OK, store_slot v fresh)
           end
       end.

(** The strings are [None] when a pointer is refused. *)
Definition sys_setkey (t : Security.task) (current_sec_level : Z) v (old_pass new_pass : option (list Z)) (r_salt r_iv : random) : Z * vfs S :=
  if negb (Security.uid t =? 0) then (E_PERM, v)
  else match old_pass, new_pass with
       | Some _, Some _ => fs_keyslot_rewrap current_sec_level v old_pass new_pass r_salt r_iv
       | _, _ => (E_FAULT, v)
       end.

(** ** A new slot in the superblock *)

Context {laws : StoreLaws S} {rel : StoreReliable S}.

Lemma with_slot_fits v slot : geo_ok v -> geo_ok (set_super v (with_slot (fs_super v) slot)).
Proof. intros [[] [] He Hc]. constructor; [by constructor|by constructor|done|done]. Qed.

Lemma with_slot_typed sb slot : super_typed sb -> slot_typed slot -> super_typed (with_slot sb slot).
Proof.
  intros [] Hs. constructor; cbn; try done. destruct (decode_encode_slot slot [] Hs) as [_ Hl]. unfold alen in Hl. lia.
Qed.

Lemma save_slot_wf v ch slot : fs_wf v ch -> slot_typed slot ->
  let w := save_superblock (set_super v (with_slot (fs_super v) slot)) in
  fs_wf w ch /\ fs_super w = with_slot (fs_super v) slot /\ abs w ch = abs v ch.
Proof.
  intros Hwf Hslot w. pose proof (wf_geo _ _ Hwf) as Hg0. pose proof (regions _ Hg0) as Hreg.
  set (sb := with_slot (fs_super v) slot) in *. set (v1 := set_super v sb) in *.
  pose proof (with_slot_fits v slot Hg0) as Hg. fold sb v1 in Hg.
  destruct (fs_write_sector v1 FS_SUPER_SECTOR (sector_of 0 FS_SUPER_DISK_SIZE (encode_super sb))) as [r w'] eqn:Hwr.
  assert (Ew : w = w') by (subst w; unfold save_superblock; change (fs_super v1) with sb; by rewrite Hwr).
  clearbody w. subst w'. apply write_sector_wrote in Hwr as [_ [Hs Hio Ho Hview]]; [|apply Hg|cbn; unfold FS_SUPER_SECTOR; lia].
  rewrite take_sector_of in Hview by (unfold FS_SUPER_DISK_SIZE; lia).
  pose proof (same_fields _ _ Hs) as (_ & Hms & Htc & Hme & Hmo & Hsb & Hdt & Hft). cbn in Hms, Htc, Hme, Hmo, Hsb, Hdt, Hft.
  assert (Hpv : forall k, 0 < k < fs_max_sectors v -> part_view w k = part_view v k).
  { intros k Hk. rewrite Hview by (cbn; lia). unfold FS_SUPER_SECTOR. by destruct (Z.eqb_spec k 0); [lia|]. }
  assert (Hwf' : fs_wf w ch).
  { destruct Hwf as [_ Hm [Hty Hacc] Hdir Hch [H512 Hdd Hdf _ Hlab]]. constructor.
    - by apply (geo_same v1).
    - by rewrite Hmo.
    - rewrite Hsb, Hms. split; [by apply with_slot_typed|exact Hacc].
    - by rewrite Hdt, Hme, Htc.
    - by rewrite Hdt, Hme, Hft, Htc.
    - constructor.
      + rewrite Hsb, Hms. intros k Hk. cbn in Hk. rewrite Hpv by lia. by apply H512.
      + unfold dir_sector. rewrite Hsb, Hme, Hdt. intros i Hi. cbn. rewrite Hpv by lia. by apply Hdd.
      + unfold fat_sectors, fat_sector. rewrite Hsb, Htc, Hft. intros i Hi. cbn. fold (fat_sectors v) in Hi. rewrite Hpv by lia. by apply Hdf.
      + rewrite Hsb, Hview by (cbn; unfold FS_SUPER_SECTOR; lia). done.
      + exact (labelled_kept v1 w Hs Ho (geo_io _ Hg) Hlab). }
  split; [done|]. split; [done|]. apply abs_kept; [done|done|done|]. intros j Hj Hr.
  destruct Hwf as [_ _ _ _ Hch _]. unfold contents, entry. rewrite Hdt.
  transitivity (file_bytes v1 (file_size (dir_table v).[j]) (ch j)); [|done].
  eapply file_bytes_kept; [exact Hg|exact (proj1 (cw_chain _ _ _ _ _ Hch j Hj Hr))|by rewrite Hsb|].
  intros k Hk. cbn in Hk. change (part_view v1 k) with (part_view v k). apply Hpv. lia.
Qed.

Lemma flush_kept v ch r s : fs_wf v ch -> bs_flush (store v) = (r, s) -> fs_wf (set_store v s) ch /\ abs (set_store v s) ch = abs v ch.
Proof.
  intros Hwf Hfl. pose proof (wf_geo _ _ Hwf) as [[Hok Hgood Hst Hend] Hgs Hge Hgc].
  destruct (bs_flush_good _ _ _ Hok Hgood Hfl) as [_ Hgood']. destruct (bs_flush_spec _ _ _ Hok Hfl) as (Hok' & Hn & Hv & _).
  assert (Hpv : forall k, part_view (set_store v s) k = part_view v k) by (intros k; apply Hv).
  assert (Hg : geo_ok (set_store v s)) by (constructor; [constructor; cbn; rewrite ?Hn; done|done..]).
  split.
  - destruct Hwf as [_ Hm Hacc Hdir Hch [Ha Hb Hc Hd [He1 He2]]]. constructor; try done.
    constructor; [intros k Hk; rewrite Hpv; by apply Ha|intros i Hi; rewrite Hpv; by apply Hb|
      intros i Hi; rewrite Hpv; by apply Hc|by rewrite Hpv|]. unfold labelled. cbn. by rewrite Hn, Hv.
  - apply abs_kept; [done..|]. intros j Hj Hr. unfold contents.
    eapply file_bytes_kept; [exact (wf_geo _ _ Hwf)|exact (proj1 (cw_chain _ _ _ _ _ (wf_chains _ _ Hwf) j Hj Hr))|done|].
    intros k Hk. apply Hpv.
Qed.

(** After the slot is stored it is there on the next mount. *)
Lemma store_slot_ok v ch slot : fs_wf v ch -> slot_typed slot ->
  let w := store_slot v slot in
  fs_wf w ch /\ live_slot w = slot /\ abs w ch = abs v ch /\
  forall heap u stack, store u = store w -> ha_ok heap = true ->
    fs_wf (init_fs heap u stack) ch /\ live_slot (init_fs heap u stack) = slot /\ abs (init_fs heap u stack) ch = abs v ch.
Proof.
  intros Hwf Hslot w. destruct (save_slot_wf v ch slot Hwf Hslot) as (Hwf1 & Hsb & Habs). unfold store_slot in w.
  set (v1 := save_superblock _) in *. clearbody v1. destruct (bs_flush (store v1)) as [r s] eqn:Hfl. subst w.
  assert (Hslot1 : forall x, fs_super x = fs_super v1 -> live_slot x = slot).
  { intros x Hx. unfold live_slot. rewrite Hx, Hsb. cbn.
    pose proof (proj1 (decode_encode_slot slot [] Hslot)) as H. by rewrite app_nil_r in H. }
  pose proof (flush_kept v1 ch r s Hwf1 Hfl) as (Hwf2 & Habs2).
  split; [done|]. split; [by apply Hslot1|]. split; [congruence|]. intros heap u stack Hu Hh. cbn in Hu.
  destruct (remount_ok v1 ch heap u stack r Hwf1 ltac:(by rewrite Hu) Hh) as (_ & Hwf3 & Hsame).
  split; [done|]. split; [apply Hslot1, (sf_super _ _ _ Hsame)|]. rewrite (same_fs_abs v1 _ ch Hwf1 Hsame). done.
Qed.

#[local] Opaque keyslot_create keyslot_unwrap.

Lemma create_usable p dek salt i : passphrase_is_usable (Some p) = true ->
  exists slot, keyslot_create PBKDF2_DEFAULT_ITERATIONS (Some p) dek (Some salt) (Some i) = inr slot /\
    iterations slot = PBKDF2_DEFAULT_ITERATIONS.
Proof. intros Hp. with_strategy transparent [keyslot_create] unfold keyslot_create. rewrite Hp. by eexists. Qed.

(** C31: The disk's key outlives its passphrase.  On a sound file system a slot is
    installed for a first passphrase and then moved to a second.  Both steps
    succeed, the files are untouched, and after a loss of power right then, the
    mount finds the slot, the second passphrase opens it, and the key it hands
    over is the one the first passphrase protected.  A change that does not know
    the passphrase, or that is asked for at level IMMUTABLE, leaves the disk as it
    was. *)
Theorem passphrase_change_survives v ch sec p1 p2 dek s1 i1 s2 i2 level heap u stack sec' :
  fs_wf v ch -> 0 < PBKDF2_DEFAULT_ITERATIONS <= PBKDF2_MAX_ITERATIONS ->
  passphrase_is_usable (Some p1) = true -> passphrase_is_usable (Some p2) = true ->
  bytes dek -> length dek = 32%nat -> length s1 = 32%nat -> st16 i1 -> length s2 = 32%nat -> st16 i2 ->
  level < SEC_LEVEL_IMMUTABLE -> ha_ok heap = true ->
  let '(r1, v1, sec1) := fs_keyslot_install sec v (Some p1) (Some dek) (Some s1) (Some i1) in
  let '(r2, v2) := fs_keyslot_rewrap level v1 (Some p1) (Some p2) (Some s2) (Some i2) in
  r1 = E_OK /\ r2 = E_OK /\ sec1 = Security.install_master_key sec (Some dek) /\
  fs_wf v2 ch /\ abs v2 ch = abs v ch /\
  (store u = store v2 ->
     let m := init_fs heap u stack in
     abs m ch = abs v ch /\ fs_keyslot_present m = true /\
     fs_keyslot_unlock sec' m (Some p2) = (E_OK, Security.install_master_key sec' (Some dek))) /\
  (forall q err salt iv, keyslot_unwrap PBKDF2_DEFAULT_ITERATIONS (live_slot v1) q = inl err ->
     fs_keyslot_rewrap level v1 q (Some p2) salt iv = (err, v1)) /\
  (forall q salt iv, fs_keyslot_rewrap SEC_LEVEL_IMMUTABLE v1 q (Some p2) salt iv = (E_ROFS, v1)).
Proof.
  intros Hwf HD Hp1 Hp2 Hd Hdl Hs1 Hi1 Hs2 Hi2 Hlev Hheap.
  assert (Hu32 : is_u32 PBKDF2_DEFAULT_ITERATIONS) by (unfold is_u32, PBKDF2_MAX_ITERATIONS in *; lia).
  destruct (create_usable p1 dek s1 i1 Hp1) as (a & Ha & Hai). destruct (create_usable p2 dek s2 i2 Hp2) as (b & Hb & Hbi).
  pose proof (create_typed _ p1 dek s1 i1 a Hu32 Hdl Hi1 Hs1 Ha) as Hta. pose proof (create_typed _ p2 dek s2 i2 b Hu32 Hdl Hi2 Hs2 Hb) as Htb.
  pose proof (unwrap_create PBKDF2_DEFAULT_ITERATIONS p1 dek s1 i1 a ltac:(lia) Hd Hdl Hi1 Ha) as Hua. pose proof (unwrap_create PBKDF2_DEFAULT_ITERATIONS p2 dek s2 i2 b ltac:(lia) Hd Hdl Hi2 Hb) as Hub.
  unfold fs_keyslot_install. rewrite (wf_mounted _ _ Hwf), Ha. cbn [negb].
  destruct (store_slot_ok v ch a Hwf Hta) as (Hwf1 & Hl1 & Habs1 & _). set (v1 := store_slot v a) in *. clearbody v1.
  destruct (store_slot_ok v1 ch b Hwf1 Htb) as (Hwf2 & _ & Habs2 & Hre).
  assert (Hpres : forall x, iterations x = PBKDF2_DEFAULT_ITERATIONS -> keyslot_is_present x = true).
  { intros x Hx. unfold keyslot_is_present. rewrite Hx. by destruct (Z.eqb_spec PBKDF2_DEFAULT_ITERATIONS 0); [lia|]. }
  assert (Hrw : fs_keyslot_rewrap level v1 (Some p1) (Some p2) (Some s2) (Some i2) = (E_OK, store_slot v1 b)).
  { unfold fs_keyslot_rewrap. rewrite (wf_mounted _ _ Hwf1), Hl1, Hpres, Hua, Hb by done. cbn [negb].
    by destruct (Z.leb_spec SEC_LEVEL_IMMUTABLE level); [lia|]. }
  rewrite Hrw. set (v2 := store_slot v1 b) in *. clearbody v2. do 3 (split; [done|]). split; [done|]. split; [congruence|].
  split; [|split].
  - intros Hu. destruct (Hre heap u stack Hu Hheap) as (Hwfm & Hlm & Habsm). set (m := init_fs heap u stack) in *. clearbody m.
    split; [congruence|]. unfold fs_keyslot_present, fs_keyslot_unlock. rewrite (wf_mounted _ _ Hwfm), Hlm, Hpres, Hub by done. done.
  - intros q err salt iv Hq. unfold fs_keyslot_rewrap. rewrite (wf_mounted _ _ Hwf1), Hl1, Hpres by done. cbn [negb]. rewrite Hl1 in Hq.
    rewrite Hq. by destruct (Z.leb_spec SEC_LEVEL_IMMUTABLE level); [lia|].
  - intros q salt iv. unfold fs_keyslot_rewrap. rewrite (wf_mounted _ _ Hwf1). done.
Qed.

End key.

#[local] Opaque new_fs keyslot_create keyslot_unwrap.

(** The blank disk of VfsProps. *)
Lemma passphrase_change_survives_witness :
  let '(_, v1, _) := fs_keyslot_install 1 Security.static_security new_fs (Some [97; 0]) (Some (replicate 32 9)) (Some (replicate 32 1)) (Some (replicate 16 2)) in
  let '(r2, v2) := fs_keyslot_rewrap 1 1 v1 (Some [97; 0]) (Some [98; 0]) (Some (replicate 32 3)) (Some (replicate 16 4)) in
  fs_keyslot_unlock 1 Security.static_security (init_fs boot_heap v2 []) (Some [98; 0])
  = (E_OK, Security.install_master_key Security.static_security (Some (replicate 32 9))).
Proof.
  destruct new_fs_wf as (Hwf & _ & _).
  assert (Hb : bytes (replicate 32 9)) by (apply bytes_dec; reflexivity).
  assert (H2 : st16 (replicate 16 2)) by (split; [reflexivity|apply bytes_dec; reflexivity]).
  assert (H4 : st16 (replicate 16 4)) by (split; [reflexivity|apply bytes_dec; reflexivity]).
  destruct (fs_keyslot_install 1 Security.static_security new_fs (Some [97; 0]) (Some (replicate 32 9)) (Some (replicate 32 1)) (Some (replicate 16 2)))
    as [[r1 v1] sec1] eqn:E1.
  destruct (fs_keyslot_rewrap 1 1 v1 (Some [97; 0]) (Some [98; 0]) (Some (replicate 32 3)) (Some (replicate 16 4))) as [r2 v2] eqn:E2.
  pose proof (passphrase_change_survives 1 new_fs (fun _ => []) Security.static_security [97; 0] [98; 0] (replicate 32 9)
    (replicate 32 1) (replicate 16 2) (replicate 32 3) (replicate 16 4) 1 boot_heap v2 [] Security.static_security
    Hwf ltac:(unfold PBKDF2_MAX_ITERATIONS; lia) eq_refl eq_refl Hb eq_refl eq_refl H2 eq_refl H4 eq_refl eq_refl) as H.
  rewrite E1, E2 in H. destruct H as (_ & _ & _ & _ & _ & H & _). apply H. reflexivity.
Defined.

End DiskKey.
