(* ===== verification/Pipe.v ===== *)
(** * Pipes (kernel/proc/pipe.c)

    The ring buffer of a pipe, its reads and writes, and the pool the pipes come
    from.  The counters [head] and [tail] run freely and wrap at 2^32; a pipe is
    a bounded queue of bytes all the same ([pipe_refines_queue]).  A [pipe_t *]
    is an index of the pool, [None] the null pointer.  The calls of
    [wakeup_tasks(WAIT_IPC)] are the boolean results. *)

From S2P Require Import Prelude CStr.

Module Pipe.

Definition PIPE_SIZE : Z := 4096.
Definition MAX_SYSTEM_PIPES : Z := 16.

Record pipe : Type := mk_pipe {
  buffer : list Z;
  head : Z;
  tail : Z;
  read_refs : Z;
  write_refs : Z;
  broken_reported : bool
}.

#[export] Instance pipe_czero : CZero pipe := mk_pipe (replicate (Z.to_nat PIPE_SIZE) 0) 0 0 0 0 false.

Definition set_refs (p : pipe) (r w : Z) : pipe := mk_pipe (buffer p) (head p) (tail p) r w (broken_reported p).

(** ** Reading and writing *)

(** The body of the loop of [pipe_read]; the second component is what has been
    put into [buf] so far. *)
Definition read_byte (st : pipe * list Z) : pipe * list Z :=
  let '(p, out) := st in
  (mk_pipe (buffer p) (u32 (head p + 1)) (tail p) (read_refs p) (write_refs p) (broken_reported p),
   out ++ [(buffer p).[head p mod PIPE_SIZE]]).

Definition read_more (size : Z) (st : pipe * list Z) : bool :=
  (alen st.2 <? size) && negb (head st.1 =? tail st.1).

(** [buf] is whether the pointer is not null. Result, bytes read, pipe, wake-up. *)
Definition pipe_read (p : pipe) (buf : bool) (size : Z) : Z * list Z * pipe * bool :=
  if negb buf || (size <=? 0) then (E_INVAL, [], p, false)
  else if head p =? tail p then ((if write_refs p <=? 0 then 0 else E_AGAIN), [], p, false)
  else
    let '(p, out) := while_loop (Z.to_nat size) (read_more size) read_byte (p, []) in
    (alen out, out, p, true).

(** The body of the loop of [pipe_write]; the second component is [bytes_written]. *)
Definition write_byte (buf : list Z) (st : pipe * Z) : pipe * Z :=
  let '(p, n) := st in
  (mk_pipe (buffer p).[tail p mod PIPE_SIZE <- buf.[n]] (head p) (u32 (tail p + 1)) (read_refs p) (write_refs p)
     (broken_reported p), n + 1).

Definition write_more (size : Z) (st : pipe * Z) : bool :=
  (st.2 <? size) && (u32 (tail st.1 - head st.1) <? PIPE_SIZE).

Definition pipe_write (p : pipe) (buf : option (list Z)) (size : Z) : Z * pipe * bool :=
  match buf with
  | None => (E_INVAL, p, false)
  | Some buf =>
      if size <=? 0 then (E_INVAL, p, false)
      else if read_refs p <=? 0 then
        (E_PIPE, mk_pipe (buffer p) (head p) (tail p) (read_refs p) (write_refs p) true, false)
      else if PIPE_SIZE <=? u32 (tail p - head p) then (E_AGAIN, p, false)
      else
        let '(p, n) := while_loop (Z.to_nat size) (write_more size) (write_byte buf) (p, 0) in
        (n, p, true)
  end.

(** ** The pool *)

Record pipes : Type := mk_pipes {
  pipe_pool : list pipe;
  pipe_active : list Z;
  pipe_names : list (list Z)
}.

Definition new_pipe (old : pipe) : pipe := mk_pipe (buffer old) 0 0 1 1 false.

Definition create_pipe (s : pipes) : option Z * pipes :=
  match for_find 0 MAX_SYSTEM_PIPES (fun i => (pipe_active s).[i] =? 0) with
  | Some i =>
      (Some i, mk_pipes (pipe_pool s).[i <- new_pipe (pipe_pool s).[i]] (pipe_active s).[i <- 1]
                 (pipe_names s).[i <- (pipe_names s).[i].[0 <- 0]])
  | None => (None, s)
  end.

Definition get_or_create_named_pipe (s : pipes) (name : list Z) : option Z * pipes :=
  match for_find 0 MAX_SYSTEM_PIPES
          (fun i => ((pipe_active s).[i] =? 1) && (ft_strcmp (pipe_names s).[i] name =? 0)) with
  | Some i => (Some i, s)
  | None =>
      let '(p, s) := create_pipe s in
      match p with
      | Some i =>
          (Some i, mk_pipes (pipe_pool s) (pipe_active s)
                     (pipe_names s).[i <- (ft_strlcpy (pipe_names s).[i] name 32).2])
      | None => (None, s)
      end
  end.

Definition destroy_pipe (s : pipes) (p : option Z) : pipes :=
  match p with
  | None => s
  | Some i =>
      if (0 <=? i) && (i <? MAX_SYSTEM_PIPES) then
        mk_pipes (pipe_pool s).[i <- set_refs (pipe_pool s).[i] 0 0] (pipe_active s).[i <- 0]
          (pipe_names s).[i <- (pipe_names s).[i].[0 <- 0]]
      else s
  end.

(** ** A pipe is a bounded queue *)

Definition used (p : pipe) : Z := u32 (tail p - head p).

Record pipe_ok (p : pipe) : Prop := {
  po_buffer : alen (buffer p) = PIPE_SIZE;
  po_head : is_u32 (head p);
  po_tail : is_u32 (tail p);
  po_used : used p <= PIPE_SIZE
}.

(** The bytes waiting in the pipe, oldest first. *)
Definition contents (p : pipe) : list Z := (fun i => (buffer p).[(head p + i) mod PIPE_SIZE]) <$> seqZ 0 (used p).

Lemma alen_waiting p : alen (contents p) = used p.
Proof.
  unfold contents, alen. rewrite length_fmap, length_seqZ. pose proof (u32_range (tail p - head p)) as Hr.
  unfold is_u32, used in *. lia.
Qed.

Lemma u32_sub_r a b : u32 (a - u32 b) = u32 (a - b).
Proof. apply Zminus_mod_idemp_r. Qed.

Lemma u32_sub_l a b : u32 (u32 a - b) = u32 (a - b).
Proof. apply Zminus_mod_idemp_l. Qed.

Lemma u32_pred a : 0 < u32 a -> u32 (a - 1) = u32 a - 1.
Proof. unfold u32. intros Ha. symmetry. apply Z.mod_unique_pos with (a / 2 ^ 32); zlia. Qed.

Lemma u32_succ a : u32 a < 2 ^ 32 - 1 -> u32 (a + 1) = u32 a + 1.
Proof. unfold u32. intros Ha. symmetry. apply Z.mod_unique_pos with (a / 2 ^ 32); zlia. Qed.

(** The indices wrap with the counters because the size of the buffer divides 2^32. *)
Lemma u32_index a : u32 a mod PIPE_SIZE = a mod PIPE_SIZE.
Proof. unfold u32, PIPE_SIZE. apply Z.mod_unique_pos with (a mod 2 ^ 32 / 4096 + 2 ^ 20 * (a / 2 ^ 32)); zlia. Qed.

Lemma used_zero p : pipe_ok p -> (head p =? tail p) = (used p =? 0).
Proof.
  intros [_ Hh Ht _]. unfold used, u32, is_u32 in *.
  destruct (Z.eqb_spec (head p) (tail p)), (Z.eqb_spec ((tail p - head p) mod 2 ^ 32) 0); try done; exfalso; zlia.
Qed.

Lemma read_byte_ok p out :
  pipe_ok p -> 0 < used p ->
  exists b rest, contents p = b :: rest /\ (read_byte (p, out)).2 = out ++ [b] /\
    pipe_ok (read_byte (p, out)).1 /\ contents (read_byte (p, out)).1 = rest /\
    used (read_byte (p, out)).1 = used p - 1 /\
    read_refs (read_byte (p, out)).1 = read_refs p /\ write_refs (read_byte (p, out)).1 = write_refs p.
Proof.
  intros [Hb Hh Ht Hu] Hpos. set (q := (read_byte (p, out)).1).
  assert (used q = used p - 1) as Huq.
  { unfold q, used in *. cbn [read_byte fst head tail]. rewrite u32_sub_r, <- u32_pred by done. f_equal. lia. }
  assert (pipe_ok q) as Hq.
  { constructor; [done|apply u32_range|done|lia]. }
  exists (buffer p).[head p mod PIPE_SIZE], (contents q).
  split; [|split; [done|split; [done|split; [done|split; done]]]].
  unfold contents. rewrite Huq, seqZ_cons, fmap_cons, Z.add_0_r by lia. f_equal.
  replace (Z.pred (used p)) with (used p - 1) by lia. change (Z.succ 0) with (1 + 0).
  rewrite <- (fmap_add_seqZ 1 0), <- list_fmap_compose. apply list_fmap_ext. intros _ i _.
  unfold q. cbn [compose read_byte fst buffer head]. f_equal.
  rewrite <- (Z.add_mod_idemp_l (u32 _)), u32_index, Z.add_mod_idemp_l by done. f_equal. lia.
Qed.

Lemma tail_index p : tail p mod PIPE_SIZE = (head p + used p) mod PIPE_SIZE.
Proof. unfold used. rewrite <- Z.add_mod_idemp_r, u32_index, Z.add_mod_idemp_r by done. f_equal. lia. Qed.

Lemma write_byte_ok buf p n :
  pipe_ok p -> used p < PIPE_SIZE ->
  pipe_ok (write_byte buf (p, n)).1 /\ contents (write_byte buf (p, n)).1 = contents p ++ [buf.[n]] /\
  used (write_byte buf (p, n)).1 = used p + 1 /\ (write_byte buf (p, n)).2 = n + 1 /\
  read_refs (write_byte buf (p, n)).1 = read_refs p /\ write_refs (write_byte buf (p, n)).1 = write_refs p.
Proof.
  intros [Hb Hh Ht Hu] Hroom. set (q := (write_byte buf (p, n)).1).
  pose proof (u32_range (tail p - head p)) as Hur. fold (used p) in Hur. unfold is_u32 in Hur.
  assert (used q = used p + 1) as Huq.
  { unfold q, used in *. cbn [write_byte fst head tail]. unfold PIPE_SIZE in *.
    rewrite u32_sub_l, <- u32_succ by lia. f_equal. lia. }
  assert (pipe_ok q) as Hq.
  { constructor; [by cbn; rewrite alen_aset|done|apply u32_range|lia]. }
  split; [done|]. split; [|done].
  unfold contents. rewrite Huq, seqZ_app, fmap_app by lia. unfold q. cbn [write_byte fst buffer head].
  rewrite tail_index. f_equal.
  - apply list_fmap_ext. intros _ i Hi%list_elem_of_lookup_2%elem_of_seqZ.
    apply aget_aset_ne; unfold PIPE_SIZE in *; zlia.
  - rewrite seqZ_cons by lia. cbn [fmap list_fmap]. rewrite Z.add_0_l, aget_aset_eq; [done|]. rewrite Hb. unfold PIPE_SIZE in *. zlia.
Qed.

(** Both loops run until the request is done or the queue is empty, or full. *)
Lemma read_loop n size p out :
  pipe_ok p -> Z.of_nat n = size - alen out -> 
  exists p', while_loop n (read_more size) read_byte (p, out) = (p', out ++ take n (contents p)) /\ pipe_ok p' /\
    contents p' = drop n (contents p) /\ read_refs p' = read_refs p /\ write_refs p' = write_refs p.
Proof.
  revert p out. induction n as [|n IH]; intros p out Hp Hn.
  { exists p. rewrite take_0, app_nil_r. done. }
  cbn [while_loop]. unfold read_more at 1. cbn [fst snd].
  rewrite (proj2 (Z.ltb_lt _ _)), used_zero by (done || lia). cbn [andb].
  destruct (Z.eqb_spec (used p) 0) as [H0|H0]; cbn [negb].
  { exists p. assert (contents p = []) as ->; [|by rewrite take_nil, drop_nil, app_nil_r].
    apply nil_length_inv. pose proof (alen_waiting p). unfold alen in *. lia. }
  pose proof (alen_waiting p) as Hlen. pose proof (alen_nonneg (contents p)).
  destruct (read_byte_ok p out Hp ltac:(lia)) as (b & rest & Hc & Hout & Hq & Hcq & _ & Hr & Hw).
  destruct (read_byte (p, out)) as [q out'] eqn:Hrb. cbn in *. subst out'.
  destruct (IH q (out ++ [b]) Hq) as (p' & -> & Hp' & Hc' & Hr' & Hw').
  { unfold alen in *. rewrite length_app. cbn. lia. }
  exists p'. rewrite Hc. cbn [take drop]. rewrite <- app_assoc, Hcq. cbn. split_and!; congruence.
Qed.

Lemma write_loop n buf size p k :
  pipe_ok p -> 0 <= k -> k + Z.of_nat n = size -> size <= alen buf ->
  let m := Z.min (Z.of_nat n) (PIPE_SIZE - used p) in
  exists p', while_loop n (write_more size) (write_byte buf) (p, k) = (p', k + m) /\ pipe_ok p' /\
    contents p' = contents p ++ take (Z.to_nat m) (drop (Z.to_nat k) buf) /\
    read_refs p' = read_refs p /\ write_refs p' = write_refs p.
Proof.
  revert p k. induction n as [|n IH]; intros p k Hp Hk Hn Hbuf m.
  { exists p. pose proof (po_used p Hp). unfold m. rewrite Z.min_l, Z.add_0_r, app_nil_r by lia. done. }
  cbn [while_loop]. unfold write_more at 1. cbn [fst snd]. fold (used p).
  rewrite (proj2 (Z.ltb_lt k size)) by lia. cbn [andb]. pose proof (po_used p Hp) as Hu.
  destruct (Z.ltb_spec (used p) PIPE_SIZE) as [Hroom|Hfull].
  2:{ exists p. unfold m. rewrite Z.min_r by lia. replace (PIPE_SIZE - used p) with 0 by lia.
      rewrite Z.add_0_r, app_nil_r. done. }
  destruct (write_byte_ok buf p k Hp Hroom) as (Hq & Hcq & Huq & Hk' & Hr & Hw).
  destruct (write_byte buf (p, k)) as [q k'] eqn:Hwb. cbn [fst snd] in *. subst k'.
  destruct (IH q (k + 1) Hq ltac:(lia) ltac:(lia) Hbuf) as (p' & -> & Hp' & Hc' & Hr' & Hw').
  exists p'. rewrite Huq in *. split; [f_equal; lia|]. split; [done|]. split; [|by rewrite Hr', Hw'].
  rewrite Hc', Hcq, <- app_assoc. f_equal. unfold m.
  replace (Z.to_nat (Z.min (Z.of_nat (S n)) (PIPE_SIZE - used p)))
    with (S (Z.to_nat (Z.min (Z.of_nat n) (PIPE_SIZE - (used p + 1))))) by lia.
  replace (Z.to_nat (k + 1)) with (S (Z.to_nat k)) by lia.
  rewrite (drop_S buf (buf.[k]) (Z.to_nat k)) by (apply aget_lookup; lia). reflexivity.
Qed.

(** ** The specification: a queue of at most [PIPE_SIZE] bytes *)

Record queue : Type := mk_queue { waiting : list Z; readers : Z; writers : Z }.

(** A read takes what is there; on an empty queue it reports the end of the
    stream when no writer is left and "try again" otherwise. *)
Definition queue_read (q : queue) (size : Z) : Z * list Z * queue * bool :=
  match waiting q with
  | [] => ((if writers q <=? 0 then 0 else E_AGAIN), [], q, false)
  | ws => (Z.min size (alen ws), take (Z.to_nat size) ws,
           mk_queue (drop (Z.to_nat size) ws) (readers q) (writers q), true)
  end.

(** A write takes what fits, and is refused when there is no reader or no room. *)
Definition queue_write (q : queue) (data : list Z) : Z * queue * bool :=
  if readers q <=? 0 then (E_PIPE, q, false)
  else
    let room := PIPE_SIZE - alen (waiting q) in
    if room =? 0 then (E_AGAIN, q, false)
    else (Z.min (alen data) room, mk_queue (waiting q ++ take (Z.to_nat room) data) (readers q) (writers q), true).

Definition abs (p : pipe) : queue := mk_queue (contents p) (read_refs p) (write_refs p).

Lemma pipe_read_queue p size :
  pipe_ok p -> 0 < size ->
  exists p', pipe_read p true size = ((queue_read (abs p) size).1.1.1, (queue_read (abs p) size).1.1.2, p',
                                      (queue_read (abs p) size).2) /\
    pipe_ok p' /\ abs p' = (queue_read (abs p) size).1.2.
Proof.
  intros Hp Hsize. unfold pipe_read. cbn [negb orb]. case_bool; [lia|]. rewrite used_zero by done.
  unfold queue_read, abs. cbn [waiting writers readers].
  pose proof (alen_waiting p) as Hlen. destruct (contents p) as [|b rest] eqn:Hc.
  { change (alen []) with 0 in Hlen. rewrite <- Hlen. cbn. exists p. by rewrite Hc. }
  destruct (Z.eqb_spec (used p) 0) as [H0|H0].
  { rewrite H0 in Hlen. unfold alen in Hlen. cbn in Hlen. lia. }
  destruct (read_loop (Z.to_nat size) size p [] Hp) as (p' & -> & Hp' & Hc' & Hr & Hw).
  { change (alen []) with 0. lia. }
  exists p'. cbn [app]. rewrite Hc in *. split; [|split; [done|cbn; congruence]].
  cbn [fst snd]. f_equal. f_equal. f_equal. unfold alen. rewrite length_take. cbn. lia.
Qed.

Lemma pipe_write_queue p data :
  pipe_ok p -> data <> [] ->
  exists p', pipe_write p (Some data) (alen data) =
      ((queue_write (abs p) data).1.1, p', (queue_write (abs p) data).2) /\
    pipe_ok p' /\ abs p' = (queue_write (abs p) data).1.2.
Proof.
  intros Hp Hdata. unfold pipe_write, queue_write. cbn [abs readers waiting writers].
  rewrite alen_waiting. fold (used p). pose proof (po_used p Hp).
  pose proof (alen_pos data Hdata).
  rewrite (proj2 (Z.leb_gt (alen data) 0)) by done.
  destruct (read_refs p <=? 0).
  { eexists. split; [done|]. by destruct Hp. }
  destruct (Z.leb_spec PIPE_SIZE (used p)), (Z.eqb_spec (PIPE_SIZE - used p) 0); try lia; [by exists p|].
  destruct (write_loop (Z.to_nat (alen data)) data (alen data) p 0 Hp) as (p' & -> & Hp' & Hc & Hr & Hw); [lia..|].
  exists p'. cbn [fst snd]. rewrite Z.add_0_l, Z2Nat.id by lia. split; [done|]. split; [done|].
  unfold abs. rewrite Hc, Hr, Hw. f_equal. f_equal. change (drop (Z.to_nat 0) data) with data.
  rewrite Z2Nat.id by lia. destruct (Z.min_spec (alen data) (PIPE_SIZE - used p)) as [[? ->]|[? ->]]; [|done].
  rewrite !take_ge by (unfold alen in *; lia). done.
Qed.

(** ** Sequences of calls *)

(** What can happen to a pipe between its creation and its end: reads and
    writes, and changes of the two reference counts by the descriptor calls. *)
Inductive pipe_call : Type :=
| Read (buf : bool) (size : Z)
| Write (buf : option (list Z)) (size : Z)
| Refs (r w : Z).

(** The memory behind the pointer of a write holds the bytes the call names. *)
Definition call_ok (c : pipe_call) : Prop :=
  match c with Write (Some buf) size => size <= alen buf | _ => True end.

(** What a caller sees: the result, the bytes delivered, whether sleepers are woken. *)
Definition outcome : Type := Z * list Z * bool.

Definition pipe_step (c : pipe_call) (p : pipe) : outcome * pipe :=
  match c with
  | Read buf size => let '(r, out, p, woken) := pipe_read p buf size in ((r, out, woken), p)
  | Write buf size => let '(r, p, woken) := pipe_write p buf size in ((r, [], woken), p)
  | Refs r w => ((0, [], false), set_refs p r w)
  end.

Definition queue_step (c : pipe_call) (q : queue) : outcome * queue :=
  match c with
  | Read true size =>
      if size <=? 0 then ((E_INVAL, [], false), q)
      else let '(r, out, q, woken) := queue_read q size in ((r, out, woken), q)
  | Write (Some buf) size =>
      if size <=? 0 then ((E_INVAL, [], false), q)
      else let '(r, q, woken) := queue_write q (take (Z.to_nat size) buf) in ((r, [], woken), q)
  | Refs r w => ((0, [], false), mk_queue (waiting q) r w)
  | _ => ((E_INVAL, [], false), q)
  end.

Fixpoint run {S} (step : pipe_call -> S -> outcome * S) (cs : list pipe_call) (s : S) : list outcome * S :=
  match cs with
  | [] => ([], s)
  | c :: cs => let '(o, s) := step c s in let '(os, s) := run step cs s in (o :: os, s)
  end.

(** A write of the first [size] bytes of a longer buffer only looks at those. *)
Lemma write_loop_take n buf size p k :
  0 <= k -> k + Z.of_nat n = size -> size <= alen buf ->
  while_loop n (write_more size) (write_byte buf) (p, k) =
  while_loop n (write_more size) (write_byte (take (Z.to_nat size) buf)) (p, k).
Proof.
  revert p k. induction n as [|n IH]; intros p k Hk Hn Hs; [done|]. cbn [while_loop].
  destruct (write_more size (p, k)); [|done].
  assert ((take (Z.to_nat size) buf).[k] = buf.[k]) as Heq by (apply aget_take; lia).
  unfold write_byte at 2 4. rewrite Heq. apply IH; lia.
Qed.

Lemma pipe_write_take p buf size :
  0 < size <= alen buf ->
  pipe_write p (Some buf) size = pipe_write p (Some (take (Z.to_nat size) buf)) (alen (take (Z.to_nat size) buf)).
Proof.
  intros Hs. assert (alen (take (Z.to_nat size) buf) = size) as -> by (apply alen_take; lia).
  unfold pipe_write. rewrite write_loop_take by lia. done.
Qed.

Lemma pipe_step_queue c p :
  pipe_ok p -> call_ok c ->
  (pipe_step c p).1 = (queue_step c (abs p)).1 /\ pipe_ok (pipe_step c p).2 /\
  abs (pipe_step c p).2 = (queue_step c (abs p)).2.
Proof.
  intros Hp Hc. destruct c as [[] size|[buf|] size|r w]; cbn [pipe_step queue_step]; try done.
  - destruct (Z.leb_spec size 0) as [Hs|Hs].
    { unfold pipe_read. cbn [negb orb]. rewrite (proj2 (Z.leb_le size 0)) by done. done. }
    destruct (pipe_read_queue p size Hp Hs) as (p' & -> & Hp' & Ha).
    by destruct (queue_read (abs p) size) as [[[]]].
  - cbn in Hc. destruct (Z.leb_spec size 0) as [Hs|Hs].
    { unfold pipe_write. rewrite (proj2 (Z.leb_le size 0)) by done. done. }
    rewrite pipe_write_take by lia.
    destruct (pipe_write_queue p (take (Z.to_nat size) buf) Hp) as (p' & -> & Hp' & Ha).
    { intros Hnil%(f_equal length). rewrite length_take in Hnil. unfold alen in *. cbn in Hnil. lia. }
    by destruct (queue_write (abs p) (take (Z.to_nat size) buf)) as [[]].
  - by destruct Hp.
Qed.

Lemma run_queue cs p :
  pipe_ok p -> Forall call_ok cs ->
  (run pipe_step cs p).1 = (run queue_step cs (abs p)).1 /\ pipe_ok (run pipe_step cs p).2 /\
  abs (run pipe_step cs p).2 = (run queue_step cs (abs p)).2.
Proof.
  intros Hp Hcs. revert p Hp. induction Hcs as [|c cs Hc Hcs IH]; intros p Hp; [done|]. cbn [run].
  destruct (pipe_step_queue c p Hp Hc) as (Ho & Hp' & Ha).
  destruct (pipe_step c p) as [o p'], (queue_step c (abs p)) as [o' q']. cbn in Ho, Hp', Ha. subst.
  destruct (IH p' Hp') as (Hos & Hp'' & Ha').
  destruct (run pipe_step cs p') as [os p''], (run queue_step cs (abs p')) as [os' q'']. cbn in *. by subst.
Qed.

(** The bytes the calls of a run deliver, and those they accept. *)
Definition delivered (os : list outcome) : list Z := concat (map (fun o => o.1.2) os).

Fixpoint accepted (cs : list pipe_call) (os : list outcome) : list Z :=
  match cs, os with
  | Write (Some buf) _ :: cs, o :: os => take (Z.to_nat o.1.1) buf ++ accepted cs os
  | _ :: cs, _ :: os => accepted cs os
  | _, _ => []
  end.

Lemma queue_step_fifo c q :
  call_ok c -> alen (waiting q) <= PIPE_SIZE ->
  (queue_step c q).1.1.2 ++ waiting (queue_step c q).2 = waiting q ++ accepted [c] [(queue_step c q).1].
Proof.
  intros Hc Hq. destruct c as [[] size|[buf|] size|r w]; cbn [queue_step accepted fst snd app];
    rewrite ?app_nil_r; try done.
  - destruct (size <=? 0); [done|]. unfold queue_read. destruct (waiting q) as [|b ws] eqn:Hw; cbn [fst snd].
    { by rewrite Hw. }
    cbn [waiting]. apply take_drop.
  - cbn in Hc. destruct (Z.leb_spec size 0) as [Hs|Hs]; [cbn; by rewrite app_nil_r|].
    unfold queue_write. destruct (readers q <=? 0); [cbn; by rewrite app_nil_r|].
    destruct (Z.eqb_spec (PIPE_SIZE - alen (waiting q)) 0); [cbn; by rewrite app_nil_r|].
    cbn [fst snd waiting app]. f_equal. rewrite take_take. f_equal. unfold alen in *. rewrite length_take. lia.
Qed.

Lemma queue_step_bound c q :
  alen (waiting q) <= PIPE_SIZE -> alen (waiting (queue_step c q).2) <= PIPE_SIZE.
Proof.
  intros Hq. destruct c as [[] size|[buf|] size|r w]; cbn [queue_step]; try done; destruct (size <=? 0); try done.
  - unfold queue_read. destruct (waiting q) as [|b ws] eqn:Hw; cbn [fst snd waiting]; [by rewrite Hw|].
    unfold alen in *. rewrite length_drop. lia.
  - unfold queue_write. destruct (readers q <=? 0); [done|]. case_bool; [done|]. cbn [fst snd waiting].
    unfold alen in *. rewrite length_app, length_take. lia.
Qed.

(** C14: A pipe is a bounded queue.  For every sequence of reads, writes and
    changes of the reference counts, starting from any well-formed pipe (the
    free-running counters may be anywhere, also about to wrap at 2^32), the
    results, the bytes delivered and the wake-ups are those of a queue of at
    most [PIPE_SIZE] bytes, and the pipe stays well formed. *)
Theorem pipe_refines_queue cs p :
  pipe_ok p -> Forall call_ok cs ->
  (run pipe_step cs p).1 = (run queue_step cs (abs p)).1 /\
  abs (run pipe_step cs p).2 = (run queue_step cs (abs p)).2 /\ pipe_ok (run pipe_step cs p).2.
Proof. intros Hp Hcs. by destruct (run_queue cs p Hp Hcs) as (? & ? & ?). Qed.

(** A pipe whose counters are three bytes before the wrap. *)
Definition wrapping_pipe : pipe := mk_pipe (replicate (Z.to_nat PIPE_SIZE) 7) (2 ^ 32 - 3) (2 ^ 32 - 3) 1 1 false.

Lemma wrapping_pipe_ok : pipe_ok wrapping_pipe.
Proof. split; cbn; try (unfold is_u32; lia); done. Qed.

Definition pipe_calls : list pipe_call :=
  [Read true 10; Write (Some [1; 2; 3; 4; 5]) 5; Read true 2; Refs 1 0; Read true 10; Read true 10;
   Refs 0 0; Write (Some [1]) 1].

Lemma pipe_calls_ok : Forall call_ok pipe_calls.
Proof. repeat apply Forall_cons_2; try apply Forall_nil_2; done. Qed.

Lemma pipe_refines_queue_witness :
  (run pipe_step pipe_calls wrapping_pipe).1 =
  [(E_AGAIN, [], false); (5, [], true); (2, [1; 2], true); (0, [], false); (3, [3; 4; 5], true); (0, [], false);
   (0, [], false); (E_PIPE, [], false)].
Proof. exact (proj1 (pipe_refines_queue pipe_calls wrapping_pipe wrapping_pipe_ok pipe_calls_ok)). Defined.

(** Bytes leave a pipe in the order they entered it and none is lost,
    duplicated or invented: over any run, what the reads deliver followed by
    what is still waiting is what was waiting before followed by the bytes the
    writes accepted. *)
Theorem pipe_fifo cs p :
  pipe_ok p -> Forall call_ok cs ->
  delivered (run pipe_step cs p).1 ++ contents (run pipe_step cs p).2 =
  contents p ++ accepted cs (run pipe_step cs p).1.
Proof.
  intros Hp Hcs. revert p Hp. induction Hcs as [|c cs Hc Hcs IH]; intros p Hp; [cbn; by rewrite app_nil_r|].
  cbn [run]. destruct (pipe_step_queue c p Hp Hc) as (Ho & Hp' & Ha).
  assert (alen (waiting (abs p)) <= PIPE_SIZE) as Hb by (cbn; rewrite alen_waiting; apply Hp).
  pose proof (queue_step_fifo c (abs p) Hc Hb) as Hf. rewrite <- Ho, <- Ha in Hf.
  destruct (pipe_step c p) as [o p']. cbn [fst snd abs waiting] in *. specialize (IH p' Hp').
  destruct (run pipe_step cs p') as [os p'']. cbn [fst snd] in *. unfold delivered in *. cbn [map concat].
  rewrite <- app_assoc, IH, app_assoc, Hf, <- app_assoc. f_equal.
  destruct c as [| [] |]; cbn; rewrite ?app_nil_r; done.
Qed.

Lemma pipe_fifo_witness :
  delivered (run pipe_step pipe_calls wrapping_pipe).1 ++ contents (run pipe_step pipe_calls wrapping_pipe).2 =
  contents wrapping_pipe ++ accepted pipe_calls (run pipe_step pipe_calls wrapping_pipe).1.
Proof. exact (pipe_fifo pipe_calls wrapping_pipe wrapping_pipe_ok pipe_calls_ok). Defined.

End Pipe.
