(* ===== verification/Fd.v ===== *)
(** * File descriptors (kernel/syscall/sys_fs.c, kernel/proc/process.c)

    The descriptor tables of the tasks and the calls that create, copy and drop
    descriptors: pipe, dup2, close, the copy a new task gets, and what the exit
    of a task releases.  A descriptor holds a pointer: [1 + i] for pipe [i] of the
    pool, the heap address of an open file, the number of a device, 0 for null.
    An open file is an object of [files]; [kfree] removes it.  The theorems are
    about the reference counts: they are the number of descriptors. *)

From S2P Require Import Prelude CStr FsFormat BlockStore Vfs Pipe.
Import FsFormat BlockStore Vfs Pipe.

Module Fd.

Definition MAX_FD_PER_TASK : Z := 16.
Definition FD_TYPE_NONE : Z := 0.
Definition FD_TYPE_CONSOLE : Z := 1.
Definition FD_TYPE_FILE : Z := 2.
Definition FD_TYPE_PIPE : Z := 3.
Definition FD_TYPE_DEVICE : Z := 4.

Record file_descriptor : Type := mk_fd { fd_type : Z; fd_ptr : Z; fd_offset : Z; fd_mode : Z }.

#[export] Instance fd_czero : CZero file_descriptor := mk_fd 0 0 0 0.

(** What [sys_close] leaves of a descriptor; the offset is not touched. *)
Definition cleared (d : file_descriptor) : file_descriptor := mk_fd FD_TYPE_NONE 0 (fd_offset d) 0.

Definition pipe_ptr (i : Z) : Z := i + 1.
Definition pipe_at (ptr : Z) : Z := ptr - 1.

(** ** References to pipes *)

Definition set_pipe (ps : pipes) (i : Z) (p : pipe) : pipes :=
  mk_pipes (pipe_pool ps).[i <- p] (pipe_active ps) (pipe_names ps).

(** [if (mode == 1) p->write_refs--; else p->read_refs--;] and the end of a pipe
    that has lost both ends. *)
Definition drop_end (ps : pipes) (i mode : Z) : pipes :=
  let p := (pipe_pool ps).[i] in
  let p := if mode =? 1 then set_refs p (read_refs p) (write_refs p - 1) else set_refs p (read_refs p - 1) (write_refs p) in
  let ps := set_pipe ps i p in
  if (read_refs p <=? 0) && (write_refs p <=? 0) then destroy_pipe ps (Some i) else ps.

Definition take_end (ps : pipes) (i mode : Z) : pipes :=
  let p := (pipe_pool ps).[i] in
  set_pipe ps i
    (if mode =? 1 then set_refs p (read_refs p) (write_refs p + 1) else set_refs p (read_refs p + 1) (write_refs p)).

(** ** References to open files *)

Definition set_ref (f : vfs_file) (n : Z) : vfs_file :=
  mk_file (vf_filename f) (vf_file_size f) (vf_current_offset f) (vf_start_cluster f) n (vf_inode_idx f)
    (vf_write_buf f) (vf_write_cap f) (vf_dirty f).

Definition take_ref (fs : gmap Z vfs_file) (a : Z) : gmap Z vfs_file :=
  match fs !! a with Some f => <[a := set_ref f (vf_ref_count f + 1)]> fs | None => fs end.

(** What [sys_dup2] does: the last reference frees the object. *)
Definition drop_ref (fs : gmap Z vfs_file) (a : Z) : gmap Z vfs_file :=
  match fs !! a with
  | Some f => if vf_ref_count f - 1 <=? 0 then delete a fs else <[a := set_ref f (vf_ref_count f - 1)]> fs
  | None => fs
  end.

Section fd.
Context {S : Type} {bs : BlockStore S} {fc : FileCrypto}.

Record sys : Type := mk_sys {
  fd_tables : list (list file_descriptor);
  pool : pipes;
  files : gmap Z vfs_file;
  fsys : vfs S
}.

Definition table (s : sys) (t : Z) : list file_descriptor := (fd_tables s).[t].
Definition desc (s : sys) (t i : Z) : file_descriptor := (table s t).[i].
Definition set_table (s : sys) (t : Z) (l : list file_descriptor) : sys :=
  mk_sys (fd_tables s).[t <- l] (pool s) (files s) (fsys s).
Definition set_desc (s : sys) (t i : Z) (d : file_descriptor) : sys := set_table s t (table s t).[i <- d].
Definition set_pool (s : sys) (ps : pipes) : sys := mk_sys (fd_tables s) ps (files s) (fsys s).
Definition set_files (s : sys) (fs : gmap Z vfs_file) : sys := mk_sys (fd_tables s) (pool s) fs (fsys s).
Definition set_fsys (s : sys) (v : vfs S) : sys := mk_sys (fd_tables s) (pool s) (files s) v.

(** What [sys_close] and the exit of a task do: the last reference commits what
    was written and frees the object. *)
Definition close_ref (e : env) (s : sys) (a : Z) : Z * sys :=
  match files s !! a with
  | Some f =>
      let f := set_ref f (vf_ref_count f - 1) in
      if vf_ref_count f <=? 0 then
        let '(res, f, v) := fs_commit_writes e (fsys s) f in
        (res, set_fsys (set_files s (delete a (files s))) v)
      else (E_OK, set_files s (<[a := f]> (files s)))
  | None => (E_OK, s)
  end.

(** ** System calls *)

Definition validate_fd (s : sys) (t fd : Z) : bool := negb ((fd <? 0) || (alen (table s t) <=? fd)).

(** The first descriptor from [from] that is not in use. *)
Definition free_fd (s : sys) (t from : Z) : option Z :=
  for_find from (alen (table s t)) (fun i => fd_type (desc s t i) =? FD_TYPE_NONE).

(** [writable] is the answer of [validate_user_writable_pointer], [copied] that of
    [copy_to_user]. *)
Definition sys_pipe (writable : bool) (copied : Z) (s : sys) (t : Z) : Z * sys :=
  if negb writable then (E_FAULT, s)
  else
    let '(p, ps) := create_pipe (pool s) in
    match p with
    | None => (E_NOMEM, set_pool s ps)
    | Some p =>
        let s := set_pool s ps in
        match free_fd s t 3 with
        | Some fd1 =>
            match free_fd s t (fd1 + 1) with
            | Some fd2 =>
                let s := set_desc s t fd1 (mk_fd FD_TYPE_PIPE (pipe_ptr p) (fd_offset (desc s t fd1)) 0) in
                let s := set_desc s t fd2 (mk_fd FD_TYPE_PIPE (pipe_ptr p) (fd_offset (desc s t fd2)) 1) in
                (copied, s)
            | None => (E_MFILE, set_pool s (destroy_pipe (pool s) (Some p)))
            end
        | None => (E_MFILE, set_pool s (destroy_pipe (pool s) (Some p)))
        end
    end.

(** What [sys_dup2] does with the descriptor it overwrites. *)
Definition drop_old (s : sys) (d : file_descriptor) : sys :=
  if fd_type d =? FD_TYPE_PIPE then
    if negb (fd_ptr d =? 0) then set_pool s (drop_end (pool s) (pipe_at (fd_ptr d)) (fd_mode d)) else s
  else if fd_type d =? FD_TYPE_FILE then
    if negb (fd_ptr d =? 0) then set_files s (drop_ref (files s) (fd_ptr d)) else s
  else s.

(** The object behind a descriptor gets one reference more. *)
Definition acquire (s : sys) (d : file_descriptor) : sys :=
  if fd_type d =? FD_TYPE_PIPE then
    if negb (fd_ptr d =? 0) then set_pool s (take_end (pool s) (pipe_at (fd_ptr d)) (fd_mode d)) else s
  else if fd_type d =? FD_TYPE_FILE then
    if negb (fd_ptr d =? 0) then set_files s (take_ref (files s) (fd_ptr d)) else s
  else s.

Definition sys_dup2 (s : sys) (t oldfd newfd : Z) : Z * sys :=
  if negb (validate_fd s t oldfd) || negb (validate_fd s t newfd) then (E_BADF, s)
  else if fd_type (desc s t oldfd) =? FD_TYPE_NONE then (E_BADF, s)
  else if oldfd =? newfd then (newfd, s)
  else
    let s := drop_old s (desc s t newfd) in
    let s := set_desc s t newfd (desc s t oldfd) in
    (newfd, acquire s (desc s t oldfd)).

(** The object behind a descriptor loses the descriptor's reference. *)
Definition release (e : env) (s : sys) (d : file_descriptor) : Z * sys :=
  let s := if (fd_type d =? FD_TYPE_PIPE) && negb (fd_ptr d =? 0)
           then set_pool s (drop_end (pool s) (pipe_at (fd_ptr d)) (fd_mode d)) else s in
  if (fd_type d =? FD_TYPE_FILE) && negb (fd_ptr d =? 0) then close_ref e s (fd_ptr d) else (E_OK, s).

Definition sys_close (e : env) (s : sys) (t fd : Z) : Z * sys :=
  if negb (validate_fd s t fd) then (E_BADF, s)
  else
    let '(close_status, s) := release e s (desc s t fd) in
    (close_status, set_desc s t fd (cleared (desc s t fd))).

(** ** New tasks and the exit of a task *)

(** One turn of the loop of [inherit_fd_table]. *)
Definition inherit_one (child parent : Z) (s : sys) (k : Z) : sys :=
  let d := desc s parent k in
  let s := set_desc s child k d in
  if (fd_type d =? FD_TYPE_PIPE) && negb (fd_ptr d =? 0) then
    set_pool s (take_end (pool s) (pipe_at (fd_ptr d)) (fd_mode d))
  else if (fd_type d =? FD_TYPE_FILE) && negb (fd_ptr d =? 0) then
    let refs := from_option vf_ref_count 0 (files s !! fd_ptr d) in
    if (0 <=? refs) && (refs <? 1000) then set_files s (take_ref (files s) (fd_ptr d))
    else set_desc s child k (mk_fd FD_TYPE_NONE 0 (fd_offset d) (fd_mode d))
  else s.

Definition inherit_fd_table (s : sys) (child parent : Z) : sys :=
  for_range 0 (Z.min (alen (table s parent)) (alen (table s child))) (inherit_one child parent) s.

(** The descriptor table a new task starts with, at the end of the list. *)
Definition new_table : list file_descriptor := replicate (Z.to_nat MAX_FD_PER_TASK) czero.
Definition create_task (s : sys) : Z * sys :=
  (alen (fd_tables s), mk_sys (fd_tables s ++ [new_table]) (pool s) (files s) (fsys s)).

(** What [sys_fork] does to the descriptors, with the slot of the child. *)
Definition fork_fds (s : sys) (parent : Z) : Z * sys :=
  let '(child, s) := create_task s in (child, inherit_fd_table s child parent).

Definition set_console (s : sys) (t i : Z) : sys :=
  let d := desc s t i in set_desc s t i (mk_fd FD_TYPE_CONSOLE (fd_ptr d) (fd_offset d) (fd_mode d)).

(** What [load_and_exec_elf] does to them. *)
Definition exec_fds (s : sys) (parent : Z) : Z * sys :=
  let '(child, s) := fork_fds s parent in
  (child, if fd_type (desc s child 0) =? FD_TYPE_NONE then set_console (set_console (set_console s child 0) child 1) child 2
          else s).

Definition exit_one (e : env) (t : Z) (s : sys) (i : Z) : sys :=
  let d := desc s t i in
  if fd_type d =? FD_TYPE_NONE then s else set_desc (release e s d).2 t i (cleared d).

Definition exit_fds (e : env) (s : sys) (t : Z) : sys :=
  set_table (for_range 0 (alen (table s t)) (exit_one e t) s) t [].

End fd.

Arguments sys : clear implicits.

(** ** Accounting *)

(** [E i w]: the number of descriptors of the writing ([w]) or reading end of
    pipe [i]; [R a]: the number of descriptors of open file [a].  The pool and the
    files agree with these numbers, and hold nothing that has none. *)
Record accounted (E : Z -> bool -> Z) (R : Z -> Z) (ps : pipes) (fs : gmap Z vfs_file) : Prop := {
  ac_lens : alen (pipe_pool ps) = MAX_SYSTEM_PIPES /\ alen (pipe_active ps) = MAX_SYSTEM_PIPES;
  ac_ends : forall i w, 0 <= E i w;
  ac_refs : forall a, 0 <= R a;
  ac_live : forall i, 0 <= i < MAX_SYSTEM_PIPES -> (pipe_active ps).[i] = 1 ->
    read_refs (pipe_pool ps).[i] = E i false /\ write_refs (pipe_pool ps).[i] = E i true /\ 0 < E i false + E i true;
  ac_dead : forall i w, 0 < E i w -> 0 <= i < MAX_SYSTEM_PIPES /\ (pipe_active ps).[i] = 1;
  ac_flag : forall i, 0 <= i < MAX_SYSTEM_PIPES -> (pipe_active ps).[i] = 0 \/ (pipe_active ps).[i] = 1;
  ac_file : forall a f, fs !! a = Some f -> vf_ref_count f = R a /\ 0 < R a /\ a <> 0;
  ac_gone : forall a, 0 < R a -> is_Some (fs !! a)
}.

(** One descriptor more or less of an end, or of a file. *)
Definition add_end (E : Z -> bool -> Z) (i : Z) (w : bool) (n : Z) : Z -> bool -> Z :=
  fun j v => if (i =? j) && Bool.eqb w v then E j v + n else E j v.
Definition add_ref (R : Z -> Z) (a n : Z) : Z -> Z := fun b => if a =? b then R b + n else R b.

Lemma accounted_ext E R E' R' ps fs :
  (forall i w, E' i w = E i w) -> (forall a, R' a = R a) -> accounted E R ps fs -> accounted E' R' ps fs.
Proof.
  intros HE HR [Hl He Hr Hlive Hdead Hflag Hfile Hgone].
  split; try setoid_rewrite HE; try setoid_rewrite HR; done.
Qed.

Lemma take_end_accounted E R ps fs i m :
  accounted E R ps fs -> 0 < E i false + E i true ->
  accounted (add_end E i (m =? 1) 1) R (take_end ps i m) fs.
Proof.
  intros [[Hl1 Hl2] He Hr Hlive Hdead Hflag Hfile Hgone] Hpos.
  assert (0 <= i < MAX_SYSTEM_PIPES /\ (pipe_active ps).[i] = 1) as [Hi Hact].
  { pose proof (He i true). destruct (Z.lt_ge_cases 0 (E i false)); [by apply (Hdead i false)|apply (Hdead i true); lia]. }
  destruct (Hlive i Hi Hact) as (Hrr & Hwr & _). unfold take_end, set_pipe.
  split; cbn [pipe_pool pipe_active]; try done.
  - by rewrite alen_aset.
  - intros j w. unfold add_end. specialize (He j w). case_bool; lia.
  - intros j Hj Hja. destruct (Hlive j Hj Hja) as (? & ? & ?). rewrite aget_aset by lia. unfold add_end.
    destruct (Z.eqb_spec i j) as [<-|]; cbn [andb]; [|done].
    destruct (m =? 1); cbn; rewrite Hrr, Hwr; split_and!; lia.
  - intros j w Hjw. unfold add_end in Hjw. destruct (Z.eqb_spec i j) as [<-|]; [done|]. by apply (Hdead j w).
Qed.

Lemma drop_end_accounted E R ps fs i m :
  accounted E R ps fs -> 0 < E i (m =? 1) ->
  accounted (add_end E i (m =? 1) (-1)) R (drop_end ps i m) fs.
Proof.
  intros [[Hl1 Hl2] He Hr Hlive Hdead Hflag Hfile Hgone] Hpos.
  destruct (Hdead i _ Hpos) as [Hi Hact]. destruct (Hlive i Hi Hact) as (Hrr & Hwr & _).
  pose proof (He i true) as Het. pose proof (He i false) as Hef.
  assert (forall j w, 0 <= add_end E i (m =? 1) (-1) j w) as He'.
  { intros j w. unfold add_end. specialize (He j w). destruct (Z.eqb_spec i j) as [<-|]; cbn [andb]; [|done].
    destruct (Bool.eqb_spec (m =? 1) w) as [<-|]; lia. }
  assert (forall j w, 0 < add_end E i (m =? 1) (-1) j w -> 0 < E j w) as Hle.
  { intros j w. unfold add_end. case_bool; lia. }
  unfold drop_end. set (p := (pipe_pool ps).[i]) in *. set (q := if m =? 1 then _ else _).
  assert (read_refs q = add_end E i (m =? 1) (-1) i false /\ write_refs q = add_end E i (m =? 1) (-1) i true) as [Hq1 Hq2].
  { unfold q, add_end. rewrite Z.eqb_refl. destruct (m =? 1); cbn; lia. }
  assert (forall j w, i <> j -> add_end E i (m =? 1) (-1) j w = E j w) as Hoth.
  { intros j w Hne. unfold add_end. by destruct (Z.eqb_spec i j). }
  pose proof (He' i false) as Hnf. pose proof (He' i true) as Hnt.
  destruct (Z.leb_spec (read_refs q) 0), (Z.leb_spec (write_refs q) 0); cbn [andb].
  1: unfold destroy_pipe; rewrite (proj2 (Z.leb_le 0 i)), (proj2 (Z.ltb_lt i MAX_SYSTEM_PIPES)) by lia; cbn [andb].
  all: split; cbn [set_pipe pipe_pool pipe_active]; rewrite ?alen_aset; try done.
  - intros j Hj. rewrite aget_aset by lia. destruct (Z.eqb_spec i j) as [<-|Hne]; [done|].
    rewrite !aget_aset_ne, !Hoth by lia. by apply Hlive.
  - intros j w Hjw. assert (j <> i) as Hne by (intros ->; destruct w; lia).
    rewrite aget_aset_ne by (lia || (apply Hle, Hdead in Hjw; lia)). by apply (Hdead j w), Hle.
  - intros j Hj. rewrite aget_aset by lia. destruct (i =? j); [by left|by apply Hflag].
  - intros j Hj Hja. rewrite aget_aset by lia. destruct (Z.eqb_spec i j) as [<-|Hne]; [lia|].
    rewrite !Hoth by done. by apply Hlive.
  - intros j w Hjw. by apply (Hdead j w), Hle.
  - intros j Hj Hja. rewrite aget_aset by lia. destruct (Z.eqb_spec i j) as [<-|Hne]; [lia|].
    rewrite !Hoth by done. by apply Hlive.
  - intros j w Hjw. by apply (Hdead j w), Hle.
  - intros j Hj Hja. rewrite aget_aset by lia. destruct (Z.eqb_spec i j) as [<-|Hne]; [lia|].
    rewrite !Hoth by done. by apply Hlive.
  - intros j w Hjw. by apply (Hdead j w), Hle.
Qed.

Lemma take_ref_accounted E R ps fs a :
  accounted E R ps fs -> 0 < R a -> accounted E (add_ref R a 1) ps (take_ref fs a).
Proof.
  intros [Hl He Hr Hlive Hdead Hflag Hfile Hgone] Hpos. destruct (Hgone a Hpos) as [f Hf].
  destruct (Hfile a f Hf) as (Hrc & _ & Ha0). unfold take_ref. rewrite Hf. split; try done.
  - intros b. unfold add_ref. specialize (Hr b). case_bool; lia.
  - intros b g Hg. unfold add_ref. destruct (Z.eqb_spec a b) as [<-|Hne].
    + rewrite lookup_insert_eq in Hg. simplify_eq. cbn. lia.
    + rewrite lookup_insert_ne in Hg by done. by apply Hfile.
  - intros b. unfold add_ref. destruct (Z.eqb_spec a b) as [<-|Hne]; intros Hb.
    + by rewrite lookup_insert_eq.
    + rewrite lookup_insert_ne by done. by apply Hgone.
Qed.

(** Both ways to drop a reference leave these files. *)
Definition dropped (fs : gmap Z vfs_file) (a : Z) (fs' : gmap Z vfs_file) : Prop :=
  exists f, fs !! a = Some f /\
    ((vf_ref_count f - 1 <= 0 /\ fs' = delete a fs) \/
     (0 < vf_ref_count f - 1 /\ fs' = <[a := set_ref f (vf_ref_count f - 1)]> fs)).

Lemma dropped_accounted E R ps fs a fs' :
  accounted E R ps fs -> dropped fs a fs' -> accounted E (add_ref R a (-1)) ps fs'.
Proof.
  intros [Hl He Hr Hlive Hdead Hflag Hfile Hgone] (f & Hf & Hcase).
  destruct (Hfile a f Hf) as (Hrc & Hpos & Ha0). split; try done.
  - intros b. unfold add_ref. specialize (Hr b). destruct (Z.eqb_spec a b) as [<-|]; lia.
  - intros b g Hg. unfold add_ref. destruct (Z.eqb_spec a b) as [<-|Hne]; destruct Hcase as [[Hz ->]|[Hz ->]].
    + by rewrite lookup_delete_eq in Hg.
    + rewrite lookup_insert_eq in Hg. simplify_eq. cbn. lia.
    + rewrite lookup_delete_ne in Hg by done. by apply Hfile.
    + rewrite lookup_insert_ne in Hg by done. by apply Hfile.
  - intros b. unfold add_ref. destruct (Z.eqb_spec a b) as [<-|Hne]; intros Hb; destruct Hcase as [[Hz ->]|[Hz ->]].
    + lia.
    + by rewrite lookup_insert_eq.
    + rewrite lookup_delete_ne by done. by apply Hgone.
    + rewrite lookup_insert_ne by done. by apply Hgone.
Qed.

Lemma drop_ref_dropped E R ps fs a : accounted E R ps fs -> 0 < R a -> dropped fs a (drop_ref fs a).
Proof.
  intros Hacc Hpos. destruct (ac_gone _ _ _ _ Hacc a Hpos) as [f Hf]. exists f. split; [done|].
  unfold drop_ref. rewrite Hf. destruct (Z.leb_spec (vf_ref_count f - 1) 0); [by left|by right].
Qed.

(** A new pipe has one descriptor of each end to come. *)
Lemma create_pipe_accounted E R ps fs i ps' :
  accounted E R ps fs -> create_pipe ps = (Some i, ps') ->
  accounted (add_end (add_end E i false 1) i true 1) R ps' fs /\ E i false = 0 /\ E i true = 0 /\
  0 <= i < MAX_SYSTEM_PIPES.
Proof.
  intros [[Hl1 Hl2] He Hr Hlive Hdead Hflag Hfile Hgone]. unfold create_pipe.
  destruct (for_find _ _ _) as [k|] eqn:Hf; [|done]. intros [= -> <-].
  apply for_find_Some in Hf as (Hi & Hact%Z.eqb_eq & _).
  assert (forall w, E i w = 0) as H0.
  { intros w. specialize (He i w). destruct (Z.eq_dec (E i w) 0); [done|].
    destruct (Hdead i w ltac:(lia)) as [_ ?]. lia. }
  split; [|by rewrite !H0].
  split; cbn [pipe_pool pipe_active]; rewrite ?alen_aset; try done.
  - intros j w. unfold add_end. specialize (He j w). repeat case_match; lia.
  - intros j Hj. rewrite !aget_aset by lia. unfold add_end. destruct (Z.eqb_spec i j) as [<-|Hne]; cbn [andb Bool.eqb].
    + intros _. rewrite !H0. done.
    + by apply Hlive.
  - intros j w Hjw. unfold add_end in Hjw. destruct (Z.eqb_spec i j) as [<-|Hne].
    + split; [done|]. by rewrite aget_aset_eq by lia.
    + cbn in Hjw. destruct (Hdead j w Hjw) as [Hj ?]. split; [done|]. by rewrite aget_aset_ne by lia.
  - intros j Hj. rewrite aget_aset by lia. case_bool; [by right|by apply Hflag].
Qed.

(** A pipe that never got its descriptors goes back to the pool. *)
Lemma destroy_new_accounted E R ps fs i ps' :
  accounted E R ps fs -> create_pipe ps = (Some i, ps') -> accounted E R (destroy_pipe ps' (Some i)) fs.
Proof.
  intros Hacc Hcr. pose proof (create_pipe_accounted E R ps fs i ps' Hacc Hcr) as (Hnew & H1 & H2 & Hi).
  destruct Hnew as [[Hl1 Hl2] He Hr Hlive Hdead Hflag Hfile Hgone].
  unfold destroy_pipe. rewrite (proj2 (Z.leb_le 0 i)), (proj2 (Z.ltb_lt i MAX_SYSTEM_PIPES)) by lia. cbn [andb].
  assert (forall j w, i <> j -> add_end (add_end E i false 1) i true 1 j w = E j w) as Hoth.
  { intros j w Hne. unfold add_end. by destruct (Z.eqb_spec i j). }
  split; cbn [pipe_pool pipe_active]; rewrite ?alen_aset; try done; try (by destruct Hacc).
  - intros j Hj. rewrite !aget_aset by lia. destruct (Z.eqb_spec i j) as [<-|Hne]; [done|].
    specialize (Hlive j Hj). by rewrite !Hoth in Hlive.
  - intros j w Hjw. assert (i <> j) as Hne by (intros <-; destruct w; lia).
    rewrite <- (Hoth j w) in Hjw by done. destruct (Hdead j w Hjw) as [Hj ?]. split; [done|]. by rewrite aget_aset_ne by lia.
  - intros j Hj. rewrite aget_aset by lia. case_bool; [by left|by apply Hflag].
Qed.

(** ** The tables *)

Definition is_end (i : Z) (w : bool) (d : file_descriptor) : bool :=
  (fd_type d =? FD_TYPE_PIPE) && (fd_ptr d =? pipe_ptr i) && Bool.eqb (fd_mode d =? 1) w.
Definition is_ref (a : Z) (d : file_descriptor) : bool := (fd_type d =? FD_TYPE_FILE) && (fd_ptr d =? a).

(** How many descriptors of all the tables satisfy [P]. *)
Definition count (P : file_descriptor -> bool) (l : list file_descriptor) : Z := zsum (fun d => Z.b2z (P d)) l.
Definition count_all (P : file_descriptor -> bool) (ts : list (list file_descriptor)) : Z := zsum (count P) ts.

Lemma count_nonneg P l : 0 <= count P l.
Proof. apply zsum_nonneg. intros x. destruct (P x); done. Qed.

Lemma count_all_nonneg P ts : 0 <= count_all P ts.
Proof. apply zsum_nonneg, count_nonneg. Qed.


Section invariant.
Context {S : Type} {bs : BlockStore S} {fc : FileCrypto}.
Implicit Types s : sys S.

Definition ends s (i : Z) (w : bool) : Z := count_all (is_end i w) (fd_tables s).
Definition refs s (a : Z) : Z := count_all (is_ref a) (fd_tables s).

(** The reference counts are the numbers of descriptors. *)
Definition fds_ok s : Prop := accounted (ends s) (refs s) (pool s) (files s).

Definition fd_valid s (t i : Z) : Prop := 0 <= t < alen (fd_tables s) /\ 0 <= i < alen (table s t).

Lemma count_all_set P s t i d :
  fd_valid s t i ->
  count_all P (fd_tables (set_desc s t i d)) = count_all P (fd_tables s) - Z.b2z (P (desc s t i)) + Z.b2z (P d).
Proof.
  intros [Ht Hi]. unfold count_all, set_desc, set_table, desc, table in *. cbn [fd_tables].
  rewrite zsum_aset by done. unfold count at 3. rewrite zsum_aset by done. unfold count. lia.
Qed.

Lemma count_all_pos P s t i : fd_valid s t i -> P (desc s t i) = true -> 0 < count_all P (fd_tables s).
Proof.
  intros [Ht Hi] HP. unfold count_all, desc, table in *.
  pose proof (zsum_ge (count P) (fd_tables s) t (count_nonneg P) Ht) as H1.
  pose proof (zsum_ge (fun d => Z.b2z (P d)) (fd_tables s).[t] i) as H2. unfold count in *.
  cbv beta in H2. rewrite HP in H2. cbn in H2. specialize (H2 ltac:(intros x; by destruct (P x)) Hi). lia.
Qed.

Lemma is_end_pipe d i w : is_end i w d = true <-> fd_type d = FD_TYPE_PIPE /\ i = pipe_at (fd_ptr d) /\ w = (fd_mode d =? 1).
Proof.
  unfold is_end, pipe_ptr, pipe_at. rewrite !andb_true_iff, !Z.eqb_eq, Bool.eqb_true_iff.
  split; [intros [[? ?] <-]|intros (? & -> & ->)]; split_and!; (done || lia).
Qed.

Lemma add_end_pipe E d n i w :
  fd_type d = FD_TYPE_PIPE -> add_end E (pipe_at (fd_ptr d)) (fd_mode d =? 1) n i w = E i w + n * Z.b2z (is_end i w d).
Proof.
  intros Hty. unfold add_end, is_end, pipe_at, pipe_ptr. rewrite Hty. cbn [Z.eqb andb].
  destruct (Z.eqb_spec (fd_ptr d - 1) i), (Z.eqb_spec (fd_ptr d) (i + 1)); try lia; cbn [andb];
    destruct (Bool.eqb (fd_mode d =? 1) w); cbn; lia.
Qed.

Lemma add_ref_file R d n a :
  fd_type d = FD_TYPE_FILE -> add_ref R (fd_ptr d) n a = R a + n * Z.b2z (is_ref a d).
Proof. intros Hty. unfold add_ref, is_ref. rewrite Hty. cbn [Z.eqb andb]. destruct (fd_ptr d =? a); cbn; lia. Qed.

Lemma not_end d i w : fd_type d <> FD_TYPE_PIPE -> is_end i w d = false.
Proof. intros Hty. unfold is_end. destruct (Z.eqb_spec (fd_type d) FD_TYPE_PIPE); done. Qed.

Lemma not_ref d a : fd_type d <> FD_TYPE_FILE -> is_ref a d = false.
Proof. intros Hty. unfold is_ref. destruct (Z.eqb_spec (fd_type d) FD_TYPE_FILE); done. Qed.

(** What a descriptor needs of the accounts: its object has a reference. *)
Definition backed (E : Z -> bool -> Z) (R : Z -> Z) (d : file_descriptor) : Prop :=
  (forall i w, is_end i w d = true -> 0 < E i w) /\ (forall a, is_ref a d = true -> 0 < R a).

Lemma backed_pipe E R ps fs d :
  accounted E R ps fs -> backed E R d -> fd_type d = FD_TYPE_PIPE ->
  0 < E (pipe_at (fd_ptr d)) (fd_mode d =? 1) /\ (fd_ptr d =? 0) = false.
Proof.
  intros Hacc [He _] Hty. assert (0 < E (pipe_at (fd_ptr d)) (fd_mode d =? 1)) as Hpos by (apply He, is_end_pipe; done).
  split; [done|]. destruct (ac_dead _ _ _ _ Hacc _ _ Hpos) as [Hi _]. unfold pipe_at in Hi. lia.
Qed.

Lemma backed_file E R ps fs d :
  accounted E R ps fs -> backed E R d -> fd_type d = FD_TYPE_FILE -> 0 < R (fd_ptr d) /\ (fd_ptr d =? 0) = false.
Proof.
  intros Hacc [_ Hr] Hty. assert (0 < R (fd_ptr d)) as Hpos.
  { apply Hr. unfold is_ref. by rewrite Hty, !Z.eqb_refl. }
  split; [done|]. destruct (ac_gone _ _ _ _ Hacc _ Hpos) as [f Hf].
  destruct (ac_file _ _ _ _ Hacc _ _ Hf) as (_ & _ & ?). lia.
Qed.

(** The accounts with [n] more of a descriptor. *)
Definition plus_ends (E : Z -> bool -> Z) (n : Z) (d : file_descriptor) : Z -> bool -> Z :=
  fun i w => E i w + n * Z.b2z (is_end i w d).
Definition plus_refs (R : Z -> Z) (n : Z) (d : file_descriptor) : Z -> Z := fun a => R a + n * Z.b2z (is_ref a d).

Lemma plus_other E R n d ps fs :
  fd_type d <> FD_TYPE_PIPE -> fd_type d <> FD_TYPE_FILE -> accounted E R ps fs ->
  accounted (plus_ends E n d) (plus_refs R n d) ps fs.
Proof.
  intros Hp Hf. apply accounted_ext; intros; unfold plus_ends, plus_refs; rewrite ?not_end, ?not_ref by done; cbn; lia.
Qed.

Lemma plus_pipe E R n d ps fs :
  fd_type d = FD_TYPE_PIPE -> accounted (add_end E (pipe_at (fd_ptr d)) (fd_mode d =? 1) n) R ps fs ->
  accounted (plus_ends E n d) (plus_refs R n d) ps fs.
Proof.
  intros Hp. apply accounted_ext; intros; unfold plus_ends, plus_refs; [by rewrite add_end_pipe|].
  rewrite not_ref by (by rewrite Hp). cbn. lia.
Qed.

Lemma plus_file E R n d ps fs :
  fd_type d = FD_TYPE_FILE -> accounted E (add_ref R (fd_ptr d) n) ps fs ->
  accounted (plus_ends E n d) (plus_refs R n d) ps fs.
Proof.
  intros Hp. apply accounted_ext; intros; unfold plus_ends, plus_refs; [|by rewrite add_ref_file].
  rewrite not_end by (by rewrite Hp). cbn. lia.
Qed.

Lemma acquire_ok E R s d :
  accounted E R (pool s) (files s) -> backed E R d ->
  accounted (plus_ends E 1 d) (plus_refs R 1 d) (pool (acquire s d)) (files (acquire s d)) /\
  fd_tables (acquire s d) = fd_tables s.
Proof.
  intros Hacc Hb. unfold acquire. destruct (Z.eqb_spec (fd_type d) FD_TYPE_PIPE) as [Hp|Hp].
  { destruct (backed_pipe _ _ _ _ d Hacc Hb Hp) as [Hpos ->]. cbn [negb]. split; [|done]. apply plus_pipe; [done|].
    apply take_end_accounted; [done|]. pose proof (ac_ends _ _ _ _ Hacc (pipe_at (fd_ptr d))) as Hnn.
    pose proof (Hnn true). pose proof (Hnn false). destruct (fd_mode d =? 1); lia. }
  destruct (Z.eqb_spec (fd_type d) FD_TYPE_FILE) as [Hf|Hf]; [|split; [by apply plus_other|done]].
  destruct (backed_file _ _ _ _ d Hacc Hb Hf) as [Hpos ->]. cbn [negb]. split; [|done].
  apply plus_file; [done|]. by apply take_ref_accounted.
Qed.

Lemma drop_old_ok E R s d :
  accounted E R (pool s) (files s) -> backed E R d ->
  accounted (plus_ends E (-1) d) (plus_refs R (-1) d) (pool (drop_old s d)) (files (drop_old s d)) /\
  fd_tables (drop_old s d) = fd_tables s.
Proof.
  intros Hacc Hb. unfold drop_old. destruct (Z.eqb_spec (fd_type d) FD_TYPE_PIPE) as [Hp|Hp].
  { destruct (backed_pipe _ _ _ _ d Hacc Hb Hp) as [Hpos ->]. cbn [negb]. split; [|done]. apply plus_pipe; [done|].
    by apply drop_end_accounted. }
  destruct (Z.eqb_spec (fd_type d) FD_TYPE_FILE) as [Hf|Hf]; [|split; [by apply plus_other|done]].
  destruct (backed_file _ _ _ _ d Hacc Hb Hf) as [Hpos ->]. cbn [negb]. split; [|done].
  apply plus_file; [done|]. apply (dropped_accounted _ _ _ (files s)); [done|]. by apply (drop_ref_dropped E R (pool s)).
Qed.

Lemma close_ref_dropped E R e s a :
  accounted E R (pool s) (files s) -> 0 < R a ->
  dropped (files s) a (files (close_ref e s a).2) /\ pool (close_ref e s a).2 = pool s /\
  fd_tables (close_ref e s a).2 = fd_tables s.
Proof.
  intros Hacc Hpos. destruct (ac_gone _ _ _ _ Hacc a Hpos) as [f Hf]. unfold close_ref, dropped. rewrite Hf.
  cbn [vf_ref_count set_ref]. destruct (Z.leb_spec (vf_ref_count f - 1) 0).
  - destruct (fs_commit_writes _ _ _) as [[]]. cbn. split; [|done]. exists f. split; [done|]. by left.
  - cbn. split; [|done]. exists f. split; [done|]. by right.
Qed.

Lemma release_ok E R e s d :
  accounted E R (pool s) (files s) -> backed E R d ->
  accounted (plus_ends E (-1) d) (plus_refs R (-1) d) (pool (release e s d).2) (files (release e s d).2) /\
  fd_tables (release e s d).2 = fd_tables s.
Proof.
  intros Hacc Hb. unfold release. destruct (Z.eqb_spec (fd_type d) FD_TYPE_PIPE) as [Hp|Hp].
  { destruct (backed_pipe _ _ _ _ d Hacc Hb Hp) as [Hpos ->]. rewrite Hp. cbn. split; [|done].
    apply plus_pipe; [done|]. by apply drop_end_accounted. }
  cbn [andb]. destruct (Z.eqb_spec (fd_type d) FD_TYPE_FILE) as [Hf|Hf]; [|split; [by apply plus_other|done]].
  destruct (backed_file _ _ _ _ d Hacc Hb Hf) as [Hpos ->]. cbn [negb andb].
  destruct (close_ref_dropped E R e s (fd_ptr d) Hacc Hpos) as (Hd & -> & ->). split; [|done].
  apply plus_file; [done|]. by apply (dropped_accounted _ _ _ (files s)).
Qed.

(** ** Every call keeps the accounts *)

Lemma desc_backed s t i : fd_valid s t i -> backed (ends s) (refs s) (desc s t i).
Proof. intros Hv. split; intros; by apply (count_all_pos _ s t i). Qed.

Lemma validate_fd_valid s t fd : 0 <= t < alen (fd_tables s) -> validate_fd s t fd = true -> fd_valid s t fd.
Proof. unfold validate_fd, fd_valid. rewrite negb_true_iff, orb_false_iff. intros. split; [done|lia]. Qed.

Lemma fd_valid_same s s' t i : fd_tables s' = fd_tables s -> fd_valid s' t i <-> fd_valid s t i.
Proof. unfold fd_valid, table. by intros ->. Qed.

Lemma desc_same s s' t i : fd_tables s' = fd_tables s -> desc s' t i = desc s t i.
Proof. unfold desc, table. by intros ->. Qed.

(** A descriptor is replaced after the objects have been accounted for. *)
Lemma replaced_ok s s' t i d E R :
  fd_valid s t i -> fd_tables s' = fd_tables s -> accounted E R (pool s') (files s') ->
  (forall j w, E j w = ends s j w - Z.b2z (is_end j w (desc s t i)) + Z.b2z (is_end j w d)) ->
  (forall a, R a = refs s a - Z.b2z (is_ref a (desc s t i)) + Z.b2z (is_ref a d)) ->
  fds_ok (set_desc s' t i d).
Proof.
  intros Hv Hts Hacc HE HR. unfold fds_ok. refine (accounted_ext _ _ _ _ _ _ _ _ Hacc); intros.
  - unfold ends. rewrite count_all_set by (by rewrite (fd_valid_same s)). rewrite Hts, (desc_same s) by done.
    by rewrite HE.
  - unfold refs. rewrite count_all_set by (by rewrite (fd_valid_same s)). rewrite Hts, (desc_same s) by done.
    by rewrite HR.
Qed.

Lemma is_end_none i w d : fd_type d = FD_TYPE_NONE -> is_end i w d = false.
Proof. intros Hd. apply not_end. by rewrite Hd. Qed.

Lemma is_ref_none a d : fd_type d = FD_TYPE_NONE -> is_ref a d = false.
Proof. intros Hd. apply not_ref. by rewrite Hd. Qed.

Lemma sys_close_ok e s t fd : fds_ok s -> 0 <= t < alen (fd_tables s) -> fds_ok (sys_close e s t fd).2.
Proof.
  intros Hok Ht. unfold sys_close. destruct (validate_fd s t fd) eqn:Hv; cbn [negb]; [|done].
  apply validate_fd_valid in Hv; [|done].
  destruct (release_ok _ _ e s (desc s t fd) Hok (desc_backed s t fd Hv)) as [Hacc Hts].
  destruct (release e s (desc s t fd)) as [r s'] eqn:Hr. cbn [fst snd] in *.
  apply (replaced_ok s s' t fd _ _ _ Hv Hts Hacc); intros; unfold plus_ends, plus_refs;
    rewrite ?(is_end_none _ _ (cleared _)), ?(is_ref_none _ (cleared _)) by done; cbn; lia.
Qed.

Lemma desc_set_desc s t i d u j :
  fd_valid s t i -> 0 <= u -> 0 <= j -> desc (set_desc s t i d) u j = if (t =? u) && (i =? j) then d else desc s u j.
Proof.
  intros [Ht Hi] Hu Hj. unfold desc, set_desc, set_table, table in *. cbn [fd_tables]. rewrite aget_aset by done.
  destruct (Z.eqb_spec t u) as [<-|]; cbn [andb]; [|done]. by rewrite aget_aset by done.
Qed.

Lemma alen_table_set_desc s t i d u : fd_valid s t i -> 0 <= u -> alen (table (set_desc s t i d) u) = alen (table s u).
Proof.
  intros [Ht Hi] Hu. unfold set_desc, set_table, table in *. cbn [fd_tables]. rewrite aget_aset by done.
  destruct (Z.eqb_spec t u) as [<-|]; [|done]. by rewrite alen_aset.
Qed.

Lemma alen_set_desc s t i d : alen (fd_tables (set_desc s t i d)) = alen (fd_tables s).
Proof. unfold set_desc, set_table. cbn. apply alen_aset. Qed.

Lemma fd_valid_set_desc s t i d u j : fd_valid s t i -> fd_valid (set_desc s t i d) u j <-> fd_valid s u j.
Proof.
  intros Hv. unfold fd_valid at 1 2. rewrite alen_set_desc. split; intros [Hu Hj]; (split; [done|]).
  - by rewrite alen_table_set_desc in Hj by (done || lia).
  - by rewrite alen_table_set_desc by (done || lia).
Qed.

(** The accounts once the descriptor in a place is gone. *)
Lemma removed_counts s t i :
  fd_valid s t i ->
  (forall j w, plus_ends (ends s) (-1) (desc s t i) j w = ends (set_desc s t i (cleared (desc s t i))) j w) /\
  (forall a, plus_refs (refs s) (-1) (desc s t i) a = refs (set_desc s t i (cleared (desc s t i))) a).
Proof.
  intros Hv. split; intros; unfold plus_ends, plus_refs, ends, refs; rewrite count_all_set by done;
    rewrite ?(is_end_none _ _ (cleared _)), ?(is_ref_none _ (cleared _)) by done; cbn; lia.
Qed.

Lemma sys_dup2_ok s t oldfd newfd : fds_ok s -> 0 <= t < alen (fd_tables s) -> fds_ok (sys_dup2 s t oldfd newfd).2.
Proof.
  intros Hok Ht. unfold sys_dup2. destruct (validate_fd s t oldfd) eqn:Hvo; cbn [negb orb]; [|done].
  destruct (validate_fd s t newfd) eqn:Hvn; cbn [negb]; [|done].
  destruct (fd_type (desc s t oldfd) =? FD_TYPE_NONE); [done|]. destruct (Z.eqb_spec oldfd newfd) as [|Hne]; [done|].
  apply validate_fd_valid in Hvo, Hvn; [|done..]. cbn [snd].
  destruct (drop_old_ok _ _ s (desc s t newfd) Hok (desc_backed s t newfd Hvn)) as [Hacc Hts].
  set (s1 := drop_old s (desc s t newfd)) in *. destruct (removed_counts s t newfd Hvn) as [HE HR].
  set (d := desc s t oldfd) in *. set (s0 := set_desc s t newfd (cleared (desc s t newfd))) in *.
  assert (desc s1 t oldfd = d) as Hd by (by apply desc_same).
  assert (fd_valid s1 t newfd) as Hv1 by (by rewrite (fd_valid_same s)).
  rewrite Hd. assert (desc (set_desc s1 t newfd d) t oldfd = d) as ->.
  { destruct Hvo, Hvn. rewrite desc_set_desc by (done || lia). rewrite Z.eqb_refl. cbn. destruct (Z.eqb_spec newfd oldfd); [lia|done]. }
  assert (desc s0 t oldfd = d) as Hd0.
  { destruct Hvo, Hvn. unfold s0. rewrite desc_set_desc by (done || lia). rewrite Z.eqb_refl. cbn.
    destruct (Z.eqb_spec newfd oldfd); [lia|done]. }
  assert (backed (plus_ends (ends s) (-1) (desc s t newfd)) (plus_refs (refs s) (-1) (desc s t newfd)) d) as Hb.
  { destruct (desc_backed s0 t oldfd ltac:(by apply fd_valid_set_desc)) as [H1 H2]. rewrite Hd0 in H1, H2.
    split; intros; rewrite ?HE, ?HR; auto. }
  destruct (acquire_ok _ _ (set_desc s1 t newfd d) d Hacc Hb) as [Hacc' Hts'].
  unfold fds_ok, ends, refs. rewrite Hts'. refine (accounted_ext _ _ _ _ _ _ _ _ Hacc'); intros;
    rewrite count_all_set by done; rewrite Hts, (desc_same s) by done; unfold plus_ends, plus_refs, ends, refs; lia.
Qed.

Lemma free_fd_valid s t from i :
  0 <= t < alen (fd_tables s) -> 0 <= from -> free_fd s t from = Some i ->
  fd_valid s t i /\ from <= i /\ fd_type (desc s t i) = FD_TYPE_NONE.
Proof. unfold free_fd, fd_valid. intros Ht Hf (Hi & Hn%Z.eqb_eq & _)%for_find_Some. split; [split; [done|lia]|split; [lia|done]]. Qed.

Lemma sys_pipe_ok writable copied s t : fds_ok s -> 0 <= t < alen (fd_tables s) -> fds_ok (sys_pipe writable copied s t).2.
Proof.
  intros Hok Ht. unfold sys_pipe. destruct writable; cbn [negb]; [|done].
  destruct (create_pipe (pool s)) as [[p|] ps] eqn:Hcr.
  2:{ unfold create_pipe in Hcr. destruct (for_find _ _ _); [done|]. simplify_eq. done. }
  destruct (create_pipe_accounted _ _ _ _ _ _ Hok Hcr) as (Hnew & _ & _ & Hp).
  pose proof (destroy_new_accounted _ _ _ _ _ _ Hok Hcr) as Hback. cbv zeta.
  set (s1 := set_pool s ps). destruct (free_fd s1 t 3) as [fd1|] eqn:H1; [|done].
  destruct (free_fd s1 t (fd1 + 1)) as [fd2|] eqn:H2; [|done]. cbn [snd].
  apply free_fd_valid in H1 as (Hv1 & Hr1 & Hn1); [|done|lia]. apply free_fd_valid in H2 as (Hv2 & Hr2 & Hn2); [|done|lia].
  set (d1 := mk_fd FD_TYPE_PIPE (pipe_ptr p) (fd_offset (desc s1 t fd1)) 0).
  set (s2 := set_desc s1 t fd1 d1).
  assert (fd_type (desc s2 t fd2) = FD_TYPE_NONE) as Hn2'.
  { unfold s2. rewrite desc_set_desc by (done || lia). rewrite Z.eqb_refl. cbn [andb].
    destruct (Z.eqb_spec fd1 fd2); [lia|done]. }
  set (d2 := mk_fd FD_TYPE_PIPE _ _ 1).
  unfold fds_ok. refine (accounted_ext _ _ _ _ _ _ _ _ Hnew); intros; unfold ends, refs;
    rewrite count_all_set by (by apply fd_valid_set_desc); unfold s2 at 1; rewrite count_all_set by done.
  - rewrite !(is_end_none _ _ (desc _ _ _)) by done. unfold add_end. cbv beta.
    change (fd_tables s1) with (fd_tables s). generalize (count_all (is_end i w) (fd_tables s)). unfold is_end, d1, d2, pipe_ptr. cbn [fd_type fd_ptr fd_mode].
    intros n.
    destruct (Z.eqb_spec (p + 1) (i + 1)), (Z.eqb_spec p i); try lia; destruct w; cbn; lia.
  - rewrite !(is_ref_none _ (desc _ _ _)) by done. rewrite !not_ref by done.
    change (fd_tables s1) with (fd_tables s). cbn [Z.b2z]. lia.
Qed.

Lemma set_desc_twice s t i d d' : fd_valid s t i -> set_desc (set_desc s t i d) t i d' = set_desc s t i d'.
Proof.
  intros [Ht Hi]. unfold set_desc, set_table, table in *. cbn [fd_tables pool files fsys].
  rewrite aget_aset_eq, !aset_aset by done. done.
Qed.

(** The places of two states that have the same tables but for one descriptor. *)
Definition same_but s s' (t i : Z) : Prop :=
  alen (fd_tables s') = alen (fd_tables s) /\ (forall u, 0 <= u -> alen (table s' u) = alen (table s u)) /\
  (forall u j, 0 <= u -> 0 <= j -> (u, j) <> (t, i) -> desc s' u j = desc s u j).

Lemma same_but_set s s' t i d : fd_valid s t i -> fd_tables s' = fd_tables (set_desc s t i d) -> same_but s s' t i.
Proof.
  intros Hv Hts. split; [|split].
  - by rewrite Hts, alen_set_desc.
  - intros u Hu. rewrite <- (alen_table_set_desc s t i d u) by done. unfold table. by rewrite Hts.
  - intros u j Hu Hj Hne. rewrite (desc_same (set_desc s t i d)), desc_set_desc by done.
    destruct (Z.eqb_spec t u) as [<-|], (Z.eqb_spec i j) as [<-|]; done.
Qed.

Lemma inherit_one_ok s child parent k :
  fds_ok s -> fd_valid s child k -> fd_valid s parent k -> fd_type (desc s child k) = FD_TYPE_NONE ->
  fds_ok (inherit_one child parent s k) /\ same_but s (inherit_one child parent s k) child k.
Proof.
  intros Hok Hc Hp Hn. set (d := desc s parent k). pose proof (desc_backed s parent k Hp) as Hb. fold d in Hb.
  assert (inherit_one child parent s k = acquire (set_desc s child k d) d \/
          inherit_one child parent s k = set_desc s child k (mk_fd FD_TYPE_NONE 0 (fd_offset d) (fd_mode d))) as [-> | ->].
  { unfold inherit_one, acquire. fold d. destruct (Z.eqb_spec (fd_type d) FD_TYPE_PIPE) as [Hty|]; cbn [andb].
    { destruct (backed_pipe _ _ _ _ d Hok Hb Hty) as [_ ->]. by left. }
    destruct (Z.eqb_spec (fd_type d) FD_TYPE_FILE) as [Hty|]; cbn [andb]; [|by left].
    destruct (backed_file _ _ _ _ d Hok Hb Hty) as [_ ->]. cbn [negb]. rewrite set_desc_twice by done.
    destruct ((0 <=? _) && _); [by left|by right]. }
  - destruct (acquire_ok _ _ (set_desc s child k d) d Hok Hb) as [Hacc Hts].
    split; [|by apply (same_but_set s _ child k d)]. unfold fds_ok, ends, refs. rewrite Hts.
    refine (accounted_ext _ _ _ _ _ _ _ _ Hacc); intros; rewrite count_all_set by done; unfold plus_ends, plus_refs, ends, refs.
    + rewrite (is_end_none _ _ _ Hn). cbn [Z.b2z]. lia.
    + rewrite (is_ref_none _ _ Hn). cbn [Z.b2z]. lia.
  - split; [|by apply (same_but_set s _ child k (mk_fd FD_TYPE_NONE 0 (fd_offset d) (fd_mode d)))].
    apply (replaced_ok s s child k _ (ends s) (refs s)); try done; intros.
    + rewrite !is_end_none by done. lia.
    + rewrite !is_ref_none by done. lia.
Qed.

Lemma count_all_app P ts l : count_all P (ts ++ [l]) = count_all P ts + count P l.
Proof. unfold count_all. rewrite zsum_app. cbn. lia. Qed.

Lemma count_none P l : (forall d, d ∈ l -> P d = false) -> count P l = 0.
Proof. intros Hl. apply zsum_zero. intros d Hd. by rewrite Hl. Qed.

Lemma create_task_ok s : fds_ok s -> fds_ok (create_task s).2.
Proof.
  assert (forall d, d ∈ new_table -> fd_type d = FD_TYPE_NONE) as Hnew by (by intros d [-> _]%elem_of_replicate).
  apply accounted_ext; intros; unfold ends, refs; cbn [create_task snd fd_tables]; rewrite count_all_app, count_none; try lia.
  - intros d Hd. by apply is_end_none, Hnew.
  - intros d Hd. by apply is_ref_none, Hnew.
Qed.

Lemma create_task_table s t :
  0 <= t < alen (fd_tables s) -> table (create_task s).2 t = table s t.
Proof.
  intros Ht. unfold table, create_task, aget. cbn. apply app_nth1. unfold alen in Ht. lia.
Qed.

Lemma create_task_child s : table (create_task s).2 (alen (fd_tables s)) = new_table.
Proof. unfold table, create_task, aget. cbn. unfold alen. by rewrite Nat2Z.id, nth_middle. Qed.

Lemma inherit_fd_table_ok s child parent :
  fds_ok s -> 0 <= child < alen (fd_tables s) -> 0 <= parent < alen (fd_tables s) -> child <> parent ->
  (forall j, 0 <= j < alen (table s child) -> fd_type (desc s child j) = FD_TYPE_NONE) ->
  fds_ok (inherit_fd_table s child parent) /\ alen (fd_tables (inherit_fd_table s child parent)) = alen (fd_tables s).
Proof.
  intros Hok Hc Hp Hne Hnone. unfold inherit_fd_table.
  pose proof (alen_nonneg (table s parent)) as Hl1. pose proof (alen_nonneg (table s child)) as Hl2.
  match goal with |- context [for_range 0 ?n ?f s] => pose proof (for_range_ind
    (fun k s' => fds_ok s' /\ alen (fd_tables s') = alen (fd_tables s) /\
       (forall u, 0 <= u -> alen (table s' u) = alen (table s u)) /\
       (forall j, k <= j < alen (table s child) -> fd_type (desc s' child j) = FD_TYPE_NONE)) 0 n f s) as Hind end.
  destruct Hind as (Hok' & Hlen & _); [lia|done| |done].
  intros k s' Hk (Hok' & Hlen & Htab & Hnone').
  destruct (inherit_one_ok s' child parent k) as (Hok'' & Hlen' & Htab' & Hd'); try done.
  - split; [by rewrite Hlen|rewrite Htab; lia].
  - split; [by rewrite Hlen|rewrite Htab; lia].
  - apply Hnone'. lia.
  - split; [done|]. split; [congruence|]. split; [intros u Hu; by rewrite Htab', Htab|].
    intros j Hj. rewrite Hd'; [apply Hnone'; lia|lia|lia|]. intros [=]. lia.
Qed.

Lemma fork_fds_ok s parent :
  fds_ok s -> 0 <= parent < alen (fd_tables s) ->
  fds_ok (fork_fds s parent).2 /\ alen (fd_tables (fork_fds s parent).2) = alen (fd_tables s) + 1.
Proof.
  intros Hok Hp. unfold fork_fds. pose proof (create_task_ok s Hok) as Hok1. pose proof (create_task_child s) as Hch.
  assert (alen (fd_tables (create_task s).2) = alen (fd_tables s) + 1) as Hlen.
  { cbn. by rewrite alen_app. }
  destruct (create_task s) as [c s1] eqn:Hcr. assert (c = alen (fd_tables s)) as -> by (by injection Hcr).
  cbn [snd] in *. rewrite <- Hlen. apply inherit_fd_table_ok; try done; try lia.
  intros j Hj. unfold desc. rewrite Hch. unfold new_table. rewrite Hch in Hj. unfold new_table in Hj.
  rewrite alen_replicate in Hj by done. by rewrite aget_replicate by done.
Qed.

Lemma exit_one_ok e s t i :
  fds_ok s -> fd_valid s t i ->
  fds_ok (exit_one e t s i) /\ same_but s (exit_one e t s i) t i /\ fd_type (desc (exit_one e t s i) t i) = FD_TYPE_NONE.
Proof.
  intros Hok Hv. unfold exit_one. destruct (Z.eqb_spec (fd_type (desc s t i)) FD_TYPE_NONE) as [Hn|Hn]; [done|].
  destruct (release_ok _ _ e s (desc s t i) Hok (desc_backed s t i Hv)) as [Hacc Hts].
  set (s' := (release e s (desc s t i)).2) in *. set (d := cleared (desc s t i)).
  assert (fd_tables (set_desc s' t i d) = fd_tables (set_desc s t i d)) as Hts'.
  { unfold set_desc, set_table, table. cbn. by rewrite Hts. }
  split; [|split].
  - apply (replaced_ok s s' t i _ _ _ Hv Hts Hacc); intros; unfold plus_ends, plus_refs;
      rewrite ?(is_end_none _ _ d), ?(is_ref_none _ d) by done; cbn; lia.
  - by apply (same_but_set s _ t i d).
  - rewrite (desc_same (set_desc s t i d)) by done. destruct Hv as [Ht Hi]. rewrite desc_set_desc by (done || lia).
    by rewrite !Z.eqb_refl.
Qed.

Lemma exit_fds_ok e s t :
  fds_ok s -> 0 <= t < alen (fd_tables s) ->
  fds_ok (exit_fds e s t) /\ alen (fd_tables (exit_fds e s t)) = alen (fd_tables s).
Proof.
  intros Hok Ht. unfold exit_fds. pose proof (alen_nonneg (table s t)) as Hl.
  match goal with |- context [for_range 0 ?n ?f s] => pose proof (for_range_ind
    (fun k s' => fds_ok s' /\ alen (fd_tables s') = alen (fd_tables s) /\ alen (table s' t) = alen (table s t) /\
       (forall j, 0 <= j < k -> fd_type (desc s' t j) = FD_TYPE_NONE)) 0 n f s) as Hind end.
  destruct Hind as (Hok' & Hlen & Htab & Hnone); [lia|split_and!; (done || lia)| |].
  { intros k s' Hk (Hok' & Hlen & Htab & Hnone).
    destruct (exit_one_ok e s' t k Hok' ltac:(split; lia)) as (Hok'' & (Hlen' & Htab' & Hd') & Hk').
    split; [done|]. split; [congruence|]. split; [by rewrite Htab' by lia|]. intros j Hj.
    destruct (Z.eq_dec j k) as [->|]; [done|]. rewrite Hd'; [apply Hnone; lia|lia|lia|]. by intros [=]. }
  set (s' := for_range 0 _ _ s) in *. split; [|cbn; by rewrite alen_aset].
  assert (forall P, (forall d, fd_type d = FD_TYPE_NONE -> P d = false) ->
    count_all P (fd_tables (set_table s' t [])) = count_all P (fd_tables s')) as Hcount.
  { intros P HP. unfold count_all. cbn [set_table fd_tables]. rewrite zsum_aset by lia.
    rewrite (count_none P (fd_tables s').[t]); [cbn; lia|]. intros d (j & Hd)%list_elem_of_lookup.
    apply HP. rewrite <- (lookup_aget _ _ _ Hd). apply Hnone. rewrite <- Htab. apply lookup_lt_Some in Hd.
    unfold table, alen. lia. }
  refine (accounted_ext _ _ _ _ _ _ _ _ Hok'); intros; apply Hcount; intros; by (apply is_end_none || apply is_ref_none).
Qed.

Lemma count_all_find P s : 0 < count_all P (fd_tables s) -> exists t i, fd_valid s t i /\ P (desc s t i) = true.
Proof.
  intros (t & Ht & Hc)%zsum_pos. apply zsum_pos in Hc as (i & Hi & HP). exists t, i. split; [done|].
  unfold desc, table. by destruct (P _).
Qed.

(** ** Sequences of calls *)

Inductive fd_call : Type :=
| CPipe (writable : bool) (copied : Z) (t : Z)
| CDup2 (t oldfd newfd : Z)
| CClose (e : env) (t fd : Z)
| CFork (parent : Z)
| CExit (e : env) (t : Z).

Definition fd_step s (c : fd_call) : sys S :=
  match c with
  | CPipe w r t => (sys_pipe w r s t).2
  | CDup2 t o n => (sys_dup2 s t o n).2
  | CClose e t fd => (sys_close e s t fd).2
  | CFork p => (fork_fds s p).2
  | CExit e t => exit_fds e s t
  end.

Definition caller (c : fd_call) : Z :=
  match c with CPipe _ _ t | CDup2 t _ _ | CClose _ t _ | CFork t | CExit _ t => t end.

(** A run in which each call is made by a task that exists. *)
Inductive fd_run : sys S -> list fd_call -> sys S -> Prop :=
| fr_nil s : fd_run s [] s
| fr_cons s c cs s' : 0 <= caller c < alen (fd_tables s) -> fd_run (fd_step s c) cs s' -> fd_run s (c :: cs) s'.

Lemma fd_step_ok s c : fds_ok s -> 0 <= caller c < alen (fd_tables s) -> fds_ok (fd_step s c).
Proof.
  intros Hok Hc. destruct c; cbn in *; [by apply sys_pipe_ok|by apply sys_dup2_ok|by apply sys_close_ok| |].
  - by apply fork_fds_ok.
  - by apply exit_fds_ok.
Qed.

Lemma fd_run_ok s cs s' : fd_run s cs s' -> fds_ok s -> fds_ok s'.
Proof. induction 1 as [|s c cs s' Hc Hr IH]; [done|]. intros Hok. by apply IH, fd_step_ok. Qed.

(** The state before the first task. *)
Definition no_pipes : pipes :=
  mk_pipes (replicate (Z.to_nat MAX_SYSTEM_PIPES) czero) (replicate (Z.to_nat MAX_SYSTEM_PIPES) 0)
    (replicate (Z.to_nat MAX_SYSTEM_PIPES) (replicate 32 0)).
Definition boot_sys (v : vfs S) : sys S := mk_sys [new_table] no_pipes ∅ v.

Lemma boot_sys_ok v : fds_ok (boot_sys v).
Proof.
  assert (forall d, d ∈ new_table -> fd_type d = FD_TYPE_NONE) as Hnew by (by intros d [-> _]%elem_of_replicate).
  assert (forall i w, ends (boot_sys v) i w = 0) as HE.
  { intros i w. unfold ends. cbn [boot_sys fd_tables]. unfold count_all. cbn [zsum foldr]. rewrite count_none; [done|].
    intros d Hd. by apply is_end_none, Hnew. }
  assert (forall a, refs (boot_sys v) a = 0) as HR.
  { intros a. unfold refs. cbn [boot_sys fd_tables]. unfold count_all. cbn [zsum foldr]. rewrite count_none; [done|].
    intros d Hd. by apply is_ref_none, Hnew. }
  split; try (intros; rewrite ?HE, ?HR in *; done); intros i Hi; cbn [boot_sys pool no_pipes pipe_active];
    rewrite aget_replicate by done; [done|by left].
Qed.

(** What the accounts mean for the descriptors. *)
Lemma fds_ok_live s :
  fds_ok s ->
  (forall t i, fd_valid s t i -> fd_type (desc s t i) = FD_TYPE_FILE -> is_Some (files s !! fd_ptr (desc s t i))) /\
  (forall t i, fd_valid s t i -> fd_type (desc s t i) = FD_TYPE_PIPE ->
     (pipe_active (pool s)).[pipe_at (fd_ptr (desc s t i))] = 1) /\
  (forall a f, files s !! a = Some f -> exists t i, fd_valid s t i /\ is_ref a (desc s t i) = true) /\
  (forall p, 0 <= p < MAX_SYSTEM_PIPES -> (pipe_active (pool s)).[p] = 1 ->
     exists t i w, fd_valid s t i /\ is_end p w (desc s t i) = true).
Proof.
  intros Hok. split_and!.
  - intros t i Hv Hty. apply (ac_gone _ _ _ _ Hok). by apply (backed_file _ _ _ _ _ Hok (desc_backed s t i Hv)).
  - intros t i Hv Hty. destruct (backed_pipe _ _ _ _ _ Hok (desc_backed s t i Hv) Hty) as [Hpos _].
    by destruct (ac_dead _ _ _ _ Hok _ _ Hpos).
  - intros a f Hf. apply count_all_find. by destruct (ac_file _ _ _ _ Hok a f Hf) as (_ & ? & _).
  - intros p Hp Hact. destruct (ac_live _ _ _ _ Hok p Hp Hact) as (_ & _ & Hpos).
    assert (0 < ends s p false \/ 0 < ends s p true) as [H0|H0] by lia; apply count_all_find in H0 as (t & i & ? & ?).
    + by exists t, i, false.
    + by exists t, i, true.
Qed.

(** Bytes that are there are read, and a write counts what it wrote. *)
Lemma pipe_read_some q n : 0 < n -> head q <> tail q -> 0 < (pipe_read q true n).1.1.1.
Proof.
  intros Hn Hne. unfold pipe_read. cbn [negb orb]. destruct (Z.leb_spec n 0); [lia|].
  destruct (Z.eqb_spec (head q) (tail q)); [done|].
  destruct (Z.to_nat n) as [|k] eqn:Hk; [lia|]. cbn [while_loop]. unfold read_more at 1. cbn [fst snd].
  destruct (Z.ltb_spec (alen (A := Z) []) n) as [_|Hl]; [|change (alen (A := Z) []) with 0 in Hl; lia].
  destruct (Z.eqb_spec (head q) (tail q)); [done|]. cbn [negb andb].
  pose proof (while_loop_ind (fun st : pipe * list Z => 0 < alen st.2) k (read_more n) read_byte (read_byte (q, []))) as Hw.
  destruct (while_loop k _ _ _) as [q' out]. cbn [fst snd]. apply Hw; [cbn; unfold alen; cbn; lia|].
  intros [q1 o1] H1 _. cbn [read_byte snd] in *. rewrite alen_app. pose proof (alen_nonneg [(buffer q1).[head q1 mod PIPE_SIZE]]). lia.
Qed.

Lemma pipe_write_pipe q data : data <> [] -> (pipe_write q (Some data) (alen data)).1.1 = E_PIPE <-> read_refs q <= 0.
Proof.
  intros Hdata. pose proof (alen_pos data Hdata). unfold pipe_write. destruct (Z.leb_spec (alen data) 0); [lia|].
  destruct (Z.leb_spec (read_refs q) 0); [done|]. split; [|lia].
  destruct (_ <=? _); [done|]. destruct (while_loop _ _ _ _) as [q' n] eqn:Hw. cbn.
  pose proof (while_loop_ind (fun st : pipe * Z => 0 <= st.2) (Z.to_nat (alen data)) (write_more (alen data))
    (write_byte data) (q, 0)) as Hn. rewrite Hw in Hn. cbn in Hn.
  specialize (Hn ltac:(lia)). intros ->. enough (0 <= E_PIPE) by done. apply Hn. intros [] ? _. cbn in *. lia.
Qed.

Lemma fds_ok_stream s p q n data :
  fds_ok s -> 0 <= p < MAX_SYSTEM_PIPES -> (pipe_active (pool s)).[p] = 1 ->
  q = (pipe_pool (pool s)).[p] -> 0 < n -> data <> [] ->
  ((pipe_read q true n).1.1.1 = 0 <->
   head q = tail q /\ forall t i, fd_valid s t i -> is_end p true (desc s t i) = false) /\
  ((pipe_write q (Some data) (alen data)).1.1 = E_PIPE <-> forall t i, fd_valid s t i -> is_end p false (desc s t i) = false).
Proof.
  intros Hok Hp Hact Hq Hn Hdata.
  destruct (ac_live _ _ _ _ Hok p Hp Hact) as (Hrr & Hwr & _). rewrite <- Hq in Hrr, Hwr.
  assert (forall w, ends s p w <= 0 <-> forall t i, fd_valid s t i -> is_end p w (desc s t i) = false) as Hiff.
  { intros w. split.
    - intros H0 t i Hv. apply not_true_is_false. intros HP. pose proof (count_all_pos _ s t i Hv HP). unfold ends in H0. lia.
    - intros Hno. apply Z.nlt_ge. intros (t & i & Hv & HP)%count_all_find. by rewrite Hno in HP. }
  rewrite <- !Hiff, <- Hrr, <- Hwr. split; [|by apply pipe_write_pipe].
  destruct (Z.eq_dec (head q) (tail q)) as [He|He].
  - unfold pipe_read. cbn [negb orb]. destruct (Z.leb_spec n 0); [lia|]. rewrite He, Z.eqb_refl.
    destruct (Z.leb_spec (write_refs q) 0); cbn; split; (done || lia).
  - pose proof (pipe_read_some q n Hn He). split; [lia|tauto].
Qed.

(** ** The last reference to a file *)

(** Closing the last descriptor of a file commits what was written through
    it and reports the result.  When [dup2] overwrites the last descriptor the
    object is freed as well, but nothing is committed: the file system stays as
    it was and the buffered bytes are gone. *)
Theorem last_reference e s t oldfd newfd f :
  fd_valid s t oldfd -> fd_valid s t newfd -> oldfd <> newfd ->
  fd_type (desc s t newfd) = FD_TYPE_FILE -> fd_ptr (desc s t newfd) <> 0 ->
  files s !! fd_ptr (desc s t newfd) = Some f -> vf_ref_count f = 1 ->
  fd_type (desc s t oldfd) <> FD_TYPE_NONE -> fd_type (desc s t oldfd) <> FD_TYPE_FILE ->
  ((sys_close e s t newfd).1 = (fs_commit_writes e (fsys s) (set_ref f 0)).1.1 /\
   fsys (sys_close e s t newfd).2 = (fs_commit_writes e (fsys s) (set_ref f 0)).2 /\
   files (sys_close e s t newfd).2 !! fd_ptr (desc s t newfd) = None) /\
  (fsys (sys_dup2 s t oldfd newfd).2 = fsys s /\ files (sys_dup2 s t oldfd newfd).2 !! fd_ptr (desc s t newfd) = None).
Proof.
  intros [Ht Ho] [_ Hn] Hne Hty Hp0 Hf Hrc Hold Holdf.
  assert (validate_fd s t newfd = true /\ validate_fd s t oldfd = true) as [Hvn Hvo].
  { unfold validate_fd. rewrite !negb_true_iff, !orb_false_iff. lia. }
  rewrite <- Z.eqb_neq in Hp0. split.
  - unfold sys_close, release, close_ref. rewrite Hvn, Hty, Hp0. cbn [negb andb FD_TYPE_FILE FD_TYPE_PIPE Z.eqb Pos.eqb].
    rewrite Hf. cbn [vf_ref_count set_ref]. rewrite Hrc. cbn [Z.sub Z.add Z.opp Z.pos_sub Z.leb Z.compare].
    change (1 - 1) with 0. cbn [Z.leb Z.compare].
    destruct (fs_commit_writes e (fsys s) (set_ref f 0)) as [[r f'] v]. cbn. split_and!; [done|done|apply lookup_delete_eq].
  - unfold sys_dup2. rewrite Hvo, Hvn. cbn [negb orb]. destruct (Z.eqb_spec (fd_type (desc s t oldfd)) FD_TYPE_NONE); [done|].
    destruct (Z.eqb_spec oldfd newfd); [done|]. cbn [snd].
    set (s1 := drop_old s (desc s t newfd)). assert (s1 = set_files s (delete (fd_ptr (desc s t newfd)) (files s))) as ->.
    { unfold s1, drop_old, drop_ref. rewrite Hty, Hp0, Hf, Hrc. done. }
    set (s2 := set_files s _). assert (desc s2 t oldfd = desc s t oldfd) as -> by done.
    assert (desc (set_desc s2 t newfd (desc s t oldfd)) t oldfd = desc s t oldfd) as ->.
    { rewrite desc_set_desc by (done || lia). rewrite Z.eqb_refl. cbn. destruct (Z.eqb_spec newfd oldfd); [lia|done]. }
    unfold acquire. rewrite (proj2 (Z.eqb_neq _ _) Holdf).
    assert (files s2 !! fd_ptr (desc s t newfd) = None) by apply lookup_delete_eq.
    destruct (_ =? FD_TYPE_PIPE); [destruct (negb _)|]; done.
Qed.

(** Starting a program can lose a pipe's end.  When the caller has closed
    descriptor 0 and holds a pipe as descriptor 1, the new task counts for the
    pipe and then has the type of that descriptor overwritten by the console:
    the counts exceed the descriptors, although they were right before, so the
    readers of the pipe never see the end of the stream. *)
Theorem exec_console_leaks v :
  exists s, fd_run (boot_sys v) [CPipe true 0 0; CDup2 0 4 1] s /\ fds_ok s /\ ~ fds_ok (exec_fds s 0).2.
Proof.
  set (s := fd_step (fd_step (boot_sys v) (CPipe true 0 0)) (CDup2 0 4 1)). exists s.
  assert (fd_run (boot_sys v) [CPipe true 0 0; CDup2 0 4 1] s) as Hr.
  { apply fr_cons; [split; vm_compute; done|]. apply fr_cons; [split; vm_compute; done|]. apply fr_nil. }
  split; [done|]. split; [by apply (fd_run_ok _ _ _ Hr), boot_sys_ok|].
  intros Hok. destruct (ac_live _ _ _ _ Hok 0 ltac:(done) ltac:(vm_compute; done)) as (_ & Hw & _).
  vm_compute in Hw. done.
Qed.

End invariant.



(** ** Examples *)

Definition no_vfs : vfs ram := mk_vfs (mk_ram 0 (fun _ => [])) 0 0 0 0 false false (mk_super 0 0 0 0 0 0 0 0 0 0 0 0 0 []) [] [].
#[local] Instance plain_crypto : FileCrypto := Build_FileCrypto (fun _ d => inr d) (fun d => inr d) (fun _ => None).
Definition some_env : env := mk_env 0 0 0 0 true true.

(** A task whose descriptor 3 is a dirty file and descriptor 1 the console. *)
Definition dirty_file : vfs_file := mk_file [97; 0] 0 0 0 1 1 [104; 105] 512 true.
Definition dirty_sys : sys ram :=
  mk_sys [[czero; mk_fd FD_TYPE_CONSOLE 0 0 0; czero; mk_fd FD_TYPE_FILE 4096 0 1]] no_pipes {[4096 := dirty_file]} no_vfs.

Lemma last_reference_witness :
  fsys (sys_dup2 dirty_sys 0 1 3).2 = no_vfs /\ files (sys_dup2 dirty_sys 0 1 3).2 !! 4096 = None.
Proof.
  refine (proj2 (last_reference some_env dirty_sys 0 1 3 dirty_file _ _ _ _ _ _ _ _ _)).
  all: first [reflexivity|discriminate|split; split; vm_compute; (reflexivity || discriminate)].
Defined.

End Fd.
