(* ===== verification/Access.v ===== *)
(** * Paths, permissions and user pointers (kernel/syscall/sys_utils.c, include/fs.h)

    How a system call turns a path into a directory and a name, how it decides
    whether the caller may use what it found, and how it checks a pointer the
    caller passed.  The decisions are compared with specifications on the tree
    of VfsSpec.v. *)

From S2P Require Import Prelude CStr Fat FsFormat BlockStore Vfs VfsDisk VfsData VfsInv VfsOps VfsSpec VfsMount VfsProps.
Import Fat FsFormat BlockStore Vfs VfsDisk VfsData VfsInv VfsOps VfsSpec VfsMount VfsProps.

Module Access.

Definition FS_WANT_READ : Z := 4.
Definition FS_WANT_WRITE : Z := 2.
Definition FS_WANT_EXEC : Z := 1.
Definition FS_MODE_STICKY : Z := 0x200.  (* 01000 *)
Definition PAGE_COW : Z := 0x200.

(** ** Permission bits (include/fs.h) *)

Definition fs_mode_allows (mode owner_uid owner_gid uid gid want : Z) : bool :=
  if uid =? 0 then true
  else
    let bits := if uid =? owner_uid then Z.land (Z.shiftr mode 6) 7
                else if gid =? owner_gid then Z.land (Z.shiftr mode 3) 7
                else Z.land mode 7 in
    Z.land bits want =? want.

Definition fs_sticky_allows_removal (dir_mode dir_owner_uid entry_owner_uid uid : Z) : bool :=
  if Z.land dir_mode FS_MODE_STICKY =? 0 then true
  else (uid =? 0) || (uid =? entry_owner_uid) || (uid =? dir_owner_uid).

Section access.
Context {S : Type} {bs : BlockStore S}.
Implicit Types v : vfs S.

(** ** Access checks *)

Definition slot_of_entry v (id : Z) : Z :=
  default (-1) (for_find 0 (fs_max_entries v)
    (fun i => negb (is_used (entry v i) =? 0) && (entry_id (entry v i) =? id))).

Definition entry_allows (e : env) v (i want : Z) : bool :=
  fs_mode_allows (mode (entry v i)) (owner_uid (entry v i)) (owner_gid (entry v i)) (cur_uid e) (cur_gid e) want.

(** The walk to the root; [hops] is how many steps are left. *)
Fixpoint search_walk (hops : nat) (e : env) v (curr : Z) : bool :=
  if curr =? 0 then true
  else match hops with
       | O => false
       | Datatypes.S hops =>
           let up := slot_of_entry v curr in
           if up <? 0 then true
           else if negb (entry_allows e v up FS_WANT_EXEC) then false
           else search_walk hops e v (parent_id (entry v up))
       end.

(** A caller without a task has uid 0 in [e]; both are always allowed. *)
Definition check_vfs_access (e : env) v (id : Z) (needs_write : bool) : bool :=
  if cur_uid e =? 0 then true
  else
    let want := if needs_write then Z.lor FS_WANT_WRITE FS_WANT_EXEC else Z.lor FS_WANT_READ FS_WANT_EXEC in
    if id =? 0 then fs_mode_allows FS_MODE_DEFAULT_DIR 0 0 (cur_uid e) (cur_gid e) want
    else
      let idx := slot_of_entry v id in
      if idx <? 0 then false
      else if negb (entry_allows e v idx want) then false
      else search_walk (Z.to_nat (fs_max_entries v)) e v (parent_id (entry v idx)).

Definition check_file_access (e : env) v (p : Z) (name : list Z) (want : Z) : bool :=
  if cur_uid e =? 0 then true
  else
    let idx := fs_get_entry_idx v name p in
    if idx <? 0 then true else entry_allows e v idx want.

Definition check_removal_access (e : env) v (p : Z) (name : list Z) : bool :=
  if cur_uid e =? 0 then true
  else
    let entry_idx := fs_get_entry_idx v name p in
    if entry_idx <? 0 then true
    else if negb (p =? 0) then
      let dir_idx := slot_of_entry v p in
      if dir_idx <? 0 then false
      else fs_sticky_allows_removal (mode (entry v dir_idx)) (owner_uid (entry v dir_idx))
             (owner_uid (entry v entry_idx)) (cur_uid e)
    else fs_sticky_allows_removal FS_MODE_DEFAULT_DIR 0 (owner_uid (entry v entry_idx)) (cur_uid e).

(** ** Paths *)

Definition SLASH : Z := 47.
Definition DOT : Z := 46.

(** The directory [id] names, as the searches for [..] look for it. *)
Definition dir_slot v (id : Z) : option Z :=
  for_find 0 (fs_max_entries v)
    (fun k => (entry_id (entry v k) =? id) && (file_type (entry v k) =? FT_DIR) && (is_used (entry v k) =? 1)).

Definition is_dot (token : list Z) : bool := (token.[0] =? DOT) && (token.[1] =? 0).
Definition is_dotdot (token : list Z) : bool := (token.[0] =? DOT) && (token.[1] =? DOT) && (token.[2] =? 0).

(** One component that is followed by a slash: an errno or the directory. *)
Definition enter v (current_id : Z) (token : list Z) : Z :=
  if is_dot token then current_id
  else if is_dotdot token then
    if current_id =? 0 then 0 else match dir_slot v current_id with Some k => parent_id (entry v k) | None => current_id end
  else
    let idx := fs_get_entry_idx v token current_id in
    if idx =? -1 then E_NOENT
    else if negb (file_type (entry v idx) =? FT_DIR) then E_NOTDIR
    else entry_id (entry v idx).

(** [while (1)] over the path; [token] is what has been gathered of the current
    component, [t_idx] bytes of it.  The end of [path] is its terminator. *)
Fixpoint resolve_loop v (path token : list Z) (current_id : Z) (basename : list Z) : Z * list Z :=
  match path with
  | c :: path' =>
      if c =? 0 then (current_id, copy_bounded basename token 0 (MAX_FILENAME - 1))
      else if c =? SLASH then
        if 0 <? alen token then
          let r := enter v current_id token in
          if r <? 0 then (r, basename) else resolve_loop v path' [] r basename
        else resolve_loop v path' [] current_id basename
      else if MAX_FILENAME - 1 <=? alen token then (E_INVAL, basename)
      else resolve_loop v path' (token ++ [c]) current_id basename
  | [] => (current_id, copy_bounded basename token 0 (MAX_FILENAME - 1))
  end.

Definition vfs_resolve_path v (path : list Z) (start_dir_id : Z) (basename : list Z) : Z * list Z :=
  if path.[0] =? 0 then (E_INVAL, basename)
  else
    let basename := ft_memset basename 0 MAX_FILENAME in
    if path.[0] =? SLASH then resolve_loop v (drop 1 path) [] 0 basename
    else resolve_loop v path [] start_dir_id basename.

End access.

(** ** Pointers from user space *)

Section pointers.
(** The page directory and the page tables of the running task, as the recursive
    mapping shows them: [pd i] and [pt i j] are 32-bit entries. *)
Context (pd : Z -> Z) (pt : Z -> Z -> Z).

Definition page_refused (page : Z) (requires_write : bool) : bool :=
  let pd_index := Z.shiftr page 22 in
  let pt_index := Z.land (Z.shiftr page 12) 0x3FF in
  if Z.land (pd pd_index) 1 =? 0 then true
  else if negb (Z.land (pt pd_index pt_index) 5 =? 5) then true
  else requires_write && (Z.land (pt pd_index pt_index) 2 =? 0) && (Z.land (pt pd_index pt_index) PAGE_COW =? 0).

(** [for (page = ...; page < end_addr; page += 4096)]; fewer than 2^20 pages. *)
Fixpoint pages_ok (n : nat) (page end_addr : Z) (requires_write : bool) : bool :=
  match n with
  | O => true
  | Datatypes.S n =>
      if page <? end_addr then
        if page_refused page requires_write then false else pages_ok n (u32 (page + 4096)) end_addr requires_write
      else true
  end.

Definition validate_user_pointer_access (ptr size : Z) (requires_write : bool) : bool :=
  let start_addr := ptr in
  let end_addr := u32 (start_addr + size) in
  if end_addr <? start_addr then false
  else if size =? 0 then true
  else if (start_addr <? 0x400000) || (0xC0000000 <? end_addr) then false
  else pages_ok (Z.to_nat (2 ^ 20)) (Z.land start_addr 0xFFFFF000) end_addr requires_write.

Definition validate_user_pointer (ptr size : Z) : bool := validate_user_pointer_access ptr size false.
Definition validate_user_writable_pointer (ptr size : Z) : bool := validate_user_pointer_access ptr size true.

(** [copy_from_user] of one byte: [None] when the access faults. *)
Context (copy_byte : Z -> option Z).

Fixpoint string_ok (n : nat) (i curr_addr : Z) : bool :=
  match n with
  | O => false
  | Datatypes.S n =>
      if (curr_addr <? 0x400000) || (0xC0000000 <=? curr_addr) then false
      else
        let pd_index := Z.shiftr curr_addr 22 in
        let pt_index := Z.land (Z.shiftr curr_addr 12) 0x3FF in
        if ((Z.land curr_addr 0xFFF =? 0) || (i =? 0)) &&
           ((Z.land (pd pd_index) 1 =? 0) || negb (Z.land (pt pd_index pt_index) 5 =? 5)) then false
        else match copy_byte curr_addr with
             | None => false
             | Some ch => if ch =? 0 then true else string_ok n (i + 1) (u32 (curr_addr + 1))
             end
  end.

Definition validate_string_pointer (str max_len : Z) : bool :=
  if str =? 0 then false else string_ok (Z.to_nat max_len) 0 str.

End pointers.

(** ** What the access check decides *)

(** The specification, on the tree: every directory above has to be searchable,
    and the directory itself has to allow what is wanted.  The root has no node;
    it is owned by uid 0 with mode 0755. *)
Inductive in_class (owner group uid gid : Z) : Z -> Prop :=
| in_owner : uid = owner -> in_class owner group uid gid 6
| in_group : uid <> owner -> gid = group -> in_class owner group uid gid 3
| in_others : uid <> owner -> gid <> group -> in_class owner group uid gid 0.

(** Every permission wanted (bit 2 reading, 1 writing, 0 searching) is among the
    three bits of the caller's class; uid 0 needs none. *)
Definition granted (mode owner group uid gid want : Z) : Prop :=
  uid = 0 \/ exists c, in_class owner group uid gid c /\ forall b, 0 <= b < 3 -> Z.testbit want b = true -> Z.testbit mode (b + c) = true.

Definition node_allows (e : env) (n : node) (want : Z) : Prop :=
  granted (nd_mode n) (nd_uid n) (nd_gid n) (cur_uid e) (cur_gid e) want.

Inductive searchable (e : env) (A : tree) : Z -> Prop :=
| se_root : searchable e A 0
| se_step c n : A !! c = Some n -> node_allows e n FS_WANT_EXEC -> searchable e A (nd_parent n) -> searchable e A c.

Definition may_use (e : env) (A : tree) (id want : Z) : Prop :=
  (id = 0 /\ granted FS_MODE_DEFAULT_DIR 0 0 (cur_uid e) (cur_gid e) want) \/
  exists n, A !! id = Some n /\ node_allows e n want /\ searchable e A (nd_parent n).

Lemma class_bits mode c want : 0 <= c -> 0 <= want < 8 ->
  Z.land (Z.land (Z.shiftr mode c) 7) want = want <-> forall b, 0 <= b < 3 -> Z.testbit want b = true -> Z.testbit mode (b + c) = true.
Proof.
  intros Hc Hw. assert (Hbit : forall b, 0 <= b -> Z.testbit (Z.land (Z.land (Z.shiftr mode c) 7) want) b = Z.testbit mode (b + c) && (b <? 3) && Z.testbit want b).
  { intros b Hb. rewrite !Z.land_spec, Z.shiftr_spec by done. change 7 with (Z.ones 3). by rewrite (Z.testbit_ones_nonneg 3 b) by lia. }
  split.
  - intros E b Hb Hwb. rewrite <- E, Hbit in Hwb by lia. by apply andb_prop in Hwb as [[? _]%andb_prop _].
  - intros H. apply Z.bits_inj'. intros b Hb. rewrite Hbit by done. destruct (Z.testbit want b) eqn:Ew; [|apply andb_false_r].
    destruct (Z.ltb_spec b 3); [by rewrite H by (done || lia)|]. exfalso.
    rewrite <- (Z.mod_small want (2 ^ 3)) in Ew by lia. by rewrite Z.mod_pow2_bits_high in Ew by lia.
Qed.

Lemma mode_granted mode owner group uid gid want : 0 <= want < 8 -> fs_mode_allows mode owner group uid gid want = true <-> granted mode owner group uid gid want.
Proof.
  intros Hw. unfold fs_mode_allows, granted. destruct (Z.eqb_spec uid 0); [tauto|]. rewrite Z.eqb_eq.
  assert (H0 : Z.land mode 7 = Z.land (Z.shiftr mode 0) 7) by done. rewrite H0.
  assert (Hcl : forall c, in_class owner group uid gid c -> 0 <= c -> (if uid =? owner then Z.land (Z.shiftr mode 6) 7 else if gid =? group then Z.land (Z.shiftr mode 3) 7 else Z.land (Z.shiftr mode 0) 7) = Z.land (Z.shiftr mode c) 7).
  { intros c Hc _. destruct Hc as [-> |Hu -> |Hu Hg]; [by rewrite Z.eqb_refl|..]; destruct (Z.eqb_spec uid owner); try done; [by rewrite Z.eqb_refl|].
    by destruct (Z.eqb_spec gid group). }
  split.
  - intros E. right. assert (exists c, in_class owner group uid gid c /\ 0 <= c) as (c & Hc & Hc0).
    { destruct (decide (uid = owner)); [by exists 6; split; [constructor|]|]. destruct (decide (gid = group)); [by exists 3; split; [constructor|]|by exists 0; split; [constructor|]]. }
    exists c. split; [done|]. apply class_bits; [done|done|]. by rewrite <- (Hcl c Hc Hc0).
  - intros [?|(c & Hc & H)]; [done|]. assert (0 <= c) by (by destruct Hc). rewrite (Hcl c Hc) by done. by apply class_bits.
Qed.

Section decisions.
Context {S : Type} {bs : BlockStore S} {laws : StoreLaws S} {rel : StoreReliable S}.
Implicit Types v : vfs S.

Lemma slot_of_entry_eq v ch id :
  fs_wf v ch -> slot_of_entry v id = if bool_decide (0 <= id < fs_max_entries v /\ used (dir_table v) id) then id else -1.
Proof.
  intros Hwf. pose proof (wf_dir _ _ Hwf) as Hd. unfold slot_of_entry. destruct (for_find _ _ _) as [i|] eqn:Hf; cbn.
  - apply for_find_Some in Hf as (Hi & Hm & _). rewrite andb_true_iff, negb_true_iff, Z.eqb_neq, Z.eqb_eq in Hm.
    destruct Hm as [Hu Hid]. destruct (dw_tree _ _ _ Hd i Hi Hu) as (Hid' & _). unfold entry in Hid.
    rewrite Hid' in Hid. subst. rewrite bool_decide_eq_true_2; [done|]. split; [done|]. by apply (used_nonzero _ _ _ _ Hd).
  - rewrite bool_decide_eq_false_2; [done|]. intros [Hr Hu]. rewrite for_find_None in Hf. specialize (Hf id Hr).
    unfold used in Hu. unfold entry in Hf.
    destruct (dw_tree _ _ _ Hd id Hr ltac:(lia)) as (Hid & _). by rewrite Hu, Hid, Z.eqb_refl in Hf.
Qed.

Lemma slot_of_node v ch id n : fs_wf v ch -> abs v ch !! id = Some n -> slot_of_entry v id = id /\ 0 < id.
Proof.
  intros Hwf (Hr & Hu & _)%abs_Some. rewrite (slot_of_entry_eq v ch), bool_decide_eq_true_2 by done.
  split; [done|]. by apply (used_slot_pos v ch).
Qed.

Lemma slot_of_none v ch id : fs_wf v ch -> abs v ch !! id = None -> slot_of_entry v id = -1.
Proof. intros Hwf Hn%abs_None. by rewrite (slot_of_entry_eq v ch), bool_decide_eq_false_2 by done. Qed.

Lemma entry_allows_node v ch e i n want : abs v ch !! i = Some n -> 0 <= want < 8 -> entry_allows e v i want = true <-> node_allows e n want.
Proof. intros (_ & _ & ->)%abs_Some Hw. by apply mode_granted. Qed.

Lemma search_walk_sound v ch e hops c :
  fs_wf v ch -> reaches_root (dir_table v) (fs_max_entries v) c -> search_walk hops e v c = true -> searchable e (abs v ch) c.
Proof.
  intros Hwf Hr. revert hops. induction Hr as [|c Hc Hcr Hu Hid Hty Hpar IH]; intros hops; [intros; apply se_root|].
  assert (abs v ch !! c = Some (node_of v ch c)) as Hn.
  { apply abs_Some. split; [done|]. split; [|done]. apply (used_nonzero _ _ _ _ (wf_dir _ _ Hwf)); done. }
  destruct (slot_of_node v ch c _ Hwf Hn) as [Hs Hpos].
  destruct hops as [|hops]; cbn [search_walk]; destruct (Z.eqb_spec c 0); try done. rewrite Hs.
  destruct (Z.ltb_spec c 0); [lia|]. destruct (entry_allows e v c FS_WANT_EXEC) eqn:Ha; [|done]. cbn. intros Hw.
  apply se_step with (node_of v ch c); [done|by apply (entry_allows_node v ch e c _ FS_WANT_EXEC Hn)|]. by apply (IH hops).
Qed.

Lemma search_walk_complete v ch e l c hops :
  fs_wf v ch -> root_path (dir_table v) (fs_max_entries v) c l -> (length l <= hops)%nat ->
  searchable e (abs v ch) c -> search_walk hops e v c = true.
Proof.
  intros Hwf. revert c hops. induction l as [|x l IH]; intros c hops Hp Hlen Hs; cbn in Hp.
  - subst c. by destruct hops.
  - destruct Hp as (-> & Hx & Hok & Hp). destruct hops as [|hops]; cbn in Hlen; [lia|]. cbn [search_walk].
    destruct (Z.eqb_spec x 0) as [|_]; [done|]. inversion Hs as [|c n Hn Ha Hs']; subst; [done|].
    destruct (slot_of_node v ch x n Hwf Hn) as [-> Hpos]. destruct (Z.ltb_spec x 0); [lia|].
    rewrite (proj2 (entry_allows_node v ch e x n FS_WANT_EXEC Hn ltac:(done))) by done. cbn.
    apply IH; [done|lia|]. by apply abs_Some in Hn as (_ & _ & ->).
Qed.

Lemma parent_reaches v ch id n :
  fs_wf v ch -> abs v ch !! id = Some n -> reaches_root (dir_table v) (fs_max_entries v) (nd_parent n).
Proof.
  intros Hwf (Hr & Hu & ->)%abs_Some. unfold used in Hu.
  by destruct (dw_tree _ _ _ (wf_dir _ _ Hwf) id Hr ltac:(lia)) as (_ & _ & _ & ?).
Qed.

Lemma search_walk_iff v ch e id n :
  fs_wf v ch -> abs v ch !! id = Some n ->
  search_walk (Z.to_nat (fs_max_entries v)) e v (nd_parent n) = true <-> searchable e (abs v ch) (nd_parent n).
Proof.
  intros Hwf Hn. pose proof (parent_reaches v ch id n Hwf Hn) as Hr.
  split; [by apply search_walk_sound|]. intros Hs.
  assert (0 <= fs_max_entries v <= FS_MAX_ENTRIES_CAP) as Hmax by (pose proof (regions v (wf_geo _ _ Hwf)); lia).
  destruct (reaches_root_path _ _ Hmax _ Hr) as (l & Hl).
  apply (search_walk_complete v ch e l); try done. by apply (root_path_short (dir_table v) _ Hmax l (nd_parent n)).
Qed.

Lemma check_access_spec e v ch id needs_write :
  fs_wf v ch ->
  check_vfs_access e v id needs_write = true <->
  cur_uid e = 0 \/ may_use e (abs v ch) id (Z.lor (if needs_write then FS_WANT_WRITE else FS_WANT_READ) FS_WANT_EXEC).
Proof.
  intros Hwf. unfold check_vfs_access. destruct (Z.eqb_spec (cur_uid e) 0) as [Hu|Hu]; [tauto|].
  replace (if needs_write then _ else _) with (Z.lor (if needs_write then FS_WANT_WRITE else FS_WANT_READ) FS_WANT_EXEC)
    by by destruct needs_write.
  assert (Hwant : 0 <= Z.lor (if needs_write then FS_WANT_WRITE else FS_WANT_READ) FS_WANT_EXEC < 8) by (by destruct needs_write).
  set (want := Z.lor _ _) in *. unfold may_use. destruct (Z.eqb_spec id 0) as [->|Hid].
  - rewrite (mode_granted _ _ _ _ _ want) by done. split; [tauto|]. intros [?|[[_ ?]|(n & Hn & _)]]; [done|done|]. by destruct (slot_of_node v ch 0 n Hwf Hn).
  - destruct (abs v ch !! id) as [n|] eqn:Hn.
    2:{ rewrite (slot_of_none v ch) by done. split; [done|]. by intros [?|[[? _]|(n & ? & _)]]. }
    destruct (slot_of_node v ch id n Hwf Hn) as [-> Hpos]. destruct (Z.ltb_spec id 0); [lia|].
    pose proof (entry_allows_node v ch e id n want Hn Hwant) as Ha. pose proof (search_walk_iff v ch e id n Hwf Hn) as Hw.
    pose proof Hn as (_ & _ & Heq)%abs_Some. assert (parent_id (entry v id) = nd_parent n) as -> by by rewrite Heq.
    destruct (entry_allows e v id want); cbn [negb].
    + rewrite Hw. split; [intros; right; right; exists n; tauto|].
      intros [?|[[? _]|(n' & Hn' & _ & ?)]]; [done|done|]. by simplify_eq.
    + split; [done|]. intros [?|[[? _]|(n' & Hn' & Ha' & ?)]]; [done|done|]. simplify_eq. by apply Ha.
Qed.

(** C17: The access check is the Unix rule.  On a sound file system a task may
    use a directory exactly when it is uid 0, or the directory exists, its
    permission bits allow what is wanted to the caller's class, and every
    directory above it up to the root is searchable by the caller.  In
    particular the bounded walk never refuses a legitimate caller. *)
Theorem check_vfs_access_iff e v ch id needs_write :
  fs_wf v ch ->
  check_vfs_access e v id needs_write = true <->
  cur_uid e = 0 \/ may_use e (abs v ch) id (Z.lor (if needs_write then FS_WANT_WRITE else FS_WANT_READ) FS_WANT_EXEC).
Proof. apply check_access_spec. Qed.

(** ** What a path resolves to *)

(** Searching the tree for one component that is followed by a slash: the
    directory entered or an errno. *)
Inductive enters (A : tree) (cur : Z) : list Z -> Z -> Prop :=
| en_empty : enters A cur [] cur
| en_dot : enters A cur [DOT] cur
| en_up_root : cur = 0 -> enters A cur [DOT; DOT] 0
| en_up n : A !! cur = Some n -> enters A cur [DOT; DOT] (nd_parent n)
| en_down c i n : c <> [] -> c <> [DOT] -> c <> [DOT; DOT] -> named A cur c i -> A !! i = Some n ->
    nd_kind n = Directory -> enters A cur c i
| en_none c : c <> [] -> c <> [DOT] -> c <> [DOT; DOT] -> free_name A cur c -> enters A cur c E_NOENT
| en_file c i n d : c <> [] -> c <> [DOT] -> c <> [DOT; DOT] -> named A cur c i -> A !! i = Some n ->
    nd_kind n = Regular d -> enters A cur c E_NOTDIR.

(** All components but the last are entered; the last is the name.  A component
    of 64 bytes or more ends the search. *)
Inductive walks (A : tree) : Z -> list (list Z) -> Z + Z * list Z -> Prop :=
| wk_last cur c : alen c < MAX_FILENAME -> walks A cur [c] (inr (cur, c))
| wk_long cur c cs : MAX_FILENAME <= alen c -> walks A cur (c :: cs) (inl E_INVAL)
| wk_enter cur c cs mid o : cs <> [] -> alen c < MAX_FILENAME -> enters A cur c mid -> 0 <= mid -> walks A mid cs o ->
    walks A cur (c :: cs) o
| wk_fail cur c cs err : cs <> [] -> alen c < MAX_FILENAME -> enters A cur c err -> err < 0 ->
    walks A cur (c :: cs) (inl err).

(** The parts of a string between slashes. *)
Fixpoint components (s : list Z) : list (list Z) :=
  match s with
  | [] => [[]]
  | c :: s =>
      if c =? SLASH then [] :: components s
      else match components s with t :: ts => (c :: t) :: ts | [] => [[c]] end
  end.

(** What the code returns for an outcome: the errno, or the directory with the
    name in the buffer. *)
Definition returned (o : Z + Z * list Z) (r : Z) (basename : list Z) : Prop :=
  match o with
  | inl err => r = err /\ err < 0
  | inr (p, name) => r = p /\ cstr basename = name
  end.

Definition plain_bytes (t : list Z) : Prop := Forall (fun c => c <> 0 /\ c <> SLASH) t.

Lemma plain_nonzero t : plain_bytes t -> Forall (fun c => c <> 0) t.
Proof. intros Ht. apply (Forall_impl _ _ _ Ht). tauto. Qed.

Lemma is_dot_iff t : plain_bytes t -> is_dot t = true <-> t = [DOT].
Proof.
  unfold is_dot. rewrite andb_true_iff, !Z.eqb_eq. intros Ht. split; [|by intros ->].
  destruct t as [|a [|b t]]; intros [Ha Hb]; [done|by f_equal|].
  unfold plain_bytes in Ht. rewrite !Forall_cons in Ht. by destruct Ht as (_ & [Hb' _] & _).
Qed.

Lemma is_dotdot_iff t : plain_bytes t -> is_dotdot t = true <-> t = [DOT; DOT].
Proof.
  unfold is_dotdot. rewrite !andb_true_iff, !Z.eqb_eq. intros Ht. split; [|by intros ->].
  destruct t as [|a [|b [|c t]]]; intros [[Ha Hb] Hc]; [done|done|by repeat f_equal|].
  unfold plain_bytes in Ht. rewrite !Forall_cons in Ht. by destruct Ht as (_ & _ & [Hc' _] & _).
Qed.

Lemma dir_slot_eq v ch id n :
  fs_wf v ch -> abs v ch !! id = Some n -> nd_kind n = Directory -> dir_slot v id = Some id.
Proof.
  intros Hwf (Hr & Hu & ->)%abs_Some Hk. pose proof (wf_dir _ _ Hwf) as Hd.
  unfold node_of in Hk. cbn in Hk. destruct (Z.eqb_spec (file_type (entry v id)) FT_DIR) as [Hty|]; [|done].
  unfold dir_slot. destruct (for_find _ _ _) as [i|] eqn:Hf.
  - apply for_find_Some in Hf as (Hi & Hm & _). rewrite !andb_true_iff, !Z.eqb_eq in Hm. destruct Hm as [[Hid _] Hu'].
    unfold entry in *. destruct (dw_tree _ _ _ Hd i Hi ltac:(lia)) as (Hid' & _). congruence.
  - rewrite for_find_None in Hf. specialize (Hf id Hr). unfold used in Hu. unfold entry in *.
    destruct (dw_tree _ _ _ Hd id Hr ltac:(lia)) as (Hid & _). by rewrite Hid, Hty, Hu, !Z.eqb_refl in Hf.
Qed.

Lemma is_dir_parent v ch id n : fs_wf v ch -> abs v ch !! id = Some n -> is_dir (abs v ch) (nd_parent n).
Proof.
  intros Hwf Hn. pose proof (parent_reaches v ch id n Hwf Hn) as Hr.
  assert (0 <= nd_parent n) as Hp by (inversion Hr; lia).
  apply abs_is_dir; [done|done|]. by apply (fs_dir_exists_spec v ch).
Qed.

Lemma is_dir_nonneg v ch p : is_dir (abs v ch) p -> 0 <= p.
Proof. intros [->|(n & (? & _)%abs_Some & _)]; lia. Qed.

Lemma get_entry_idx_spec v ch name p :
  fs_wf v ch ->
  (fs_get_entry_idx v name p = -1 /\ free_name (abs v ch) p name) \/
  (0 <= fs_get_entry_idx v name p /\ named (abs v ch) p name (fs_get_entry_idx v name p)).
Proof.
  intros Hwf. unfold fs_get_entry_idx. pose proof (find_names v ch p name Hwf) as Hf.
  destruct (for_find _ _ _) as [i|]; cbn.
  - right. split; [by destruct Hf as [? _]; lia|]. by apply abs_named.
  - left. split; [done|]. by apply abs_free_name.
Qed.

Lemma enter_enters v ch cur t :
  fs_wf v ch -> is_dir (abs v ch) cur -> plain_bytes t -> t <> [] ->
  enters (abs v ch) cur t (enter v cur t) /\ (0 <= enter v cur t -> is_dir (abs v ch) (enter v cur t)).
Proof.
  intros Hwf Hcur Ht Hne. unfold enter.
  destruct (is_dot t) eqn:Hdot; [apply is_dot_iff in Hdot as ->; [|done]; split; [apply en_dot|done]|].
  destruct (is_dotdot t) eqn:Hdd.
  - apply is_dotdot_iff in Hdd as ->; [|done]. destruct (Z.eqb_spec cur 0) as [->|Hc0].
    { split; [by apply en_up_root|by left]. }
    destruct Hcur as [?|(n & Hn & Hk)]; [done|]. rewrite (dir_slot_eq v ch cur n) by done.
    pose proof Hn as (_ & _ & Heq)%abs_Some. assert (parent_id (entry v cur) = nd_parent n) as -> by by rewrite Heq.
    split; [by apply en_up|]. intros _. by apply (is_dir_parent v ch cur).
  - assert (t <> [DOT]) by (intros Hx%is_dot_iff; [congruence|done]).
    assert (t <> [DOT; DOT]) by (intros Hx%is_dotdot_iff; [congruence|done]).
    destruct (get_entry_idx_spec v ch t cur Hwf) as [[-> Hfree]|[Hpos Hnm]]; [split; [by apply en_none|done]|].
    destruct (Z.eqb_spec (fs_get_entry_idx v t cur) (-1)) as [|_]; [lia|]. set (i := fs_get_entry_idx v t cur) in *.
    pose proof Hnm as (n & Hn & _). pose proof Hn as (Hr & Hu & Heq)%abs_Some. unfold used in Hu.
    destruct (dw_tree _ _ _ (wf_dir _ _ Hwf) i Hr ltac:(lia)) as (Hid & _).
    assert (entry_id (entry v i) = i) as -> by exact Hid. unfold node_of in Heq. cbn in Heq.
    destruct (Z.eqb_spec (file_type (entry v i)) FT_DIR); cbn [negb].
    + split; [apply (en_down _ _ _ _ n); try done; by rewrite Heq|]. intros _. right. exists n.
      split; [done|by rewrite Heq].
    + split; [|done]. apply (en_file _ _ t i n (contents v ch i)); try done. by rewrite Heq.
Qed.

Definition prefixed (t : list Z) (cs : list (list Z)) : list (list Z) :=
  match cs with c :: cs => (t ++ c) :: cs | [] => [t] end.

Lemma components_nonempty s : components s <> [].
Proof. destruct s as [|c s]; cbn; [done|]. destruct (c =? SLASH); [done|]. by destruct (components s). Qed.

Lemma prefixed_nil s : prefixed [] (components s) = components s.
Proof. pose proof (components_nonempty s). by destruct (components s). Qed.

Lemma prefixed_char t c s : c <> SLASH -> prefixed t (components (c :: s)) = prefixed (t ++ [c]) (components s).
Proof.
  intros Hc. cbn. destruct (Z.eqb_spec c SLASH); [done|]. pose proof (components_nonempty s).
  destruct (components s) as [|x xs]; [done|]. cbn. by rewrite <- app_assoc.
Qed.

Lemma resolve_loop_walks v ch path t cur basename :
  fs_wf v ch -> is_dir (abs v ch) cur -> plain_bytes t -> alen t < MAX_FILENAME -> alen basename = MAX_FILENAME ->
  exists o, walks (abs v ch) cur (prefixed t (components (cstr path))) o /\
    returned o (resolve_loop v path t cur basename).1 (resolve_loop v path t cur basename).2 /\
    (0 <= (resolve_loop v path t cur basename).1 -> is_dir (abs v ch) (resolve_loop v path t cur basename).1).
Proof.
  intros Hwf. revert t cur. induction path as [|c path IH]; intros t cur Hcur Ht Hlen Hb.
  2: cbn [cstr resolve_loop]; destruct (Z.eqb_spec c 0) as [->|Hc0].
  1-2: exists (inr (cur, t)); cbn; rewrite app_nil_r; split; [by apply wk_last|]; split; [split; [done|]|done];
    rewrite cstr_copy_bounded by (unfold MAX_FILENAME in *; lia); rewrite cstr_id by (by apply plain_nonzero);
    apply take_ge; unfold alen, MAX_FILENAME in *; lia.
  destruct (Z.eqb_spec c SLASH) as [->|Hc].
  - cbn [components]. rewrite Z.eqb_refl. cbn [prefixed]. rewrite app_nil_r.
    destruct (Z.ltb_spec 0 (alen t)) as [Hpos|Hz].
    + assert (t <> []) as Hne by (intros ->; by cbn in Hpos).
      destruct (enter_enters v ch cur t Hwf Hcur Ht Hne) as [Hen Hdir].
      destruct (Z.ltb_spec (enter v cur t) 0) as [Hneg|Hnn].
      * exists (inl (enter v cur t)). split; [by apply wk_fail; try done; apply components_nonempty|].
        split; [done|cbn; lia].
      * destruct (IH [] (enter v cur t) (Hdir Hnn) ltac:(by apply Forall_nil_2) ltac:(done) Hb) as (o & Hw & Hr & Hd).
        exists o. split; [|done]. rewrite prefixed_nil in Hw.
        apply (wk_enter _ _ _ _ (enter v cur t)); try done. apply components_nonempty.
    + assert (t = []) as -> by (destruct t; [done|unfold alen in Hz; cbn in Hz; lia]).
      destruct (IH [] cur Hcur Ht Hlen Hb) as (o & Hw & Hr & Hd). exists o. split; [|done]. rewrite prefixed_nil in Hw.
      apply (wk_enter _ _ _ _ cur); try done; [apply components_nonempty|apply en_empty|]. by apply (is_dir_nonneg v ch).
  - destruct (Z.leb_spec (MAX_FILENAME - 1) (alen t)) as [Hbig|Hsmall].
    + exists (inl E_INVAL). split; [|done]. rewrite prefixed_char by done. pose proof (components_nonempty (cstr path)).
      destruct (components (cstr path)) as [|x xs]; [done|]. apply wk_long. rewrite !alen_app.
      pose proof (alen_nonneg x). change (alen [c]) with 1. lia.
    + rewrite prefixed_char by done. apply IH; [done| |rewrite alen_app; change (alen [c]) with 1; lia|done].
      apply Forall_app. split; [done|]. by apply Forall_singleton.
Qed.

Lemma resolve_path_walks v ch path start basename :
  fs_wf v ch -> is_dir (abs v ch) start -> path.[0] <> 0 -> alen basename = MAX_FILENAME ->
  let r := vfs_resolve_path v path start basename in
  exists o, returned o r.1 r.2 /\ (0 <= r.1 -> is_dir (abs v ch) r.1) /\
    walks (abs v ch) (if path.[0] =? SLASH then 0 else start)
      (components (cstr (if path.[0] =? SLASH then drop 1 path else path))) o.
Proof.
  intros Hwf Hd Hp Hb r. unfold r, vfs_resolve_path. destruct (Z.eqb_spec path.[0] 0) as [|_]; [done|].
  assert (alen (ft_memset basename 0 MAX_FILENAME) = MAX_FILENAME) as Hb' by by rewrite alen_ft_memset.
  destruct (path.[0] =? SLASH).
  - destruct (resolve_loop_walks v ch (drop 1 path) [] 0 _ Hwf ltac:(by left) ltac:(by apply Forall_nil_2)
      ltac:(done) Hb') as (o & Hw & Hr & Hdir). rewrite prefixed_nil in Hw. by exists o.
  - destruct (resolve_loop_walks v ch path [] start _ Hwf Hd ltac:(by apply Forall_nil_2)
      ltac:(done) Hb') as (o & Hw & Hr & Hdir). rewrite prefixed_nil in Hw. by exists o.
Qed.

(** C18: Path resolution walks the tree.  On a sound file system, from a
    directory that exists, resolving a path enters its components one by one
    (empty ones and [.] stay, [..] goes to the parent, the root being its own,
    a name enters the directory of that name) and returns the last directory
    with the last component as the name, or the error of the first component
    that cannot be entered: too long, missing, or not a directory.  The
    directory returned exists. *)
Theorem vfs_resolve_path_walks v ch path start basename :
  fs_wf v ch -> is_dir (abs v ch) start -> path.[0] <> 0 -> alen basename = MAX_FILENAME ->
  let r := vfs_resolve_path v path start basename in
  exists o, returned o r.1 r.2 /\ (0 <= r.1 -> is_dir (abs v ch) r.1) /\
    walks (abs v ch) (if path.[0] =? SLASH then 0 else start)
      (components (cstr (if path.[0] =? SLASH then drop 1 path else path))) o.
Proof. apply resolve_path_walks. Qed.

End decisions.

#[local] Opaque new_fs.

Definition user_env : env := mk_env 1000 1000 1000 0 true true.

(** An ordinary user may search the root of a new file system, and not write there. *)
Lemma check_vfs_access_iff_witness :
  may_use user_env (abs new_fs (fun _ => [])) 0 5 /\ ~ may_use user_env (abs new_fs (fun _ => [])) 0 3.
Proof.
  pose proof (check_vfs_access_iff user_env new_fs (fun _ => []) 0) as Hiff. split.
  - destruct (proj1 (Hiff false (proj1 new_fs_wf)) eq_refl) as [Hx|Hx]; [discriminate Hx|exact Hx].
  - intros Hx. discriminate (proj2 (Hiff true (proj1 new_fs_wf)) (or_intror Hx)).
Defined.

(** [/./a] in the root of a new file system. *)
Lemma vfs_resolve_path_walks_witness :
  exists o, returned o 0 (vfs_resolve_path new_fs [47; 46; 47; 97] 0 (replicate 64 0)).2 /\
    walks (abs new_fs (fun _ => [])) 0 [[46]; [97]] o.
Proof.
  destruct (vfs_resolve_path_walks new_fs (fun _ => []) [47; 46; 47; 97] 0 (replicate 64 0) (proj1 new_fs_wf)
    ltac:(by left) ltac:(discriminate) eq_refl) as (o & Hr & _ & Hw).
  exists o. split; [exact Hr|exact Hw].
Defined.

(** ** What the pointer check decides *)

Section pointer_check.
Context (pd : Z -> Z) (pt : Z -> Z -> Z).

(** Address [a] is one user code may read, and write if [w] is set: its table is
    present, its page present and open to user mode, and for a write either
    writable or shared copy-on-write. *)
Definition accessible (w : bool) (a : Z) : Prop :=
  let pte := pt (a / 2 ^ 22) (a / 2 ^ 12 mod 1024) in
  Z.testbit (pd (a / 2 ^ 22)) 0 = true /\ Z.testbit pte 0 = true /\ Z.testbit pte 2 = true /\
  (w = true -> Z.testbit pte 1 = true \/ Z.testbit pte 9 = true).

Lemma land_bit x k : (0 <=? k) = true -> (Z.land x (2 ^ k) =? 0) = negb (Z.testbit x k).
Proof.
  intros Hk%Z.leb_le. destruct (Z.testbit x k) eqn:Hb; cbn.
  - apply Z.eqb_neq. intros H0. apply (f_equal (fun z => Z.testbit z k)) in H0.
    by rewrite Z.land_spec, Z.pow2_bits_true, Hb, Z.bits_0 in H0 by done.
  - apply Z.eqb_eq, Z.bits_inj'. intros n Hn. rewrite Z.land_spec, Z.bits_0.
    destruct (Z.eq_dec n k) as [->|]; [by rewrite Hb|]. rewrite Z.pow2_bits_false by done. apply andb_false_r.
Qed.

Lemma land_present_user x : (Z.land x 5 =? 5) = Z.testbit x 0 && Z.testbit x 2.
Proof.
  assert (forall n, 2 < n -> Z.testbit 5 n = false) as H5.
  { intros n Hn. apply (Z.bits_above_log2 5 n); [done|exact Hn]. }
  destruct (Z.eqb_spec (Z.land x 5) 5) as [H0|H0].
  - pose proof (f_equal (fun z => Z.testbit z 0) H0) as Ha. pose proof (f_equal (fun z => Z.testbit z 2) H0) as Hb.
    cbv beta in Ha, Hb. rewrite Z.land_spec, andb_true_r in Ha, Hb. by rewrite Ha, Hb.
  - destruct (Z.testbit x 0) eqn:Ha, (Z.testbit x 2) eqn:Hb; try done. destruct H0. apply Z.bits_inj'. intros n Hn.
    rewrite Z.land_spec. destruct (decide (n = 0 \/ n = 1 \/ n = 2)) as [[ -> | [ -> | -> ] ] | Hn'].
    + by rewrite Ha.
    + apply andb_false_r.
    + by rewrite Hb.
    + rewrite (H5 n) by lia. apply andb_false_r.
Qed.

Lemma page_refused_iff page w : page_refused pd pt page w = false <-> accessible w page.
Proof.
  unfold page_refused, accessible. change 0x3FF with (Z.ones 10). rewrite Z.land_ones, !Z.shiftr_div_pow2 by lia.
  change (2 ^ 10) with 1024. rewrite land_present_user, (land_bit _ 0 eq_refl), (land_bit _ 1 eq_refl), (land_bit _ 9 eq_refl).
  set (pte := pt _ _). generalize (Z.testbit (pd (page / 2 ^ 22)) 0) (Z.testbit pte 0) (Z.testbit pte 1)
    (Z.testbit pte 2) (Z.testbit pte 9). intros [] [] [] [] []; destruct w; cbn; intuition congruence.
Qed.

Lemma pages_ok_iff n page end_addr w :
  page mod 4096 = 0 -> 0 <= page -> 0 <= end_addr <= 0xC0000000 -> end_addr - page <= 4096 * Z.of_nat n ->
  pages_ok pd pt n page end_addr w = true <-> forall a, page <= a < end_addr -> accessible w (a - a mod 4096).
Proof.
  revert page. induction n as [|n IH]; intros page Hp Hnn He Hn; cbn [pages_ok].
  { split; [|done]. intros _ a Ha. lia. }
  destruct (Z.ltb_spec page end_addr) as [Hlt|Hge]; [|split; [intros _ a Ha; lia|done]].
  rewrite u32_small by lia. destruct (page_refused pd pt page w) eqn:Hpr.
  - split; [done|]. intros Ha. specialize (Ha page ltac:(lia)). rewrite Hp, Z.sub_0_r in Ha.
    apply page_refused_iff in Ha. congruence.
  - apply page_refused_iff in Hpr. rewrite IH by (lia || zlia). split; intros Ha a Har; [|apply Ha; lia].
    destruct (Z.lt_ge_cases a (page + 4096)); [|apply Ha; lia].
    assert (a - a mod 4096 = page) as -> by zlia. done.
Qed.

Lemma accessible_page w a : accessible w (a - a mod 4096) <-> accessible w a.
Proof.
  assert ((a - a mod 4096) / 2 ^ 22 = a / 2 ^ 22) as H22 by (change (2 ^ 22) with 4194304; zlia).
  assert ((a - a mod 4096) / 2 ^ 12 = a / 2 ^ 12) as H12 by (change (2 ^ 12) with 4096; zlia).
  unfold accessible. by rewrite H22, H12.
Qed.

Lemma land_page a : is_u32 a -> Z.land a 0xFFFFF000 = a - a mod 4096.
Proof.
  intros Ha. assert (a - a mod 4096 = Z.shiftl (Z.shiftr a 12) 12) as ->.
  { rewrite Z.shiftl_mul_pow2, Z.shiftr_div_pow2 by lia. change (2 ^ 12) with 4096. zlia. }
  change 0xFFFFF000 with (Z.shiftl (Z.ones 20) 12). apply Z.bits_inj'. intros n Hn.
  rewrite Z.land_spec. destruct (Z.lt_ge_cases n 12) as [Hlt|Hge].
  { rewrite !Z.shiftl_spec_low by lia. apply andb_false_r. }
  rewrite !Z.shiftl_spec, Z.shiftr_spec by lia. replace (n - 12 + 12) with n by lia.
  destruct (Z.lt_ge_cases n 32) as [H32|H32].
  - rewrite Z.ones_spec_low by lia. apply andb_true_r.
  - rewrite testbit_u32_high by done. done.
Qed.

(** C19: The pointer check accepts exactly the ranges user code may touch.  A
    non-empty range is accepted if and only if it lies between 0x400000 and
    0xC0000000 without wrapping and every one of its bytes is on a page that is
    present, open to user mode and, when the kernel will write, writable or
    copy-on-write. *)
Theorem validate_user_pointer_iff ptr size w :
  is_u32 ptr -> is_u32 size ->
  validate_user_pointer_access pd pt ptr size w = true <->
  size = 0 \/
  (0x400000 <= ptr /\ ptr + size <= 0xC0000000 /\ forall a, ptr <= a < ptr + size -> accessible w a).
Proof.
  unfold is_u32. intros Hp Hs. unfold validate_user_pointer_access.
  destruct (Z.eq_dec size 0) as [->|Hs0].
  { rewrite Z.add_0_r, u32_small, Z.ltb_irrefl by lia. tauto. }
  destruct (Z.lt_ge_cases (ptr + size) (2 ^ 32)) as [Hlt|Hge].
  2:{ assert (u32 (ptr + size) = ptr + size - 2 ^ 32) as ->.
      { unfold u32. symmetry. apply Z.mod_unique_pos with 1; lia. }
      destruct (Z.ltb_spec (ptr + size - 2 ^ 32) ptr); [|lia]. split; [done|lia]. }
  rewrite u32_small by lia. destruct (Z.ltb_spec (ptr + size) ptr); [lia|].
  destruct (Z.eqb_spec size 0); [done|].
  destruct (Z.ltb_spec ptr 0x400000); cbn [orb]; [split; [done|lia]|].
  destruct (Z.ltb_spec 0xC0000000 (ptr + size)); [split; [done|lia]|].
  rewrite land_page, pages_ok_iff by (unfold is_u32; zlia). setoid_rewrite accessible_page. split.
  - intros Ha. right. split; [done|]. split; [lia|]. intros a Har. apply Ha. zlia.
  - intros [?|(_ & _ & Ha)] a Har; [done|]. destruct (Z.lt_ge_cases a ptr); [|apply Ha; lia].
    apply accessible_page. assert (a - a mod 4096 = ptr - ptr mod 4096) as -> by zlia.
    apply accessible_page, Ha. lia.
Qed.

End pointer_check.

(** A page table that maps one copy-on-write page at 0x400000. *)
Lemma validate_user_pointer_iff_witness :
  let pd := fun i => if i =? 1 then 1 else 0 in
  let pt := fun i j => if (i =? 1) && (j =? 0) then 0x205 else 0 in
  accessible pd pt true 0x400010 /\ validate_user_pointer_access pd pt 0x400010 0x1000 true = false.
Proof.
  intros pd pt. pose proof (validate_user_pointer_iff pd pt 0x400010) as Hiff. split.
  - destruct (proj1 (Hiff 16 true ltac:(unfold is_u32; lia) ltac:(unfold is_u32; lia)) eq_refl) as [H0|(_ & _ & Ha)];
      [discriminate H0|]. apply Ha. lia.
  - apply not_true_iff_false. intros Hv.
    destruct (proj1 (Hiff 0x1000 true ltac:(unfold is_u32; lia) ltac:(unfold is_u32; lia)) Hv) as [H0|(_ & _ & Ha)];
      [discriminate H0|]. destruct (Ha 0x401000 ltac:(lia)) as (_ & H1 & _). discriminate H1.
Defined.

End Access.
