(* ===== verification/Sysfs.v ===== *)
(** * The file system calls (kernel/syscall/sys_fs.c)

    The handlers a program reaches through [int 0x80].  A string the caller
    passes is [None] when [copy_user_string] refuses it; [copied] is the answer
    of [copy_to_user], [writable] and [readable] those of the pointer checks of
    Access.v.  The result is what the handler leaves in [eax]. *)

From S2P Require Import Prelude CStr Fat FsFormat BlockStore Vfs VfsDisk VfsData VfsInv VfsOps VfsSpec VfsMount VfsProps.
From S2P Require Import Access Pipe Fd.
Import Fat FsFormat BlockStore Vfs VfsDisk VfsData VfsInv VfsOps VfsSpec VfsMount VfsProps Access Pipe Fd.

Module Sysfs.

Definition READDIR_STAGE_MAX : Z := 4096.
Definition GETCWD_MAX_DEPTH : Z := 16.
Definition GETCWD_MAX_PATH : Z := 512.
Definition SEEK_SET : Z := 0.
Definition SEEK_CUR : Z := 1.
Definition SEEK_END : Z := 2.
Definition WAIT_KBD : Z := 1.
Definition WAIT_IPC : Z := 2.
Definition KBD_EOT : Z := 4.

(** A buffer for a name; the callee clears it before it is used. *)
Definition name_buffer : list Z := replicate (Z.to_nat MAX_FILENAME) 0.

(** The memory of a new open file; [fs_open] fills it in. *)
Definition fresh_file : vfs_file := mk_file name_buffer 0 0 0 0 0 [] 0 false.

(** ** Device names (fs/devfs.c) *)

Definition dev_names : list (list Z) :=
  [[110; 117; 108; 108; 0]; [114; 97; 110; 100; 111; 109; 0]; [117; 114; 97; 110; 100; 111; 109; 0]; [107; 109; 115; 103; 0]].

Definition get_device_idx (name : list Z) : Z :=
  default E_NOENT (for_find 0 (alen dev_names) (fun i => ft_strcmp dev_names.[i] name =? 0)).

Definition get_device_count : Z := alen dev_names.
Definition dev_index_is_valid (idx : Z) : bool := (0 <=? idx) && (idx <? get_device_count).

(** ["dev"] *)
Definition DEV : list Z := [100; 101; 118; 0].

Section sysfs.
Context {S : Type} {bs : BlockStore S} {fc : FileCrypto}.
Implicit Types (v : vfs S) (s : sys S).

Definition split_from_cwd v (cwd : Z) (path : list Z) : Z * list Z := vfs_resolve_path v path cwd name_buffer.

(** ** Opening *)

(** [addr] is what [kmalloc] returns for the open file. *)
Definition sys_open (e : env) s (t cwd : Z) (path : option (list Z)) (want_mode addr : Z) : Z * sys S :=
  match path with
  | None => (E_FAULT, s)
  | Some path =>
      let v := fsys s in
      let '(p, basename) := split_from_cwd v cwd path in
      if p <? 0 then (p, s)
      else if basename.[0] =? 0 then (E_NOENT, s)
      else
        let dev_idx_vfs := fs_get_entry_idx v DEV 0 in
        let dev_id := if negb (dev_idx_vfs =? -1) then entry_id (entry v dev_idx_vfs) else -1 in
        if p =? dev_id then
          let d_idx := get_device_idx basename in
          if 0 <=? d_idx then
            match free_fd s t 3 with
            | Some fd => (fd, set_desc s t fd (mk_fd FD_TYPE_DEVICE d_idx (fd_offset (desc s t fd)) 0))
            | None => (E_MFILE, s)
            end
          else (E_NOENT, s)
        else if negb (check_vfs_access e v p false) then (E_ACCES, s)
        else
          let open_mode := if want_mode =? 1 then 1 else 0 in
          if negb (check_file_access e v p basename (if open_mode =? 1 then FS_WANT_WRITE else FS_WANT_READ)) then (E_ACCES, s)
          else match free_fd s t 3 with
               | None => (E_MFILE, s)
               | Some fd =>
                   if addr =? 0 then (E_NOMEM, s)
                   else
                     let '(r, f) := fs_open v basename p fresh_file in
                     if r =? 0 then
                       let f := set_offset f 0 in
                       let f := if open_mode =? 1 then set_write f (vf_write_buf f) (vf_write_cap f) true else f in
                       let s := set_files s (<[addr := f]> (files s)) in
                       (fd, set_desc s t fd (mk_fd FD_TYPE_FILE addr (fd_offset (desc s t fd)) open_mode))
                     else (E_NOENT, s)
               end
  end.

(** ** Creating, removing and renaming *)

Definition sys_create_file (e : env) v (cwd : Z) (filename content : option (list Z)) : Z * vfs S :=
  if negb (heap_ok e) then (E_NOMEM, v)
  else match filename, content with
       | Some filename, Some content =>
           let '(p, basename) := split_from_cwd v cwd filename in
           if p <? 0 then (p, v)
           else if basename.[0] =? 0 then (E_NOENT, v)
           else if negb (check_vfs_access e v p true) then (E_ACCES, v)
           else fs_create_file e v basename content (ft_strlen content) p
       | _, _ => (E_FAULT, v)
       end.

Definition sys_rm_file (e : env) v (cwd : Z) (filename : option (list Z)) : Z * vfs S :=
  match filename with
  | None => (E_FAULT, v)
  | Some filename =>
      let '(p, basename) := split_from_cwd v cwd filename in
      if p <? 0 then (p, v)
      else if basename.[0] =? 0 then (E_NOENT, v)
      else if negb (check_vfs_access e v p true) then (E_ACCES, v)
      else if negb (check_removal_access e v p basename) then (E_ACCES, v)
      else fs_delete e v basename p
  end.

Definition sys_mv_file (e : env) v (cwd : Z) (old_name new_name : option (list Z)) : Z * vfs S :=
  match old_name, new_name with
  | Some old_name, Some new_name =>
      let '(old_parent, old_base) := split_from_cwd v cwd old_name in
      let '(new_parent, new_base) := split_from_cwd v cwd new_name in
      if old_parent <? 0 then (old_parent, v)
      else if new_parent <? 0 then (new_parent, v)
      else if (old_base.[0] =? 0) || (new_base.[0] =? 0) then (E_NOENT, v)
      else if negb (old_parent =? new_parent) then (E_INVAL, v)
      else if negb (check_vfs_access e v old_parent true) then (E_ACCES, v)
      else if negb (check_removal_access e v old_parent old_base) then (E_ACCES, v)
      else fs_rename e v old_base new_base old_parent
  | _, _ => (E_FAULT, v)
  end.

Definition sys_mkdir (e : env) v (cwd : Z) (name : option (list Z)) : Z * vfs S :=
  match name with
  | None => (E_FAULT, v)
  | Some name =>
      let '(p, basename) := split_from_cwd v cwd name in
      if p <? 0 then (p, v)
      else if basename.[0] =? 0 then (E_NOENT, v)
      else if negb (check_vfs_access e v p true) then (E_ACCES, v)
      else fs_mkdir e v basename p
  end.

(** ** Directories *)

Definition names_a_directory (basename : list Z) : bool := (basename.[0] =? 0) || is_dot basename || is_dotdot basename.

Definition resolve_dir_from_cwd (e : env) v (cwd : Z) (path : list Z) : Z :=
  let '(parent, basename) := split_from_cwd v cwd path in
  if parent <? 0 then parent
  else
    let allowed target := if negb (check_vfs_access e v target false) then E_ACCES else target in
    if (basename.[0] =? 0) || is_dot basename then allowed parent
    else if is_dotdot basename then
      allowed (match dir_slot v parent with Some k => parent_id (entry v k) | None => 0 end)
    else
      let idx := fs_get_entry_idx v basename parent in
      if idx =? -1 then E_NOENT
      else if negb (file_type (entry v idx) =? FT_DIR) then E_NOTDIR
      else allowed (entry_id (entry v idx)).

Definition sys_get_dir_id (e : env) v (cwd : Z) (path : option (list Z)) : Z :=
  match path with None => E_FAULT | Some path => resolve_dir_from_cwd e v cwd path end.

(** The second component is the new working directory. *)
Definition sys_chdir (e : env) v (cwd : Z) (path : option (list Z)) : Z * Z :=
  match path with
  | None => (E_FAULT, cwd)
  | Some path =>
      let target := resolve_dir_from_cwd e v cwd path in
      if target <? 0 then (target, cwd) else (E_OK, target)
  end.

(** [while (id != 0)]: the slots from the working directory up, or an errno;
    [depth] is how many more may be gathered. *)
Fixpoint cwd_chain (depth : nat) v (id : Z) : Z + list Z :=
  if id =? 0 then inr []
  else match depth with
       | O => inl E_NAMETOOLONG
       | Datatypes.S depth =>
           match dir_slot v id with
           | None => inl E_NOENT
           | Some idx =>
               match cwd_chain depth v (parent_id (entry v idx)) with
               | inl err => inl err
               | inr chain => inr (idx :: chain)
               end
           end
       end.

(** [path[pos++] = c], refused when the buffer is full. *)
Definition put_char (path : list Z) (c : Z) : option (list Z) :=
  if GETCWD_MAX_PATH <=? alen path + 1 then None else Some (path ++ [c]).

Fixpoint put_name (path name : list Z) : option (list Z) :=
  match name with
  | c :: name => if c =? 0 then Some path else match put_char path c with Some path => put_name path name | None => None end
  | [] => Some path
  end.

(** The loop over the chain from the root down. *)
Fixpoint render v (path : list Z) (slots : list Z) : option (list Z) :=
  match slots with
  | [] => Some path
  | i :: slots =>
      let with_slash := if 1 <? alen path then put_char path SLASH else Some path in
      match with_slash with
      | None => None
      | Some path =>
          match put_name path (filename (entry v i)) with
          | None => None
          | Some path => render v path slots
          end
      end
  end.

(** The bytes are what is copied to the caller, without the terminator. *)
Definition sys_getcwd v (cwd user_size copied : Z) : Z * list Z :=
  if user_size =? 0 then (E_INVAL, [])
  else match cwd_chain (Z.to_nat GETCWD_MAX_DEPTH) v cwd with
       | inl err => (err, [])
       | inr chain =>
           match render v [SLASH] (rev chain) with
           | None => (E_NAMETOOLONG, [])
           | Some path =>
               if user_size <? alen path + 1 then (E_NAMETOOLONG, [])
               else if negb (copied =? E_OK) then (E_FAULT, [])
               else (alen path, path)
           end
       end.

(** [uint32_t cap] bytes are staged; an entry that does not fit ends the list. *)
Fixpoint list_entries (n : nat) v (p cap i : Z) (kbuf : list Z) : list Z :=
  match n with
  | O => kbuf
  | Datatypes.S n =>
      if negb (is_used (entry v i) =? 0) && (parent_id (entry v i) =? p) then
        let name := take (Z.to_nat (MAX_FILENAME - 1)) (cstr (filename (entry v i))) in
        if cap <? alen kbuf + alen name + 2 then kbuf
        else list_entries n v p cap (i + 1) (kbuf ++ name ++ [if file_type (entry v i) =? FT_DIR then 1 else 2; 0])
      else list_entries n v p cap (i + 1) kbuf
  end.

Definition sys_readdir (e : env) v (ebx buf_size : Z) (writable : bool) (copied : Z) : Z * list Z :=
  let p := u16 ebx in
  if buf_size =? 0 then (0, [])
  else if negb writable then (E_FAULT, [])
  else if negb (check_vfs_access e v p false) then (E_ACCES, [])
  else
    let cap := if READDIR_STAGE_MAX <? buf_size then READDIR_STAGE_MAX else buf_size in
    if negb (heap_ok e) then (E_NOMEM, [])
    else
      let kbuf := list_entries (Z.to_nat (fs_max_entries v)) v p cap 0 [] in
      if (0 <? alen kbuf) && negb (copied =? E_OK) then (E_FAULT, []) else (alen kbuf, kbuf).

(** ** Attributes *)

Definition dir_index_of_entry_id v (id : Z) : Z :=
  default (-1) (for_find 0 (fs_max_entries v) (fun i => (is_used (entry v i) =? 1) && (entry_id (entry v i) =? id))).

Record esd_stat : Type := mk_stat {
  st_size : Z;
  st_disk_size : Z;
  st_ino : Z;
  st_uid : Z;
  st_gid : Z;
  st_parent : Z;
  st_mtime : Z;
  st_ctime : Z;
  st_mode : Z;
  st_type : Z;
  st_encrypted : Z
}.

Definition stat_fill_root : esd_stat := mk_stat 0 0 0 0 0 0 0 0 FS_MODE_DEFAULT_DIR FT_DIR 0.

Definition stat_fill_from_index (e : env) v (idx : Z) (open_file : option vfs_file) (stack : list Z)
    : (Z + esd_stat) * vfs S :=
  if (idx <? 0) || (fs_max_entries v <=? idx) || negb (is_used (entry v idx) =? 1) then (inl E_NOENT, v)
  else
    let d := entry v idx in
    let fill size encrypted :=
      mk_stat size (file_size d) (entry_id d) (owner_uid d) (owner_gid d) (parent_id d) (mtime d) (ctime d)
        (Z.land (mode d) FS_MODE_PERM_MASK) (file_type d) encrypted in
    if file_type d =? FT_DIR then (inr (fill 0 0), v)
    else
      let encrypted := if SEC_LEVEL_CRYPTO_ENFORCED <=? current_sec_level e then 1 else 0 in
      let measured f :=
        let '(rc, size, v) := fs_size e v f stack in
        (if rc =? E_OK then inr (fill size encrypted) else inl rc, v) in
      match open_file with
      | Some f => measured f
      | None =>
          let '(r, probe) := fs_open v (filename d) (parent_id d) fresh_file in
          if negb (r =? E_OK) then (inl E_NOENT, v) else measured probe
      end.

Definition finish_stat (copied : Z) (r : (Z + esd_stat) * vfs S) : Z * option esd_stat * vfs S :=
  match r.1 with
  | inl rc => (rc, None, r.2)
  | inr st => if copied =? E_OK then (E_OK, Some st, r.2) else (E_FAULT, None, r.2)
  end.

Definition sys_stat (e : env) v (cwd : Z) (path : option (list Z)) (writable : bool) (copied : Z) (stack : list Z)
    : Z * option esd_stat * vfs S :=
  match path with
  | None => (E_FAULT, None, v)
  | Some path =>
      if negb writable then (E_FAULT, None, v)
      else
        let '(p, basename) := split_from_cwd v cwd path in
        if p <? 0 then (p, None, v)
        else if names_a_directory basename then
          let target := resolve_dir_from_cwd e v cwd path in
          if target <? 0 then (target, None, v)
          else if target =? 0 then finish_stat copied (inr stat_fill_root, v)
          else finish_stat copied (stat_fill_from_index e v (dir_index_of_entry_id v target) None stack)
        else if negb (check_vfs_access e v p false) then (E_ACCES, None, v)
        else finish_stat copied (stat_fill_from_index e v (fs_get_entry_idx v basename p) None stack)
  end.

Definition sys_fstat (e : env) s (t fd : Z) (writable : bool) (copied : Z) (stack : list Z) : Z * option esd_stat * sys S :=
  if negb (validate_fd s t fd) then (E_BADF, None, s)
  else if negb writable then (E_FAULT, None, s)
  else
    let d := desc s t fd in
    if negb (fd_type d =? FD_TYPE_FILE) || (fd_ptr d =? 0) then (E_BADF, None, s)
    else match files s !! fd_ptr d with
         | None => (E_BADF, None, s)
         | Some f =>
             let '(r, st, v) := finish_stat copied (stat_fill_from_index e (fsys s) (vf_inode_idx f) (Some f) stack) in
             (r, st, set_fsys s v)
         end.

Definition entry_id_for_path (e : env) v (cwd : Z) (path : list Z) : Z :=
  let '(p, basename) := split_from_cwd v cwd path in
  if p <? 0 then p
  else if names_a_directory basename then
    let target := resolve_dir_from_cwd e v cwd path in
    if target <? 0 then target else if target =? 0 then E_PERM else target
  else
    let idx := fs_get_entry_idx v basename p in
    if idx <? 0 then E_NOENT else entry_id (entry v idx).

Definition sys_chmod (e : env) v (cwd : Z) (path : option (list Z)) (m : Z) : Z * vfs S :=
  match path with
  | None => (E_FAULT, v)
  | Some path =>
      let id := entry_id_for_path e v cwd path in
      if id <? 0 then (id, v)
      else
        let idx := dir_index_of_entry_id v id in
        if idx <? 0 then (E_NOENT, v)
        else if negb (cur_uid e =? 0) && negb (owner_uid (entry v idx) =? cur_uid e) then (E_PERM, v)
        else fs_chmod e v id (u16 m)
  end.

Definition sys_chown (e : env) v (cwd : Z) (path : option (list Z)) (new_uid new_gid : Z) : Z * vfs S :=
  if negb (cur_uid e =? 0) then (E_PERM, v)
  else match path with
       | None => (E_FAULT, v)
       | Some path =>
           let id := entry_id_for_path e v cwd path in
           if id <? 0 then (id, v) else fs_chown e v id new_uid new_gid
       end.

(** ** Positions *)

(** The offset is a 32-bit [int]; the arithmetic is on [uint32_t]. *)
Definition seek_target (base offset : Z) : option Z :=
  if offset <? 0 then
    let back := u32 (u32 (- (offset + 1)) + 1) in
    if base <? back then None else Some (base - back)
  else if u32 (0x7FFFFFFF - base) <? offset then None
  else Some (u32 (base + offset)).

Definition sys_lseek (e : env) s (t fd offset whence : Z) (stack : list Z) : Z * sys S :=
  if negb (validate_fd s t fd) then (E_BADF, s)
  else
    let d := desc s t fd in
    if fd_type d =? FD_TYPE_NONE then (E_BADF, s)
    else if negb (fd_type d =? FD_TYPE_FILE) then (E_SPIPE, s)
    else if fd_ptr d =? 0 then (E_BADF, s)
    else match files s !! fd_ptr d with
         | None => (E_BADF, s)
         | Some f =>
             let '(rc, base, v) :=
               if whence =? SEEK_SET then (E_OK, 0, fsys s)
               else if whence =? SEEK_CUR then (E_OK, vf_current_offset f, fsys s)
               else if whence =? SEEK_END then fs_size e (fsys s) f stack
               else (E_INVAL, 0, fsys s) in
             let s := set_fsys s v in
             if negb (rc =? E_OK) then (rc, s)
             else match seek_target base offset with
                  | None => (E_INVAL, s)
                  | Some target => (s32 target, set_files s (<[fd_ptr d := set_offset f target]> (files s)))
                  end
         end.

(** ** Reading and writing *)

(** A call returns a value with the bytes it delivers, sleeps and runs again when
    it is woken, or stops the calling job. *)
Inductive answer : Type :=
| Returned (eax : Z) (out : list Z)
| Sleeps (reason : Z)
| Stopped.

(** What a read finds outside: whether the background job rule applies, whether
    a signal cut the last attempt short, the next key (0: none), whether the
    task may sleep, what the device answers, whether the copy to the caller
    works. *)
Record read_env : Type := mk_renv {
  tty_stop : bool;
  interrupted : bool;
  key : Z;
  may_sleep : bool;
  device : Z -> Z -> Z * list Z;
  r_copied : Z
}.

Definition finish_read (x : read_env) (ret : Z) (out : list Z) : answer :=
  if ret =? E_AGAIN then if may_sleep x then Sleeps WAIT_IPC else Returned E_AGAIN []
  else if (0 <? ret) && negb (r_copied x =? E_OK) then Returned E_FAULT []
  else Returned ret out.

Definition sys_read (e : env) (x : read_env) s (t fd : Z) (size : Z) (writable : bool) (stack : list Z) : answer * sys S :=
  if negb (validate_fd s t fd) || (size <? 0) then (Returned E_INVAL [], s)
  else if size =? 0 then (Returned 0 [], s)
  else if negb writable then (Returned E_FAULT [], s)
  else
    let d := desc s t fd in
    if fd_type d =? FD_TYPE_CONSOLE then
      if tty_stop x then (Stopped, s)
      else if interrupted x then (Returned E_INTR [], s)
      else if key x =? 0 then (if may_sleep x then Sleeps WAIT_KBD else Returned E_AGAIN [], s)
      else if key x =? KBD_EOT then (Returned 0 [], s)
      else (if r_copied x =? E_OK then Returned 1 [key x] else Returned E_FAULT [], s)
    else if negb (heap_ok e) then (Returned E_NOMEM [], s)
    else if fd_type d =? FD_TYPE_FILE then
      match files s !! fd_ptr d with
      | None => (Returned E_BADF [], s)
      | Some f =>
          let '(ret, out, f, v) := fs_read e stack (fsys s) f size in
          (finish_read x ret out, set_fsys (set_files s (<[fd_ptr d := f]> (files s))) v)
      end
    else if fd_type d =? FD_TYPE_PIPE then
      let '(ret, out, p, _) := pipe_read (pipe_pool (pool s)).[pipe_at (fd_ptr d)] true size in
      (finish_read x ret out, set_pool s (set_pipe (pool s) (pipe_at (fd_ptr d)) p))
    else if fd_type d =? FD_TYPE_DEVICE then
      if negb (dev_index_is_valid (fd_ptr d)) then (Returned E_BADF [], s)
      else let '(ret, out) := device x (fd_ptr d) size in (finish_read x ret out, s)
    else (Returned E_BADF [], s).

(** The answer of a write, and whether SIG_PIPE is raised against the caller. *)
Record write_env : Type := mk_wenv { w_may_sleep : bool; w_device : Z -> list Z -> Z; from_user : bool }.

Definition sys_write (e : env) (x : write_env) s (t fd : Z) (data : option (list Z)) (size : Z) (readable : bool)
    : answer * bool * sys S :=
  if negb (validate_fd s t fd) || (size <? 0) then (Returned E_INVAL [], false, s)
  else if size =? 0 then (Returned 0 [], false, s)
  else if negb readable then (Returned E_FAULT [], false, s)
  else if negb (heap_ok e) then (Returned E_NOMEM [], false, s)
  else match data with
  | None => (Returned E_FAULT [], false, s)
  | Some data =>
      let d := desc s t fd in
      if fd_type d =? FD_TYPE_CONSOLE then (Returned size [], false, s)
      else if fd_type d =? FD_TYPE_PIPE then
        let '(ret, p, _) := pipe_write (pipe_pool (pool s)).[pipe_at (fd_ptr d)] (Some data) size in
        let s := set_pool s (set_pipe (pool s) (pipe_at (fd_ptr d)) p) in
        if ret =? E_AGAIN then (if w_may_sleep x then Sleeps WAIT_IPC else Returned E_AGAIN [], false, s)
        else (Returned ret [], (ret =? E_PIPE) && from_user x, s)
      else if fd_type d =? FD_TYPE_DEVICE then
        if negb (dev_index_is_valid (fd_ptr d)) then (Returned E_BADF [], false, s)
        else (Returned (w_device x (fd_ptr d) data) [], false, s)
      else if fd_type d =? FD_TYPE_FILE then
        if negb (fd_mode d =? 1) then (Returned E_BADF [], false, s)
        else if fd_ptr d =? 0 then (Returned E_BADF [], false, s)
        else match files s !! fd_ptr d with
             | None => (Returned E_BADF [], false, s)
             | Some f =>
                 let '(ret, f) := fs_write_buffered e f (Some data) size in
                 (Returned ret [], false, set_files s (<[fd_ptr d := f]> (files s)))
             end
      else (Returned E_BADF [], false, s)
  end.

Definition sys_poll s (t fd : Z) (has_input was_interrupted : bool) : Z :=
  if negb (validate_fd s t fd) then E_INVAL
  else
    let d := desc s t fd in
    if fd_type d =? FD_TYPE_CONSOLE then if has_input || was_interrupted then 1 else 0
    else if fd_type d =? FD_TYPE_PIPE then
      if fd_ptr d =? 0 then E_BADF
      else
        let p := (pipe_pool (pool s)).[pipe_at (fd_ptr d)] in
        if negb (head p =? tail p) || (write_refs p <=? 0) then 1 else 0
    else if (fd_type d =? FD_TYPE_FILE) || (fd_type d =? FD_TYPE_DEVICE) then 1
    else E_BADF.

Definition sys_read_raw (e : env) s (t fd size : Z) (writable : bool) (copied : Z) (stack : list Z) : Z * list Z * sys S :=
  if negb (validate_fd s t fd) || (size <? 0) then (E_INVAL, [], s)
  else if size =? 0 then (0, [], s)
  else if negb writable then (E_FAULT, [], s)
  else
    let d := desc s t fd in
    if negb (fd_type d =? FD_TYPE_FILE) || (fd_ptr d =? 0) then (E_BADF, [], s)
    else if negb (heap_ok e) then (E_NOMEM, [], s)
    else match files s !! fd_ptr d with
         | None => (E_BADF, [], s)
         | Some f =>
             let '(ret, out, f, v) := fs_read_raw stack (fsys s) f size in
             let s := set_fsys (set_files s (<[fd_ptr d := f]> (files s))) v in
             if (0 <? ret) && negb (copied =? E_OK) then (E_FAULT, [], s) else (ret, out, s)
         end.

End sysfs.

End Sysfs.
