(* ===== verification/SysfsProps.v ===== *)
(** * Properties of the file system calls

    What a program can do to the file system through the calls of Sysfs.v: every
    change is one of the tree specification that the caller is permitted to make,
    whatever strings it passes; working directories, positions and listings are
    what they should be. *)

From S2P Require Import Prelude CStr Fat FsFormat BlockStore Vfs VfsDisk VfsData VfsInv VfsOps VfsSpec VfsMount VfsProps.
From S2P Require Import Access Pipe Fd Sysfs.
Import Pipe Fd Fat FsFormat BlockStore Vfs VfsDisk VfsData VfsInv VfsOps VfsSpec VfsMount VfsProps Access Sysfs.

Module SysfsProps.

(** ** Permissions *)

Definition may_write (e : env) (A : tree) (p : Z) : Prop :=
  cur_uid e = 0 \/ may_use e A p (Z.lor FS_WANT_WRITE FS_WANT_EXEC).

(** The mode and the owner of a directory. *)
Inductive dir_attr (A : tree) : Z -> Z -> Z -> Prop :=
| da_root : dir_attr A 0 FS_MODE_DEFAULT_DIR 0
| da_node p n : A !! p = Some n -> dir_attr A p (nd_mode n) (nd_uid n).

(** In a sticky directory an entry is removed by its owner or the directory's. *)
Definition may_remove (e : env) (A : tree) (p : Z) (name : list Z) : Prop :=
  cur_uid e = 0 \/
  forall i n, named A p name i -> A !! i = Some n ->
    exists m o, dir_attr A p m o /\
      (Z.land m FS_MODE_STICKY = 0 \/ cur_uid e = nd_uid n \/ cur_uid e = o).

Definition permitted (e : env) (A : tree) (c : fs_call) : Prop :=
  match c with
  | Create _ _ _ p | Mkdir _ p => may_write e A p
  | Delete name p | Rename name _ p => may_write e A p /\ may_remove e A p name
  | Chmod id _ => cur_uid e = 0 \/ exists n, A !! id = Some n /\ nd_uid n = cur_uid e
  | Chown _ _ _ => cur_uid e = 0
  end.

(** The calls that change the tree, with the strings the caller passes. *)
Inductive path_call : Type :=
| PCreate (filename content : option (list Z))
| PRemove (filename : option (list Z))
| PMove (old_name new_name : option (list Z))
| PMkdir (name : option (list Z))
| PChmod (path : option (list Z)) (m : Z)
| PChown (path : option (list Z)) (uid gid : Z).

(** The arguments fit the registers, and [copy_user_string] stops at 4096 bytes. *)
Definition path_call_ok (c : path_call) : Prop :=
  match c with
  | PCreate _ (Some content) => alen content <= 4096
  | PChown _ uid gid => is_u32 uid /\ is_u32 gid
  | _ => True
  end.

Class FileCryptoLaws {fc : FileCrypto} := {
  (** the sealed form adds the vector, the header and the padding *)
  fc_seal_len : forall e d b, fc_seal e d = inr b -> alen b <= alen d + 71;
  fc_seal_err : forall e d r, fc_seal e d = inl r -> r < 0
}.

Section props.
Context {S : Type} {bs : BlockStore S} {laws : StoreLaws S} {rel : StoreReliable S}.
Context {fc : FileCrypto} {fcl : FileCryptoLaws}.
Implicit Types (v w : vfs S) (s : sys S).

Definition run_path_call (e : env) v (cwd : Z) (c : path_call) : Z * vfs S :=
  match c with
  | PCreate filename content => sys_create_file e v cwd filename content
  | PRemove filename => sys_rm_file e v cwd filename
  | PMove old_name new_name => sys_mv_file e v cwd old_name new_name
  | PMkdir name => sys_mkdir e v cwd name
  | PChmod path m => sys_chmod e v cwd path m
  | PChown path uid gid => sys_chown e v cwd path uid gid
  end.

(** A call is refused and nothing changes, or it is a permitted step of the tree. *)
Definition path_sound (e : env) v (ch : Z -> list Z) (r : Z) w : Prop :=
  exists ch', fs_wf w ch' /\
    ((w = v /\ r < 0) \/ exists c, permitted e (abs v ch) c /\ tree_step (limits_of v) e (abs v ch) c r (abs w ch')).

Lemma path_sound_refused e v ch r : fs_wf v ch -> r < 0 -> path_sound e v ch r v.
Proof. intros Hwf Hr. exists ch. split; [done|]. by left. Qed.

Lemma path_sound_call e v ch c r w :
  fs_wf v ch -> call_ok (e, c) -> permitted e (abs v ch) c -> run_call e v c = (r, w) -> path_sound e v ch r w.
Proof.
  intros Hwf Hc Hp Hrun. destruct (run_call_simulates e v ch c r w Hwf Hc Hrun) as (ch' & Hwf' & _ & Hst).
  exists ch'. split; [done|]. right. by exists c.
Qed.

Lemma check_write_spec e v ch p :
  fs_wf v ch -> check_vfs_access e v p true = true -> may_write e (abs v ch) p.
Proof. intros Hwf Hc. by apply (check_access_spec e v ch p true Hwf) in Hc. Qed.

Lemma check_removal_spec e v ch p name :
  fs_wf v ch -> check_removal_access e v p name = true -> may_remove e (abs v ch) p name.
Proof.
  intros Hwf. unfold check_removal_access, may_remove. destruct (Z.eqb_spec (cur_uid e) 0) as [|Hu]; [by left|].
  intros Hc. right. intros i n Hnm Hn. revert Hc. destruct (get_entry_idx_spec v ch name p Hwf) as [[_ Hfree]|[Hpos Hnm']]; [by destruct (Hfree i)|].
  rewrite abs_named in Hnm, Hnm'. pose proof (is_entry_unique v ch p name _ _ Hwf Hnm' Hnm) as Heq.
  rewrite Heq in *. destruct (Z.ltb_spec i 0); [lia|]. apply abs_Some in Hn as (_ & _ & ->). cbn [node_of nd_uid].
  assert (forall m o, fs_sticky_allows_removal m o (owner_uid (entry v i)) (cur_uid e) = true ->
    Z.land m FS_MODE_STICKY = 0 \/ cur_uid e = owner_uid (entry v i) \/ cur_uid e = o) as Hst.
  { intros m o. unfold fs_sticky_allows_removal. destruct (Z.eqb_spec (Z.land m FS_MODE_STICKY) 0); [by left|].
    rewrite !orb_true_iff, !Z.eqb_eq. tauto. }
  destruct (Z.eqb_spec p 0) as [->|Hp]; cbn [negb] in *.
  - intros Hc. exists FS_MODE_DEFAULT_DIR, 0. split; [apply da_root|by apply Hst].
  - destruct (abs v ch !! p) as [m|] eqn:Hm; [|by rewrite (slot_of_none v ch)].
    destruct (slot_of_node v ch p m Hwf Hm) as [-> Hpp]. destruct (Z.ltb_spec p 0); [lia|]. intros Hc.
    exists (nd_mode m), (nd_uid m). split; [by apply da_node|]. apply abs_Some in Hm as (_ & _ & ->). by apply Hst.
Qed.

Lemma negative_errno_refused e v ch r : fs_wf v ch -> (r <? 0) = true -> path_sound e v ch r v.
Proof. intros Hwf Hr. apply path_sound_refused; [done|lia]. Qed.

(** A branch that answers an errno and changes nothing. *)
Ltac refused := intros [= <- <-]; first [by apply path_sound_refused | by apply negative_errno_refused].

Lemma create_file_sound e v ch name content size p r w :
  fs_wf v ch -> env_ok e -> 0 <= p -> 0 <= size <= alen content -> size <= 4096 -> may_write e (abs v ch) p ->
  fs_create_file e v name content size p = (r, w) -> path_sound e v ch r w.
Proof.
  intros Hwf He Hp Hsz H4 Hmw. unfold fs_create_file, fs_create_encrypted.
  destruct (_ <=? _); [refused|].
  destruct (SEC_LEVEL_CRYPTO_ENFORCED <=? current_sec_level e).
  - destruct (key_usable e); cbn [negb]; [|refused].
    destruct (fc_seal e _) as [err|b] eqn:Hs.
    + intros [= <- <-]. apply path_sound_refused; [done|]. by apply (fc_seal_err _ _ _ Hs).
    + intros Hrun. apply fc_seal_len in Hs. rewrite alen_take in Hs by done. pose proof (alen_nonneg b).
      apply (path_sound_call e v ch (Create name b (alen b) p)); try done. split; [done|]. cbn. lia.
  - intros Hrun. apply (path_sound_call e v ch (Create name content size p)); try done. split; [done|]. cbn. lia.
Qed.

Lemma sys_create_file_sound e v ch cwd filename content r w :
  fs_wf v ch -> env_ok e -> path_call_ok (PCreate filename content) ->
  sys_create_file e v cwd filename content = (r, w) -> path_sound e v ch r w.
Proof.
  intros Hwf He Hok. unfold sys_create_file.
  destruct (heap_ok e); cbn [negb]; [|refused].
  destruct filename as [filename|], content as [content|]; try (refused).
  destruct (split_from_cwd v cwd filename) as [p b]. destruct (p <? 0) eqn:Hp; [refused|].
  destruct (b.[0] =? 0); [refused|].
  destruct (check_vfs_access e v p true) eqn:Hc; cbn [negb]; [|refused].
  apply create_file_sound; try done; [lia| | |by apply check_write_spec].
  - rewrite ft_strlen_cstr. split; [apply alen_nonneg|]. apply alen_cstr_le.
  - rewrite ft_strlen_cstr. cbn in Hok. pose proof (alen_cstr_le content). lia.
Qed.

Lemma sys_rm_file_sound e v ch cwd filename r w :
  fs_wf v ch -> env_ok e -> sys_rm_file e v cwd filename = (r, w) -> path_sound e v ch r w.
Proof.
  intros Hwf He. unfold sys_rm_file. destruct filename as [filename|]; [|refused].
  destruct (split_from_cwd v cwd filename) as [p b]. destruct (p <? 0) eqn:Hp; [refused|].
  destruct (b.[0] =? 0); [refused|]. destruct (check_vfs_access e v p true) eqn:Hc; cbn [negb]; [|refused].
  destruct (check_removal_access e v p b) eqn:Hr; cbn [negb]; [|refused].
  intros Hrun. apply (path_sound_call e v ch (Delete b p)); try done; [split; [done|cbn; lia]|].
  split; [by apply check_write_spec|by apply check_removal_spec].
Qed.

Lemma sys_mv_file_sound e v ch cwd old new r w :
  fs_wf v ch -> env_ok e -> sys_mv_file e v cwd old new = (r, w) -> path_sound e v ch r w.
Proof.
  intros Hwf He. unfold sys_mv_file. destruct old as [old|]; [|refused]. destruct new as [new|]; [|refused].
  destruct (split_from_cwd v cwd old) as [p b], (split_from_cwd v cwd new) as [p' b'].
  destruct (p <? 0) eqn:Hp; [refused|]. destruct (p' <? 0) eqn:Hp'; [refused|].
  destruct (_ || _); [refused|]. destruct (Z.eqb_spec p p'); cbn [negb]; [|refused].
  destruct (check_vfs_access e v p true) eqn:Hc; cbn [negb]; [|refused].
  destruct (check_removal_access e v p b) eqn:Hr; cbn [negb]; [|refused].
  intros Hrun. apply (path_sound_call e v ch (Rename b b' p)); try done; [split; [done|cbn; lia]|].
  split; [by apply check_write_spec|by apply check_removal_spec].
Qed.

Lemma sys_mkdir_sound e v ch cwd name r w :
  fs_wf v ch -> env_ok e -> sys_mkdir e v cwd name = (r, w) -> path_sound e v ch r w.
Proof.
  intros Hwf He. unfold sys_mkdir. destruct name as [name|]; [|refused].
  destruct (split_from_cwd v cwd name) as [p b]. destruct (p <? 0) eqn:Hp; [refused|].
  destruct (b.[0] =? 0); [refused|]. destruct (check_vfs_access e v p true) eqn:Hc; cbn [negb]; [|refused].
  intros Hrun. apply (path_sound_call e v ch (Mkdir b p)); try done; [split; [done|cbn; lia]|]. by apply check_write_spec.
Qed.

Lemma dir_index_spec v ch id : fs_wf v ch -> 0 <= dir_index_of_entry_id v id ->
  dir_index_of_entry_id v id = id /\ abs v ch !! id = Some (node_of v ch id).
Proof.
  intros Hwf. unfold dir_index_of_entry_id. destruct (for_find _ _ _) as [i|] eqn:Hf; cbn; [|lia]. intros _.
  apply for_find_Some in Hf as (Hi & Hm & _). rewrite andb_true_iff, !Z.eqb_eq in Hm. destruct Hm as [Hu Hid].
  unfold entry in *. destruct (dw_tree _ _ _ (wf_dir _ _ Hwf) i Hi ltac:(lia)) as (Hid' & _).
  assert (i = id) as -> by congruence. split; [done|]. by apply abs_Some.
Qed.

Lemma sys_chmod_sound e v ch cwd path m r w :
  fs_wf v ch -> env_ok e -> sys_chmod e v cwd path m = (r, w) -> path_sound e v ch r w.
Proof.
  intros Hwf He. unfold sys_chmod. destruct path as [path|]; [|refused].
  set (id := entry_id_for_path e v cwd path). destruct (id <? 0) eqn:Hid; [refused|].
  destruct (dir_index_of_entry_id v id <? 0) eqn:Hx; [refused|].
  destruct (dir_index_spec v ch id Hwf ltac:(lia)) as [-> Hn].
  destruct (negb (cur_uid e =? 0) && negb (owner_uid (entry v id) =? cur_uid e)) eqn:Hown; [refused|].
  intros Hrun. apply (path_sound_call e v ch (Chmod id (u16 m))); try done.
  - split; [done|]. cbn. unfold u16. apply Z.mod_pos_bound. lia.
  - rewrite andb_false_iff, !negb_false_iff, !Z.eqb_eq in Hown. destruct Hown as [?|?]; [by left|right].
    by exists (node_of v ch id).
Qed.

Lemma sys_chown_sound e v ch cwd path uid gid r w :
  fs_wf v ch -> env_ok e -> is_u32 uid -> is_u32 gid -> sys_chown e v cwd path uid gid = (r, w) -> path_sound e v ch r w.
Proof.
  intros Hwf He Hu Hg. unfold sys_chown. destruct (Z.eqb_spec (cur_uid e) 0); cbn [negb]; [|refused].
  destruct path as [path|]; [|refused]. set (id := entry_id_for_path e v cwd path). destruct (id <? 0) eqn:Hid; [refused|].
  intros Hrun. by apply (path_sound_call e v ch (Chown id uid gid)).
Qed.

(** C16: What a program can do to the file system.  Whatever strings a program
    passes to create, remove, rename, make a directory, chmod or chown, from any
    working directory and as any user: the file system stays sound, and either
    the call is refused with an error and nothing changes, or it is a step of the
    tree specification the caller is permitted to make.  Making and removing
    entries takes write and search permission on the directory and search
    permission above it, removal and renaming in a sticky directory take
    ownership as well, the mode is changed by the owner only, the owner by root. *)
Theorem path_calls_permitted e v ch cwd c r w :
  fs_wf v ch -> env_ok e -> path_call_ok c -> run_path_call e v cwd c = (r, w) ->
  exists ch', fs_wf w ch' /\
    ((w = v /\ r < 0) \/
     exists c', permitted e (abs v ch) c' /\ tree_step (limits_of v) e (abs v ch) c' r (abs w ch')).
Proof.
  intros Hwf He Hok. destruct c as [f c|f|o n|n|q m|q u g]; cbn [run_path_call].
  - by apply sys_create_file_sound.
  - by apply sys_rm_file_sound.
  - by apply sys_mv_file_sound.
  - by apply sys_mkdir_sound.
  - by apply sys_chmod_sound.
  - destruct Hok. by apply sys_chown_sound.
Qed.

(** ** The working directory *)

Lemma split_dir v ch cwd path :
  fs_wf v ch -> is_dir (abs v ch) cwd -> 0 <= (split_from_cwd v cwd path).1 -> is_dir (abs v ch) (split_from_cwd v cwd path).1.
Proof.
  intros Hwf Hd Hr. destruct (Z.eq_dec path.[0] 0) as [H0|H0].
  - unfold split_from_cwd, vfs_resolve_path in Hr. rewrite H0 in Hr. cbn in Hr. done.
  - destruct (resolve_path_walks v ch path cwd name_buffer Hwf Hd H0 eq_refl) as (o & _ & Hdir & _). by apply Hdir.
Qed.

Lemma resolve_dir_ok e v ch cwd path :
  fs_wf v ch -> is_dir (abs v ch) cwd -> 0 <= resolve_dir_from_cwd e v cwd path ->
  is_dir (abs v ch) (resolve_dir_from_cwd e v cwd path) /\
  check_vfs_access e v (resolve_dir_from_cwd e v cwd path) false = true.
Proof.
  intros Hwf Hd. pose proof (split_dir v ch cwd path Hwf Hd) as Hs. unfold resolve_dir_from_cwd.
  destruct (split_from_cwd v cwd path) as [p b]. cbn [fst] in Hs. destruct (Z.ltb_spec p 0); [lia|]. specialize (Hs ltac:(lia)).
  assert (forall t, is_dir (abs v ch) t -> 0 <= (if negb (check_vfs_access e v t false) then E_ACCES else t) ->
    is_dir (abs v ch) (if negb (check_vfs_access e v t false) then E_ACCES else t) /\
    check_vfs_access e v (if negb (check_vfs_access e v t false) then E_ACCES else t) false = true) as Hallowed.
  { intros t Ht. by destruct (check_vfs_access e v t false) eqn:Hc. }
  destruct (_ || _); [by apply Hallowed|]. destruct (is_dotdot b).
  - apply Hallowed. destruct (dir_slot v p) as [k|] eqn:Hk; [|by left].
    destruct Hs as [->|(n & Hn & Hkd)].
    + apply for_find_Some in Hk as (Hkr & Hm & _). rewrite !andb_true_iff, !Z.eqb_eq in Hm. destruct Hm as [[Hid _] Hu].
      unfold entry in Hid. destruct (dw_tree _ _ _ (wf_dir _ _ Hwf) k Hkr ltac:(unfold entry in Hu; lia)) as (Hid' & _).
      rewrite Hid' in Hid. subst k. pose proof (dw_slot0 _ _ _ (wf_dir _ _ Hwf)). unfold entry in Hu. lia.
    + rewrite (dir_slot_eq v ch p n) in Hk by done. injection Hk as <-.
      pose proof Hn as (_ & _ & Heq)%abs_Some. assert (parent_id (entry v p) = nd_parent n) as -> by by rewrite Heq.
      by apply (is_dir_parent v ch p).
  - destruct (get_entry_idx_spec v ch b p Hwf) as [[-> _]|[Hpos (n & Hn & _)]]; [done|].
    destruct (Z.eqb_spec (fs_get_entry_idx v b p) (-1)); [lia|]. set (i := fs_get_entry_idx v b p) in *.
    destruct (Z.eqb_spec (file_type (entry v i)) FT_DIR) as [Hty|]; cbn [negb]; [|done].
    apply abs_Some in Hn as (Hr & Hu & ->). unfold used in Hu.
    destruct (dw_tree _ _ _ (wf_dir _ _ Hwf) i Hr ltac:(lia)) as (Hid & _).
    assert (entry_id (entry v i) = i) as -> by exact Hid. apply Hallowed. right.
    exists (node_of v ch i). split; [by apply abs_Some|]. cbn. by rewrite Hty.
Qed.

(** A name a path can go through. *)
Definition enterable (name : list Z) : Prop :=
  name <> [] /\ plain_bytes name /\ name <> [DOT] /\ name <> [DOT; DOT].

(** The slots from a directory down to another. *)
Fixpoint leads v (cur : Z) (slots : list Z) (target : Z) : Prop :=
  match slots with
  | [] => target = cur
  | i :: slots =>
      (0 <= i < fs_max_entries v /\ used (dir_table v) i /\ file_type (entry v i) = FT_DIR /\ parent_id (entry v i) = cur /\
       enterable (name_of (entry v i))) /\ leads v i slots target
  end.

Lemma leads_snoc v cur slots mid i target :
  leads v cur slots mid -> leads v mid [i] target -> leads v cur (slots ++ [i]) target.
Proof.
  revert cur. induction slots as [|j slots IH]; intros cur; cbn [leads app]; [by intros ->|].
  intros [? ?] ?. split; [done|]. by apply IH.
Qed.

(** Every directory above [id], itself included, has an enterable name. *)
Fixpoint names_enterable (depth : nat) v (id : Z) : Prop :=
  match depth with
  | O => True
  | Datatypes.S depth =>
      if id =? 0 then True
      else match dir_slot v id with
           | Some i => enterable (name_of (entry v i)) /\ names_enterable depth v (parent_id (entry v i))
           | None => True
           end
  end.

Lemma cwd_chain_leads v ch depth id chain :
  fs_wf v ch -> is_dir (abs v ch) id -> names_enterable depth v id -> cwd_chain depth v id = inr chain -> leads v 0 (rev chain) id.
Proof.
  intros Hwf. revert id chain. induction depth as [|depth IH]; intros id chain Hd Hne; cbn [cwd_chain];
    destruct (Z.eqb_spec id 0) as [->|Hid]; try done; try (by intros [= <-]).
  destruct Hd as [?|(n & Hn & Hk)]; [done|]. cbn in Hne. destruct (Z.eqb_spec id 0); [done|].
  rewrite (dir_slot_eq v ch id n Hwf Hn Hk) in *.
  pose proof (is_dir_parent v ch id n Hwf Hn) as Hpd. pose proof Hn as (Hr & Hu & Heq)%abs_Some.
  assert (nd_parent n = parent_id (entry v id)) as Hpar by by rewrite Heq. rewrite Hpar in Hpd.
  destruct (cwd_chain depth v (parent_id (entry v id))) as [|chain'] eqn:Hc; [done|]. intros [= <-].
  destruct Hne as [He Hne]. specialize (IH _ _ Hpd Hne Hc). cbn [rev]. apply (leads_snoc v 0 _ (parent_id (entry v id))); [done|].
  cbn. split_and!; try done; try lia. rewrite Heq in Hk. unfold node_of in Hk. cbn in Hk.
  by destruct (Z.eqb_spec (file_type (entry v id)) FT_DIR).
Qed.

Fixpoint join (names : list (list Z)) : list Z :=
  match names with
  | [] => []
  | [n] => n
  | n :: names => n ++ [SLASH] ++ join names
  end.

Lemma join_cons n ns : ns <> [] -> join (n :: ns) = n ++ [SLASH] ++ join ns.
Proof. by destruct ns. Qed.

Lemma put_name_app path name path' : put_name path name = Some path' -> path' = path ++ cstr name.
Proof.
  revert path. induction name as [|c name IH]; intros path; cbn; [intros [= <-]; by rewrite app_nil_r|].
  destruct (c =? 0); [intros [= <-]; by rewrite app_nil_r|]. unfold put_char. destruct (_ <=? _); [done|].
  intros Hp%IH. by rewrite Hp, <- app_assoc.
Qed.

Lemma render_join v path slots path' :
  render v path slots = Some path' -> slots <> [] -> (forall i, i ∈ slots -> name_of (entry v i) <> []) ->
  path' = (if 1 <? alen path then path ++ [SLASH] else path) ++ join (map (fun i => name_of (entry v i)) slots) \/
  path = [].
Proof.
  revert path. induction slots as [|i slots IH]; intros path Hr Hne Hnm; [done|]. cbn [render] in Hr. clear Hne.
  destruct path as [|c0 path0] eqn:Hpath; [by right|]. rewrite <- Hpath in *. left.
  assert (0 < alen path) as Hlen by (rewrite Hpath; unfold alen; cbn; lia). clear Hpath c0 path0.
  set (q := if 1 <? alen path then put_char path SLASH else Some path) in *.
  assert (q = None \/ q = Some (if 1 <? alen path then path ++ [SLASH] else path)) as [Hq|Hq].
  { unfold q, put_char. destruct (1 <? alen path); [|by right]. destruct (_ <=? _); [by left|by right]. }
  { by rewrite Hq in Hr. }
  rewrite Hq in Hr. set (path1 := if 1 <? alen path then path ++ [SLASH] else path) in *.
  destruct (put_name path1 (filename (entry v i))) as [path2|] eqn:Hp; [|done]. apply put_name_app in Hp.
  fold (name_of (entry v i)) in Hp. specialize (Hnm i ltac:(by left)) as Hi.
  assert (1 < alen path2) as H2.
  { rewrite Hp, alen_app. pose proof (alen_pos _ Hi).
    unfold path1. destruct (1 <? alen path); rewrite ?alen_app; change (alen [SLASH]) with 1; lia. }
  destruct slots as [|j slots].
  - cbn in *. injection Hr as <-. by rewrite Hp.
  - destruct (IH path2 Hr ltac:(done) ltac:(intros; apply Hnm; by right)) as [-> | ->]; [|cbn in H2; done].
    rewrite (proj2 (Z.ltb_lt 1 (alen path2))) by done. cbn [map]. rewrite (join_cons (name_of (entry v i))) by done.
    rewrite Hp, <- !app_assoc. done.
Qed.

Lemma resolve_token v name rest t cur basename :
  plain_bytes name -> alen t + alen name < MAX_FILENAME ->
  resolve_loop v (name ++ rest) t cur basename = resolve_loop v rest (t ++ name) cur basename.
Proof.
  revert t. induction name as [|c name IH]; intros t Hp Hlen; cbn [app]; [by rewrite app_nil_r|].
  apply Forall_cons in Hp as [[Hc0 Hcs] Hp]. unfold alen in Hlen. cbn [length] in Hlen. cbn [resolve_loop].
  destruct (Z.eqb_spec c 0); [done|]. destruct (Z.eqb_spec c SLASH); [done|].
  destruct (Z.leb_spec (MAX_FILENAME - 1) (alen t)); [unfold alen in *; lia|].
  rewrite IH, <- app_assoc; [done|done|]. unfold alen in *. rewrite length_app. cbn. lia.
Qed.

Lemma enter_slot v ch cur i :
  fs_wf v ch -> 0 <= i < fs_max_entries v -> used (dir_table v) i -> file_type (entry v i) = FT_DIR ->
  parent_id (entry v i) = cur -> enterable (name_of (entry v i)) -> enter v cur (name_of (entry v i)) = i /\ 0 <= i.
Proof.
  intros Hwf Hi Hu Hty Hp (Hne & Hpl & H1 & H2). split; [|lia]. unfold enter.
  rewrite (not_true_is_false _ (fun H => H1 (proj1 (is_dot_iff _ Hpl) H))).
  rewrite (not_true_is_false _ (fun H => H2 (proj1 (is_dotdot_iff _ Hpl) H))).
  assert (is_entry v cur (name_of (entry v i)) i) as He.
  { split; [done|]. split; [done|]. split; [done|]. symmetry. apply cstr_id. by apply plain_nonzero. }
  destruct (get_entry_idx_spec v ch (name_of (entry v i)) cur Hwf) as [[_ Hf]|[Hpos Hnm]].
  { destruct (Hf i). by apply abs_named. }
  apply abs_named in Hnm. rewrite (is_entry_unique v ch _ _ _ _ Hwf Hnm He).
  destruct (Z.eqb_spec i (-1)); [lia|]. rewrite Hty. cbn [negb]. unfold used in Hu.
  by destruct (dw_tree _ _ _ (wf_dir _ _ Hwf) i Hi ltac:(lia)) as (? & _).
Qed.

Lemma name_short v ch i : fs_wf v ch -> 0 <= i < fs_max_entries v -> used (dir_table v) i -> alen (name_of (entry v i)) < MAX_FILENAME.
Proof. intros Hwf. apply (dw_names _ _ _ (wf_dir _ _ Hwf)). Qed.

Lemma resolve_leads v ch cur slots i target basename :
  fs_wf v ch -> leads v cur (slots ++ [i]) target ->
  resolve_loop v (join (map (fun j => name_of (entry v j)) (slots ++ [i]))) [] cur basename =
    (parent_id (entry v i), copy_bounded basename (name_of (entry v i)) 0 (MAX_FILENAME - 1)) /\ target = i.
Proof.
  intros Hwf. revert cur. induction slots as [|j slots IH]; intros cur; cbn [app leads map].
  - intros [(Hr & Hu & Hty & Hp & He) ->]. split; [|done]. cbn [join]. rewrite <- (app_nil_r (name_of (entry v i))) at 1.
    rewrite resolve_token; [by rewrite Hp|apply He|]. change (alen []) with 0. by apply (name_short v ch).
  - intros [(Hr & Hu & Hty & Hp & He) Hl]. rewrite join_cons by (by destruct slots).
    rewrite resolve_token; [|apply He|change (alen []) with 0; by apply (name_short v ch)]. cbn [app].
    destruct (enter_slot v ch cur j Hwf Hr Hu Hty Hp He) as [Hen Hnn]. cbn [resolve_loop]. rewrite Hen.
    destruct (Z.ltb_spec j 0); [lia|].
    assert (0 < alen (name_of (entry v j))) by (apply alen_pos, He).
    destruct (Z.ltb_spec 0 (alen (name_of (entry v j)))); [|lia]. cbn. by apply IH.
Qed.

Lemma is_dot_cstr b : 3 <= alen b -> is_dot b = is_dot (cstr b) /\ is_dotdot b = is_dotdot (cstr b) /\ (b.[0] = 0 <-> cstr b = []).
Proof.
  unfold alen. destruct b as [|x [|y [|z b]]]; cbn [length]; try lia. intros _. unfold is_dot, is_dotdot, aget. cbn.
  destruct (Z.eqb_spec x 0) as [->|Hx]; [done|].
  destruct (Z.eqb_spec y 0) as [->|Hy]; cbn; [|destruct (Z.eqb_spec z 0) as [->|Hz]; cbn];
    rewrite ?(proj2 (Z.eqb_neq y 0)), ?(proj2 (Z.eqb_neq z 0)), ?andb_false_r, ?andb_true_r by done; done.
Qed.

Lemma leads_nonempty v slots cur target : leads v cur slots target -> forall i, i ∈ slots -> name_of (entry v i) <> [].
Proof.
  revert cur. induction slots as [|j slots IH]; intros cur; cbn [leads]; [intros _ i Hi; by apply elem_of_nil in Hi|].
  intros [(_ & _ & _ & _ & [Hne _]) Hl] i [->|Hi]%elem_of_cons; [done|]. by apply (IH j).
Qed.

Lemma leads_last v cur slots i target :
  leads v cur (slots ++ [i]) target ->
  0 <= i < fs_max_entries v /\ used (dir_table v) i /\ file_type (entry v i) = FT_DIR /\ enterable (name_of (entry v i)).
Proof. revert cur. induction slots as [|j slots IH]; intros cur [H Hl]; [tauto|by apply (IH j)]. Qed.

(** Looking up a name that has been put into a buffer. *)
Lemma lookup_named v ch i b :
  fs_wf v ch -> 0 <= i < fs_max_entries v -> used (dir_table v) i -> cstr b = name_of (entry v i) ->
  fs_get_entry_idx v b (parent_id (entry v i)) = i.
Proof.
  intros Hwf Hi Hu Hb. assert (is_entry v (parent_id (entry v i)) b i) as He by (repeat split; (done || lia)).
  destruct (get_entry_idx_spec v ch b (parent_id (entry v i)) Hwf) as [[_ Hf]|[Hpos Hnm]].
  - destruct (Hf i). by apply abs_named.
  - apply abs_named in Hnm. by apply (is_entry_unique v ch _ _ _ _ Hwf Hnm He).
Qed.

(** The path [getcwd] reports leads back.  Resolving the reported path, from
    any working directory, gives the directory it was asked about, if the caller
    may use it, provided no directory on the way has a name a path cannot go
    through (empty, [.], [..], or with a slash in it). *)
Theorem getcwd_resolves e v ch cwd start user_size path r :
  fs_wf v ch -> is_dir (abs v ch) cwd -> names_enterable (Z.to_nat GETCWD_MAX_DEPTH) v cwd ->
  sys_getcwd v cwd user_size E_OK = (r, path) -> 0 <= r ->
  resolve_dir_from_cwd e v start path = if check_vfs_access e v cwd false then cwd else E_ACCES.
Proof.
  intros Hwf Hd Hne. unfold sys_getcwd. destruct (user_size =? 0); [by intros [= <- <-]|].
  destruct (cwd_chain _ v cwd) as [err|chain] eqn:Hc.
  { intros [= <- <-] Hr. exfalso. revert Hc. generalize (Z.to_nat GETCWD_MAX_DEPTH). clear - Hr. intros n.
    revert cwd err Hr. induction n as [|n IH]; intros cwd err Hr; cbn [cwd_chain]; destruct (cwd =? 0); try done; [by intros [= <-]|].
    destruct (dir_slot v cwd) as [k|]; [|by intros [= <-]]. destruct (cwd_chain n v _) eqn:Hn; [|done].
    intros [= ->]. by apply (IH _ _ Hr Hn). }
  pose proof (cwd_chain_leads v ch _ cwd chain Hwf Hd Hne Hc) as Hl.
  destruct (render v [SLASH] (rev chain)) as [q|] eqn:Hq; [|by intros [= <- <-]].
  destruct (user_size <? alen q + 1); [by intros [= <- <-]|]. cbn [E_OK Z.eqb negb]. intros [= <- <-] _.
  assert (forall l, split_from_cwd v start (SLASH :: l) = resolve_loop v l [] 0 (ft_memset name_buffer 0 MAX_FILENAME)) as Hsplit.
  { intros l. reflexivity. }
  set (base := ft_memset name_buffer 0 MAX_FILENAME) in *. assert (alen base = MAX_FILENAME) as Hb by apply alen_ft_memset.
  clearbody base. unfold MAX_FILENAME in Hb.
  destruct (rev chain) as [|i0 rest] eqn:Hrev.
  { cbn in Hl, Hq. injection Hq as <-. subst cwd. unfold resolve_dir_from_cwd. rewrite Hsplit. cbn [resolve_loop copy_bounded].
    destruct (Z.ltb_spec 0 0); [lia|]. rewrite aget_aset_eq by lia. cbn [Z.eqb orb].
    by destruct (check_vfs_access e v 0 false). }
  destruct (render_join v [SLASH] (i0 :: rest) q Hq ltac:(done) (leads_nonempty v _ _ _ Hl)) as [-> |?]; [|done].
  destruct (exists_last (l := i0 :: rest) ltac:(done)) as (slots & i & Hlast). rewrite Hlast in *.
  destruct (resolve_leads v ch 0 slots i cwd base Hwf Hl) as [Hres ->].
  change (1 <? alen [SLASH]) with false. cbn [app]. unfold resolve_dir_from_cwd. rewrite Hsplit, Hres.
  destruct (leads_last v 0 slots i i Hl) as (Hr & Hu & Hty & Hne0 & Hpl & H1 & H2).
  set (b := copy_bounded base _ _ _).
  assert (cstr b = name_of (entry v i)) as Hcb.
  { unfold b. rewrite cstr_copy_bounded by (unfold MAX_FILENAME; lia). rewrite cstr_id by (by apply plain_nonzero).
    apply take_ge. pose proof (name_short v ch i Hwf Hr Hu). unfold alen, MAX_FILENAME in *. lia. }
  assert (3 <= alen b) as Hlb by (unfold b; rewrite alen_copy_bounded; lia). clearbody b.
  destruct (is_dot_cstr b Hlb) as (-> & -> & H0). rewrite Hcb in *.
  rewrite (not_true_is_false _ (fun H => H1 (proj1 (is_dot_iff _ Hpl) H))).
  rewrite (not_true_is_false _ (fun H => H2 (proj1 (is_dotdot_iff _ Hpl) H))).
  rewrite (proj2 (Z.eqb_neq b.[0] 0)) by tauto. cbn [orb].
  rewrite (lookup_named v ch i b Hwf Hr Hu Hcb), Hty. cbn [negb].
  unfold used in Hu. destruct (dw_tree _ _ _ (wf_dir _ _ Hwf) i Hr ltac:(lia)) as (Hid & _ & _ & Hpr).
  assert (0 <= parent_id (entry v i)) by (unfold entry; inversion Hpr; lia).
  destruct (Z.ltb_spec (parent_id (entry v i)) 0); [lia|]. destruct (Z.eqb_spec i (-1)); [lia|].
  assert (entry_id (entry v i) = i) as -> by exact Hid. by destruct (check_vfs_access e v i false).
Qed.

(** A working directory exists and is one the task may use.  [chdir] leaves
    the task in the directory it was in when it fails; when it succeeds the new
    one exists and the caller has read and search permission on it and search
    permission above it. *)
Theorem chdir_ok e v ch cwd path r cwd' :
  fs_wf v ch -> is_dir (abs v ch) cwd -> sys_chdir e v cwd path = (r, cwd') ->
  is_dir (abs v ch) cwd' /\
  ((r < 0 /\ cwd' = cwd) \/
   (r = E_OK /\ (cur_uid e = 0 \/ may_use e (abs v ch) cwd' (Z.lor FS_WANT_READ FS_WANT_EXEC)))).
Proof.
  intros Hwf Hd. unfold sys_chdir. destruct path as [path|].
  2:{ intros [= <- <-]. split; [done|]. by left. }
  pose proof (resolve_dir_ok e v ch cwd path Hwf Hd) as Hres. set (t := resolve_dir_from_cwd e v cwd path) in *.
  destruct (Z.ltb_spec t 0); intros [= <- <-].
  - split; [done|]. by left.
  - destruct (Hres ltac:(lia)) as [Hdir Hc]. split; [done|]. right. split; [done|].
    by apply (check_access_spec e v ch t false Hwf) in Hc.
Qed.

(** ** Positions *)

(** [lseek] computes the sum.  For a base and an offset that fit an [int] the
    target is the exact sum when it is not negative and fits an [int] again, and
    there is none otherwise: neither the unsigned arithmetic nor INT_MIN wraps. *)
Theorem seek_target_exact base offset :
  0 <= base < 2 ^ 31 -> - 2 ^ 31 <= offset < 2 ^ 31 ->
  seek_target base offset = if (0 <=? base + offset) && (base + offset <? 2 ^ 31) then Some (base + offset) else None.
Proof.
  intros Hb Ho. unfold seek_target. destruct (Z.ltb_spec offset 0) as [Hneg|Hpos].
  - rewrite (u32_small (- (offset + 1))), (u32_small (_ + 1)) by lia.
    destruct (Z.ltb_spec base (- (offset + 1) + 1)), (Z.leb_spec 0 (base + offset)); try lia; cbn [andb]; [done|].
    destruct (Z.ltb_spec (base + offset) (2 ^ 31)); [|lia]. f_equal. lia.
  - rewrite u32_small by lia. destruct (Z.leb_spec 0 (base + offset)); [|lia]. cbn [andb].
    destruct (Z.ltb_spec (0x7FFFFFFF - base) offset), (Z.ltb_spec (base + offset) (2 ^ 31)); try lia; [done|].
    by rewrite u32_small by lia.
Qed.

(** ** Listings *)

Definition child v (p i : Z) : bool := negb (is_used (entry v i) =? 0) && (parent_id (entry v i) =? p).

(** One entry of a listing: the name, the type and a terminator. *)
Definition listed v (i : Z) : list Z :=
  take (Z.to_nat (MAX_FILENAME - 1)) (cstr (filename (entry v i))) ++ [if file_type (entry v i) =? FT_DIR then 1 else 2; 0].

Lemma list_entries_prefix n v p cap i kbuf :
  alen kbuf <= cap ->
  exists k, list_entries n v p cap i kbuf =
      kbuf ++ concat (map (listed v) (take k (filter (fun j => child v p j = true) (seqZ i (Z.of_nat n))))) /\
    alen (list_entries n v p cap i kbuf) <= cap /\
    (cap < alen kbuf + alen (concat (map (listed v) (filter (fun j => child v p j = true) (seqZ i (Z.of_nat n))))) \/
     (length (filter (fun j => child v p j = true) (seqZ i (Z.of_nat n))) <= k)%nat).
Proof.
  revert i kbuf. induction n as [|n IH]; intros i kbuf Hk; cbn [list_entries].
  { exists 0%nat. change (seqZ i (Z.of_nat 0)) with (@nil Z). rewrite filter_nil. cbn. rewrite app_nil_r.
    split; [done|]. split; [done|]. right. lia. }
  rewrite Nat2Z.inj_succ, seqZ_cons by lia. rewrite Z.pred_succ. change (Z.succ i) with (i + 1).
  fold (child v p i).
  destruct (child v p i) eqn:Hc.
  - rewrite filter_cons_True by done. fold (child v p i) in Hc. unfold child in Hc. cbn [map concat].
    set (name := take _ (cstr (filename (entry v i)))).
    assert (alen (listed v i) = alen name + 2) as Hl by (unfold listed; rewrite alen_app; done).
    change (name ++ [if file_type (entry v i) =? FT_DIR then 1 else 2; 0]) with (listed v i).
    destruct (Z.ltb_spec cap (alen kbuf + alen name + 2)).
    + exists 0%nat. cbn. rewrite app_nil_r. split; [done|]. split; [done|]. left. rewrite alen_app.
      pose proof (alen_nonneg (concat (map (listed v) (filter (fun j => child v p j = true) (seqZ (i + 1) (Z.of_nat n)))))). lia.
    + destruct (IH (i + 1) (kbuf ++ listed v i)) as (k & -> & Hlen & Hall); [rewrite alen_app; lia|].
      exists (Datatypes.S k). cbn [take map concat length]. rewrite app_assoc. split; [done|]. split; [done|].
      rewrite !alen_app in *. destruct Hall as [?|?]; [left; lia|right; lia].
  - rewrite filter_cons_False by (by rewrite Hc). by apply IH.
Qed.

(** A directory listing is a prefix of the directory.  The bytes [readdir]
    hands over are the entries of the directory in table order, each a name, a
    type byte and a terminator; none is cut, they fit the caller's buffer, and
    when all of them fit none is left out. *)
Theorem readdir_lists e v ebx buf_size r out :
  0 < buf_size -> check_vfs_access e v (u16 ebx) false = true -> heap_ok e = true ->
  sys_readdir e v ebx buf_size true E_OK = (r, out) ->
  let children := filter (fun i => child v (u16 ebx) i = true) (seqZ 0 (Z.max 0 (fs_max_entries v))) in
  r = alen out /\ r <= buf_size /\
  (exists k, out = concat (map (listed v) (take k children))) /\
  (alen (concat (map (listed v) children)) <= Z.min buf_size READDIR_STAGE_MAX -> out = concat (map (listed v) children)).
Proof.
  intros Hb Hc Hh. unfold sys_readdir. rewrite Hc, Hh. destruct (Z.eqb_spec buf_size 0); [lia|]. cbn [negb].
  set (cap := if _ <? _ then _ else _). assert (cap = Z.min buf_size READDIR_STAGE_MAX) as Hcap.
  { unfold cap. destruct (Z.ltb_spec READDIR_STAGE_MAX buf_size); lia. }
  destruct (list_entries_prefix (Z.to_nat (fs_max_entries v)) v (u16 ebx) cap 0 []) as (k & Hout & Hlen & Hall).
  { change (alen []) with 0. rewrite Hcap. unfold READDIR_STAGE_MAX. lia. }
  replace (Z.of_nat (Z.to_nat (fs_max_entries v))) with (Z.max 0 (fs_max_entries v)) in * by lia.
  set (l := list_entries _ _ _ _ _ _) in *. cbn [E_OK Z.eqb negb]. rewrite andb_false_r. intros [= <- <-]. cbn zeta.
  split; [done|]. split; [lia|]. split; [by exists k|]. intros Hfit. rewrite Hout. cbn [app]. f_equal. f_equal.
  change (alen []) with 0 in Hall. apply take_ge. lia.
Qed.

(** ** Descriptors *)

Lemma fds_ok_file s a f f' :
  fds_ok s -> files s !! a = Some f -> vf_ref_count f' = vf_ref_count f -> fds_ok (set_files s (<[a := f']> (files s))).
Proof.
  intros [Hl He Hr Hlive Hdead Hflag Hfile Hgone] Hf Hrc. split; try done; cbn [set_files files].
  - intros b g. destruct (Z.eq_dec a b) as [<-|Hne].
    + rewrite lookup_insert_eq. intros [= <-]. rewrite Hrc. by apply Hfile.
    + rewrite lookup_insert_ne by done. by apply Hfile.
  - intros b Hb. destruct (Z.eq_dec a b) as [<-|Hne]; [by rewrite lookup_insert_eq|].
    rewrite lookup_insert_ne by done. by apply Hgone.
Qed.

Lemma fds_ok_fsys s v : fds_ok s -> fds_ok (set_fsys s v).
Proof. done. Qed.

Lemma fds_ok_pipe s p q :
  fds_ok s -> read_refs q = read_refs (pipe_pool (pool s)).[p] -> write_refs q = write_refs (pipe_pool (pool s)).[p] ->
  0 <= p -> fds_ok (set_pool s (set_pipe (pool s) p q)).
Proof.
  intros [[Hl1 Hl2] He Hr Hlive Hdead Hflag Hfile Hgone] H1 H2 Hp. split; try done; cbn [set_pool pool set_pipe pipe_pool pipe_active].
  - by rewrite alen_aset.
  - intros i Hi Ha. specialize (Hlive i Hi Ha). destruct (Z.eq_dec p i) as [<-|Hne].
    + rewrite aget_aset_eq, H1, H2 by lia. done.
    + by rewrite aget_aset_ne by lia.
Qed.

Lemma pipe_read_refs p size :
  read_refs (pipe_read p true size).1.2 = read_refs p /\ write_refs (pipe_read p true size).1.2 = write_refs p.
Proof.
  unfold pipe_read. cbn [negb orb]. destruct (size <=? 0); [done|]. destruct (head p =? tail p); [done|].
  pose proof (while_loop_ind (fun st : pipe * list Z => read_refs st.1 = read_refs p /\ write_refs st.1 = write_refs p)
    (Z.to_nat size) (Pipe.read_more size) read_byte (p, [])) as Hi.
  destruct (while_loop _ _ _ _) as [q out]. cbn in *. apply Hi; [done|]. intros [q0 o0] Hq _. done.
Qed.

Lemma pipe_write_refs p data size :
  read_refs (pipe_write p (Some data) size).1.2 = read_refs p /\ write_refs (pipe_write p (Some data) size).1.2 = write_refs p.
Proof.
  unfold pipe_write. destruct (size <=? 0); [done|]. destruct (read_refs p <=? 0); [done|]. destruct (_ <=? _); [done|].
  pose proof (while_loop_ind (fun st : pipe * Z => read_refs st.1 = read_refs p /\ write_refs st.1 = write_refs p)
    (Z.to_nat size) (write_more size) (write_byte data) (p, 0)) as Hi.
  destruct (while_loop _ _ _ _) as [q n]. cbn in *. apply Hi; [done|]. intros [q0 o0] Hq _. done.
Qed.

Lemma fs_read_raw_refs stack v f size : vf_ref_count (fs_read_raw stack v f size).1.2 = vf_ref_count f.
Proof.
  unfold fs_read_raw. repeat first [reflexivity | progress cbn [fst snd] | case_match]; simplify_eq; done.
Qed.

Lemma fs_read_refs e stack v f size : vf_ref_count (fs_read e stack v f size).1.2 = vf_ref_count f.
Proof.
  unfold fs_read, fs_read_encrypted. destruct (_ <=? _); [|apply fs_read_raw_refs]. destruct (key_usable e); cbn [negb]; [|done].
  destruct (_ <=? _); [done|]. destruct (heap_ok e); cbn [negb]; [|done].
  pose proof (fs_read_raw_refs stack v (set_offset f 0) (vf_file_size f)) as Hr.
  destruct (fs_read_raw _ _ _ _) as [[[n buf] f1] v1]. change (vf_ref_count f1 = vf_ref_count f) in Hr.
  destruct (n <=? 56); [done|].
  by destruct (fc_open buf).
Qed.

Lemma fs_write_buffered_refs e f data size : vf_ref_count (fs_write_buffered e f data size).2 = vf_ref_count f.
Proof. unfold fs_write_buffered. by repeat case_match. Qed.

Lemma fs_open_refs v name p f f' : fs_open v name p f = (0, f') -> vf_ref_count f' = 1.
Proof. unfold fs_open. destruct (fs_mounted v); cbn [negb]; [|done]. destruct (for_find _ _ _); [|done]. by intros [= <-]. Qed.

(** A device descriptor is not counted. *)
Lemma set_device_ok s t fd d o :
  fds_ok s -> fd_valid s t fd -> fd_type (desc s t fd) = FD_TYPE_NONE -> fds_ok (set_desc s t fd (mk_fd FD_TYPE_DEVICE d o 0)).
Proof.
  intros Hok Hv Hn. apply (replaced_ok s s t fd _ (ends s) (refs s)); try done; intros.
  - rewrite is_end_none, not_end by done. cbn. lia.
  - rewrite is_ref_none, not_ref by done. cbn. lia.
Qed.

Lemma set_file_ok s t fd a f o m :
  fds_ok s -> fd_valid s t fd -> fd_type (desc s t fd) = FD_TYPE_NONE -> a <> 0 -> files s !! a = None -> vf_ref_count f = 1 ->
  fds_ok (set_desc (set_files s (<[a := f]> (files s))) t fd (mk_fd FD_TYPE_FILE a o m)).
Proof.
  intros Hok Hv Hn Ha Hfree Hrc. set (d := mk_fd FD_TYPE_FILE a o m).
  assert (refs s a = 0) as H0.
  { pose proof (ac_refs _ _ _ _ Hok a). destruct (Z.eq_dec (refs s a) 0); [done|].
    destruct (ac_gone _ _ _ _ Hok a ltac:(lia)) as [? ?]. congruence. }
  apply (replaced_ok s (set_files s (<[a := f]> (files s))) t fd d (ends s) (add_ref (refs s) a 1) Hv eq_refl).
  - destruct Hok as [Hl He Hr Hlive Hdead Hflag Hfile Hgone]. split; try done; cbn [set_files files]; unfold add_ref.
    + intros b. specialize (Hr b). case_bool; lia.
    + intros b g. destruct (Z.eqb_spec a b) as [<-|Hne].
      * rewrite lookup_insert_eq. intros [= <-]. lia.
      * rewrite lookup_insert_ne by done. apply Hfile.
    + intros b. destruct (Z.eqb_spec a b) as [<-|Hne]; [by rewrite lookup_insert_eq|].
      rewrite lookup_insert_ne by done. apply Hgone.
  - intros j w. rewrite is_end_none, not_end by done. cbn. lia.
  - intros b. rewrite (is_ref_none _ (desc s t fd)) by done. unfold add_ref, is_ref. cbn [d fd_type fd_ptr].
    destruct (a =? b); cbn; lia.
Qed.

Lemma sys_open_ok e s t cwd path m addr :
  fds_ok s -> 0 <= t < alen (fd_tables s) -> files s !! addr = None -> fds_ok (sys_open e s t cwd path m addr).2.
Proof.
  intros Hok Ht Hfree. unfold sys_open. destruct path as [path|]; [|done].
  destruct (split_from_cwd (fsys s) cwd path) as [p b]. destruct (p <? 0); [done|]. destruct (b.[0] =? 0); [done|]. cbv zeta.
  destruct (p =? _).
  { destruct (0 <=? get_device_idx b); [|done]. destruct (free_fd s t 3) as [fd|] eqn:Hfd; [|done].
    apply free_fd_valid in Hfd as (Hv & _ & Hn); [|done..]. by apply set_device_ok. }
  destruct (negb (check_vfs_access _ _ _ _)); [done|]. destruct (negb (check_file_access _ _ _ _ _)); [done|].
  destruct (free_fd s t 3) as [fd|] eqn:Hfd; [|done]. apply free_fd_valid in Hfd as (Hv & _ & Hn); [|done..].
  destruct (Z.eqb_spec addr 0) as [|Ha]; [done|]. destruct (fs_open (fsys s) b p fresh_file) as [r f] eqn:Ho.
  destruct (Z.eqb_spec r 0) as [->|]; [|done]. apply fs_open_refs in Ho. cbn [snd]. apply set_file_ok; try done.
  by destruct (_ =? 1).
Qed.

Lemma pipe_desc_index s t fd :
  fds_ok s -> fd_valid s t fd -> fd_type (desc s t fd) = FD_TYPE_PIPE -> 0 <= pipe_at (fd_ptr (desc s t fd)).
Proof.
  intros Hok Hv Hty. destruct (backed_pipe _ _ _ _ _ Hok (desc_backed s t fd Hv) Hty) as [Hpos _].
  destruct (ac_dead _ _ _ _ Hok _ _ Hpos). lia.
Qed.

Lemma sys_read_ok e x s t fd size writable stack :
  fds_ok s -> 0 <= t < alen (fd_tables s) -> fds_ok (sys_read e x s t fd size writable stack).2.
Proof.
  intros Hok Ht. unfold sys_read. destruct (validate_fd s t fd) eqn:Hv; cbn [negb orb]; [|done].
  apply validate_fd_valid in Hv; [|done]. destruct (size <? 0); [done|]. destruct (size =? 0); [done|].
  destruct writable; cbn [negb]; [|done]. destruct (fd_type (desc s t fd) =? FD_TYPE_CONSOLE); [by repeat case_match|].
  destruct (heap_ok e); cbn [negb]; [|done].
  destruct (fd_type (desc s t fd) =? FD_TYPE_FILE).
  { destruct (files s !! fd_ptr (desc s t fd)) as [f|] eqn:Hf; [|done].
    pose proof (fs_read_refs e stack (fsys s) f size) as Hr. destruct (fs_read _ _ _ _ _) as [[[n out] f'] v'].
    apply fds_ok_fsys. by apply (fds_ok_file s _ f). }
  destruct (Z.eqb_spec (fd_type (desc s t fd)) FD_TYPE_PIPE) as [Hty|].
  { pose proof (pipe_read_refs (pipe_pool (pool s)).[pipe_at (fd_ptr (desc s t fd))] size) as [H1 H2].
    destruct (pipe_read _ _ _) as [[[n out] q] b]. apply fds_ok_pipe; try done. by apply pipe_desc_index. }
  destruct (_ =? FD_TYPE_DEVICE); [|done]. destruct (negb _); [done|]. by destruct (device x _ _).
Qed.

Lemma sys_write_ok e x s t fd data size readable :
  fds_ok s -> 0 <= t < alen (fd_tables s) -> fds_ok (sys_write e x s t fd data size readable).2.
Proof.
  intros Hok Ht. unfold sys_write. destruct (validate_fd s t fd) eqn:Hv; cbn [negb orb]; [|done].
  apply validate_fd_valid in Hv; [|done]. destruct (size <? 0); [done|]. destruct (size =? 0); [done|].
  destruct readable; cbn [negb]; [|done]. destruct (heap_ok e); cbn [negb]; [|done]. destruct data as [data|]; [|done].
  destruct (fd_type (desc s t fd) =? FD_TYPE_CONSOLE); [done|].
  destruct (Z.eqb_spec (fd_type (desc s t fd)) FD_TYPE_PIPE) as [Hty|].
  { pose proof (pipe_write_refs (pipe_pool (pool s)).[pipe_at (fd_ptr (desc s t fd))] data size) as [H1 H2].
    destruct (pipe_write _ _ _) as [[n q] b]. assert (fds_ok (set_pool s (set_pipe (pool s) (pipe_at (fd_ptr (desc s t fd))) q))) as Hok'.
    { apply fds_ok_pipe; try done. by apply pipe_desc_index. }
    by destruct (n =? E_AGAIN). }
  destruct (_ =? FD_TYPE_DEVICE); [by destruct (negb _)|]. destruct (_ =? FD_TYPE_FILE); [|done].
  destruct (negb _); [done|]. destruct (_ =? 0); [done|].
  destruct (files s !! fd_ptr (desc s t fd)) as [f|] eqn:Hf; [|done].
  pose proof (fs_write_buffered_refs e f (Some data) size) as Hr. destruct (fs_write_buffered _ _ _ _) as [n' f'].
  by apply (fds_ok_file s _ f).
Qed.

Lemma sys_lseek_ok e s t fd offset whence stack :
  fds_ok s -> fds_ok (sys_lseek e s t fd offset whence stack).2.
Proof.
  intros Hok. unfold sys_lseek. destruct (negb (validate_fd s t fd)); [done|]. destruct (_ =? FD_TYPE_NONE); [done|].
  destruct (negb _); [done|]. destruct (_ =? 0); [done|]. destruct (files s !! fd_ptr (desc s t fd)) as [f|] eqn:Hf; [|done].
  set (m := if whence =? SEEK_SET then _ else _). destruct m as [[rc base] v]. cbv zeta. destruct (negb _); [done|].
  destruct (seek_target base offset) as [tg|]; [|done]. by apply (fds_ok_file (set_fsys s v) _ f).
Qed.

(** ** Sequences of calls *)

(** Everything the tasks can do with descriptors. *)
Inductive sys_call : Type :=
| Descriptor (c : fd_call)
| Open (e : env) (t cwd : Z) (path : option (list Z)) (m addr : Z)
| Read (e : env) (x : read_env) (t fd size : Z) (writable : bool) (stack : list Z)
| Write (e : env) (x : write_env) (t fd : Z) (data : option (list Z)) (size : Z) (readable : bool)
| Seek (e : env) (t fd offset whence : Z) (stack : list Z).

Definition sys_step s (c : sys_call) : sys S :=
  match c with
  | Descriptor c => fd_step s c
  | Open e t cwd path m addr => (sys_open e s t cwd path m addr).2
  | Read e x t fd size w stack => (sys_read e x s t fd size w stack).2
  | Write e x t fd data size r => (sys_write e x s t fd data size r).2
  | Seek e t fd offset whence stack => (sys_lseek e s t fd offset whence stack).2
  end.

(** The task that calls exists, and [kmalloc] does not hand out memory that is in
    use. *)
Definition sys_call_ok s (c : sys_call) : Prop :=
  match c with
  | Descriptor c => 0 <= caller c < alen (fd_tables s)
  | Open _ t _ _ _ addr => 0 <= t < alen (fd_tables s) /\ files s !! addr = None
  | Read _ _ t _ _ _ _ | Write _ _ t _ _ _ _ | Seek _ t _ _ _ _ => 0 <= t < alen (fd_tables s)
  end.

Inductive sys_run : sys S -> list sys_call -> sys S -> Prop :=
| sr_nil s : sys_run s [] s
| sr_cons s c cs s' : sys_call_ok s c -> sys_run (sys_step s c) cs s' -> sys_run s (c :: cs) s'.

Lemma sys_run_ok s cs s' : sys_run s cs s' -> fds_ok s -> fds_ok s'.
Proof.
  induction 1 as [|s c cs s' Hc Hr IH]; [done|]. intros Hok. apply IH. destruct c; cbn in *.
  - by apply fd_step_ok.
  - destruct Hc. by apply sys_open_ok.
  - by apply sys_read_ok.
  - by apply sys_write_ok.
  - by apply sys_lseek_ok.
Qed.

(** C3: Descriptors never dangle and nothing leaks.  After any run of open, read,
    write, seek, pipe, dup2, close, fork and exit calls by any tasks, from a state
    whose reference counts are right (the boot state is one): a descriptor of a
    file refers to an open file that has not been freed, one of a pipe to a pipe
    of the pool that is live; and every open file and every live pipe is held by
    some descriptor. *)
Theorem descriptors_never_dangle s cs s' :
  fds_ok s -> sys_run s cs s' ->
  (forall t i, fd_valid s' t i -> fd_type (desc s' t i) = FD_TYPE_FILE -> is_Some (files s' !! fd_ptr (desc s' t i))) /\
  (forall t i, fd_valid s' t i -> fd_type (desc s' t i) = FD_TYPE_PIPE ->
     (pipe_active (pool s')).[pipe_at (fd_ptr (desc s' t i))] = 1) /\
  (forall a f, files s' !! a = Some f -> exists t i, fd_valid s' t i /\ is_ref a (desc s' t i) = true) /\
  (forall p, 0 <= p < MAX_SYSTEM_PIPES -> (pipe_active (pool s')).[p] = 1 ->
     exists t i (w : bool), fd_valid s' t i /\ is_end p w (desc s' t i) = true).
Proof. intros Hok Hr. by apply fds_ok_live, (sys_run_ok s cs). Qed.

(** C15: The end of a stream follows the descriptors.  For a live pipe after any
    run, whatever it holds: a read answers 0 rather than bytes or "try again" if
    and only if the pipe is empty and no descriptor of any task is a writing end,
    and a write of at least one byte answers E_PIPE if and only if no descriptor of
    any task is a reading end. *)
Theorem end_of_stream_iff s cs s' p q n data :
  fds_ok s -> sys_run s cs s' -> 0 <= p < MAX_SYSTEM_PIPES -> (pipe_active (pool s')).[p] = 1 ->
  q = (pipe_pool (pool s')).[p] -> 0 < n -> data <> [] ->
  ((pipe_read q true n).1.1.1 = 0 <->
   head q = tail q /\ forall t i, fd_valid s' t i -> is_end p true (desc s' t i) = false) /\
  ((pipe_write q (Some data) (alen data)).1.1 = E_PIPE <-> forall t i, fd_valid s' t i -> is_end p false (desc s' t i) = false).
Proof. intros Hok Hr. by apply fds_ok_stream, (sys_run_ok s cs). Qed.

End props.

(** ** Examples *)

#[local] Opaque new_fs.
#[local] Instance no_crypto : FileCrypto := Build_FileCrypto (fun _ _ => inl E_ACCES) (fun _ => inl E_ACCES) (fun _ => None).
#[local] Instance no_crypto_laws : FileCryptoLaws.
Proof. split; intros e d x; [done|]. by intros [= <-]. Qed.

(** Root makes a directory in a new file system; an ordinary user may not. *)
Lemma path_calls_permitted_witness :
  (exists ch', fs_wf (run_path_call root_env new_fs 0 (PMkdir (Some [97; 0]))).2 ch') /\
  (run_path_call user_env new_fs 0 (PMkdir (Some [97; 0]))).2 = new_fs.
Proof.
  split.
  - destruct (path_calls_permitted root_env new_fs (fun _ => []) 0 (PMkdir (Some [97; 0])) _ _ (proj1 new_fs_wf)
      ltac:(unfold env_ok, is_u32; cbn; lia) I (surjective_pairing _)) as (ch' & Hwf & _). by exists ch'.
  - destruct (path_calls_permitted user_env new_fs (fun _ => []) 0 (PMkdir (Some [97; 0])) _ _ (proj1 new_fs_wf)
      ltac:(unfold env_ok, is_u32; cbn; lia) I (surjective_pairing _)) as (ch' & Hwf & _). reflexivity.
Defined.

Lemma getcwd_resolves_witness : resolve_dir_from_cwd user_env new_fs 7 [SLASH] = 0.
Proof.
  exact (getcwd_resolves user_env new_fs (fun _ => []) 0 7 64 [SLASH] 1 (proj1 new_fs_wf) (or_introl eq_refl) I
    eq_refl ltac:(discriminate)).
Defined.

Lemma chdir_ok_witness : is_dir (abs new_fs (fun _ => [])) (sys_chdir user_env new_fs 0 (Some [SLASH])).2.
Proof.
  exact (proj1 (chdir_ok user_env new_fs (fun _ => []) 0 (Some [SLASH]) _ _ (proj1 new_fs_wf) (or_introl eq_refl)
    (surjective_pairing _))).
Defined.

Lemma seek_target_exact_witness : seek_target 100 (-2147483648) = None /\ seek_target 2147483647 1 = None /\ seek_target 5 (-5) = Some 0.
Proof.
  split; [|split].
  - exact (seek_target_exact 100 (-2147483648) ltac:(lia) ltac:(lia)).
  - exact (seek_target_exact 2147483647 1 ltac:(lia) ltac:(lia)).
  - exact (seek_target_exact 5 (-5) ltac:(lia) ltac:(lia)).
Defined.

(** A table with a directory [a], a file in it, and a file [bc]. *)
Definition listing_fs : vfs ram :=
  mk_vfs blank_ram 0 0 8 4 true false no_super
    [mk_entry [] 0 0 0 0 0 0 0 0 0 0 0; mk_entry [97; 0] 0 0 0 0 0 0 1 0 493 1 1; mk_entry [120; 0] 5 3 0 0 0 0 2 1 420 0 1;
     mk_entry [98; 99; 0] 5 2 0 0 0 0 3 0 420 0 1] [].

Lemma readdir_lists_witness : (sys_readdir root_env listing_fs 0 64 true E_OK).2 = [97; 1; 0; 98; 99; 2; 0].
Proof.
  exact (proj2 (proj2 (proj2 (readdir_lists root_env listing_fs 0 64 _ _ eq_refl eq_refl eq_refl (surjective_pairing _))))
    ltac:(vm_compute; discriminate)).
Defined.

(** A task makes a pipe, gives descriptor 1 the writing end, writes, reads, forks, and exits. *)
Definition sample_run : list sys_call :=
  [Descriptor (CPipe true 0 0); Descriptor (CDup2 0 4 1);
   Write some_env (mk_wenv true (fun _ _ => 0) true) 0 4 (Some [104; 105]) 2 true;
   Read some_env (mk_renv false false 0 true (fun _ _ => (0, [])) 0) 0 3 8 true [];
   Descriptor (CFork 0); Descriptor (CClose some_env 1 4); Descriptor (CExit some_env 0)].
Definition sample_end : sys ram := foldl sys_step (boot_sys no_vfs) sample_run.

Lemma sample_run_ok : sys_run (boot_sys no_vfs) sample_run sample_end.
Proof. unfold sample_end. cbn [sample_run foldl]. repeat (apply sr_cons; [split; vm_compute; done|]). apply sr_nil. Qed.

(** The pipe lives on in the child. *)
Lemma descriptors_never_dangle_witness : exists t i w, fd_valid sample_end t i /\ is_end 0 w (desc sample_end t i) = true.
Proof.
  destruct (descriptors_never_dangle (boot_sys no_vfs) sample_run sample_end (boot_sys_ok no_vfs) sample_run_ok)
    as (_ & _ & _ & Hp).
  apply (Hp 0); [split; vm_compute; [discriminate|reflexivity]|vm_compute; reflexivity].
Defined.

Lemma end_of_stream_iff_witness :
  ~ forall t i, fd_valid sample_end t i -> is_end 0 true (desc sample_end t i) = false.
Proof.
  destruct (end_of_stream_iff (boot_sys no_vfs) sample_run sample_end 0 (pipe_pool (pool sample_end)).[0] 1 [1]
    (boot_sys_ok no_vfs) sample_run_ok) as [Hiff _];
    [split; vm_compute; [discriminate|reflexivity]|vm_compute; reflexivity|reflexivity|reflexivity|discriminate|].
  intros Hno. assert (Hz : (pipe_read (pipe_pool (pool sample_end)).[0] true 1).1.1.1 = 0)
    by (apply Hiff; split; [vm_compute; reflexivity|exact Hno]). vm_compute in Hz. discriminate Hz.
Defined.

(** The calls do not look at which end a descriptor is: with its only writing end
    closed, a pipe is written through its reading end. *)
Definition half_closed : sys ram :=
  foldl sys_step (boot_sys no_vfs) [Descriptor (CPipe true 0 0); Descriptor (CClose some_env 0 4)].

Lemma reading_end_writes :
  is_end 0 false (desc half_closed 0 3) = true /\ write_refs (pipe_pool (pool half_closed)).[0] = 0 /\
  (sys_write some_env (mk_wenv true (fun _ _ => 0) true) half_closed 0 3 (Some [104; 105]) 2 true).1.1 = Returned 2 [].
Proof. vm_compute. auto. Qed.

End SysfsProps.
