(* ===== verification/CryptoVfs.v ===== *)
(** * Encrypted files on the disk (fs/crypto_fs.c over fs/vfs.c)

    The file system of Vfs.v takes the sealed form of a file through the
    [FileCrypto] interface.  Here the functions of CryptoFs.v implement it, the
    laws its clients rely on are discharged, and the two layers are put together:
    a file created at the security level that encrypts everything reads back as
    the bytes given and reports their number. *)

From S2P Require Import Prelude CStr Fat FsFormat BlockStore Sha256 Hmac Aes CryptoFs.
From S2P Require Import Vfs VfsDisk VfsData VfsInv VfsOps VfsSpec VfsMount VfsProps SysfsProps.
Import Fat FsFormat BlockStore Hmac Aes CryptoFs Vfs VfsDisk VfsData VfsInv VfsOps VfsSpec VfsMount VfsProps SysfsProps.

Module CryptoVfs.

#[local] Opaque Cipher InvCipher KeyExpansion hmac_sha256 AES_CBC_encrypt_buffer AES_CBC_decrypt_buffer
  sealed_buffer crypto_fs_open_blob header_len.

(** ** The interface implemented

    [key] is the disk's key, [drawn] what the entropy pool answers in a call, and
    [slack] the bytes that follow a blob in the allocation it was read into. *)

Section crypto.
Context (key : list Z) (key_bytes : bytes key) (key_short : alen key < 2 ^ 32) (drawn : env -> draw) (slack : list Z).

#[local] Instance crypto_fs : FileCrypto := {
  fc_seal e d := seal key (heap_ok e) (drawn e) d (alen d);
  fc_open b := crypto_fs_open_blob (b ++ slack) (alen b) key;
  fc_header sector := header_len key sector
}.

#[local] Instance crypto_fs_laws : FileCryptoLaws.
Proof.
  constructor; cbn [fc_seal crypto_fs].
  - intros e d b Hs. destruct (seal_inr key _ _ _ _ Hs) as (iv & _ & ->). apply alen_sealed_le.
  - intros e d r Hs. by apply (seal_inl key _ _ _ _ Hs).
Qed.

Context {S : Type} {bs : BlockStore S} {laws : StoreLaws S} {rel : StoreReliable S}.
Implicit Types (v w : vfs S).

(** A program of the kernel image is stored under the disk's own key. *)
Definition fs_install_image_asset (asset_key : option (list Z)) (e : env) v (name blob : list Z) (p : Z) : Z * vfs S :=
  match asset_key with
  | None => (E_NOSYS, v)
  | Some elf_asset_key =>
      if negb (heap_ok e) then (E_NOMEM, v)
      else match crypto_fs_open_blob (blob ++ slack) (alen blob) elf_asset_key with
           | inl err => (err, v)
           | inr plain => fs_create_file e v name plain (alen plain) p
           end
  end.

(** The level asks for encryption and the key is there. *)
Definition encrypting (e : env) : Prop :=
  SEC_LEVEL_CRYPTO_ENFORCED <= current_sec_level e < SEC_LEVEL_IMMUTABLE /\ key_usable e = true /\ heap_ok e = true.

Definition sealed_size (size : Z) : Z := 56 + size + padding size.

Lemma sealed_size_range size : 0 <= size -> 56 < sealed_size size <= size + 71.
Proof. intros Hs. unfold sealed_size. pose proof (padding_range size). unfold padding in *. zlia. Qed.

(** What the sealed form of [data] is, by itself: the vector, then the blocks of
    the header, the data and its padding, each enciphered after being mixed with
    the enciphered block before it. *)
Definition sealed_form (iv data raw : list Z) : Prop :=
  exists blocks, Forall st16 blocks /\
    mjoin blocks = le 4 SAFE_MAGIC ++ le 4 (alen data) ++ HMAC key data ++ data ++ replicate (Z.to_nat (padding (alen data))) 0 /\
    raw = iv ++ mjoin (cbc_enc (fun b => Cipher b (KeyExpansion (RoundKey stack_aes) key)) iv blocks).

Lemma sealed_buffer_form iv data : st16 iv -> bytes data -> alen data + 71 < 2 ^ 32 ->
  sealed_form iv data (sealed_buffer key iv data (alen data)).
Proof.
  intros Hiv Hd Hl. destruct (payload_blocks key data Hd) as (blocks & Hp & Hst & _).
  exists blocks. split; [done|]. split; [|by apply sealed_buffer_eq].
  rewrite <- Hp. unfold payload. by rewrite hmac_HMAC by lia.
Qed.

Lemma create_encrypted e v name content size p : encrypting e -> quality (drawn e) <> ENTROPY_FAIL ->
  0 <= size <= alen content -> bytes content -> size + 71 < 2 ^ 32 ->
  exists iv b, derive_file_iv key (drawn e) = inr iv /\ sealed_form iv (take (Z.to_nat size) content) b /\
    fs_create_file e v name content size p = fs_create_file_raw e v name b (sealed_size size) p /\
    alen b = sealed_size size /\ bytes b /\ fc_open b = inr (take (Z.to_nat size) content) /\
    (forall sector, (32 <= length sector)%nat -> take 32 sector = take 32 b -> fc_header sector = Some size).
Proof.
  intros (Hlev & Hk & Hh) Hq Hs Hb Hl. unfold SEC_LEVEL_CRYPTO_ENFORCED, SEC_LEVEL_IMMUTABLE in Hlev.
  set (d := take (Z.to_nat size) content).
  assert (Hd : bytes d) by by apply bytes_take. assert (Hld : alen d = size) by (apply alen_take; lia).
  destruct (seal key true (drawn e) d (alen d)) as [err|b] eqn:Hseal.
  { unfold seal, derive_file_iv in Hseal. cbn [negb] in Hseal. destruct (Z.eqb_spec (quality (drawn e)) ENTROPY_FAIL); done. }
  destruct (derive_file_iv key (drawn e)) as [err|iv] eqn:Ed; unfold seal in Hseal; rewrite Ed in Hseal; [done|].
  cbn [negb] in Hseal. pose proof (derive_file_iv_st16 key _ _ Ed) as Hiv.
  assert (Hbuf : b = sealed_buffer key iv d (alen d)) by congruence. exists iv, b. split; [done|].
  split; [by rewrite Hbuf; apply sealed_buffer_form; [|done|lia]|].
  assert (Hlb : alen b = sealed_size size) by (rewrite Hbuf, alen_sealed, Hld by (done || lia); done).
  split; [|split; [done|split; [|split]]].
  - unfold fs_create_file, SEC_LEVEL_IMMUTABLE, SEC_LEVEL_CRYPTO_ENFORCED.
    destruct (Z.leb_spec 3 (current_sec_level e)); [lia|]. destruct (Z.leb_spec 1 (current_sec_level e)); [|lia].
    rewrite Hk. cbn [negb]. unfold fs_create_encrypted. cbn [fc_seal crypto_fs]. rewrite Hh. fold d. unfold seal. rewrite Ed. cbn [negb]. by rewrite <- Hbuf, Hlb.
  - rewrite Hbuf. apply bytes_sealed; done || lia.
  - cbn [fc_open crypto_fs]. rewrite Hbuf. apply open_sealed; done || lia.
  - intros sector H32 Ht. cbn [fc_header crypto_fs]. rewrite <- Hld. rewrite Hbuf in Ht.
    apply (header_sealed key key_bytes iv d sector); done || lia.
Qed.

(** C4: Encrypted files end to end: at the level that encrypts everything, with
    the disk's key at hand, a file that has room is created and opens under its
    name.  What the disk holds for it is the sealed form: the vector drawn for it,
    then the CBC encryption under the disk's key of the magic, the length, the
    HMAC, the bytes and their padding.  Through the descriptor the file reports
    the size it was given, not the size of that form, and reads back, at any
    offset and in pieces of any size, as the bytes it was given. *)
Theorem encrypted_create_read v ch e e2 name content size p f stack o n :
  fs_wf v ch -> env_ok e -> encrypting e -> encrypting e2 -> quality (drawn e) <> ENTROPY_FAIL ->
  bytes content -> 0 <= size <= alen content -> size + 71 + 4095 < 2 ^ 32 -> 0 <= p ->
  alen (cstr name) < MAX_FILENAME -> is_dir (abs v ch) p -> free_name (abs v ch) p name ->
  (exists i, 0 < i < fs_max_entries v /\ abs v ch !! i = None) ->
  clusters_used (abs v ch) + clusters_for (sealed_size size) <= max_clusters (limits_of v) ->
  0 <= o <= size -> 0 <= n -> o + n < 2 ^ 32 ->
  exists iv raw w f' w1 w2 w3, fs_create_file e v name content size p = (E_OK, w) /\ fs_open w name p f = (E_OK, f') /\
    derive_file_iv key (drawn e) = inr iv /\ sealed_form iv (take (Z.to_nat size) content) raw /\
    fs_read_raw stack w (set_offset f' 0) (sealed_size size) = (sealed_size size, raw, set_offset f' (sealed_size size), w3) /\
    fs_size e2 w f' stack = (E_OK, size, w1) /\
    fs_read e2 stack w (set_offset f' o) n =
      (Z.min n (size - o), slice o (Z.min n (size - o)) content, set_offset f' (o + Z.min n (size - o)), w2).
Proof.
  intros Hwf He Henc (Hlev2 & Hk2 & Hh2) Hq Hb Hs Hl Hp Hname Hdir Hfree Hslot Hspace Ho Hn Hon.
  unfold SEC_LEVEL_CRYPTO_ENFORCED, SEC_LEVEL_IMMUTABLE in Hlev2.
  pose proof (sealed_size_range size ltac:(lia)) as Hss.
  destruct (create_encrypted e v name content size p Henc Hq Hs Hb ltac:(lia)) as (iv & b & Hiv & Hform & Hcreate & Hlb & Hbb & Hopen & Hhdr).
  destruct (create_then_open v ch e name b (sealed_size size) p f Hwf He ltac:(lia) ltac:(lia) Hp Hname Hdir Hfree Hslot Hspace)
    as (w & ch' & i & f' & Hc & Hop & Hwf' & Hi & Hr & Hfs & Hcont & Hsz & Hsc).
  rewrite take_ge in Hcont by (unfold alen in Hlb; lia).
  destruct (first_sector w ch' i stack Hwf' Hi Hr) as (w1 & sector & Hrd1 & H512 & Hsec).
  destruct (read_entry w ch' i f' stack 0 (sealed_size size) Hwf' Hi Hr Hsc) as (w2 & Hrd & _); [congruence|lia..|].
  rewrite Hfs, Hcont in Hrd. replace (Z.max 0 (Z.min (sealed_size size) (sealed_size size - 0))) with (sealed_size size) in Hrd by lia.
  rewrite slice_all in Hrd by done.
  exists iv, b, w, f', w1, w2, w2. rewrite Hcreate. split; [done|]. split; [done|]. split; [done|]. split; [done|]. split; [done|]. split.
  - unfold fs_size, SEC_LEVEL_CRYPTO_ENFORCED. destruct (Z.leb_spec 1 (current_sec_level e2)); [|lia].
    rewrite Hk2. cbn [negb]. unfold fs_size_encrypted. rewrite Hsz, Hsc. destruct (Z.leb_spec (sealed_size size) 56); [lia|].
    rewrite Hrd1. cbn [negb Z.eqb E_OK]. rewrite (Hhdr sector ltac:(lia)).
    + unfold sealed_size. pose proof (padding_range size). destruct (Z.ltb_spec (56 + size + padding size - 16 - 40) size); [lia|done].
    + specialize (Hsec 32 ltac:(lia) ltac:(lia)). rewrite Hcont in Hsec. exact Hsec.
  - unfold fs_read, SEC_LEVEL_CRYPTO_ENFORCED. destruct (Z.leb_spec 1 (current_sec_level e2)); [|lia].
    rewrite Hk2. cbn [negb]. unfold fs_read_encrypted. cbn [vf_file_size vf_current_offset set_offset].
    rewrite Hsz. destruct (Z.leb_spec (sealed_size size) 56); [lia|]. rewrite Hh2. cbn [negb].
    change (set_offset (set_offset f' o) 0) with (set_offset f' 0). rewrite Hrd, Hopen.
    destruct (Z.leb_spec (sealed_size size) 56); [lia|]. rewrite alen_take, u32_small by lia.
    assert (Hk : (if size <=? o then 0 else if size <? o + n then size - o else n) = Z.min n (size - o))
      by (repeat case_bool; lia).
    rewrite Hk, u32_small by lia. do 3 f_equal. rewrite <- slice_take by lia. f_equal. lia.
Qed.
End crypto.

#[local] Opaque new_fs.

(** The blank disk of VfsProps, at the level that encrypts. *)
Definition crypto_env : env := mk_env 0 0 1000 1 true true.
Definition sample_draw (_ : env) : draw := mkDraw 0 (replicate 16 3) 0.

Lemma encrypted_create_read_witness :
  let fc := crypto_fs sample_key sample_draw [] in
  exists iv raw w f' w1 w2 w3, fs_create_file crypto_env new_fs [98; 0] [1; 2; 3] 3 0 = (E_OK, w) /\
    fs_open w [98; 0] 0 (mk_file [] 0 0 0 0 0 [] 0 false) = (E_OK, f') /\
    derive_file_iv sample_key (sample_draw crypto_env) = inr iv /\ sealed_form sample_key iv [1; 2; 3] raw /\
    fs_read_raw [] w (set_offset f' 0) 64 = (64, raw, set_offset f' 64, w3) /\
    fs_size crypto_env w f' [] = (E_OK, 3, w1) /\
    fs_read crypto_env [] w (set_offset f' 1) 10 = (2, [2; 3], set_offset f' 3, w2).
Proof.
  destruct new_fs_wf as (Hwf & Habs & Hlim).
  assert (Hk : bytes sample_key) by (apply bytes_dec; reflexivity).
  assert (H512 : max_nodes (format_limits 4096) = 1024) by (vm_compute; reflexivity).
  assert (Hmax : fs_max_entries new_fs = 1024) by (rewrite <- H512, <- Hlim; reflexivity).
  apply (encrypted_create_read sample_key Hk eq_refl sample_draw [] new_fs (fun _ => []) crypto_env crypto_env
    [98; 0] [1; 2; 3] 3 0 (mk_file [] 0 0 0 0 0 [] 0 false) [] 1 10); rewrite ?Habs, ?Hlim.
  - exact Hwf.
  - vm_compute. repeat split; discriminate.
  - vm_compute. repeat split; discriminate.
  - vm_compute. repeat split; discriminate.
  - discriminate.
  - apply bytes_dec. reflexivity.
  - vm_compute. split; discriminate.
  - reflexivity.
  - discriminate.
  - reflexivity.
  - by left.
  - intros i (m & Hm & _). by rewrite lookup_empty in Hm.
  - exists 1. split; [|by apply lookup_empty]. lia.
  - vm_compute. discriminate.
  - split; discriminate.
  - discriminate.
  - reflexivity.
Defined.

End CryptoVfs.
