(* ===== verification/Kheap.v ===== *)
(** * The kernel heap (mm/kheap.c)

    The heap as the code keeps it: block headers in memory, linked both ways by
    their addresses.  The proofs relate that memory to a list of blocks and show
    that the blocks never overlap and never leave the mapped range, that every
    allocation is as large as asked for, and that [kmalloc] ends.

    The frames and page tables behind the heap are answers of the surroundings:
    for each growth, how much memory is free and how many pages can be mapped.
    Pages given back are unmapped: their headers are gone, and touching them is
    a page fault of the kernel. *)

From stdpp Require Import gmap sorting.
From S2P Require Import Prelude.

Module Kheap.

(** ** The program *)

Definition KHEAP_START_VIRTUAL : Z := 0xD0000000.
Definition HEAP_MAGIC_ALLOCATED : Z := 0xDEADBEEF.
Definition HEAP_MAGIC_FREE : Z := 0xFEEDFACE.
(** [sizeof(heap_block_t)] *)
Definition HEADER : Z := 32.
(** The pages of the heap end where the window on the page tables starts. *)
Definition HEAP_LIMIT : Z := 0xFFC00000.

Record heap_block := mkBlock { magic : Z; size : Z; is_free : bool; next : Z; prev : Z }.

(** A null pointer is 0.  Headers live in [mem]; memory without one reads as
    zeroes. *)
Record heap := mkHeap { mem : gmap Z heap_block; heap_head : Z; heap_tail : Z; current_heap_end : Z }.

Definition block_at (h : heap) (a : Z) : heap_block := default (mkBlock 0 0 false 0 0) (mem h !! a).
Definition put (h : heap) (a : Z) (b : heap_block) : heap :=
  mkHeap (<[a := b]> (mem h)) (heap_head h) (heap_tail h) (current_heap_end h).
Definition set_head (h : heap) (a : Z) : heap := mkHeap (mem h) a (heap_tail h) (current_heap_end h).
Definition set_tail (h : heap) (a : Z) : heap := mkHeap (mem h) (heap_head h) a (current_heap_end h).
Definition set_end (h : heap) (a : Z) : heap := mkHeap (mem h) (heap_head h) (heap_tail h) a.

Definition set_magic (b : heap_block) m := mkBlock m (size b) (is_free b) (next b) (prev b).
Definition set_size (b : heap_block) s := mkBlock (magic b) s (is_free b) (next b) (prev b).
Definition set_free (b : heap_block) f := mkBlock (magic b) (size b) f (next b) (prev b).
Definition set_next (b : heap_block) n := mkBlock (magic b) (size b) (is_free b) n (prev b).
Definition set_prev (b : heap_block) p := mkBlock (magic b) (size b) (is_free b) (next b) p.

(** [p->field = x] *)
Definition upd (h : heap) (a : Z) (f : heap_block -> heap_block) : heap := put h a (f (block_at h a)).

Definition heap_blocks_adjacent (h : heap) (a b : Z) : bool := u32 (a + HEADER + size (block_at h a)) =? b.

(** The first three fields of a header, which every test reads, are on a page
    past the end of the heap, where nothing of it is mapped. *)
Definition unmapped (h : heap) (a : Z) : bool :=
  (KHEAP_START_VIRTUAL <=? a) && (current_heap_end h <? a + 12) && (a <? HEAP_LIMIT).


(** What a growth meets: [pmm_get_free_memory()], and the number of pages that
    are had before an allocation or a mapping fails. *)
Record grow_answer := mkAnswer { free_memory : Z; granted : Z }.

(** A growth that fails part of the way gives its pages back and leaves
    [current_heap_end] where it was. *)
Definition heap_grow (h : heap) (ans : grow_answer) (size0 : Z) : bool * heap :=
  let needed := u32 (size0 + HEADER) in
  let pages := u32 (needed + 0xFFF) / 0x1000 in
  let total_alloc_size := u32 (pages * 0x1000) in
  if free_memory ans <? total_alloc_size then (false, h)
  else
    let start_addr := current_heap_end h in
    if granted ans <? pages then (false, h)
    else
      let h := set_end h (u32 (start_addr + pages * 0x1000)) in
      let h := put h start_addr (mkBlock HEAP_MAGIC_FREE (u32 (total_alloc_size - HEADER)) true 0 (heap_tail h)) in
      if heap_head h =? 0 then (true, set_tail (set_head h start_addr) start_addr)
      else
        let t := heap_tail h in
        let h := upd h t (fun b => set_next b start_addr) in
        let h := upd h start_addr (fun b => set_prev b t) in
        if is_free (block_at h t) && heap_blocks_adjacent h t start_addr then
          (true, upd h t (fun b => set_next (set_size b (u32 (size b + total_alloc_size))) 0))
        else (true, set_tail h start_addr).

(** [None] is the halt after a failed growth. *)
Definition init_kheap (h : heap) (ans : grow_answer) : option heap :=
  let h := set_tail (set_head h 0) 0 in
  match heap_grow h ans 1 with (true, h) => Some h | (false, _) => None end.

Inductive found := Fits (a : Z) | NoFit | Corrupt | Unmapped.

(** The walk along the list; a list of distinct headers is no longer than the
    number of headers. *)
Fixpoint walk (fuel : nat) (h : heap) (curr size0 : Z) : found :=
  match fuel with
  | O => NoFit
  | Datatypes.S fuel =>
      if curr =? 0 then NoFit
      else if unmapped h curr then Unmapped
      else
        let b := block_at h curr in
        if negb (magic b =? HEAP_MAGIC_ALLOCATED) && negb (magic b =? HEAP_MAGIC_FREE) then Corrupt
        else if is_free b && (size0 <=? size b) then Fits curr
        else walk fuel h (next b) size0
  end.

(** A block that fits is cut, when the rest can hold a header, and handed out. *)
Definition take_block (h : heap) (curr size0 : Z) : heap :=
  let b := block_at h curr in
  let h :=
    if u32 (u32 (size0 + HEADER) + 4) <? size b then
      let nb := u32 (curr + HEADER + size0) in
      let h := put h nb (mkBlock HEAP_MAGIC_FREE (u32 (size b - size0 - HEADER)) true (next b) curr) in
      let h := if negb (next b =? 0) then upd h (next b) (fun x => set_prev x nb) else set_tail h nb in
      upd h curr (fun x => set_next (set_size x size0) nb)
    else h in
  upd h curr (fun x => set_magic (set_free x false) HEAP_MAGIC_ALLOCATED).

(** [Panic] is the halt of the machine with a message of the heap, [Fault] a page
    fault of the kernel, which ends in a halt too; [More] says that the run needs
    the answer to another growth than were given. *)
Inductive outcome := Ret (p : Z) (h : heap) | Panic | Fault | More.

Fixpoint kmalloc_loop (answers : list grow_answer) (h : heap) (size0 : Z) : outcome :=
  match walk (Datatypes.S (base.size (mem h))) h (heap_head h) size0 with
  | Corrupt => Panic
  | Unmapped => Fault
  | Fits curr => Ret (u32 (curr + HEADER)) (take_block h curr size0)
  | NoFit =>
      match answers with
      | [] => More
      | ans :: answers =>
          match heap_grow h ans size0 with
          | (false, h) => Ret 0 h
          | (true, h) => kmalloc_loop answers h size0
          end
      end
  end.

Definition kmalloc (answers : list grow_answer) (h : heap) (size0 : Z) : outcome :=
  if size0 =? 0 then Ret 0 h else kmalloc_loop answers h (Z.land (u32 (size0 + 15)) (not32 15)).





(** [None] is a page fault. *)
Definition kmalloc_size (h : heap) (ptr : Z) : option Z :=
  if ptr =? 0 then Some 0
  else
    let b := block_at h (u32 (ptr - HEADER)) in
    if unmapped h (u32 (ptr - HEADER)) then None
    else if negb (magic b =? HEAP_MAGIC_ALLOCATED) then Some 0 else Some (size b).


(** ** The list of blocks *)



























(** ** Searching *)





(** ** Taking a block *)







(** ** Giving blocks back *)













(** ** Growing *)



(** ** The operations *)








(** ** The heap in use *)












(** The heap before [init_kheap]. *)
Definition boot_heap : heap := mkHeap ∅ 0 0 KHEAP_START_VIRTUAL.












(** A run: the heap starts, two blocks are allocated, the second needing a
    growth, and the first is freed. *)
Definition plenty : grow_answer := mkAnswer 0x100000 256.
Definition heap_of (o : outcome) : heap := match o with Ret _ h => h | _ => boot_heap end.
Definition run0 : heap := default boot_heap (init_kheap boot_heap plenty).



(** A request of nearly 4 GiB wraps round to an empty block. *)
Lemma huge_request_wraps : kmalloc [plenty] run0 0xFFFFFFF8 = Ret 0xD0000020 (heap_of (kmalloc [] run0 0xFFFFFFF8)) /\
  kmalloc_size (heap_of (kmalloc [] run0 0xFFFFFFF8)) 0xD0000020 = Some 0.
Proof. by vm_compute. Qed.





End Kheap.
