(* ===== verification/EsdTime.v ===== *)
(** * The calendar (include/esdtime.h)

    Civil dates, day counts and seconds since 1970, with the proof that the
    formulas count days as the Gregorian calendar does and that the two
    directions are inverse to each other. *)

From S2P Require Import Prelude.

Module EsdTime.

(** ** The program *)

Record esd_time := mkTime {
  year : Z; month : Z; day : Z; hour : Z; minute : Z; second : Z; tz_offset_hours : Z
}.

Definition ESD_SECS_PER_DAY : Z := 86400.

(** [Z.quot] is the division of C: it truncates. *)
Definition esd_days_from_civil (y m d : Z) : Z :=
  let y := y - (if m <=? 2 then 1 else 0) in
  let era := Z.quot (if 0 <=? y then y else y - 399) 400 in
  let yoe := y - era * 400 in
  let doy := Z.quot (153 * (m + (if 2 <? m then -3 else 9)) + 2) 5 + d - 1 in
  let doe := yoe * 365 + Z.quot yoe 4 - Z.quot yoe 100 + doy in
  era * 146097 + doe - 719468.

Definition esd_civil_from_days (days : Z) : Z * Z * Z :=
  let z := days + 719468 in
  let era := Z.quot (if 0 <=? z then z else z - 146096) 146097 in
  let doe := z - era * 146097 in
  let yoe := Z.quot (doe - Z.quot doe 1460 + Z.quot doe 36524 - Z.quot doe 146096) 365 in
  let doy := doe - (365 * yoe + Z.quot yoe 4 - Z.quot yoe 100) in
  let mp := Z.quot (5 * doy + 2) 153 in
  let d := doy - Z.quot (153 * mp + 2) 5 + 1 in
  let m := mp + (if mp <? 10 then 3 else -9) in
  (yoe + era * 400 + (if m <=? 2 then 1 else 0), m, d).

(** The two loops that move whole days between the seconds and the day count;
    no field of the structure is large enough for 32 turns. *)
Definition carry_days (secs days : Z) : Z * Z :=
  let '(secs, days) := while_loop 32 (fun s => s.1 <? 0) (fun s => (s.1 + ESD_SECS_PER_DAY, s.2 - 1)) (secs, days) in
  while_loop 32 (fun s => ESD_SECS_PER_DAY <=? s.1) (fun s => (s.1 - ESD_SECS_PER_DAY, s.2 + 1)) (secs, days).

Definition esd_time_to_epoch (t : esd_time) : Z :=
  if year t <? 1970 then 0
  else
    let days := esd_days_from_civil (year t) (month t) (day t) in
    let secs := hour t * 3600 + minute t * 60 + second t - tz_offset_hours t * 3600 in
    let '(secs, days) := carry_days secs days in
    if days <? 0 then 0 else u32 (u32 (days * ESD_SECS_PER_DAY) + secs).

Definition esd_time_from_epoch (epoch : Z) : esd_time :=
  let days := epoch / ESD_SECS_PER_DAY in
  let rem := epoch mod ESD_SECS_PER_DAY in
  let '(y, m, d) := esd_civil_from_days days in
  mkTime (u16 y) (u8 m) (u8 d) (u8 (rem / 3600)) (u8 (rem mod 3600 / 60)) (u8 (rem mod 60)) 0.

(** ** The Gregorian calendar *)

Definition leap (y : Z) : bool := (y mod 4 =? 0) && negb (y mod 100 =? 0) || (y mod 400 =? 0).

Definition month_length (m y : Z) : Z :=
  if m =? 2 then if leap y then 29 else 28
  else if (m =? 4) || (m =? 6) || (m =? 9) || (m =? 11) then 30 else 31.

Definition valid_date (y m d : Z) : Prop := 1 <= m <= 12 /\ 1 <= d <= month_length m y.

Definition next_day (y m d : Z) : Z * Z * Z :=
  if d <? month_length m y then (y, m, d + 1) else if m <? 12 then (y, m + 1, 1) else (y + 1, 1, 1).

(** ** The formulas in closed form *)

Definition shift (y m : Z) : Z := if m <=? 2 then y - 1 else y.
Definition mshift (m : Z) : Z := if m <=? 2 then m + 9 else m - 3.

(** Days before the year that begins in March of [y]. *)
Definition year_days (y : Z) : Z := 365 * y + y / 4 - y / 100 + y / 400.

Lemma floor_quot y k : 0 < k -> Z.quot (if 0 <=? y then y else y - (k - 1)) k = y / k.
Proof.
  intros Hk. destruct (Z.leb_spec 0 y); [by rewrite Z.quot_div_nonneg by lia|].
  rewrite <- (Z.opp_involutive (y - (k - 1))), Z.quot_opp_l, Z.quot_div_nonneg by lia.
  apply (Z.div_unique_pos _ _ _ (k - 1 - (- (y - (k - 1))) mod k)); zlia.
Qed.

Lemma days_closed y m d : 1 <= m <= 12 ->
  esd_days_from_civil y m d = year_days (shift y m) + (153 * mshift m + 2) / 5 + d - 1 - 719468.
Proof.
  intros Hm. unfold esd_days_from_civil, year_days.
  replace (y - (if m <=? 2 then 1 else 0)) with (shift y m) by (unfold shift; case_bool; lia).
  replace (m + (if 2 <? m then -3 else 9)) with (mshift m) by (unfold mshift; do 2 case_bool; lia).
  rewrite (floor_quot _ 400) by lia. set (y' := shift y m). assert (0 <= mshift m) by (unfold mshift; case_bool; lia).
  assert (Hy : 0 <= y' - y' / 400 * 400) by zlia.
  rewrite !Z.quot_div_nonneg by lia. set (k := (_ + 2) / 5). clearbody k. zlia.
Qed.

Lemma leap_days y : leap y = true /\ year_days y = year_days (y - 1) + 366 \/ leap y = false /\ year_days y = year_days (y - 1) + 365.
Proof.
  unfold leap, year_days. destruct (Z.eqb_spec (y mod 4) 0), (Z.eqb_spec (y mod 100) 0), (Z.eqb_spec (y mod 400) 0); cbn [negb andb orb];
    first [left; split; [done|zlia] | right; split; [done|zlia] | exfalso; zlia].
Qed.

Lemma month_length_bounds m y : 28 <= month_length m y <= 31.
Proof. unfold month_length. repeat case_bool; lia. Qed.

#[local] Opaque year_days.

(** The day after has the next number. *)
Lemma days_next y m d : valid_date y m d -> let '(y', m', d') := next_day y m d in
  valid_date y' m' d' /\ esd_days_from_civil y' m' d' = esd_days_from_civil y m d + 1.
Proof.
  intros [Hm Hd]. unfold next_day. pose proof (month_length_bounds m y) as Hl.
  destruct (Z.ltb_spec d (month_length m y)); [|destruct (Z.ltb_spec m 12)].
  - split; [split; lia|]. rewrite !days_closed by done. lia.
  - pose proof (month_length_bounds (m + 1) y). split; [split; lia|]. rewrite !days_closed by lia.
    pose proof (leap_days y) as Hy. unfold month_length in *.
    assert (m = 1 \/ m = 2 \/ m = 3 \/ m = 4 \/ m = 5 \/ m = 6 \/ m = 7 \/ m = 8 \/ m = 9 \/ m = 10 \/ m = 11) as Hc by lia.
    destruct Hc as [->|[->|[->|[->|[->|[->|[->|[->|[->|[->| ->]]]]]]]]]];
      destruct Hy as [[E Hy]|[E Hy]]; rewrite E in *; unfold shift, mshift; simpl in *; zlia.
  - pose proof (month_length_bounds 1 (y + 1)). split; [split; lia|]. rewrite !days_closed by lia. assert (m = 12) as -> by lia.
    unfold month_length in *. cbn [Z.eqb Pos.eqb orb] in *. unfold shift, mshift. cbn - [Z.mul Z.div Z.add Z.sub year_days].
    replace (y + 1 - 1) with y by lia. zlia.
Qed.

#[local] Transparent year_days.

(** ** From a day count back to a date *)

Definition year_start (yoe : Z) : Z := 365 * yoe + yoe / 4 - yoe / 100.
Definition year_index (doe : Z) : Z := doe - doe / 1460 + doe / 36524 - doe / 146096.

Lemma year_index_mono a b : 0 <= a <= b -> b <= 146096 -> year_index a <= year_index b.
Proof. intros Ha Hb. unfold year_index. zlia. Qed.

(** Checked at the first and the last day of each of the 400 years; between them
    the quotient cannot move. *)
Lemma year_of_day yoe doe : 0 <= yoe < 400 -> year_start yoe <= doe -> doe < year_start (yoe + 1) + (if yoe =? 399 then 1 else 0) ->
  year_index doe / 365 = yoe.
Proof.
  intros Hy Hlo Hhi.
  assert (H : forallb (fun y => (year_index (year_start y) / 365 =? y) &&
      (year_index (year_start (y + 1) + (if y =? 399 then 1 else 0) - 1) / 365 =? y)) (seqZ 0 400) = true) by (vm_compute; reflexivity).
  rewrite forallb_forall in H. assert (Hin : yoe ∈ seqZ 0 400) by (apply elem_of_seqZ; lia). specialize (H yoe (proj1 (list_elem_of_In _ _) Hin)).
  apply andb_prop in H as [H1%Z.eqb_eq H2%Z.eqb_eq].
  assert (0 <= year_start yoe) by (unfold year_start; zlia).
  assert (Hend : year_start (yoe + 1) + (if yoe =? 399 then 1 else 0) - 1 <= 146096) by (unfold year_start; case_bool; zlia).
  pose proof (year_index_mono (year_start yoe) doe ltac:(lia) ltac:(lia)).
  pose proof (year_index_mono doe (year_start (yoe + 1) + (if yoe =? 399 then 1 else 0) - 1) ltac:(lia) Hend). zlia.
Qed.

Lemma civil_days y m d : valid_date y m d -> esd_civil_from_days (esd_days_from_civil y m d) = (y, m, d).
Proof.
  intros [Hm Hd]. rewrite days_closed by done. unfold esd_civil_from_days.
  set (y' := shift y m). set (doy := (153 * mshift m + 2) / 5 + d - 1). set (yoe := y' mod 400).
  replace (year_days y' + (153 * mshift m + 2) / 5 + d - 1 - 719468 + 719468) with (y' / 400 * 146097 + (year_start yoe + doy))
    by (unfold year_days, year_start, yoe, doy; zlia).
  assert (Hdoy : 0 <= doy <= (if leap (y' + 1) then 365 else 364) /\ (5 * doy + 2) / 153 = mshift m).
  { pose proof (leap_days y) as Hl. unfold month_length in Hd. subst doy y'. unfold mshift, shift.
    assert (m = 1 \/ m = 2 \/ m = 3 \/ m = 4 \/ m = 5 \/ m = 6 \/ m = 7 \/ m = 8 \/ m = 9 \/ m = 10 \/ m = 11 \/ m = 12) as Hc by lia.
    destruct Hc as [->|[->|[->|[->|[->|[->|[->|[->|[->|[->|[->| ->]]]]]]]]]]]; cbn [Z.leb Z.compare Pos.compare Pos.compare_cont Z.eqb Pos.eqb orb] in *;
      rewrite ?Z.sub_add; clear Hl; split; repeat case_match; zlia. }
  destruct Hdoy as [Hdoy Hmp]. assert (Hyoe : 0 <= yoe < 400) by (unfold yoe; zlia).
  assert (Hdoe : year_start yoe + doy < year_start (yoe + 1) + (if yoe =? 399 then 1 else 0)).
  { assert (leap (y' + 1) = false \/ (yoe + 1) mod 4 = 0 /\ ((yoe + 1) mod 100 <> 0 \/ yoe = 399)) as Hl.
    { unfold leap. destruct (Z.eqb_spec ((y' + 1) mod 4) 0) as [H4|], (Z.eqb_spec ((y' + 1) mod 100) 0) as [|H100], (Z.eqb_spec ((y' + 1) mod 400) 0) as [H400|];
        cbn; try (left; done); right; unfold yoe; clear -H4 H100 H400 || clear -H4 H400 || clear -H4 H100 || clear -H400; zlia. }
    unfold year_start. destruct Hl as [E|[E1 E2]]; [rewrite E in Hdoy; case_bool; zlia|]. clearbody doy yoe. clear -Hyoe Hdoy E1 E2. destruct (leap _), (Z.eqb_spec yoe 399); zlia. }
  set (doe := year_start yoe + doy) in *. assert (Hr : 0 <= doe <= 146096) by (unfold doe, year_start in *; case_bool; zlia).
  rewrite (floor_quot _ 146097) by lia. replace ((y' / 400 * 146097 + doe) / 146097) with (y' / 400) by zlia.
  replace (y' / 400 * 146097 + doe - y' / 400 * 146097) with doe by lia.
  rewrite !(Z.quot_div_nonneg doe) by lia. fold (year_index doe). pose proof (year_index_mono 0 doe ltac:(lia) ltac:(lia)) as Hi. change (year_index 0) with 0 in Hi.
  rewrite (Z.quot_div_nonneg (year_index doe)), (year_of_day yoe doe) by (unfold doe; lia || done).
  rewrite !(Z.quot_div_nonneg yoe) by lia. fold (year_start yoe). replace (doe - year_start yoe) with doy by (unfold doe; lia).
  rewrite (Z.quot_div_nonneg (5 * doy + 2)), Hmp by lia. assert (0 <= mshift m) by (unfold mshift; case_bool; lia).
  rewrite Z.quot_div_nonneg by lia.
  assert (Hmm : mshift m + (if mshift m <? 10 then 3 else -9) = m) by (unfold mshift; destruct (Z.leb_spec m 2); case_bool; lia).
  rewrite Hmm. assert (Hyy : yoe + y' / 400 * 400 + (if m <=? 2 then 1 else 0) = y) by (unfold yoe, y', shift; case_bool; zlia).
  rewrite Hyy. f_equal. unfold doy. lia.
Qed.

Lemma day_has_date n : 0 <= n -> exists y m d, valid_date y m d /\ 1970 <= y /\ esd_days_from_civil y m d = n.
Proof.
  revert n. apply natlike_ind.
  - exists 1970, 1, 1. split_and!; (done || by vm_compute).
  - intros n Hn (y & m & d & Hv & Hy & Hd). pose proof (days_next y m d Hv) as Hx. destruct (next_day y m d) as [[y' m'] d'] eqn:E.
    destruct Hx as [Hv' Hd']. exists y', m', d'. split_and!; [done| |lia]. unfold next_day in E. repeat case_match; simplify_eq; lia.
Qed.

Lemma year_by_day y m d : valid_date y m d -> 1970 <= y -> 365 * (y - 1970) <= esd_days_from_civil y m d.
Proof.
  intros [Hm Hd] Hy. rewrite days_closed by done. assert (Hs : shift y m = y /\ 0 <= mshift m \/ shift y m = y - 1 /\ 10 <= mshift m)
    by (unfold shift, mshift; case_bool; lia).
  unfold year_days. destruct Hs as [[-> H]|[-> H]]; zlia.
Qed.

Lemma days_civil n : 0 <= n -> let '(y, m, d) := esd_civil_from_days n in
  valid_date y m d /\ 1970 <= y /\ 365 * (y - 1970) <= n /\ esd_days_from_civil y m d = n.
Proof.
  intros Hn. destruct (day_has_date n Hn) as (y & m & d & Hv & Hy & <-). rewrite civil_days by done.
  split_and!; try done. by apply year_by_day.
Qed.

Lemma year_from_days y m d : valid_date y m d -> 0 <= esd_days_from_civil y m d -> 1970 <= y.
Proof. intros Hv Hd. pose proof (days_civil _ Hd) as H. rewrite civil_days in H by done. tauto. Qed.

(** ** Seconds since 1970 *)

Definition valid_time (t : esd_time) : Prop :=
  valid_date (year t) (month t) (day t) /\ 0 <= hour t <= 23 /\ 0 <= minute t <= 59 /\ 0 <= second t <= 59.

(** The seconds a clock shows, and the moment it means. *)
Definition shown (t : esd_time) : Z :=
  esd_days_from_civil (year t) (month t) (day t) * 86400 + hour t * 3600 + minute t * 60 + second t.
Definition instant (t : esd_time) : Z := shown t - tz_offset_hours t * 3600.

Lemma borrow_days n : forall secs days, - 86400 * Z.of_nat n <= secs ->
  while_loop n (fun s => s.1 <? 0) (fun s => (s.1 + ESD_SECS_PER_DAY, s.2 - 1)) (secs, days) =
  if secs <? 0 then (secs mod 86400, days + secs / 86400) else (secs, days).
Proof.
  unfold ESD_SECS_PER_DAY. induction n as [|n IH]; intros secs days Hs.
  - cbn [while_loop]. case_bool; [lia|done].
  - cbn [while_loop fst snd]. destruct (Z.ltb_spec secs 0); [|done]. rewrite IH by lia. case_bool; f_equal; zlia.
Qed.

Lemma add_days n : forall secs days, 0 <= secs < 86400 * Z.of_nat (Datatypes.S n) ->
  while_loop n (fun s => ESD_SECS_PER_DAY <=? s.1) (fun s => (s.1 - ESD_SECS_PER_DAY, s.2 + 1)) (secs, days) =
  (secs mod 86400, days + secs / 86400).
Proof.
  unfold ESD_SECS_PER_DAY. induction n as [|n IH]; intros secs days Hs.
  - cbn [while_loop]. f_equal; zlia.
  - cbn [while_loop fst snd]. destruct (Z.leb_spec 86400 secs); [|f_equal; zlia]. rewrite IH by lia. f_equal; zlia.
Qed.

Lemma carry_days_eq secs days : - 86400 * 32 <= secs < 86400 * 32 -> carry_days secs days = (secs mod 86400, days + secs / 86400).
Proof.
  intros Hs. unfold carry_days. rewrite borrow_days by lia. destruct (Z.ltb_spec secs 0); cbn beta iota; rewrite add_days by zlia; [|done].
  f_equal; zlia.
Qed.

(** The conversion gives the moment, as far as 32 bits hold it. *)
Lemma to_epoch_eq t : valid_time t -> 1970 <= year t -> -128 <= tz_offset_hours t <= 127 ->
  esd_time_to_epoch t = if instant t <? 0 then 0 else u32 (instant t).
Proof.
  intros (Hv & Hh & Hm & Hs) Hy Ho. unfold esd_time_to_epoch. destruct (Z.ltb_spec (year t) 1970); [lia|].
  rewrite carry_days_eq by lia. unfold instant, shown, ESD_SECS_PER_DAY. set (days := esd_days_from_civil _ _ _).
  set (secs := hour t * 3600 + minute t * 60 + second t - tz_offset_hours t * 3600).
  replace (days * 86400 + hour t * 3600 + minute t * 60 + second t - tz_offset_hours t * 3600) with (days * 86400 + secs) by lia.
  clearbody days secs. destruct (Z.ltb_spec (days + secs / 86400) 0), (Z.ltb_spec (days * 86400 + secs) 0); try (done || (exfalso; zlia)).
  unfold u32. rewrite Zplus_mod_idemp_l. f_equal. zlia.
Qed.

Lemma from_epoch_valid e : is_u32 e -> let t := esd_time_from_epoch e in
  valid_time t /\ 1970 <= year t <= 2106 /\ shown t = e /\ tz_offset_hours t = 0.
Proof.
  intros He. unfold is_u32 in He. unfold esd_time_from_epoch, ESD_SECS_PER_DAY. pose proof (days_civil (e / 86400) ltac:(zlia)) as Hc.
  destruct (esd_civil_from_days (e / 86400)) as [[y m] d]. destruct Hc as (Hv & Hy & Hle & Hd). pose proof Hv as [Hm Hdd].
  pose proof (month_length_bounds m y). assert (Hy2 : y <= 2106) by zlia.
  replace (u16 y) with y by (unfold u16; symmetry; apply Z.mod_small; lia). rewrite (u8_small m), (u8_small d), !u8_small by zlia.
  unfold valid_time, shown. cbn [year month day hour minute second tz_offset_hours]. rewrite Hd. split_and!; (done || zlia).
Qed.

(** A date and time of day is determined by the seconds it shows. *)
Lemma shown_inj t u : valid_time t -> valid_time u -> tz_offset_hours t = tz_offset_hours u -> shown t = shown u -> t = u.
Proof.
  intros (Hv & Hh & Hm & Hs) (Hv' & Hh' & Hm' & Hs') Hz E. unfold shown in E.
  assert (Hd : esd_days_from_civil (year t) (month t) (day t) = esd_days_from_civil (year u) (month u) (day u)) by lia.
  pose proof (civil_days _ _ _ Hv) as C1. pose proof (civil_days _ _ _ Hv') as C2. rewrite Hd, C2 in C1.
  destruct t, u. cbn in *. injection C1 as -> -> ->. f_equal; lia.
Qed.

(** C34: The calendar formulas are the Gregorian calendar.  1 January 1970 is day
    0 and the day after a valid date has the next number, so the number of a date
    is the number of days that have passed; back from the number the very same
    date comes out, and every day number from 0 on is the number of a valid
    date. *)
Theorem calendar_counts_days :
  esd_days_from_civil 1970 1 1 = 0 /\
  (forall y m d, valid_date y m d -> let '(y', m', d') := next_day y m d in
     valid_date y' m' d' /\ esd_days_from_civil y' m' d' = esd_days_from_civil y m d + 1) /\
  (forall y m d, valid_date y m d -> esd_civil_from_days (esd_days_from_civil y m d) = (y, m, d)) /\
  (forall n, 0 <= n -> let '(y, m, d) := esd_civil_from_days n in valid_date y m d /\ esd_days_from_civil y m d = n).
Proof.
  split_and!; [done|exact days_next|exact civil_days|]. intros n Hn. pose proof (days_civil n Hn) as H.
  destruct (esd_civil_from_days n) as [[y m] d]. tauto.
Qed.

Lemma calendar_counts_days_witness :
  esd_civil_from_days (esd_days_from_civil 2024 2 29) = (2024, 2, 29) /\ esd_days_from_civil 2024 3 1 = esd_days_from_civil 2024 2 29 + 1.
Proof.
  destruct calendar_counts_days as (_ & Hn & Hc & _). assert (Hv : valid_date 2024 2 29) by (split; vm_compute; split; discriminate).
  split; [by apply Hc|]. exact (proj2 (Hn 2024 2 29 Hv)).
Defined.

(** Seconds and calendar fields convert into each other without loss.  Every
    32-bit count of seconds becomes a valid UTC time that converts back to the
    count; every valid UTC time from 1970 until the count runs out in 2106
    converts to its count of seconds and back to itself; and a time with an offset
    converts to the count of the moment it means, in whatever zone it is shown. *)
Theorem epoch_roundtrip :
  (forall e, is_u32 e -> valid_time (esd_time_from_epoch e) /\ esd_time_to_epoch (esd_time_from_epoch e) = e) /\
  (forall t, valid_time t -> 1970 <= year t -> tz_offset_hours t = 0 -> shown t < 2 ^ 32 ->
     esd_time_to_epoch t = shown t /\ esd_time_from_epoch (esd_time_to_epoch t) = t) /\
  (forall t, valid_time t -> 1970 <= year t -> -128 <= tz_offset_hours t <= 127 -> 0 <= instant t < 2 ^ 32 ->
     esd_time_to_epoch t = instant t).
Proof.
  split_and!.
  - intros e He. destruct (from_epoch_valid e He) as (Hv & Hy & Hs & Hz). split; [done|]. rewrite to_epoch_eq by (done || lia).
    unfold instant. rewrite Hs, Hz, Z.sub_0_r. unfold is_u32 in He. case_bool; [lia|]. by apply u32_small.
  - intros t Hv Hy Hz Hs. assert (H0 : 0 <= shown t).
    { pose proof (year_by_day _ _ _ (proj1 Hv) Hy). unfold shown. destruct Hv as (_ & ? & ? & ?). lia. }
    assert (E : esd_time_to_epoch t = shown t).
    { rewrite to_epoch_eq by (done || lia). unfold instant. rewrite Hz, Z.sub_0_r. case_bool; [lia|]. apply u32_small. lia. }
    split; [done|]. rewrite E. destruct (from_epoch_valid (shown t) ltac:(split; lia)) as (Hv' & _ & Hs' & Hz').
    apply shown_inj; (done || congruence).
  - intros t Hv Hy Ho Hi. rewrite to_epoch_eq by done. case_bool; [lia|]. by apply u32_small.
Qed.

Lemma epoch_roundtrip_witness : esd_time_to_epoch (mkTime 2026 11 16 2 30 0 3) = 1794785400 /\
  esd_time_from_epoch 1794785400 = mkTime 2026 11 15 23 30 0 0.
Proof.
  destruct epoch_roundtrip as (_ & H2 & H3). split.
  - rewrite H3; [reflexivity|..]; vm_compute; repeat split; discriminate.
  - apply (H2 (mkTime 2026 11 15 23 30 0 0)); vm_compute; repeat split; discriminate.
Defined.

End EsdTime.
