(* ===== verification/Rtc.v ===== *)
(** * The clock (drivers/rtc.c and what stands on it)

    The registers of the clock chip and their two encodings, setting and reading
    the time, the shift to local time, the system calls on the clock, the offset
    read from /etc/timezone, and the program date.

    The chip is not modelled.  A run of the driver takes what the chip answers to
    each [inb], in order, and gives the port accesses it makes: the theorems say
    which registers are written with what and how answers are decoded, not that a
    chip keeps what was written. *)

From S2P Require Import Prelude CStr EsdTime.

Module Rtc.
Import EsdTime.

(** ** The chip *)

Record rtc_raw := mkRaw { r_second : Z; r_minute : Z; r_hour : Z; r_day : Z; r_month : Z; r_year : Z; registerB : Z }.

Definition CMOS_ADDRESS : Z := 0x70.
Definition CMOS_DATA : Z := 0x71.

Inductive port_event := Outb (port value : Z) | Inb (port value : Z).

(** A run on the ports: the answers still to come are threaded through and the
    accesses are collected in order; [None] when the run asks for more answers
    than there are. *)
Definition io (A : Type) : Type := list Z -> option (A * list Z * list port_event).
Definition io_ret {A} (x : A) : io A := fun answers => Some (x, answers, []).
Definition io_bind {A B} (m : io A) (k : A -> io B) : io B := fun answers =>
  match m answers with
  | None => None
  | Some (x, answers, tr) =>
      match k x answers with None => None | Some (y, answers, tr') => Some (y, answers, tr ++ tr') end
  end.
#[local] Notation "'do!' x <- m ; k" := (io_bind m (fun x => k)) (at level 200, x name, m at level 100, k at level 200).

Definition outb (port value : Z) : io unit := fun answers => Some (tt, answers, [Outb port value]).
Definition inb (port : Z) : io Z := fun answers =>
  match answers with [] => None | v :: answers => Some (v, answers, [Inb port v]) end.

Definition get_update_in_progress_flag : io bool :=
  do! _ <- outb CMOS_ADDRESS 0x0A; do! v <- inb CMOS_DATA; io_ret (negb (Z.land v 0x80 =? 0)).
Definition get_RTC_register (reg : Z) : io Z := do! _ <- outb CMOS_ADDRESS reg; inb CMOS_DATA.
Definition set_RTC_register (reg value : Z) : io unit := do! _ <- outb CMOS_ADDRESS reg; outb CMOS_DATA value.

(** [while (get_update_in_progress_flag());] takes an answer each time round. *)
Fixpoint poll (fuel : nat) : io unit :=
  match fuel with
  | O => fun _ => None
  | Datatypes.S fuel => do! busy <- get_update_in_progress_flag; if busy then poll fuel else io_ret tt
  end.
Definition wait_update : io unit := fun answers => poll (Datatypes.S (length answers)) answers.

Definition get_rtc_second : io Z := do! _ <- wait_update; get_RTC_register 0x00.

Definition rtc_read_raw : io rtc_raw :=
  do! _ <- wait_update;
  do! second <- get_RTC_register 0x00;
  do! minute <- get_RTC_register 0x02;
  do! hour <- get_RTC_register 0x04;
  do! day <- get_RTC_register 0x07;
  do! month <- get_RTC_register 0x08;
  do! year <- get_RTC_register 0x09;
  do! regB <- get_RTC_register 0x0B;
  io_ret (mkRaw second minute hour day month year regB).

Definition rtc_raw_equal (a b : rtc_raw) : bool :=
  (r_second a =? r_second b) && (r_minute a =? r_minute b) && (r_hour a =? r_hour b) && (r_day a =? r_day b) &&
  (r_month a =? r_month b) && (r_year a =? r_year b) && (registerB a =? registerB b).

Definition rtc_is_leap (year : Z) : bool :=
  (Z.rem year 4 =? 0) && negb (Z.rem year 100 =? 0) || (Z.rem year 400 =? 0).

Definition month_lengths : list Z := [31; 28; 31; 30; 31; 30; 31; 31; 30; 31; 30; 31].

Definition rtc_days_in_month (month year : Z) : Z :=
  if (month <? 1) || (12 <? month) then 31
  else if (month =? 2) && rtc_is_leap year then 29
  else month_lengths.[month - 1].

Definition RTC_TZ_OFFSET_HOURS : Z := 3.

(** The result and the offset afterwards. *)
Definition rtc_set_tz_offset (rtc_tz_offset hours : Z) : Z * Z :=
  if (hours <? -12) || (14 <? hours) then (E_INVAL, rtc_tz_offset) else (E_OK, hours).

(** The loop of [rtc_read_utc]: readings until one equals the one before. *)
Fixpoint settle (fuel : nat) (previous : rtc_raw) : io rtc_raw :=
  match fuel with
  | O => fun _ => None
  | Datatypes.S fuel =>
      do! current <- rtc_read_raw;
      if rtc_raw_equal current previous then io_ret current else settle fuel current
  end.

Definition from_bcd (v : Z) : Z := Z.land v 0x0F + v / 16 * 10.

Definition decode (current : rtc_raw) : esd_time :=
  let bcd := Z.land (registerB current) 0x04 =? 0 in
  let num v := if bcd then from_bcd v else v in
  let hour := if bcd then Z.lor (Z.land (r_hour current) 0x0F + Z.land (r_hour current) 0x70 / 16 * 10) (Z.land (r_hour current) 0x80)
              else r_hour current in
  let hour := if (Z.land (registerB current) 0x02 =? 0) && negb (Z.land hour 0x80 =? 0)
              then (Z.land hour 0x7F + 12) mod 24 else hour in
  mkTime (u16 (num (r_year current) + 2000)) (u8 (num (r_month current))) (u8 (num (r_day current))) (u8 hour)
    (u8 (num (r_minute current))) (u8 (num (r_second current))) 0.

(** Every reading takes answers, so their number bounds the loop. *)
Definition rtc_read_utc : io esd_time :=
  do! previous <- rtc_read_raw;
  do! current <- (fun answers => settle (Datatypes.S (length answers)) previous answers);
  io_ret (decode current).

Definition rtc_to_bcd (v : Z) : Z := u8 (Z.lor (Z.shiftl (v / 10) 4) (v mod 10)).

Definition rtc_set_utc (t : option esd_time) : io Z :=
  match t with
  | None => io_ret E_INVAL
  | Some t =>
      if (year t <? 2000) || (2099 <? year t) then io_ret E_INVAL
      else if (month t <? 1) || (12 <? month t) then io_ret E_INVAL
      else if (day t <? 1) || (rtc_days_in_month (month t) (year t) <? day t) then io_ret E_INVAL
      else if (23 <? hour t) || (59 <? minute t) || (59 <? second t) then io_ret E_INVAL
      else
        do! _ <- wait_update;
        do! regB <- get_RTC_register 0x0B;
        let hour :=
          if Z.land regB 0x02 =? 0 then
            let pm := if 12 <=? hour t then 0x80 else 0x00 in
            let h12 := hour t mod 12 in
            u8 (Z.lor (if h12 =? 0 then 12 else h12) pm)
          else hour t in
        let bcd := Z.land regB 0x04 =? 0 in
        let num v := if bcd then rtc_to_bcd v else v in
        let hour := if bcd then u8 (Z.lor (rtc_to_bcd (u8 (Z.land hour 0x7F))) (Z.land hour 0x80)) else hour in
        do! _ <- set_RTC_register 0x0B (u8 (Z.lor regB 0x80));
        do! _ <- set_RTC_register 0x00 (num (second t));
        do! _ <- set_RTC_register 0x02 (num (minute t));
        do! _ <- set_RTC_register 0x04 hour;
        do! _ <- set_RTC_register 0x07 (num (day t));
        do! _ <- set_RTC_register 0x08 (num (month t));
        do! _ <- set_RTC_register 0x09 (num (u8 (year t - 2000)));
        do! _ <- set_RTC_register 0x0B regB;
        io_ret E_OK
  end.

(** ** Local time *)

Definition s8 (x : Z) : Z := (x + 2 ^ 7) mod 2 ^ 8 - 2 ^ 7.

(** Hour, day, month and year while the loops carry. *)
Record fields := mkFields { f_hour : Z; f_day : Z; f_month : Z; f_year : Z }.

Definition carry_up (s : fields) : fields :=
  let hour := f_hour s - 24 in
  let day := f_day s + 1 in
  if rtc_days_in_month (f_month s) (f_year s) <? day then
    if 12 <? f_month s + 1 then mkFields hour 1 1 (f_year s + 1) else mkFields hour 1 (f_month s + 1) (f_year s)
  else mkFields hour day (f_month s) (f_year s).

Definition carry_down (s : fields) : fields :=
  let hour := f_hour s + 24 in
  let day := f_day s - 1 in
  if day <? 1 then
    let '(month, year) := if f_month s - 1 <? 1 then (12, f_year s - 1) else (f_month s - 1, f_year s) in
    mkFields hour (rtc_days_in_month month year) month year
  else mkFields hour day (f_month s) (f_year s).

(** Each loop turns once per day of the offset. *)
Definition rtc_apply_timezone (t : esd_time) (offset_hours : Z) : esd_time :=
  let s := mkFields (hour t + offset_hours) (day t) (month t) (year t) in
  let turns := Z.to_nat (Z.abs (f_hour s) / 24 + 1) in
  let s := while_loop turns (fun s => 24 <=? f_hour s) carry_up s in
  let s := while_loop turns (fun s => f_hour s <? 0) carry_down s in
  mkTime (u16 (f_year s)) (u8 (f_month s)) (u8 (f_day s)) (u8 (f_hour s)) (minute t) (second t) (s8 (tz_offset_hours t + offset_hours)).

Definition rtc_read_local (rtc_tz_offset : Z) : io esd_time :=
  do! t <- rtc_read_utc; io_ret (rtc_apply_timezone t rtc_tz_offset).

Definition digit (v : Z) : Z := v + 48.

(** The 20 bytes of the buffer. *)
Definition get_time_string (t : esd_time) : list Z :=
  [digit (day t / 10); digit (day t mod 10); 47; digit (month t / 10); digit (month t mod 10); 47;
   digit (year t / 1000 mod 10); digit (year t / 100 mod 10); digit (year t / 10 mod 10); digit (year t mod 10); 32;
   digit (hour t / 10); digit (hour t mod 10); 58; digit (minute t / 10); digit (minute t mod 10); 58;
   digit (second t / 10); digit (second t mod 10); 0].

(** ** The calls on the clock *)

Definition fs_now : io Z := do! t <- rtc_read_utc; io_ret (esd_time_to_epoch t).

(** The answer to [sys_time] and what it copies out; [writable] is the check of
    the pointer, [copied] whether the copy succeeds. *)
Definition sys_time (rtc_tz_offset : Z) (want_utc writable copied : bool) : io (Z * option esd_time) :=
  if negb writable then io_ret (E_FAULT, None)
  else
    do! now <- (if want_utc then rtc_read_utc else rtc_read_local rtc_tz_offset);
    io_ret (if copied then (E_OK, Some now) else (E_FAULT, None)).

(** [uid] is that of the running task, if there is one; [given] what
    [copy_from_user] brings. *)
Definition sys_settime (uid : option Z) (given : option esd_time) : io Z :=
  if match uid with Some u => negb (u =? 0) | None => false end then io_ret E_PERM
  else match given with
       | None => io_ret E_FAULT
       | Some given =>
           let epoch := esd_time_to_epoch given in
           if epoch =? 0 then io_ret E_INVAL else rtc_set_utc (Some (esd_time_from_epoch epoch))
       end.

(** ** /etc/timezone *)

Definition skip_blanks (raw : list Z) (got i : Z) : Z :=
  while_loop (Z.to_nat got) (fun i => (i <? got) && ((raw.[i] =? 32) || (raw.[i] =? 9))) (fun i => i + 1) i.

Definition skip_line (raw : list Z) (got i : Z) : Z :=
  while_loop (Z.to_nat got) (fun i => (i <? got) && negb (raw.[i] =? 10)) (fun i => i + 1) i.

(** The first byte that is neither blank nor in a comment; every turn moves on. *)
Fixpoint first_line (fuel : nat) (raw : list Z) (got i : Z) : Z :=
  match fuel with
  | O => i
  | Datatypes.S fuel =>
      if i <? got then
        let i := skip_blanks raw got i in
        if raw.[i] =? 35 then first_line fuel raw got (skip_line raw got i + 1)
        else if (raw.[i] =? 10) || (raw.[i] =? 13) then first_line fuel raw got (i + 1)
        else i
      else i
  end.

Definition is_digit (c : Z) : bool := (48 <=? c) && (c <=? 57).

Fixpoint read_hours (fuel : nat) (raw : list Z) (got i value : Z) : Z :=
  match fuel with
  | O => value
  | Datatypes.S fuel =>
      if (i <? got) && is_digit raw.[i] then
        let value := value * 10 + (raw.[i] - 48) in
        if 99 <? value then value else read_hours fuel raw got (i + 1) value
      else value
  end.

(** The offset after [load_timezone]; [file] is the file's content, if it can be
    opened. *)
Definition load_timezone (rtc_tz_offset : Z) (file : option (list Z)) : Z :=
  match file with
  | None => rtc_tz_offset
  | Some content =>
      let got := Z.min 63 (alen content) in
      if got <=? 0 then rtc_tz_offset
      else
        let raw := take (Z.to_nat got) content ++ [0] in
        let fuel := Z.to_nat (got + 1) in
        let i := first_line fuel raw got 0 in
        if got <=? i then rtc_tz_offset
        else
          let '(sign, i) := if raw.[i] =? 43 then (1, i + 1) else if raw.[i] =? 45 then (-1, i + 1) else (1, i) in
          if (got <=? i) || negb (is_digit raw.[i]) then rtc_tz_offset
          else snd (rtc_set_tz_offset rtc_tz_offset (sign * read_hours fuel raw got i 0))
  end.

(** ** date *)

Fixpoint read_digits (n : nat) (s : list Z) (i v : Z) : option (Z * Z) :=
  match n with
  | O => Some (v, i)
  | Datatypes.S n => if is_digit s.[i] then read_digits n s (i + 1) (v * 10 + (s.[i] - 48)) else None
  end.

(** One field of the given width and the separator after it, 0 standing for none. *)
Fixpoint read_fields (shape : list (nat * Z)) (s : list Z) (i : Z) : option (list Z * Z) :=
  match shape with
  | [] => Some ([], i)
  | (width, sep) :: shape =>
      match read_digits width s i 0 with
      | None => None
      | Some (v, i) =>
          if negb (sep =? 0) && negb (s.[i] =? sep) then None
          else match read_fields shape s (if negb (sep =? 0) then i + 1 else i) with
               | None => None
               | Some (vs, i) => Some (v :: vs, i)
               end
      end
  end.

Definition datetime_shape : list (nat * Z) := [(4%nat, 45); (2%nat, 45); (2%nat, 32); (2%nat, 58); (2%nat, 58); (2%nat, 0)].

Definition parse_datetime (s : list Z) : option esd_time :=
  match read_fields datetime_shape s 0 with
  | None => None
  | Some (v, i) =>
      if negb (s.[i] =? 0) then None
      else Some (mkTime (u16 v.[0]) (u8 v.[1]) (u8 v.[2]) (u8 v.[3]) (u8 v.[4]) (u8 v.[5]) 0)
  end.

(** The digits that are written, most significant first. *)
Fixpoint print_padded (value : Z) (digits : nat) : list Z :=
  match digits with
  | O => []
  | Datatypes.S digits => print_padded (Z.quot value 10) digits ++ [48 + Z.rem value 10]
  end.

(** ** The shift keeps the moment *)

Lemma rem_mod_zero y k : 0 < k -> (Z.rem y k =? 0) = (y mod k =? 0).
Proof.
  intros Hk. apply eq_true_iff_eq. rewrite !Z.eqb_eq. rewrite Z.rem_divide by lia. by rewrite Z.mod_divide by lia.
Qed.

Lemma days_in_month_eq m y : 1 <= m <= 12 -> rtc_days_in_month m y = month_length m y.
Proof.
  intros Hm. unfold rtc_days_in_month, month_length, rtc_is_leap, leap. rewrite !rem_mod_zero by lia.
  assert (m = 1 \/ m = 2 \/ m = 3 \/ m = 4 \/ m = 5 \/ m = 6 \/ m = 7 \/ m = 8 \/ m = 9 \/ m = 10 \/ m = 11 \/ m = 12) as Hc by lia.
  destruct Hc as [->|[->|[->|[->|[->|[->|[->|[->|[->|[->|[->| ->]]]]]]]]]]]; cbn [Z.ltb Z.compare Pos.compare Pos.compare_cont Z.eqb Pos.eqb orb andb]; try done.
Qed.

(** A valid date, and the hours since 1970 it and the hour make. *)
Definition dated (s : fields) (n : Z) : Prop :=
  valid_date (f_year s) (f_month s) (f_day s) /\ esd_days_from_civil (f_year s) (f_month s) (f_day s) * 24 + f_hour s = n.

Lemma carry_up_ok s n : dated s n -> dated (carry_up s) n /\ f_hour (carry_up s) = f_hour s - 24.
Proof.
  intros [Hv Hn]. pose proof Hv as [Hm Hd]. pose proof (days_next _ _ _ Hv) as Hx. unfold next_day in Hx. unfold carry_up.
  rewrite days_in_month_eq by done. destruct (Z.ltb_spec (f_day s) (month_length (f_month s) (f_year s))),
    (Z.ltb_spec (month_length (f_month s) (f_year s)) (f_day s + 1)); try lia.
  - split; [|done]. destruct Hx as [Hv' Hd']. split; [done|]. cbn [f_hour f_day f_month f_year]. lia.
  - destruct (Z.ltb_spec (f_month s) 12), (Z.ltb_spec 12 (f_month s + 1)); try lia; destruct Hx as [Hv' Hd'];
      (split; [|done]); (split; [done|]); cbn [f_hour f_day f_month f_year]; lia.
Qed.

Lemma carry_down_ok s n : dated s n -> dated (carry_down s) n /\ f_hour (carry_down s) = f_hour s + 24.
Proof.
  intros [Hv Hn]. pose proof Hv as [Hm Hd]. unfold carry_down.
  destruct (Z.ltb_spec (f_day s - 1) 1) as [H1|H1].
  - set (p := if f_month s - 1 <? 1 then (12, f_year s - 1) else (f_month s - 1, f_year s)).
    assert (Hp : 1 <= p.1 <= 12 /\ next_day p.2 p.1 (month_length p.1 p.2) = (f_year s, f_month s, 1)).
    { unfold p, next_day. destruct (Z.ltb_spec (f_month s - 1) 1); cbn [fst snd]; rewrite Z.ltb_irrefl.
      - split; [lia|]. cbn [Z.ltb Z.compare Pos.compare Pos.compare_cont]. repeat f_equal; lia.
      - split; [lia|]. destruct (Z.ltb_spec (f_month s - 1) 12); [|lia]. repeat f_equal; lia. }
    destruct p as [m y]. cbn [fst snd] in Hp. destruct Hp as [Hpm Hp]. pose proof (month_length_bounds m y).
    assert (Hv' : valid_date y m (month_length m y)) by (split; lia).
    pose proof (days_next _ _ _ Hv') as Hx. rewrite Hp in Hx. destruct Hx as [_ Hx].
    replace (f_day s) with 1 in Hn by lia. rewrite days_in_month_eq by done. split; [|done]. split; [done|]. cbn [f_hour f_day f_month f_year]. lia.
  - split; [|done]. split; cbn [f_hour f_day f_month f_year]; [split; lia|]. rewrite days_closed in * by done. lia.
Qed.

Lemma carry_ups turns : forall s n, dated s n -> f_hour s < 24 * Z.of_nat (Datatypes.S turns) ->
  let s' := while_loop turns (fun s => 24 <=? f_hour s) carry_up s in
  dated s' n /\ f_hour s' < 24 /\ (f_hour s < 24 -> s' = s) /\ (0 <= f_hour s -> 0 <= f_hour s').
Proof.
  induction turns as [|turns IH]; intros s n Hs Hh; cbn [while_loop].
  - split_and!; (done || lia).
  - destruct (Z.leb_spec 24 (f_hour s)); [|split_and!; (done || lia)]. destruct (carry_up_ok s n Hs) as [Hs' Hh'].
    destruct (IH (carry_up s) n Hs' ltac:(lia)) as (Hd & Hlt & Hsame & Hpos). split_and!; (done || lia).
Qed.

Lemma carry_downs turns : forall s n, dated s n -> - 24 * Z.of_nat turns <= f_hour s -> f_hour s < 24 ->
  let s' := while_loop turns (fun s => f_hour s <? 0) carry_down s in dated s' n /\ 0 <= f_hour s' < 24.
Proof.
  induction turns as [|turns IH]; intros s n Hs Hh Hlt; cbn [while_loop].
  - split_and!; (done || lia).
  - destruct (Z.ltb_spec (f_hour s) 0); [|split_and!; (done || lia)]. destruct (carry_down_ok s n Hs) as [Hs' Hh'].
    apply IH; (done || lia).
Qed.

(** The year of a date from its day number. *)
Lemma dated_year y m d : valid_date y m d -> 365 * y + y / 4 - y / 100 + y / 400 - 366 <= esd_days_from_civil y m d + 719468 <= 365 * y + y / 4 - y / 100 + y / 400 + 367.
Proof.
  intros [Hm Hd]. rewrite days_closed by done. pose proof (month_length_bounds m y).
  assert (Hs : shift y m = y /\ 0 <= mshift m <= 9 \/ shift y m = y - 1 /\ 10 <= mshift m <= 11) by (unfold shift, mshift; case_bool; lia).
  unfold year_days. destruct Hs as [[-> Hs]|[-> Hs]]; zlia.
Qed.

Lemma dated_close y m d y' m' d' k : valid_date y m d -> valid_date y' m' d' ->
  esd_days_from_civil y' m' d' = esd_days_from_civil y m d + k -> -1 <= k <= 1 -> y - 4 <= y' <= y + 4.
Proof. intros H1 H2 E Hk. pose proof (dated_year _ _ _ H1). pose proof (dated_year _ _ _ H2). zlia. Qed.

Lemma apply_timezone_ok t off : valid_time t -> 4 <= year t <= 65000 -> -12 <= off <= 14 -> -100 <= tz_offset_hours t <= 100 ->
  let t' := rtc_apply_timezone t off in
  valid_time t' /\ shown t' = shown t + off * 3600 /\ tz_offset_hours t' = tz_offset_hours t + off /\ year t - 4 <= year t' <= year t + 4.
Proof.
  intros (Hv & Hh & Hmi & Hs) Hy Ho Hz. unfold rtc_apply_timezone. cbn [f_hour].
  set (s := mkFields (hour t + off) (day t) (month t) (year t)). set (turns := Z.to_nat _).
  assert (Ht : 24 * Z.of_nat turns >= Z.abs (hour t + off)) by (unfold turns; zlia).
  assert (Hd : dated s (esd_days_from_civil (year t) (month t) (day t) * 24 + (hour t + off))) by (split; done).
  destruct (carry_ups turns s _ Hd) as (Hd1 & Hlt & Hsame & Hpos); [cbn [s f_hour]; lia|].
  set (s1 := while_loop turns _ carry_up s) in *. assert (Hlow : - 24 * Z.of_nat turns <= f_hour s1).
  { destruct (Z.lt_ge_cases (f_hour s) 0) as [H0|H0]; [rewrite (Hsame ltac:(lia)); cbn [s f_hour]; lia|specialize (Hpos H0); lia]. }
  destruct (carry_downs turns s1 _ Hd1 Hlow Hlt) as [[Hv2 Hn] Hr]. set (s2 := while_loop turns _ carry_down s1) in *. clearbody s1 s2.
  pose proof (dated_close _ _ _ _ _ _ ((hour t + off - f_hour s2) / 24) Hv Hv2 ltac:(zlia) ltac:(zlia)) as Hyy.
  pose proof Hv2 as [Hm2 Hd2]. pose proof (month_length_bounds (f_month s2) (f_year s2)).
  replace (u16 (f_year s2)) with (f_year s2) by (unfold u16; symmetry; apply Z.mod_small; lia). rewrite !u8_small by lia.
  assert (E8 : s8 (tz_offset_hours t + off) = tz_offset_hours t + off) by (unfold s8; rewrite Z.mod_small; lia). rewrite E8.
  unfold valid_time, shown. cbn [year month day hour minute second tz_offset_hours]. split_and!; (done || lia).
Qed.

Lemma same_moment t t' hours : valid_time t -> valid_time t' -> 1971 <= year t -> tz_offset_hours t = 0 -> -12 <= hours <= 14 ->
  shown t' = shown t + hours * 3600 -> tz_offset_hours t' = tz_offset_hours t + hours -> esd_time_to_epoch t' = esd_time_to_epoch t.
Proof.
  intros Hv Hv' Hy Hz Ho Hs Hz'. assert (Hi : instant t' = instant t) by (unfold instant; lia).
  assert (H0 : 1970 <= year t').
  { apply (year_from_days _ _ _ (proj1 Hv')). pose proof (year_by_day _ _ _ (proj1 Hv) ltac:(lia)).
    unfold shown in Hs. destruct Hv as (_ & ? & ? & ?), Hv' as (_ & ? & ? & ?). lia. }
  rewrite (to_epoch_eq t' Hv' H0), (to_epoch_eq t Hv), Hi by lia. reflexivity.
Qed.

Lemma tz_range cur hours : fst (rtc_set_tz_offset cur hours) = E_OK -> -12 <= hours <= 14.
Proof. unfold rtc_set_tz_offset. destruct (Z.ltb_spec hours (-12)), (Z.ltb_spec 14 hours); (done || lia). Qed.

(** C35: Local time means the same moment.  Shifting a valid time by an offset that
    [rtc_set_tz_offset] accepts gives a valid date and time of day, across the
    ends of months and years and leap days, that shows exactly that many hours
    more; the offset is recorded, so the seconds since 1970 stay the same. *)
Theorem local_time_same_instant t rtc_tz_offset hours :
  valid_time t -> 1971 <= year t <= 2100 -> tz_offset_hours t = 0 -> fst (rtc_set_tz_offset rtc_tz_offset hours) = E_OK ->
  let t' := rtc_apply_timezone t hours in
  valid_time t' /\ shown t' = shown t + hours * 3600 /\ tz_offset_hours t' = hours /\
  esd_time_to_epoch t' = esd_time_to_epoch t.
Proof.
  intros Hv Hy Hz Hset. pose proof (tz_range _ _ Hset) as Ho.
  destruct (apply_timezone_ok t hours Hv ltac:(lia) Ho ltac:(lia)) as (Hv' & Hs & Hz' & Hy').
  split; [exact Hv'|]. split; [exact Hs|]. split; [rewrite Hz', Hz; apply Z.add_0_l|]. apply (same_moment t _ hours); (assumption || lia).
Qed.

Lemma local_time_same_instant_witness :
  rtc_apply_timezone (mkTime 2027 12 31 22 15 0 0) 3 = mkTime 2028 1 1 1 15 0 3 /\
  esd_time_to_epoch (rtc_apply_timezone (mkTime 2027 12 31 22 15 0 0) 3) = esd_time_to_epoch (mkTime 2027 12 31 22 15 0 0).
Proof.
  split; [reflexivity|]. apply (local_time_same_instant (mkTime 2027 12 31 22 15 0 0) 0 3); vm_compute; repeat split; discriminate.
Defined.

(** ** Setting and reading the chip *)

Lemma raw_equal_refl r : rtc_raw_equal r r = true.
Proof. unfold rtc_raw_equal. by rewrite !Z.eqb_refl. Qed.

Lemma raw_equal_eq a b : rtc_raw_equal a b = true -> a = b.
Proof. unfold rtc_raw_equal. rewrite !andb_true_iff, !Z.eqb_eq. destruct a, b. cbn. naive_solver. Qed.

Lemma upto (P : Z -> bool) n : forallb P (seqZ 0 n) = true -> forall v, 0 <= v < n -> P v = true.
Proof. intros H v Hv. rewrite forallb_forall in H. apply H, list_elem_of_In, elem_of_seqZ. lia. Qed.

Lemma bcd_roundtrip v : 0 <= v < 100 -> from_bcd (rtc_to_bcd v) = v.
Proof.
  intros Hv. apply Z.eqb_eq. revert v Hv. apply (upto (fun v => from_bcd (rtc_to_bcd v) =? v)). vm_compute. reflexivity.
Qed.

(** The hour as it is stored and read back, in the four modes of the chip. *)
Definition store_hour (twelve bcd : bool) (h : Z) : Z :=
  let hour := if twelve then u8 (Z.lor (if h mod 12 =? 0 then 12 else h mod 12) (if 12 <=? h then 0x80 else 0x00)) else h in
  if bcd then u8 (Z.lor (rtc_to_bcd (u8 (Z.land hour 0x7F))) (Z.land hour 0x80)) else hour.

Definition read_hour (twelve bcd : bool) (r : Z) : Z :=
  let hour := if bcd then Z.lor (Z.land r 0x0F + Z.land r 0x70 / 16 * 10) (Z.land r 0x80) else r in
  if twelve && negb (Z.land hour 0x80 =? 0) then (Z.land hour 0x7F + 12) mod 24 else hour.

(** What comes back for an hour: in 12-hour mode midnight and noon are swapped. *)
Definition hour_back (twelve : bool) (h : Z) : Z := if twelve && (h mod 12 =? 0) then (h + 12) mod 24 else h.

Lemma hour_roundtrip twelve bcd h : 0 <= h < 24 -> u8 (read_hour twelve bcd (store_hour twelve bcd h)) = hour_back twelve h.
Proof.
  intros Hh. apply Z.eqb_eq. revert h Hh. apply (upto (fun h => u8 (read_hour twelve bcd (store_hour twelve bcd h)) =? hour_back twelve h)).
  destruct twelve, bcd; vm_compute; reflexivity.
Qed.

(** The time a chip in the mode of [regB] reports for a valid UTC time. *)
Definition reported (regB : Z) (t : esd_time) : esd_time :=
  mkTime (year t) (month t) (day t) (hour_back (Z.land regB 0x02 =? 0) (hour t)) (minute t) (second t) 0.

Lemma reported_24 regB t : Z.land regB 0x02 <> 0 -> tz_offset_hours t = 0 -> reported regB t = t.
Proof.
  intros HB Hz. unfold reported, hour_back. destruct (Z.eqb_spec (Z.land regB 2) 0); [done|]. destruct t; cbn in *; congruence.
Qed.

(** ** Runs on the ports *)

Lemma io_bind_Some {A B} (m : io A) (k : A -> io B) a y a' tr :
  io_bind m k a = Some (y, a', tr) <-> exists x a1 tr1 tr2, m a = Some (x, a1, tr1) /\ k x a1 = Some (y, a', tr2) /\ tr = tr1 ++ tr2.
Proof.
  unfold io_bind. destruct (m a) as [[[x a1] tr1]|]; [|split; [done|by intros (? & ? & ? & ? & ? & _)]].
  destruct (k x a1) as [[[y1 a2] tr2]|] eqn:Ek.
  - split; [intros [= -> -> <-]; eauto 10|]. intros (x' & a1' & tr1' & tr2' & [= <- <- <-] & E & ->). rewrite Ek in E. by injection E as -> -> ->.
  - split; [done|]. intros (x' & a1' & tr1' & tr2' & [= <- <- <-] & E & ->). congruence.
Qed.

(** The registers written, and those read with what came back. *)
Fixpoint register_writes (tr : list port_event) : list (Z * Z) :=
  match tr with
  | [] => []
  | Outb p reg :: tr =>
      match tr with
      | Outb q v :: _ => if (p =? CMOS_ADDRESS) && (q =? CMOS_DATA) then [(reg, v)] else []
      | _ => []
      end ++ register_writes tr
  | _ :: tr => register_writes tr
  end.

Fixpoint register_reads (tr : list port_event) : list (Z * Z) :=
  match tr with
  | [] => []
  | Outb p reg :: tr =>
      match tr with
      | Inb q v :: _ => if (p =? CMOS_ADDRESS) && (q =? CMOS_DATA) then [(reg, v)] else []
      | _ => []
      end ++ register_reads tr
  | _ :: tr => register_reads tr
  end.

Lemma reads_app_r tr1 tr2 : register_reads tr2 ⊆ register_reads (tr1 ++ tr2).
Proof. induction tr1 as [|[p v|p v] tr1 IH]; [done| |exact IH]. cbn [app register_reads]. set_solver. Qed.

Lemma reads_app_l tr1 tr2 : register_reads tr1 ⊆ register_reads (tr1 ++ tr2).
Proof.
  induction tr1 as [|[p v|p v] tr1 IH]; [set_solver| |exact IH]. cbn [app register_reads]. destruct tr1 as [|[] tr1]; cbn [app] in *; set_solver.
Qed.

(** Answers to the polling: an update is under way while bit 7 is set. *)
Definition busy_then_idle (answers : list Z) : Prop :=
  exists busy idle, answers = busy ++ [idle] /\ Forall (fun v => Z.land v 0x80 <> 0) busy /\ Z.land idle 0x80 = 0.

Definition polled (answers : list Z) : list port_event := answers ≫= (fun v => [Outb CMOS_ADDRESS 0x0A; Inb CMOS_DATA v]).

Lemma polled_writes answers tr : register_writes (polled answers ++ tr) = register_writes tr.
Proof. induction answers as [|v answers IH]; [done|]. cbn. exact IH. Qed.

Lemma poll_ok busy idle rest : Forall (fun v => Z.land v 0x80 <> 0) busy -> Z.land idle 0x80 = 0 ->
  forall fuel, (length busy < fuel)%nat -> poll fuel (busy ++ idle :: rest) = Some (tt, rest, polled (busy ++ [idle])).
Proof.
  intros Hb Hi. induction Hb as [|v busy Hv _ IH]; intros fuel Hf; (destruct fuel as [|fuel]; [lia|]).
  - cbn. by rewrite Hi.
  - cbn. destruct (Z.eqb_spec (Z.land v 128) 0); [done|]. cbn. rewrite IH by (cbn in Hf; lia). done.
Qed.

Lemma wait_update_ok polls rest : busy_then_idle polls -> wait_update (polls ++ rest) = Some (tt, rest, polled polls).
Proof.
  intros (busy & idle & -> & Hb & Hi). unfold wait_update. rewrite <- app_assoc. cbn [app]. apply poll_ok; [done|done|].
  rewrite length_app. lia.
Qed.

(** What a reading is made of. *)
Definition raw_reads (r : rtc_raw) : list (Z * Z) :=
  [(0x00, r_second r); (0x02, r_minute r); (0x04, r_hour r); (0x07, r_day r); (0x08, r_month r); (0x09, r_year r); (0x0B, registerB r)].

Lemma get_register_inv reg a v a' tr : get_RTC_register reg a = Some (v, a', tr) -> tr = [Outb CMOS_ADDRESS reg; Inb CMOS_DATA v].
Proof. destruct a as [|w a]; cbn; [done|]. by intros [= -> -> <-]. Qed.

Lemma read_raw_inv a r a' tr : rtc_read_raw a = Some (r, a', tr) -> raw_reads r ⊆ register_reads tr.
Proof.
  unfold rtc_read_raw. rewrite io_bind_Some. intros ([] & a0 & tr0 & tr1 & _ & H & ->). etrans; [|apply reads_app_r]. clear tr0.
  repeat (apply io_bind_Some in H as (? & ? & ? & ? & E%get_register_inv & H & ->); subst). injection H as <- _ <-. done.
Qed.

Lemma settle_inv fuel : forall previous a r a' tr, settle fuel previous a = Some (r, a', tr) -> raw_reads r ⊆ register_reads tr.
Proof.
  induction fuel as [|fuel IH]; intros previous a r a' tr; [done|]. cbn [settle]. rewrite io_bind_Some.
  intros (c & a1 & tr1 & tr2 & H1 & H2 & ->). destruct (rtc_raw_equal c previous).
  - injection H2 as <- _ <-. rewrite app_nil_r. by apply read_raw_inv in H1.
  - apply IH in H2. etrans; [exact H2|]. apply reads_app_r.
Qed.

Lemma read_utc_inv a t a' tr : rtc_read_utc a = Some (t, a', tr) -> exists c, t = decode c /\ raw_reads c ⊆ register_reads tr.
Proof.
  unfold rtc_read_utc. rewrite io_bind_Some. intros (p & a1 & tr1 & tr2 & _ & H & ->).
  apply io_bind_Some in H as (c & a2 & tr3 & tr4 & Hs & H & ->). injection H as <- _ <-. exists c. split; [done|].
  apply settle_inv in Hs. rewrite app_nil_r. etrans; [exact Hs|]. apply reads_app_r.
Qed.

(** The answers that make up a reading. *)
Definition raw_answers (r : rtc_raw) : list Z := [r_second r; r_minute r; r_hour r; r_day r; r_month r; r_year r; registerB r].

Lemma read_raw_ok polls r rest : busy_then_idle polls -> exists tr, rtc_read_raw (polls ++ raw_answers r ++ rest) = Some (r, rest, tr).
Proof. intros Hp. unfold rtc_read_raw, io_bind. rewrite wait_update_ok by done. destruct r. cbn. eauto. Qed.

(** Two readings that agree are taken. *)
Lemma read_settled polls polls' r rest : busy_then_idle polls -> busy_then_idle polls' ->
  exists tr, rtc_read_utc (polls ++ raw_answers r ++ polls' ++ raw_answers r ++ rest) = Some (decode r, rest, tr).
Proof.
  intros Hp Hp'. destruct (read_raw_ok polls r (polls' ++ raw_answers r ++ rest) Hp) as (tr1 & E1).
  destruct (read_raw_ok polls' r rest Hp') as (tr2 & E2). unfold rtc_read_utc, io_bind. rewrite E1. cbn [settle]. unfold io_bind. rewrite E2.
  rewrite raw_equal_refl. cbn. eauto.
Qed.

(** Reads of the registers in [ws] answer with the values there. *)
Definition holding (ws : list (Z * Z)) (tr : list port_event) : Prop :=
  forall reg v w, (reg, w) ∈ ws -> (reg, v) ∈ register_reads tr -> v = w.

(** The registers a valid time goes to, in the mode of [regB]. *)
Definition stored (regB : Z) (t : esd_time) : rtc_raw :=
  let bcd := Z.land regB 0x04 =? 0 in
  let num v := if bcd then rtc_to_bcd v else v in
  mkRaw (num (second t)) (num (minute t)) (store_hour (Z.land regB 0x02 =? 0) bcd (hour t)) (num (day t)) (num (month t)) (num (year t - 2000)) regB.

Lemma decode_stored regB t : valid_time t -> 2000 <= year t <= 2099 -> decode (stored regB t) = reported regB t.
Proof.
  intros ((Hm & Hd) & Hh & Hmi & Hs) Hy. pose proof (month_length_bounds (month t) (year t)) as Hb. unfold decode, stored.
  cbn [r_second r_minute r_hour r_day r_month r_year registerB]. set (bcd := Z.land regB 4 =? 0). set (twelve := Z.land regB 2 =? 0).
  assert (Hnum : forall v, 0 <= v < 100 -> (if bcd then from_bcd (if bcd then rtc_to_bcd v else v) else if bcd then rtc_to_bcd v else v) = v)
    by (intros v Hv0; destruct bcd; [by apply bcd_roundtrip|done]).
  pose proof (hour_roundtrip twelve bcd (hour t) ltac:(lia)) as Hr. unfold reported. fold twelve.
  f_equal; first [exact Hr | rewrite Hnum by lia; first [by rewrite u8_small by lia | unfold u16; rewrite Z.mod_small; lia]].
Qed.

(** A valid time is written register by register with updates halted. *)
Lemma set_writes polls regB rest t : busy_then_idle polls -> valid_time t -> 2000 <= year t <= 2099 ->
  exists tr, rtc_set_utc (Some t) (polls ++ regB :: rest) = Some (E_OK, rest, tr) /\
    register_writes tr = (0x0B, u8 (Z.lor regB 0x80)) :: raw_reads (stored regB t).
Proof.
  intros Hp (Hv & Hh & Hmi & Hs) Hy. pose proof Hv as [Hm Hd]. unfold rtc_set_utc. rewrite days_in_month_eq by done.
  pose proof (month_length_bounds (month t) (year t)) as Hb.
  destruct ((year t <? 2000) || (2099 <? year t)) eqn:E1; [exfalso; repeat case_bool; lia|].
  destruct ((month t <? 1) || (12 <? month t)) eqn:E2; [exfalso; repeat case_bool; lia|].
  destruct ((day t <? 1) || (month_length (month t) (year t) <? day t)) eqn:E3; [exfalso; repeat case_bool; lia|].
  destruct ((23 <? hour t) || (59 <? minute t) || (59 <? second t)) eqn:E4; [exfalso; repeat case_bool; lia|].
  clear E1 E2 E3 E4. unfold io_bind at 1. rewrite wait_update_ok by done. eexists. split; [reflexivity|]. rewrite polled_writes.
  rewrite (u8_small (year t - 2000)) by lia. reflexivity.
Qed.

(** The fields are of unsigned types. *)
Definition unsigned (t : esd_time) : Prop := 0 <= hour t /\ 0 <= minute t /\ 0 <= second t.

Lemma set_refused t answers : unsigned t -> ~ (valid_time t /\ 2000 <= year t <= 2099) -> rtc_set_utc (Some t) answers = Some (E_INVAL, answers, []).
Proof.
  intros (Hh & Hmi & Hs) Hn. unfold rtc_set_utc. destruct (_ || _) eqn:E1; [done|]. destruct (_ || (12 <? month t)) eqn:E2; [done|].
  rewrite days_in_month_eq by (repeat case_bool; lia). destruct ((day t <? 1) || _) eqn:E3; [done|]. destruct (_ || (59 <? second t)) eqn:E4; [done|].
  exfalso. apply Hn. unfold valid_time, valid_date. repeat case_bool; lia.
Qed.

(** A reading of the registers as they were written is the stored time. *)
Lemma holding_raw c r tr : raw_reads c ⊆ register_reads tr -> holding (raw_reads r) tr -> c = r.
Proof.
  intros Hsub Hh. assert (H : forall k reg v w, raw_reads c !! k = Some (reg, v) -> raw_reads r !! k = Some (reg, w) -> v = w).
  { intros k reg v w E1%list_elem_of_lookup_2 E2%list_elem_of_lookup_2. by apply (Hh reg); [|apply Hsub]. }
  pose proof (fun k => H (Z.to_nat k)) as Hk. destruct c, r. f_equal;
    [apply (Hk 0 0x00)|apply (Hk 1 0x02)|apply (Hk 2 0x04)|apply (Hk 3 0x07)|apply (Hk 4 0x08)|apply (Hk 5 0x09)|apply (Hk 6 0x0B)]; reflexivity.
Qed.

(** The moments of a century. *)
Lemma year_window t : valid_time t -> 946684800 <= shown t <= 4102444799 -> 2000 <= year t <= 2099.
Proof.
  intros (Hv & Hh & Hm & Hs) Hw. unfold shown in Hw. pose proof Hv as [Hmm Hd]. pose proof (month_length_bounds (month t) (year t)).
  assert (Hd1 : 10957 <= esd_days_from_civil (year t) (month t) (day t) <= 47481) by lia. clear Hw. rewrite days_closed in Hd1 by done.
  unfold year_days, shift, mshift in Hd1. destruct (Z.leb_spec (month t) 2); split; zlia.
Qed.

(** C36: Setting the clock and reading it agree on how a time is stored.
    [rtc_set_utc] refuses exactly the times that are not a valid date and time of
    day in 2000 to 2099, and touches no port then.  For a valid time it waits out
    an update, raises the bit that halts updates, writes each of the six registers
    once and puts the mode register back as it was; and [rtc_read_utc] decodes
    exactly the values written, in whichever of the encodings is in force, to the
    time that was set: every run in which the chip answers with them gives it, and
    two readings of them are enough.  In 12-hour mode the hour comes back right
    except that midnight reads as noon and noon as midnight. *)
Theorem clock_encoding t answers :
  unsigned t -> tz_offset_hours t = 0 ->
  (~ (valid_time t /\ 2000 <= year t <= 2099) -> rtc_set_utc (Some t) answers = Some (E_INVAL, answers, [])) /\
  (valid_time t -> 2000 <= year t <= 2099 -> forall polls regB rest, busy_then_idle polls -> answers = polls ++ regB :: rest ->
     exists tr s mi h d mo y,
       let values := [s; mi; h; d; mo; y; regB] in
       let ws := zip [0x00; 0x02; 0x04; 0x07; 0x08; 0x09; 0x0B] values in
       let back := if (Z.land regB 0x02 =? 0) && (hour t mod 12 =? 0)
                   then mkTime (year t) (month t) (day t) ((hour t + 12) mod 24) (minute t) (second t) 0 else t in
       rtc_set_utc (Some t) answers = Some (E_OK, rest, tr) /\
       register_writes tr = (0x0B, u8 (Z.lor regB 0x80)) :: ws /\
       (forall a got a' tr', rtc_read_utc a = Some (got, a', tr') -> holding ws tr' -> got = back) /\
       (forall p1 p2 a', busy_then_idle p1 -> busy_then_idle p2 ->
          exists tr', rtc_read_utc (p1 ++ values ++ p2 ++ values ++ a') = Some (back, a', tr'))).
Proof.
  intros Hu Hz. split; [intros Hn; by apply set_refused|]. intros Hv Hy polls regB rest Hp ->.
  destruct (set_writes polls regB rest t Hp Hv Hy) as (tr & E & Hw). pose proof (decode_stored regB t Hv Hy) as Hd.
  set (r := stored regB t) in *. exists tr, (r_second r), (r_minute r), (r_hour r), (r_day r), (r_month r), (r_year r). cbv zeta.
  assert (Hback : reported regB t = if (Z.land regB 0x02 =? 0) && (hour t mod 12 =? 0)
    then mkTime (year t) (month t) (day t) ((hour t + 12) mod 24) (minute t) (second t) 0 else t).
  { unfold reported, hour_back. destruct (_ && _); [done|]. destruct t; cbn in *; congruence. }
  rewrite <- Hback, <- Hd. split_and!; [done|exact Hw| |].
  - intros a got a' tr' Hr Hh. apply read_utc_inv in Hr as (c & -> & Hc). f_equal. by apply (holding_raw c r tr').
  - intros p1 p2 a' H1 H2. exact (read_settled p1 p2 r a' H1 H2).
Qed.

(** A chip in decimal 24-hour mode, busy once before the write. *)
Lemma clock_encoding_witness :
  exists tr, rtc_set_utc (Some (mkTime 2026 11 16 9 45 30 0)) [0x80; 0x26; 0x02] = Some (E_OK, [], tr) /\
    register_writes tr = [(0x0B, 0x82); (0x00, 0x30); (0x02, 0x45); (0x04, 0x09); (0x07, 0x16); (0x08, 0x11); (0x09, 0x26); (0x0B, 0x02)] /\
    exists tr', rtc_read_utc ([0x26; 0x30; 0x45; 0x09; 0x16; 0x11; 0x26; 0x02] ++ [0x26; 0x30; 0x45; 0x09; 0x16; 0x11; 0x26; 0x02]) =
      Some (mkTime 2026 11 16 9 45 30 0, [], tr').
Proof.
  destruct (clock_encoding (mkTime 2026 11 16 9 45 30 0) [0x80; 0x26; 0x02] ltac:(vm_compute; repeat split; discriminate) eq_refl) as [_ H].
  destruct (H ltac:(vm_compute; repeat split; discriminate) ltac:(vm_compute; repeat split; discriminate) [0x80; 0x26] 0x02 []
    ltac:(exists [0x80], 0x26; repeat split; repeat constructor; discriminate) eq_refl) as (tr & s & mi & h & d & mo & y & E & Hw & _ & Hr).
  exists tr. split; [done|]. pose proof E as E'. vm_compute in E'. injection E' as <-. vm_compute in Hw. injection Hw as <- <- <- <- <- <-.
  split; [done|]. assert (Hi : busy_then_idle [0x26]) by (exists [], 0x26; repeat split; constructor). exact (Hr [0x26] [0x26] [] Hi Hi).
Defined.

(** The clock set in local time shows that local time.  When root sets a valid
    time carrying the offset in use, and the moment falls in 2000 to 2099, the call
    succeeds and, in 24-hour mode, a run of [sys_time] in which the chip answers
    with the registers as written gives the time that was set, whichever day it
    falls on in UTC; anyone else is refused and no port is touched. *)
Theorem settime_shows_local polls regB rest given rtc_tz_offset :
  busy_then_idle polls -> Z.land regB 0x02 <> 0 -> valid_time given ->
  tz_offset_hours given = rtc_tz_offset -> -12 <= rtc_tz_offset <= 14 ->
  instant (mkTime 2000 1 1 0 0 0 0) <= instant given <= instant (mkTime 2099 12 31 23 59 59 0) ->
  (exists tr ws, sys_settime (Some 0) (Some given) (polls ++ regB :: rest) = Some (E_OK, rest, tr) /\
     register_writes tr = (0x0B, u8 (Z.lor regB 0x80)) :: ws /\
     forall a got a' tr', sys_time rtc_tz_offset false true true a = Some (got, a', tr') -> holding ws tr' -> got = (E_OK, Some given)) /\
  (forall uid answers, uid <> 0 -> sys_settime (Some uid) (Some given) answers = Some (E_PERM, answers, [])).
Proof.
  intros Hp H24 Hv Hz Ho Hi. change (instant (mkTime 2000 1 1 0 0 0 0)) with 946684800 in Hi.
  change (instant (mkTime 2099 12 31 23 59 59 0)) with 4102444799 in Hi.
  split; [|intros uid answers Hu; unfold sys_settime; by destruct (Z.eqb_spec uid 0)].
  assert (Hy : 1970 <= year given).
  { apply (year_from_days _ _ _ (proj1 Hv)). unfold instant, shown in Hi. destruct Hv as (_ & ? & ? & ?). lia. }
  pose proof (to_epoch_eq given Hv Hy ltac:(lia)) as He. destruct (Z.ltb_spec (instant given) 0); [lia|]. rewrite u32_small in He by lia.
  destruct (from_epoch_valid (instant given) ltac:(split; lia)) as (Hv' & Hy' & Hs & Hz').
  set (utc := esd_time_from_epoch (instant given)) in *.
  assert (Hyy : 2000 <= year utc <= 2099) by (apply (year_window utc Hv'); lia).
  destruct (set_writes polls regB rest utc Hp Hv' Hyy) as (tr & E & Hw). exists tr, (raw_reads (stored regB utc)).
  unfold sys_settime. cbn [Z.eqb negb]. rewrite He. destruct (Z.eqb_spec (instant given) 0); [lia|]. fold utc. split_and!; [done|done|].
  intros a got a' tr' Hr Hh. apply io_bind_Some in Hr as (now & a1 & tr1 & tr2 & Hr & [= <- _ <-] & ->).
  apply io_bind_Some in Hr as (t & a2 & tr3 & tr4 & Hr & [= <- _ <-] & ->). apply read_utc_inv in Hr as (c & -> & Hc).
  rewrite !app_nil_r in Hh. rewrite (holding_raw c _ tr3 Hc Hh), (decode_stored regB utc Hv' Hyy), (reported_24 _ utc H24 Hz'). do 2 f_equal.
  destruct (apply_timezone_ok utc rtc_tz_offset Hv' ltac:(lia) Ho ltac:(lia)) as (Hv2 & Hs2 & Hz2 & _).
  apply shown_inj; [done|done|lia|]. rewrite Hs2, Hs. unfold instant. lia.
Qed.

(** A date that does not exist is not refused but moved on: the round trip through
    the epoch makes a date of it before [rtc_set_utc] looks. *)
Lemma settime_moves_impossible_dates :
  exists tr, sys_settime (Some 0) (Some (mkTime 2026 2 31 12 0 0 0)) [0; 0x06] = Some (E_OK, [], tr) /\
    register_writes tr = (0x0B, 0x86) :: raw_reads (stored 0x06 (mkTime 2026 3 3 12 0 0 0)).
Proof. eexists. split; [by vm_compute|done]. Qed.

(** Nor is one after the count of seconds ran out. *)
Lemma settime_wraps_far_dates :
  exists tr, sys_settime (Some 0) (Some (mkTime 2150 1 1 0 0 0 0)) [0; 0x06] = Some (E_OK, [], tr) /\
    register_writes tr = (0x0B, 0x86) :: raw_reads (stored 0x06 (mkTime 2013 11 24 17 31 44 0)).
Proof. eexists. split; [by vm_compute|done]. Qed.

(** ** The offset in /etc/timezone *)

Definition blank (c : Z) : bool := (c =? 32) || (c =? 9).

(** Text before the line that counts: empty lines and comments. *)
Inductive skipped : list Z -> Prop :=
| skipped_nil : skipped []
| skipped_empty bl c rest : Forall (fun x => blank x = true) bl -> c = 10 \/ c = 13 -> skipped rest -> skipped (bl ++ c :: rest)
| skipped_comment bl text rest : Forall (fun x => blank x = true) bl -> 10 ∉ text -> skipped rest ->
    skipped (bl ++ 35 :: text ++ 10 :: rest).

(** The number a run of digits stands for. *)
Definition number (ds : list Z) : Z := foldl (fun v c => v * 10 + (c - 48)) 0 ds.

Lemma aget_behind (pre rest : list Z) c : (pre ++ c :: rest).[alen pre] = c.
Proof. unfold aget, alen. rewrite Nat2Z.id, app_nth2, Nat.sub_diag by lia. done. Qed.

Lemma alen_cons (c : Z) l : alen (c :: l) = 1 + alen l.
Proof. unfold alen. cbn. lia. Qed.

Ltac alens :=
  rewrite ?alen_cons in *;
  repeat match goal with
  | _ : context [alen ?l] |- _ => lazymatch goal with _ : 0 <= alen l |- _ => fail | _ => pose proof (alen_nonneg l) end
  | |- context [alen ?l] => lazymatch goal with _ : 0 <= alen l |- _ => fail | _ => pose proof (alen_nonneg l) end
  end; change (alen (@nil Z)) with 0 in *.

Section Timezone.
(** The buffer holds the first [got] bytes of [content] and a zero. *)
Context (content raw : list Z) (got : Z).
Context (raw_agrees : forall i, 0 <= i < got -> raw.[i] = content.[i]) (raw_end : raw.[got] = 0).

Lemma raw_mid pre c rest : content = pre ++ c :: rest -> alen pre < got -> raw.[alen pre] = c.
Proof. intros E Hlt. rewrite raw_agrees by (pose proof (alen_nonneg pre); lia). rewrite E. apply aget_behind. Qed.

(** Scanning over [mid] ends behind it or at the end of the buffer. *)
Lemma scan_ok (go : Z -> bool) mid rest : forall pre n, content = pre ++ mid ++ rest -> Forall (fun c => go c = true) mid ->
  got <= Z.of_nat n + alen pre -> alen pre <= got ->
  (alen pre + alen mid < got -> exists c rest', rest = c :: rest' /\ go c = false) ->
  while_loop n (fun i => (i <? got) && go raw.[i]) (fun i => i + 1) (alen pre) = Z.min got (alen pre + alen mid).
Proof.
  induction mid as [|c mid IH]; intros pre n E Hm Hn Hp Hs; (destruct n as [|n]; [cbn [while_loop]; alens; lia|]); cbn [while_loop].
  - change (alen (@nil Z)) with 0 in *. destruct (Z.ltb_spec (alen pre) got) as [Hlt|]; cbn [andb]; [|lia].
    destruct (Hs ltac:(lia)) as (c & rest' & -> & Hc). rewrite (raw_mid pre c rest') by done. rewrite Hc. lia.
  - apply Forall_cons in Hm as [Hc Hm]. rewrite alen_cons in *. pose proof (alen_nonneg mid).
    destruct (Z.ltb_spec (alen pre) got) as [Hlt|]; cbn [andb]; [|lia]. rewrite (raw_mid pre c (mid ++ rest)), Hc by done.
    specialize (IH (pre ++ [c]) n). rewrite alen_app in IH. change (alen [c]) with 1 in IH. rewrite <- app_assoc in IH.
    rewrite IH; [lia|done|done|lia|lia|]. intros Hlt'. apply Hs. lia.
Qed.

Lemma skip_blanks_ok pre bl rest : content = pre ++ bl ++ rest -> Forall (fun x => blank x = true) bl -> alen pre <= got ->
  (alen pre + alen bl < got -> exists c rest', rest = c :: rest' /\ blank c = false) ->
  skip_blanks raw got (alen pre) = Z.min got (alen pre + alen bl).
Proof. intros E Hb Hp Hs. pose proof (alen_nonneg pre). apply (scan_ok blank bl rest); (done || lia). Qed.

(** Empty lines and comments are passed over, or the buffer ends among them. *)
Lemma first_line_skips lead : skipped lead -> forall pre rest fuel, content = pre ++ lead ++ rest ->
  got < Z.of_nat fuel + alen pre -> alen pre <= got ->
  got < alen (pre ++ lead) /\ got <= first_line fuel raw got (alen pre) \/
  exists fuel', first_line fuel raw got (alen pre) = first_line fuel' raw got (alen (pre ++ lead)) /\
    got < Z.of_nat fuel' + alen (pre ++ lead) /\ alen (pre ++ lead) <= got.
Proof.
  intros Hl. induction Hl as [|bl c rest0 Hb Hc _ IH|bl text rest0 Hb Ht _ IH]; intros pre rest fuel E Hf Hp.
  - right. exists fuel. by rewrite app_nil_r.
  - destruct fuel as [|fuel]; [lia|]. cbn [first_line]. destruct (Z.ltb_spec (alen pre) got) as [Hlt|]; [|left; rewrite !alen_app; alens; lia].
    rewrite <- app_assoc in E. cbn [app] in E.
    rewrite (skip_blanks_ok pre bl (c :: rest0 ++ rest)) by (first [done|intros _; exists c, (rest0 ++ rest); split; [done|by destruct Hc as [-> | ->]]]).
    destruct (Z.le_gt_cases got (alen pre + alen bl)) as [Hge|Hlt']; [rewrite Z.min_l by done; rewrite raw_end; left; rewrite !alen_app; alens; cbn; lia|].
    rewrite Z.min_r by lia. rewrite <- alen_app. rewrite (raw_mid (pre ++ bl) c (rest0 ++ rest)) by (rewrite <- ?app_assoc, ?alen_app; done).
    replace (c =? 35) with false by (by destruct Hc as [-> | ->]). replace ((c =? 10) || (c =? 13)) with true by (by destruct Hc as [-> | ->]).
    replace (alen (pre ++ bl) + 1) with (alen (pre ++ bl ++ [c])) by (rewrite !alen_app; change (alen [c]) with 1; lia).
    pose proof (alen_nonneg bl).
    specialize (IH (pre ++ bl ++ [c]) rest fuel). replace (pre ++ bl ++ c :: rest0) with ((pre ++ bl ++ [c]) ++ rest0) by (by rewrite <- !app_assoc).
    apply IH; [by rewrite E, <- !app_assoc|rewrite !alen_app in *; change (alen [c]) with 1; lia..].
  - destruct fuel as [|fuel]; [lia|]. cbn [first_line]. destruct (Z.ltb_spec (alen pre) got) as [Hlt|]; [|left; rewrite !alen_app; alens; lia].
    rewrite <- app_assoc in E. cbn [app] in E. rewrite <- app_assoc in E. cbn [app] in E.
    rewrite (skip_blanks_ok pre bl (35 :: text ++ 10 :: rest0 ++ rest)) by (first [done|intros _; by eexists _, _]).
    destruct (Z.le_gt_cases got (alen pre + alen bl)) as [Hge|Hlt']; [rewrite Z.min_l by done; rewrite raw_end; left; rewrite !alen_app; alens; cbn; lia|].
    rewrite Z.min_r by lia. rewrite <- alen_app. rewrite (raw_mid (pre ++ bl) 35 (text ++ 10 :: rest0 ++ rest)) by (rewrite <- ?app_assoc, ?alen_app; done).
    cbn [Z.eqb Pos.eqb]. pose proof (alen_nonneg bl). pose proof (alen_nonneg pre). pose proof (alen_nonneg text).
    assert (Hsl : skip_line raw got (alen (pre ++ bl)) = Z.min got (alen (pre ++ bl) + alen (35 :: text))).
    { apply (scan_ok (fun c => negb (c =? 10)) (35 :: text) (10 :: rest0 ++ rest)).
      - by rewrite E, <- app_assoc.
      - constructor; [done|]. apply Forall_forall. intros c Hc. destruct (Z.eqb_spec c 10) as [-> |]; done.
      - rewrite alen_app. lia.
      - rewrite alen_app. lia.
      - intros _. by eexists _, _. }
    rewrite Hsl, alen_cons. destruct (Z.le_gt_cases got (alen (pre ++ bl) + (1 + alen text))) as [Hge|Hlt2].
    + rewrite Z.min_l by done. left. split; [rewrite !alen_app in *; alens; rewrite alen_app; alens; lia|]. destruct fuel as [|fuel]; cbn [first_line]; [lia|]. destruct (Z.ltb_spec (got + 1) got); lia.
    + rewrite Z.min_r by lia. specialize (IH (pre ++ bl ++ 35 :: text ++ [10]) rest fuel).
      replace (alen (pre ++ bl) + (1 + alen text) + 1) with (alen (pre ++ bl ++ 35 :: text ++ [10])) by (rewrite !alen_app, alen_cons, alen_app; change (alen [10]) with 1; lia).
      replace (pre ++ bl ++ 35 :: text ++ 10 :: rest0) with ((pre ++ bl ++ 35 :: text ++ [10]) ++ rest0) by (by rewrite <- !app_assoc; cbn; rewrite <- app_assoc).
      apply IH; [rewrite E; by rewrite <- !app_assoc; cbn; rewrite <- app_assoc|rewrite !alen_app, alen_cons, alen_app in *; change (alen [10]) with 1 in *; lia..].
Qed.

Lemma read_hours_ok ds tail : Forall (fun c => is_digit c = true) ds -> forall pre fuel v, content = pre ++ ds ++ tail ->
  alen pre + alen ds <= got -> (alen pre + alen ds < got -> exists c tail', tail = c :: tail' /\ is_digit c = false) ->
  alen ds < Z.of_nat fuel -> 0 <= v <= 99 ->
  let n := foldl (fun v c => v * 10 + (c - 48)) v ds in
  v <= n /\ (n <= 99 -> read_hours fuel raw got (alen pre) v = n) /\ (99 < n -> 99 < read_hours fuel raw got (alen pre) v).
Proof.
  intros Hd. induction Hd as [|c ds Hc Hd IH]; intros pre fuel v E Hg Hs Hf Hv; (destruct fuel as [|fuel]; [alens; lia|]); cbn [foldl read_hours].
  - change (alen (@nil Z)) with 0 in *. split_and!; [lia| |lia]. intros _. destruct (Z.ltb_spec (alen pre) got) as [Hlt|]; [|done].
    destruct (Hs ltac:(lia)) as (c & tail' & -> & Hc). rewrite (raw_mid pre c tail') by done. by rewrite Hc.
  - rewrite alen_cons in *. pose proof (alen_nonneg ds). destruct (Z.ltb_spec (alen pre) got); [|lia].
    rewrite (raw_mid pre c (ds ++ tail)), Hc by done. cbn [andb]. assert (48 <= c <= 57) by (unfold is_digit in Hc; repeat case_bool; lia).
    specialize (IH (pre ++ [c]) fuel). rewrite alen_app in IH. change (alen [c]) with 1 in IH. rewrite <- app_assoc in IH.
    destruct (Z.ltb_spec 99 (v * 10 + (c - 48))) as [Hbig|Hsmall].
    + assert (Hmono : forall l w, Forall (fun c => is_digit c = true) l -> 0 <= w -> w <= foldl (fun v c => v * 10 + (c - 48)) w l).
      { intros l w Hl. revert w. induction Hl as [|x l Hx _ IHl]; intros w Hw; cbn [foldl]; [lia|].
        assert (48 <= x <= 57) by (unfold is_digit in Hx; repeat case_bool; lia). specialize (IHl (w * 10 + (x - 48)) ltac:(lia)). lia. }
      specialize (Hmono ds (v * 10 + (c - 48)) Hd ltac:(lia)). split_and!; lia.
    + specialize (IH (v * 10 + (c - 48)) E ltac:(lia)). destruct IH as (I1 & I2 & I3); [intros; apply Hs; lia|lia|lia|]. split_and!; [lia|done|done].
Qed.

End Timezone.

(** The comment the kernel itself puts at the head of the file: its first two lines,
    "Hours this machine is ahead of UTC, applied to the RTC." and "An offset and
    not a zone name: there is no timezone database". *)
Definition timezone_header : list Z :=
  [35; 32; 72; 111; 117; 114; 115; 32; 116; 104; 105; 115; 32; 109; 97; 99; 104; 105; 110; 101;
   32; 105; 115; 32; 97; 104; 101; 97; 100; 32; 111; 102; 32; 85; 84; 67; 44; 32; 97; 112;
   112; 108; 105; 101; 100; 32; 116; 111; 32; 116; 104; 101; 32; 82; 84; 67; 46; 10; 35; 32;
   65; 110; 32; 111; 102; 102; 115; 101; 116; 32; 97; 110; 100; 32; 110; 111; 116; 32; 97; 32;
   122; 111; 110; 101; 32; 110; 97; 109; 101; 58; 32; 116; 104; 101; 114; 101; 32; 105; 115; 32;
   110; 111; 32; 116; 105; 109; 101; 122; 111; 110; 101; 32; 100; 97; 116; 97; 98; 97; 115; 101;
   10].

(** The buffer [load_timezone] fills. *)
Lemma buffer_agrees content got : 0 < got <= alen content ->
  (forall i, 0 <= i < got -> (take (Z.to_nat got) content ++ [0]).[i] = content.[i]) /\ (take (Z.to_nat got) content ++ [0]).[got] = 0.
Proof.
  intros Hg. pose proof (alen_take content got ltac:(lia)) as Hl. split.
  - intros i Hi. rewrite <- (aget_take content got i) by done. unfold aget. apply app_nth1. unfold alen in Hl. lia.
  - replace got with (alen (take (Z.to_nat got) content)) at 2 by done. apply (aget_behind _ []).
Qed.

(** The line that counts starts behind what is skipped. *)
Lemma first_line_found content raw got lead bl c rest :
  (forall i, 0 <= i < got -> raw.[i] = content.[i]) -> raw.[got] = 0 -> skipped lead -> Forall (fun x => blank x = true) bl ->
  content = lead ++ bl ++ c :: rest -> alen lead + alen bl < got -> blank c = false -> c <> 35 -> c <> 10 -> c <> 13 ->
  first_line (Z.to_nat (got + 1)) raw got 0 = alen lead + alen bl.
Proof.
  intros Hag Hend Hl Hb E Hlt Hc H35 H10 H13. pose proof (alen_nonneg lead). pose proof (alen_nonneg bl).
  assert (Hhere : forall fuel, got < Z.of_nat fuel + alen lead -> first_line fuel raw got (alen lead) = alen lead + alen bl).
  { intros fuel Hf. destruct fuel as [|fuel]; [lia|]. cbn [first_line]. destruct (Z.ltb_spec (alen lead) got); [|lia].
    rewrite (skip_blanks_ok content raw got Hag lead bl (c :: rest)) by (first [done|lia|by eexists _, _]). rewrite Z.min_r by lia.
    rewrite <- alen_app, (raw_mid content raw got Hag (lead ++ bl) c rest) by (rewrite <- ?app_assoc, ?alen_app; done).
    destruct (Z.eqb_spec c 35), (Z.eqb_spec c 10), (Z.eqb_spec c 13); done. }
  change (first_line (Z.to_nat (got + 1)) raw got 0) with (first_line (Z.to_nat (got + 1)) raw got (alen (@nil Z))).
  destruct (first_line_skips content raw got Hag Hend lead Hl [] (bl ++ c :: rest) (Z.to_nat (got + 1)) E) as [[Hge _]|(fuel' & -> & Hf & _)];
    [change (alen (@nil Z)) with 0; lia..|cbn [app] in Hge; lia|by apply Hhere].
Qed.

(** The number at [pre], once the line and the sign are past. *)
Lemma number_applied content raw got cur pre d ds tail sign : (forall i, 0 <= i < got -> raw.[i] = content.[i]) ->
  content = pre ++ (d :: ds) ++ tail -> Forall (fun c => is_digit c = true) (d :: ds) -> alen pre + alen (d :: ds) <= got ->
  (alen pre + alen (d :: ds) < got -> exists c tail', tail = c :: tail' /\ is_digit c = false) -> sign = 1 \/ sign = -1 ->
  (if (got <=? alen pre) || negb (is_digit raw.[alen pre]) then cur
   else snd (rtc_set_tz_offset cur (sign * read_hours (Z.to_nat (got + 1)) raw got (alen pre) 0))) =
  if bool_decide (-12 <= sign * number (d :: ds) <= 14) then sign * number (d :: ds) else cur.
Proof.
  intros Hag E Hds Hg Hend Hs. pose proof (alen_nonneg pre). pose proof (alen_nonneg ds).
  destruct (read_hours_ok content raw got Hag (d :: ds) tail Hds pre (Z.to_nat (got + 1)) 0 E Hg Hend ltac:(lia) ltac:(lia)) as (Hn & H1 & H2).
  fold (number (d :: ds)) in Hn, H1, H2. rewrite alen_cons in Hg. destruct (Z.leb_spec got (alen pre)); [lia|].
  rewrite (raw_mid content raw got Hag pre d (ds ++ tail)) by (done || lia). apply Forall_cons in Hds as [Hd _]. rewrite Hd. cbn [orb negb].
  set (h := read_hours _ _ _ _ _) in *. unfold rtc_set_tz_offset. case_bool_decide as Hr.
  - rewrite H1 by (destruct Hs as [-> | ->]; lia). destruct (_ || _) eqn:Eb; [repeat case_bool; lia|done].
  - destruct (_ || _) eqn:Eb; [done|]. destruct (Z.le_gt_cases (number (d :: ds)) 99) as [Hle|Hgt].
    + rewrite (H1 Hle) in *. repeat case_bool; lia.
    + specialize (H2 ltac:(lia)). destruct Hs as [-> | ->]; repeat case_bool; lia.
Qed.

Definition signed (sg ds : list Z) : Z := if bool_decide (sg = [45]) then - number ds else number ds.

(** An optional sign and a number start a line that counts. *)
Lemma offset_head sg d ds tail : sg ∈ [[]; [43]; [45]] -> is_digit d = true ->
  exists c rest, sg ++ (d :: ds) ++ tail = c :: rest /\ blank c = false /\ c <> 35 /\ c <> 10 /\ c <> 13.
Proof.
  intros Hsg Hd. rewrite !elem_of_cons, elem_of_nil in Hsg. destruct Hsg as [-> |[-> |[-> |[]]]]; [|by eexists _, _..].
  unfold is_digit in Hd. eexists _, _. split; [reflexivity|]. unfold blank. repeat case_bool; lia.
Qed.

(** The sign and the number at [pre]. *)
Lemma sign_applied content raw got cur pre sg d ds tail : (forall i, 0 <= i < got -> raw.[i] = content.[i]) ->
  content = pre ++ sg ++ (d :: ds) ++ tail -> sg ∈ [[]; [43]; [45]] -> Forall (fun c => is_digit c = true) (d :: ds) ->
  alen pre + alen sg + alen (d :: ds) <= got ->
  (alen pre + alen sg + alen (d :: ds) < got -> exists c tail', tail = c :: tail' /\ is_digit c = false) ->
  (let '(sign, i) := if raw.[alen pre] =? 43 then (1, alen pre + 1) else if raw.[alen pre] =? 45 then (-1, alen pre + 1) else (1, alen pre) in
   if (got <=? i) || negb (is_digit raw.[i]) then cur
   else snd (rtc_set_tz_offset cur (sign * read_hours (Z.to_nat (got + 1)) raw got i 0))) =
  if bool_decide (-12 <= signed sg (d :: ds) <= 14) then signed sg (d :: ds) else cur.
Proof.
  intros Hag E Hsg Hds Hg Hend. pose proof (alen_nonneg ds). assert (Hd : is_digit d = true) by (by apply Forall_cons in Hds as [Hd _]).
  rewrite alen_cons in *. rewrite !elem_of_cons, elem_of_nil in Hsg. destruct Hsg as [-> |[-> |[-> |[]]]].
  - change (alen (@nil Z)) with 0 in *. rewrite (raw_mid content raw got Hag pre d (ds ++ tail)) by (done || lia).
    unfold is_digit in Hd. destruct (Z.eqb_spec d 43); [repeat case_bool; lia|]. destruct (Z.eqb_spec d 45); [repeat case_bool; lia|].
    rewrite (number_applied content raw got cur pre d ds tail 1 Hag E Hds); [by rewrite Z.mul_1_l|rewrite alen_cons; lia| |by left].
    rewrite alen_cons. intros; apply Hend; lia.
  - change (alen [43]) with 1 in *. rewrite (raw_mid content raw got Hag pre 43 ((d :: ds) ++ tail)) by (done || lia). cbn [Z.eqb Pos.eqb].
    replace (alen pre + 1) with (alen (pre ++ [43])) in * by (by rewrite alen_app).
    rewrite (number_applied content raw got cur (pre ++ [43]) d ds tail 1 Hag); [by rewrite Z.mul_1_l|by rewrite <- app_assoc|done|rewrite alen_cons; lia| |by left].
    rewrite alen_cons. intros; apply Hend; lia.
  - change (alen [45]) with 1 in *. rewrite (raw_mid content raw got Hag pre 45 ((d :: ds) ++ tail)) by (done || lia). cbn [Z.eqb Pos.eqb].
    replace (alen pre + 1) with (alen (pre ++ [45])) in * by (by rewrite alen_app).
    rewrite (number_applied content raw got cur (pre ++ [45]) d ds tail (-1) Hag); [|by rewrite <- app_assoc|done|rewrite alen_cons; lia| |by right].
    + replace (signed [45] (d :: ds)) with (-1 * number (d :: ds)) by (unfold signed; rewrite bool_decide_eq_true_2 by done; lia). done.
    + rewrite alen_cons. intros; apply Hend; lia.
Qed.

(** C37: The offset in /etc/timezone is read from its first line that counts.
    [load_timezone] passes over empty lines and comments, takes an optional sign
    and the number after it, and sets the clock's offset to that when it is from
    -12 to 14; otherwise the offset stays as it is.  This needs the number to end
    within the first 63 bytes: when blanks and comments fill those, as they do in
    the file the kernel writes itself, whatever follows is never reached and the
    offset stays. *)
Theorem timezone_file_read cur lead bl : skipped lead -> Forall (fun x => blank x = true) bl ->
  (forall sg ds tail, sg ∈ [[]; [43]; [45]] -> ds <> [] -> Forall (fun c => is_digit c = true) ds ->
     (forall c tail', tail = c :: tail' -> is_digit c = false) -> alen (lead ++ bl ++ sg ++ ds) <= 63 ->
     load_timezone cur (Some (lead ++ bl ++ sg ++ ds ++ tail)) =
       if bool_decide (-12 <= signed sg ds <= 14) then signed sg ds else cur) /\
  (forall rest, 63 <= alen (lead ++ bl) -> load_timezone cur (Some (lead ++ bl ++ rest)) = cur).
Proof.
  intros Hl Hb. split.
  - intros sg ds tail Hsg Hne Hds Htail Hfit. destruct ds as [|d ds]; [done|]. set (content := lead ++ bl ++ sg ++ (d :: ds) ++ tail). unfold load_timezone.
    set (got := Z.min 63 (alen content)). assert (Hlen : alen content = alen (lead ++ bl ++ sg ++ d :: ds) + alen tail)
      by (subst content; rewrite !alen_app; lia).
    pose proof (alen_pos (d :: ds) Hne). pose proof (alen_nonneg tail). pose proof (alen_nonneg lead). pose proof (alen_nonneg bl). pose proof (alen_nonneg sg).
    assert (Hgot : alen lead + alen bl + alen sg + alen (d :: ds) <= got /\ got <= alen content) by (subst got; rewrite !alen_app in *; lia).
    destruct (Z.leb_spec got 0); [lia|]. destruct (buffer_agrees content got ltac:(lia)) as [Hag Hend].
    set (raw := take (Z.to_nat got) content ++ [0]) in *. clearbody raw.
    destruct (offset_head sg d ds tail Hsg ltac:(by apply Forall_cons in Hds as [Hd _])) as (c & rest & Ec & Hc).
    assert (Econ : content = lead ++ bl ++ c :: rest) by (by rewrite <- Ec).
    rewrite (first_line_found content raw got lead bl c rest) by (done || lia || apply Hc). rewrite <- alen_app.
    destruct (Z.leb_spec got (alen (lead ++ bl))); [rewrite alen_app in *; lia|].
    apply (sign_applied content raw got cur (lead ++ bl) sg d ds tail Hag); try done; [by rewrite <- app_assoc|rewrite alen_app; lia|rewrite alen_app].
    intros Hlt. destruct tail as [|c' tail]; [|exists c', tail; split; [done|by eapply Htail]].
    subst got. rewrite !alen_app in *. change (alen (@nil Z)) with 0 in *. lia.
  - intros rest Hlong. set (content := lead ++ bl ++ rest). unfold load_timezone.
    assert (Hlen : 63 <= alen content) by (subst content; rewrite !alen_app in *; pose proof (alen_nonneg rest); lia).
    rewrite Z.min_l by done. change (63 <=? 0) with false. destruct (buffer_agrees content 63 ltac:(lia)) as [Hag Hend].
    set (raw := take (Z.to_nat 63) content ++ [0]) in *. clearbody raw.
    assert (H63 : 63 <= first_line (Z.to_nat (63 + 1)) raw 63 0).
    { change 0 with (alen (@nil Z)) at 1.
      destruct (first_line_skips content raw 63 Hag Hend lead Hl [] (bl ++ rest) (Z.to_nat (63 + 1)) eq_refl) as [[_ Hge]|(fuel & -> & Hf & Hle)];
        [by vm_compute|by vm_compute|done|]. cbn [app] in *. destruct fuel as [|fuel]; [lia|]. cbn [first_line].
      destruct (Z.ltb_spec (alen lead) 63); [|lia]. rewrite (skip_blanks_ok content raw 63 Hag lead bl rest) by (first [done|rewrite alen_app in Hlong; lia]).
      rewrite alen_app in Hlong. rewrite Z.min_l by lia. by rewrite Hend. }
    by destruct (Z.leb_spec 63 (first_line (Z.to_nat (63 + 1)) raw 63 0)); [|lia].
Qed.

(** "# here" and an empty line before " -5"; and the file as the kernel writes it. *)
Lemma timezone_file_read_witness :
  load_timezone 3 (Some ([35; 32; 104; 101; 114; 101; 10; 10] ++ [32] ++ [45] ++ [53] ++ [10])) = -5 /\
  load_timezone 3 (Some (timezone_header ++ [] ++ [53; 10])) = 3.
Proof.
  assert (Hnil : Forall (fun x => blank x = true) []) by apply Forall_nil_2.
  assert (Hsp : Forall (fun x => blank x = true) [32]) by (by apply Forall_singleton). split.
  - assert (Hl : skipped [35; 32; 104; 101; 114; 101; 10; 10]).
    { apply (skipped_comment [] [32; 104; 101; 114; 101] [10]); [done|set_solver|]. apply (skipped_empty [] 10 []); [done|by left|apply skipped_nil]. }
    apply (proj1 (timezone_file_read 3 _ [32] Hl Hsp) [45] [53] [10]); [set_solver|done|by apply Forall_singleton|by intros c t [= <- _]|by vm_compute].
  - assert (Hl : skipped timezone_header).
    { apply (skipped_comment [] (take 56 (drop 1 timezone_header)) (drop 58 timezone_header)); [done|by apply (bool_decide_eq_true_1 _); vm_compute|].
      apply (skipped_comment [] (take 61 (drop 59 timezone_header)) []); [done|by apply (bool_decide_eq_true_1 _); vm_compute|apply skipped_nil]. }
    by apply (proj2 (timezone_file_read 3 _ [] Hl Hnil) [53; 10]).
Defined.

(** ** date *)

Lemma is_digit_ok d : 0 <= d <= 9 -> is_digit (48 + d) = true.
Proof. intros H. unfold is_digit. repeat case_bool; lia. Qed.

Lemma print_padded_step v n : 0 <= v -> print_padded v (Datatypes.S n) = print_padded (v / 10) n ++ [48 + v mod 10].
Proof. intros Hv. cbn [print_padded]. by rewrite Z.quot_div_nonneg, Z.rem_mod_nonneg by lia. Qed.

Lemma print_padded_two v : 0 <= v < 100 -> print_padded v 2 = [48 + v / 10; 48 + v mod 10].
Proof. intros Hv. rewrite !print_padded_step by zlia. cbn [print_padded app]. by rewrite (Z.mod_small (v / 10)) by zlia. Qed.

Lemma print_padded_four v : 0 <= v < 10000 ->
  print_padded v 4 = [48 + v / 1000; 48 + v / 100 mod 10; 48 + v / 10 mod 10; 48 + v mod 10].
Proof.
  intros Hv. rewrite !print_padded_step by zlia. rewrite !Z.div_div by lia. cbn [print_padded app Z.mul Pos.mul Pos.add].
  by rewrite (Z.mod_small (v / 1000)) by zlia.
Qed.

(** A time as [date -s] takes it. *)
Definition datetime_text (t : esd_time) : list Z :=
  print_padded (year t) 4 ++ [45] ++ print_padded (month t) 2 ++ [45] ++ print_padded (day t) 2 ++ [32] ++
  print_padded (hour t) 2 ++ [58] ++ print_padded (minute t) 2 ++ [58] ++ print_padded (second t) 2.

Lemma read_digits_step n s i v d : s.[i] = 48 + d -> 0 <= d <= 9 -> read_digits (Datatypes.S n) s i v = read_digits n s (i + 1) (v * 10 + d).
Proof. intros E Hd. cbn [read_digits]. rewrite E, is_digit_ok by done. f_equal. lia. Qed.

Lemma read_fields_step s i w sep v j rest : read_digits w s i 0 = Some (v, j) -> sep = 0 \/ s.[j] = sep ->
  read_fields ((w, sep) :: rest) s i =
  match read_fields rest s (if negb (sep =? 0) then j + 1 else j) with None => None | Some (vs, i) => Some (v :: vs, i) end.
Proof. intros E Hs. cbn [read_fields]. rewrite E. destruct Hs as [-> | ->]; [done|]. by rewrite Z.eqb_refl, andb_false_r. Qed.

Lemma datetime_parses t : valid_time t -> 0 <= year t < 10000 -> tz_offset_hours t = 0 -> parse_datetime (datetime_text t) = Some t.
Proof.
  intros ((Hm & Hd) & Hh & Hmi & Hs) Hy Hz. pose proof (month_length_bounds (month t) (year t)). unfold datetime_text.
  rewrite print_padded_four, !print_padded_two by lia. unfold parse_datetime, datetime_shape. cbn [app].
  repeat (erewrite read_fields_step; [|repeat (erewrite read_digits_step; [|reflexivity|zlia]); reflexivity|first [right; reflexivity|left; reflexivity]]).
  assert (H2 : forall v, 0 <= v -> (0 * 10 + v / 10) * 10 + v mod 10 = v) by (intros; zlia).
  assert (H4 : (((0 * 10 + year t / 1000) * 10 + year t / 100 mod 10) * 10 + year t / 10 mod 10) * 10 + year t mod 10 = year t) by zlia.
  cbn [read_fields]. rewrite !H2, H4 by lia. match goal with |- (if ?c then _ else _) = _ => replace c with false by reflexivity end.
  cbv [aget Z.to_nat Pos.to_nat Pos.iter_op Nat.add nth]. rewrite !u8_small by lia. unfold u16. rewrite Z.mod_small by lia.
  destruct t; cbn in *; congruence.
Qed.

(** An offset of two digits is shown by its last digit only. *)
Lemma offset_shown_short : print_padded 12 1 = [50].
Proof. done. Qed.

End Rtc.
