(* ===== verification/Paging.v ===== *)
(** * Virtual memory (mm/paging.c, and the calls of sys_mem.c and process.c on it)

    Physical memory as words, the two-level tables in it, and the processor's walk
    through them.  The kernel reaches the tables through the recursive slot of the
    directory, as the code does: every access goes through [translate].

    Words are of 32 bits; the copying of a page byte by byte is the copying of its
    1024 words.  The processor's cache of translations is not modelled: the code
    drops an entry from it with every change. *)

From S2P Require Import Prelude Pmm.

Module Paging.
Import Pmm.

(** ** The machine *)

(** The frames in use, the words of physical memory by word address, and the
    directory in CR3. *)
Record machine := mkMachine { phys : pmm; ram : gmap Z Z; cr3 : Z }.

Definition with_phys (s : machine) (p : pmm) : machine := mkMachine p (ram s) (cr3 s).
Definition with_cr3 (s : machine) (c : Z) : machine := mkMachine (phys s) (ram s) c.
Definition load (s : machine) (a : Z) : Z := default 0 (ram s !! a).
Definition store (s : machine) (a x : Z) : machine := mkMachine (phys s) (<[a := x]> (ram s)) (cr3 s).

(** The walk of the processor: the two entries and the word address. *)
Definition translate (s : machine) (v : Z) : option (Z * Z * Z) :=
  let pde := load s (cr3 s / 4 + Z.shiftr v 22) in
  if Z.land pde 1 =? 0 then None
  else
    let pte := load s (Z.land pde 0xFFFFF000 / 4 + Z.land (Z.shiftr v 12) 0x3FF) in
    if Z.land pte 1 =? 0 then None
    else Some (pde, pte, Z.land pte 0xFFFFF000 / 4 + Z.land v 0xFFF / 4).

(** Accesses of the kernel. *)
Definition kread (s : machine) (v : Z) : Z :=
  match translate s v with Some (_, _, a) => load s a | None => 0 end.
Definition kwrite (s : machine) (v x : Z) : machine :=
  match translate s v with Some (_, _, a) => store s a x | None => s end.

Definition RECURSIVE_PD_VADDR : Z := 0xFFFFF000.
Definition RECURSIVE_PT_VADDR : Z := 0xFFC00000.
Definition USER_STACK_TOP : Z := 0xB0000000.
Definition USER_STACK_PAGES : Z := 32.
Definition USER_STACK_GUARD : Z := USER_STACK_TOP - (USER_STACK_PAGES + 1) * PAGE_SIZE.
Definition USER_MMAP_TOP : Z := USER_STACK_GUARD.
Definition USER_MMAP_FLOOR : Z := 0xA0000000.
Definition TEMP_MAP_VADDR : Z := 0xE0000000.
Definition DEVICE_WINDOW_BASE : Z := 0xE5000000.
Definition DEVICE_WINDOW_END : Z := 0xF0000000.
Definition PAGE_KERNEL_ONLY : Z := 3.
Definition PAGE_USER_ACCESS : Z := 7.
Definition PAGE_NOT_PRESENT : Z := 2.
Definition PAGE_COW : Z := 0x200.
Definition PAGE_KERNEL_MMIO : Z := 0x1B.

(** [pd_virt[i]] and [pt_virt[j]] of the table with index [i]. *)
Definition pd_at (i : Z) : Z := RECURSIVE_PD_VADDR + 4 * i.
Definition pt_at (i j : Z) : Z := RECURSIVE_PT_VADDR + i * PAGE_SIZE + 4 * j.

Definition present (e : Z) : bool := negb (Z.land e 1 =? 0).
Definition frame_addr (e : Z) : Z := Z.land e 0xFFFFF000.

(** ** The kernel's directory

    Written through the mappings that boot.asm leaves: the first 16 MB of physical
    memory at address 0 and at 0xC0000000, and the 4 MB pages of the screen.
    [None] is a panic or a page fault. *)

Definition FB_WINDOW_BASE : Z := 0xE1000000.
Definition FB_WINDOW_END : Z := 0xE5000000.
Definition PDE_SPAN : Z := 0x400000.

(** The entry of the screen's 4 MB pages in the directory of boot.asm (earlyfb.c);
    [early_fb_base] is 0 without a screen. *)
Definition early_fb_pde (early_fb_base : Z) (boot_page_directory : Z -> Z) (pde_index : Z) : Z :=
  if early_fb_base =? 0 then 0
  else if 1024 <=? pde_index then 0
  else if (pde_index <? FB_WINDOW_BASE / PDE_SPAN) || (FB_WINDOW_END / PDE_SPAN <=? pde_index) then 0
  else
    let entry := boot_page_directory pde_index in
    if (Z.land entry 1 =? 0) || (Z.land entry 0x80 =? 0) then 0 else entry.

Definition init_entry (i j : Z) : Z :=
  if i <? 4 then
    let phys_addr := i * 0x400000 + j * PAGE_SIZE in
    if phys_addr =? 0 then PAGE_NOT_PRESENT else Z.lor phys_addr PAGE_KERNEL_ONLY
  else PAGE_NOT_PRESENT.

(** The word of physical memory an address reaches in the directory of boot.asm. *)
Definition boot_address (fb_pde : Z -> Z) (v : Z) : option Z :=
  if v <? 0x1000000 then Some (v / 4)
  else if (0xC0000000 <=? v) && (v <? 0xC1000000) then Some ((v - 0xC0000000) / 4)
  else
    let entry := fb_pde (Z.shiftr v 22) in
    if entry =? 0 then None else Some ((Z.land entry 0xFFC00000 + Z.land v 0x3FFFFF) / 4).

(** [virt[i] = x], for a [virt] of [base + 0xC0000000]. *)
Definition boot_store (fb_pde : Z -> Z) (base i x : Z) (st : option machine) : option machine :=
  match st with
  | None => None
  | Some s => option_map (fun a => store s a x) (boot_address fb_pde (u32 (u32 (base + 0xC0000000) + 4 * i)))
  end.

Definition init_kernel_table (fb_pde : Z -> Z) (pd_phys : Z) (st : option machine) (i : Z) : option machine :=
  match st with
  | None => None
  | Some s =>
      if negb (fb_pde (768 + i) =? 0) then boot_store fb_pde pd_phys (768 + i) (fb_pde (768 + i)) (Some s)
      else
        let '(pt_phys, p) := pmm_alloc_frame (phys s) in
        if pt_phys =? 0xFFFFFFFF then None
        else
          let st := for_range 0 1024 (fun st j => boot_store fb_pde pt_phys j (init_entry i j) st) (Some (with_phys s p)) in
          boot_store fb_pde pd_phys (768 + i) (Z.lor pt_phys PAGE_KERNEL_ONLY) st
  end.

Definition init_paging (s : machine) (fb_pde : Z -> Z) : option machine :=
  let '(pd_phys, p) := pmm_alloc_frame (phys s) in
  if pd_phys =? 0xFFFFFFFF then None
  else
    let st := for_range 0 1024 (fun st i => boot_store fb_pde pd_phys i PAGE_NOT_PRESENT st) (Some (with_phys s p)) in
    let st := for_range 0 (1023 - 768) (init_kernel_table fb_pde pd_phys) st in
    let st := boot_store fb_pde pd_phys 1023 (Z.lor pd_phys PAGE_KERNEL_ONLY) st in
    option_map (fun s => with_cr3 s pd_phys) st.

(** ** Mapping *)

(** The table a page goes into: a new one, or the old one opened to user pages. *)
Definition ensure_table (s : machine) (pd_index flags : Z) : Z * machine :=
  let pde := kread s (pd_at pd_index) in
  if negb (present pde) then
    let '(new_table_phys, p) := pmm_alloc_frame (phys s) in
    let s := with_phys s p in
    if new_table_phys =? 0xFFFFFFFF then (E_NOMEM, s)
    else
      let pde_flags := if negb (Z.land flags 4 =? 0) then PAGE_USER_ACCESS else PAGE_KERNEL_ONLY in
      let s := kwrite s (pd_at pd_index) (Z.lor new_table_phys pde_flags) in
      (E_OK, for_range 0 1024 (fun s i => kwrite s (pt_at pd_index i) 0) s)
  else if negb (Z.land flags 4 =? 0) && (Z.land pde 4 =? 0) then (E_OK, kwrite s (pd_at pd_index) (Z.lor pde 4))
  else (E_OK, s).

Definition map_page (s : machine) (virtual_addr physical_addr flags : Z) : Z * machine :=
  let pd_index := Z.shiftr virtual_addr 22 in
  let pt_index := Z.land (Z.shiftr virtual_addr 12) 0x3FF in
  let '(r, s) := ensure_table s pd_index flags in
  if negb (r =? E_OK) then (r, s)
  else
    let pte := kread s (pt_at pd_index pt_index) in
    if present pte && negb (frame_addr pte =? frame_addr physical_addr) then (E_BUSY, s)
    else (E_OK, kwrite s (pt_at pd_index pt_index) (Z.lor (frame_addr physical_addr) (Z.land flags 0xFFF))).

Definition unmap_page (s : machine) (virtual_addr : Z) : machine :=
  let pd_index := Z.shiftr virtual_addr 22 in
  let pt_index := Z.land (Z.shiftr virtual_addr 12) 0x3FF in
  if present (kread s (pd_at pd_index)) then kwrite s (pt_at pd_index pt_index) 0 else s.

(** The next free address of the device window is threaded through. *)
Definition vmm_map_device (s : machine) (device_window_next phys0 size : Z) : Z * machine * Z :=
  if size =? 0 then (0, s, device_window_next)
  else
    let page_offset := Z.land phys0 0xFFF in
    let phys_base := Z.land phys0 0xFFFFF000 in
    let bytes := Z.land (u32 (page_offset + size + 0xFFF)) 0xFFFFF000 in
    if bytes <? size then (0, s, device_window_next)
    else if (DEVICE_WINDOW_END <? u32 (device_window_next + bytes)) || (u32 (device_window_next + bytes) <? device_window_next)
    then (0, s, device_window_next)
    else
      let vaddr := device_window_next in
      let '(ok, s, _) :=
        for_range 0 (bytes / PAGE_SIZE)
          (fun st i => let '(ok, s, n) := st in
             if negb ok then st
             else
               let '(r, s) := map_page s (u32 (vaddr + i * PAGE_SIZE)) (u32 (phys_base + i * PAGE_SIZE)) PAGE_KERNEL_MMIO in
               if negb (r =? E_OK) then (false, for_range 0 i (fun s k => unmap_page s (u32 (vaddr + k * PAGE_SIZE))) s, n)
               else (true, s, n + 1))
          (true, s, 0) in
      if negb ok then (0, s, device_window_next)
      else (u32 (vaddr + page_offset), s, u32 (vaddr + bytes)).

(** ** Address spaces *)

(** What an entry of the new directory becomes. *)
Definition clone_entry (s : machine) (new_pd_phys i : Z) : Z :=
  if (768 <=? i) && (i <? 1023) then Z.lor (Z.land (kread s (pd_at i)) (not32 4)) PAGE_KERNEL_ONLY
  else if i =? 1023 then Z.lor new_pd_phys PAGE_KERNEL_ONLY
  else PAGE_NOT_PRESENT.

(** The address of the new directory, 0 on failure. *)
Definition clone_page_directory (s : machine) : Z * machine :=
  let '(new_pd_phys, p) := pmm_alloc_frame (phys s) in
  let s := with_phys s p in
  if new_pd_phys =? 0xFFFFFFFF then (0, s)
  else
    let '(res, s) := map_page s TEMP_MAP_VADDR new_pd_phys PAGE_KERNEL_ONLY in
    if negb (res =? 0) then (0, with_phys s (pmm_free_frame (phys s) new_pd_phys))
    else
      let s := for_range 0 1024 (fun s i => kwrite s (TEMP_MAP_VADDR + 4 * i) (clone_entry s new_pd_phys i)) s in
      (new_pd_phys, unmap_page s TEMP_MAP_VADDR).

Record copied_page := mkPage { cp_vaddr : Z; cp_frame : Z; cp_flags : Z }.

(** Two nested loops over the present entries below the kernel. *)
Definition for_user_pages {St} (dir : St -> machine) (f : St -> Z -> Z -> St) (st : St) : St :=
  for_range 0 768
    (fun st pde =>
       if negb (present (kread (dir st) (pd_at pde))) then st
       else for_range 0 1024 (fun st pte => if negb (present (kread (dir st) (pt_at pde pte))) then st else f st pde pte) st) st.

Definition count_user_pages (s : machine) : Z :=
  snd (for_user_pages fst (fun st _ _ => (fst st, u32 (snd st + 1))) (s, 0)).

(** One page of the first pass: a second owner, and no more writing. *)
Definition share_page (page_count : Z) (st : machine * list copied_page) (pde pte : Z) : machine * list copied_page :=
  let '(s, pages) := st in
  if page_count <=? alen pages then st
  else
    let vaddr := Z.lor (Z.shiftl pde 22) (Z.shiftl pte 12) in
    let e := kread s (pt_at pde pte) in
    let frame := frame_addr e in
    let flags := Z.land e 0xFFF in
    let s := with_phys s (pmm_ref_frame (phys s) frame) in
    let '(s, flags) :=
      if negb (Z.land flags 2 =? 0) then
        let flags := Z.lor (Z.land flags (not32 2)) PAGE_COW in (kwrite s (pt_at pde pte) (Z.lor frame flags), flags)
      else (s, flags) in
    (s, pages ++ [mkPage vaddr frame flags]).

(** The second pass: the records, until one cannot be mapped; what is left. *)
Fixpoint install_pages (s : machine) (pages : list copied_page) : machine * list copied_page :=
  match pages with
  | [] => (s, [])
  | p :: rest =>
      let '(r, s) := map_page s (cp_vaddr p) (cp_frame p) (cp_flags p) in
      if negb (r =? E_OK) then (s, p :: rest) else install_pages s rest
  end.

(** [listed] is whether the kernel heap has room for the list of pages. *)
Definition copy_user_space (s : machine) (dst_pd : Z) (listed : bool) : Z * machine :=
  if dst_pd =? 0 then (E_INVAL, s)
  else
    let page_count := count_user_pages s in
    if page_count =? 0 then (E_OK, s)
    else if negb listed then (E_NOMEM, s)
    else
      let '(s, pages) := for_user_pages fst (share_page page_count) (s, []) in
      let parent_pd := cr3 s in
      let '(s, missed) := install_pages (with_cr3 s dst_pd) pages in
      let s := with_cr3 s parent_pd in
      let result := if bool_decide (missed = []) then E_OK else E_NOMEM in
      (result, with_phys s (foldl (fun p c => pmm_free_frame p (cp_frame c)) (phys s) missed)).

(** The bounds of user memory (kernel/core/uaccess.c). *)
Definition user_range_is_valid (start n : Z) : bool :=
  if n =? 0 then true
  else if (start <? 0x400000) || (0xC0000000 <=? start) then false
  else negb (0xBFFFFFFF - start <? n - 1).

(** The write fault: 1 when the page may be written now, 0 when it was not
    shared, -1 when it could not be split. *)
Definition cow_handle_fault (s : machine) (faulting_addr : Z) : Z * machine :=
  if (faulting_addr <? 0x400000) || (0xC0000000 <=? faulting_addr) then (0, s)
  else
    let pd_index := Z.shiftr faulting_addr 22 in
    let pt_index := Z.land (Z.shiftr faulting_addr 12) 0x3FF in
    if negb (present (kread s (pd_at pd_index))) then (0, s)
    else
      let entry := kread s (pt_at pd_index pt_index) in
      if negb (present entry) then (0, s)
      else if Z.land entry PAGE_COW =? 0 then (0, s)
      else
        let page := Z.land faulting_addr 0xFFFFF000 in
        let frame := frame_addr entry in
        let flags := Z.lor (Z.land (Z.land entry 0xFFF) (not32 PAGE_COW)) 2 in
        if pmm_frame_refcount (phys s) frame <=? 1 then (1, kwrite s (pt_at pd_index pt_index) (Z.lor frame flags))
        else
          let '(fresh, p) := pmm_alloc_frame (phys s) in
          let s := with_phys s p in
          if fresh =? 0xFFFFFFFF then (-1, s)
          else
            let '(r, s) := map_page s TEMP_MAP_VADDR fresh PAGE_KERNEL_ONLY in
            let '(copied, s) :=
              if negb (r =? E_OK) then (E_NOMEM, s)
              else if negb (user_range_is_valid page PAGE_SIZE) then (E_FAULT, unmap_page s TEMP_MAP_VADDR)
              else (E_OK, unmap_page (for_range 0 1024 (fun s i => kwrite s (TEMP_MAP_VADDR + 4 * i) (kread s (page + 4 * i))) s) TEMP_MAP_VADDR) in
            if negb (copied =? E_OK) then (-1, with_phys s (pmm_free_frame (phys s) fresh))
            else
              let s := kwrite s (pt_at pd_index pt_index) (Z.lor fresh flags) in
              (1, with_phys s (pmm_free_frame (phys s) frame)).

(** The pages of one table of the directory in use. *)
Definition release_pages (s : machine) (i : Z) : machine :=
  for_range 0 1024
    (fun s j => let e := kread s (pt_at i j) in
       if present e then with_phys s (pmm_free_frame (phys s) (frame_addr e)) else s) s.

(** The user half of the directory in use: pages, then the table, then the entry. *)
Definition release_table (s : machine) (i : Z) : machine :=
  if negb (present (kread s (pd_at i))) then s
  else
    let s := release_pages s i in
    let s := with_phys s (pmm_free_frame (phys s) (frame_addr (kread s (pd_at i)))) in
    kwrite s (pd_at i) 0.

Definition release_tables (s : machine) : machine := for_range 0 768 release_table s.

(** [page_directory] is the kernel's own directory. *)
Definition cleanup_process_memory (s : machine) (page_directory page_directory_phys : Z) : machine :=
  let curr_pd := Z.land (cr3 s) 0xFFFFF000 in
  let pd := Z.land page_directory_phys 0xFFFFF000 in
  if pd =? 0 then s
  else if pd =? curr_pd then s
  else if pd =? Z.land page_directory 0xFFFFF000 then s
  else
    let s := with_cr3 (release_tables (with_cr3 s pd)) curr_pd in
    with_phys s (pmm_free_frame (phys s) pd).

(** The part of fork that makes the child's address space, once a task slot is
    free; [child_pid] is what [create_process] answers. *)
Definition fork_memory (s : machine) (page_directory : Z) (listed : bool) (child_pid : Z) : Z * Z * machine :=
  let '(child_pd, s) := clone_page_directory s in
  if child_pd =? 0 then (E_NOMEM, 0, s)
  else
    let '(copy_result, s) := copy_user_space s child_pd listed in
    if negb (copy_result =? E_OK) then (copy_result, 0, cleanup_process_memory s page_directory child_pd)
    else if child_pid <? 0 then (child_pid, 0, cleanup_process_memory s page_directory child_pd)
    else (child_pid, child_pd, s).

(** ** What a program sees *)

(** An access of a user program: both entries must allow it. *)
Definition user_access (s : machine) (v : Z) (write : bool) : option Z :=
  match translate s v with
  | None => None
  | Some (pde, pte, a) =>
      let need := if write then 6 else 4 in
      if (Z.land (Z.land pde pte) need =? need) then Some a else None
  end.

Definition user_read (s : machine) (v : Z) : option Z := option_map (load s) (user_access s v false).

(** A write that faults is tried again when [page_fault_handler] has split the
    page; otherwise the task dies. *)
Definition user_write (s : machine) (v x : Z) : bool * machine :=
  match user_access s v true with
  | Some a => (true, store s a x)
  | None =>
      match translate s v with
      | None => (false, s)
      | Some _ =>
          let '(r, s) := cow_handle_fault s v in
          if r =? 1 then
            match user_access s v true with
            | Some a => (true, store s a x)
            | None => (false, s)
            end
          else (false, s)
      end
  end.

(** ** Memory on request (kernel/syscall/sys_mem.c) *)

Definition page_is_free (s : machine) (page : Z) : bool :=
  let pde := Z.shiftr page 22 in
  if negb (present (kread s (pd_at pde))) then true
  else negb (present (kread s (pt_at pde (Z.land (Z.shiftr page 12) 0x3FF)))).

Definition map_zeroed_page (s : machine) (page : Z) : Z * machine :=
  let '(frame, p) := pmm_alloc_frame (phys s) in
  let s := with_phys s p in
  if frame =? 0xFFFFFFFF then (E_NOMEM, s)
  else
    let '(r, s) := map_page s page frame PAGE_USER_ACCESS in
    if negb (r =? E_OK) then (E_NOMEM, with_phys s (pmm_free_frame (phys s) frame))
    else if negb (user_range_is_valid page PAGE_SIZE) then (E_FAULT, unmap_page (with_phys s (pmm_free_frame (phys s) frame)) page)
    else (E_OK, for_range 0 1024 (fun s i => kwrite s (page + 4 * i) 0) s).

(** One turn of the loop of [release_user_range]. *)
Definition release_user_page (s : machine) (page : Z) : machine :=
  let pde := Z.shiftr page 22 in
  if negb (present (kread s (pd_at pde))) then s
  else
    let e := kread s (pt_at pde (Z.land (Z.shiftr page 12) 0x3FF)) in
    let s := if present e then with_phys s (pmm_free_frame (phys s) (frame_addr e)) else s in
    unmap_page s page.

Definition release_user_range (s : machine) (from to : Z) : machine :=
  for_range 0 ((to - from + PAGE_SIZE - 1) / PAGE_SIZE) (fun s k => release_user_page s (from + k * PAGE_SIZE)) s.

(** Pages from [page] until [target] or until one cannot be had: where it
    stopped. *)
Fixpoint map_pages (fuel : nat) (s : machine) (page target : Z) : machine * Z :=
  match fuel with
  | O => (s, page)
  | Datatypes.S fuel =>
      if page <? target then
        let '(r, s) := map_zeroed_page s page in
        if negb (r =? E_OK) then (s, page) else map_pages fuel s (page + PAGE_SIZE) target
      else (s, page)
  end.

Definition span_pages (page target : Z) : nat := Z.to_nat ((target - page) / PAGE_SIZE + 1).

(** The answer and the new break. *)
Definition sys_brk (s : machine) (brk_start brk_current ebx : Z) : Z * machine * Z :=
  if brk_start =? 0 then (0, s, brk_current)
  else
    let target := Z.land (u32 (ebx + PAGE_SIZE - 1)) 0xFFFFF000 in
    if (ebx <? brk_start) || (target <? brk_start) || (USER_MMAP_FLOOR <? target) then (brk_current, s, brk_current)
    else if target =? brk_current then (brk_current, s, brk_current)
    else if target <? brk_current then (target, release_user_range s target brk_current, target)
    else
      let '(s, page) := map_pages (span_pages brk_current target) s brk_current target in
      if page <? target then (brk_current, release_user_range s brk_current page, brk_current)
      else (target, s, target).

(** The first page of a run that is not free. *)
Fixpoint free_run (n : nat) (s : machine) (base pages p : Z) : Z :=
  match n with
  | O => p
  | Datatypes.S n => if (p <? pages) && page_is_free s (u32 (base + p * PAGE_SIZE)) then free_run n s base pages (p + 1) else p
  end.

Fixpoint find_run (fuel : nat) (s : machine) (pages top : Z) : Z :=
  match fuel with
  | O => 0
  | Datatypes.S fuel =>
      let span := u32 (pages * PAGE_SIZE) in
      if u32 (USER_MMAP_FLOOR + span) <=? top then
        let base := u32 (top - span) in
        let p := free_run (Z.to_nat pages) s base pages 0 in
        if p =? pages then base else find_run fuel s pages (u32 (base + p * PAGE_SIZE))
      else 0
  end.

(** Every turn goes down by a page at least, for a number of pages that fits the
    region. *)
Definition find_free_run (s : machine) (pages : Z) : Z :=
  find_run (Z.to_nat ((USER_MMAP_TOP - USER_MMAP_FLOOR) / PAGE_SIZE + 1)) s pages USER_MMAP_TOP.

Definition sys_mmap (s : machine) (length reserved : Z) : Z * machine :=
  if length =? 0 then (0xFFFFFFFF, s)
  else if negb (reserved =? 0) then (0xFFFFFFFF, s)
  else if USER_MMAP_TOP - USER_MMAP_FLOOR <? length then (0xFFFFFFFF, s)
  else
    let pages := (length + PAGE_SIZE - 1) / PAGE_SIZE in
    let base := find_free_run s pages in
    if base =? 0 then (0xFFFFFFFF, s)
    else
      let end_ := base + pages * PAGE_SIZE in
      let '(s, page) := map_pages (span_pages base end_) s base end_ in
      if page <? end_ then (0xFFFFFFFF, release_user_range s base page) else (base, s).

Definition sys_munmap (s : machine) (addr length : Z) : Z * machine :=
  if (length =? 0) || negb (Z.land addr 0xFFF =? 0) then (E_INVAL, s)
  else
    let span := Z.land (u32 (length + PAGE_SIZE - 1)) 0xFFFFF000 in
    let end_ := u32 (addr + span) in
    if end_ <=? addr then (E_INVAL, s)
    else if (addr <? USER_MMAP_FLOOR) || (USER_MMAP_TOP <? end_) then (E_INVAL, s)
    else (E_OK, release_user_range s addr end_).

End Paging.
