(* ===== verification/PagingInv.v ===== *)
(** * What the page tables stand for

    The tables in memory are tied to a ghost state: which frame serves as what, which
    tables every directory has and which pages they map. *)

From S2P Require Import Prelude Pmm Paging.

Module PagingInv.
Import Pmm Paging.

(** ** Entries *)

Lemma frame_addr_eq e : is_u32 e -> frame_addr e = e / 4096 * 4096.
Proof. intros He. unfold frame_addr. change 0xFFFFF000 with (not32 (Z.ones 12)). by rewrite land_not_ones. Qed.

Lemma testbit_above fl i n : 0 <= fl < 2 ^ n -> 0 <= n <= i -> Z.testbit fl i = false.
Proof.
  intros Hfl Hi. rewrite <- (Z.mod_small fl (2 ^ n)) by done. apply Z.mod_pow2_bits_high. lia.
Qed.

(** An entry is a frame and twelve bits of flags. *)
Lemma testbit_entry f fl i : 0 <= fl < 4096 -> 0 <= i -> Z.testbit (f * 4096 + fl) i = if i <? 12 then Z.testbit fl i else Z.testbit f (i - 12).
Proof.
  intros Hfl Hi. destruct (Z.ltb_spec i 12).
  - rewrite <- (Z.mod_pow2_bits_low (f * 4096 + fl) 12 i) by lia. f_equal. change (2 ^ 12) with 4096. zlia.
  - replace i with (i - 12 + 12) at 1 by lia. rewrite <- Z.div_pow2_bits by lia. f_equal. change (2 ^ 12) with 4096. zlia.
Qed.

Lemma lor_flags f fl : 0 <= fl < 4096 -> Z.lor (f * 4096) fl = f * 4096 + fl.
Proof.
  intros Hfl. apply Z.bits_inj'. intros i Hi. rewrite Z.lor_spec, testbit_entry by lia.
  pose proof (testbit_entry f 0 i ltac:(lia) Hi) as H0. rewrite Z.add_0_r, Z.bits_0 in H0. rewrite H0.
  destruct (Z.ltb_spec i 12); [done|]. rewrite (testbit_above fl i 12) by lia. apply orb_false_r.
Qed.

Lemma present_testbit e : present e = Z.testbit e 0.
Proof. unfold present. change 1 with (bit32 0). by rewrite bit32_test, negb_involutive. Qed.

Lemma entry_split e : e = e / 4096 * 4096 + e mod 4096.
Proof. zlia. Qed.

Lemma land_flags e : Z.land e 0xFFF = e mod 4096.
Proof. change 0xFFF with (Z.ones 12). by rewrite Z.land_ones. Qed.

Lemma present_entry f fl : 0 <= fl < 4096 -> present (f * 4096 + fl) = Z.testbit fl 0.
Proof. intros Hfl. by rewrite present_testbit, testbit_entry by lia. Qed.

Lemma frame_of_entry f fl : 0 <= fl < 4096 -> (f * 4096 + fl) / 4096 = f.
Proof. intros. zlia. Qed.

(** ** The walk *)

Definition words_ok (s : machine) : Prop := forall a, is_u32 (load s a).

Lemma load_store s a x b : load (store s a x) b = if b =? a then x else load s b.
Proof.
  unfold load, store. cbn. destruct (Z.eqb_spec b a) as [->|Hne]; [by rewrite lookup_insert_eq|by rewrite lookup_insert_ne].
Qed.

Lemma words_store s a x : words_ok s -> is_u32 x -> words_ok (store s a x).
Proof. intros Hw Hx b. rewrite load_store. by case_match. Qed.

Lemma translate_eq s d v : words_ok s -> cr3 s = d * 4096 -> 0 <= v ->
  translate s v =
    let pde := load s (d * 1024 + v / 4194304) in
    if present pde then
      let pte := load s (pde / 4096 * 1024 + v / 4096 mod 1024) in
      if present pte then Some (pde, pte, pte / 4096 * 1024 + v mod 4096 / 4) else None
    else None.
Proof.
  intros Hw Hc Hv. unfold translate, present. rewrite Hc, !Z.shiftr_div_pow2, land_flags by lia. change (2 ^ 22) with 4194304. change (2 ^ 12) with 4096.
  change 0x3FF with (Z.ones 10). rewrite Z.land_ones by lia. change (2 ^ 10) with 1024.
  replace (d * 4096 / 4) with (d * 1024) by zlia. set (pde := load s _). cbv zeta.
  fold (frame_addr pde). rewrite (frame_addr_eq pde) by apply Hw. replace (pde / 4096 * 4096 / 4) with (pde / 4096 * 1024) by zlia.
  set (pte := load s _). fold (frame_addr pte). rewrite (frame_addr_eq pte) by apply Hw.
  replace (pte / 4096 * 4096 / 4) with (pte / 4096 * 1024) by zlia. by repeat case_bool.
Qed.

(** The recursive slot of the directory in use. *)
Record recursive (s : machine) (d : Z) : Prop := {
  rc_cr3 : cr3 s = d * 4096;
  rc_slot : load s (d * 1024 + 1023) = d * 4096 + 3;
  rc_words : words_ok s
}.

Lemma slot_present d : present (d * 4096 + 3) = true.
Proof. by rewrite present_entry by lia. Qed.

Lemma translate_pd s d i : recursive s d -> 0 <= i < 1024 ->
  translate s (pd_at i) = Some (d * 4096 + 3, d * 4096 + 3, d * 1024 + i).
Proof.
  intros [Hc Hs Hw] Hi. rewrite (translate_eq s d) by (done || (unfold pd_at, RECURSIVE_PD_VADDR; lia)). unfold pd_at, RECURSIVE_PD_VADDR.
  replace ((0xFFFFF000 + 4 * i) / 4194304) with 1023 by zlia. cbv zeta. rewrite Hs, slot_present, frame_of_entry by lia.
  replace ((0xFFFFF000 + 4 * i) / 4096 mod 1024) with 1023 by zlia. rewrite Hs, slot_present, frame_of_entry by lia.
  replace ((0xFFFFF000 + 4 * i) mod 4096 / 4) with i by zlia. done.
Qed.

Lemma kread_pd s d i : recursive s d -> 0 <= i < 1024 -> kread s (pd_at i) = load s (d * 1024 + i).
Proof. intros H Hi. unfold kread. by rewrite (translate_pd s d i H Hi). Qed.
Lemma kwrite_pd s d i x : recursive s d -> 0 <= i < 1024 -> kwrite s (pd_at i) x = store s (d * 1024 + i) x.
Proof. intros H Hi. unfold kwrite. by rewrite (translate_pd s d i H Hi). Qed.

Lemma translate_pt s d i j : recursive s d -> 0 <= i < 1024 -> 0 <= j < 1024 ->
  let e := load s (d * 1024 + i) in
  translate s (pt_at i j) = if present e then Some (d * 4096 + 3, e, e / 4096 * 1024 + j) else None.
Proof.
  intros [Hc Hs Hw] Hi Hj. rewrite (translate_eq s d) by (done || (unfold pt_at, RECURSIVE_PT_VADDR, PAGE_SIZE; lia)).
  unfold pt_at, RECURSIVE_PT_VADDR, PAGE_SIZE.
  replace ((0xFFC00000 + i * 4096 + 4 * j) / 4194304) with 1023 by zlia. cbv zeta. rewrite Hs, slot_present, frame_of_entry by lia.
  replace ((0xFFC00000 + i * 4096 + 4 * j) / 4096 mod 1024) with i by zlia.
  replace ((0xFFC00000 + i * 4096 + 4 * j) mod 4096 / 4) with j by zlia. done.
Qed.

Lemma kread_pt s d i j t : recursive s d -> 0 <= i < 1024 -> 0 <= j < 1024 ->
  present (load s (d * 1024 + i)) = true -> load s (d * 1024 + i) / 4096 = t -> kread s (pt_at i j) = load s (t * 1024 + j).
Proof. intros H Hi Hj Hp <-. unfold kread. by rewrite (translate_pt s d i j H Hi Hj), Hp. Qed.
Lemma kwrite_pt s d i j t x : recursive s d -> 0 <= i < 1024 -> 0 <= j < 1024 ->
  present (load s (d * 1024 + i)) = true -> load s (d * 1024 + i) / 4096 = t -> kwrite s (pt_at i j) x = store s (t * 1024 + j) x.
Proof. intros H Hi Hj Hp <-. unfold kwrite. by rewrite (translate_pt s d i j H Hi Hj), Hp. Qed.

(** ** The ghost state *)

(** What a frame serves as; [Kern] stands for the tables of the kernel half. *)
Inductive use := Dir | Tab (d i : Z) | Data | Kern.

(** The page tables by directory and index, the entries of the pages by directory
    and page number, the use of every frame, and the frame of the table the
    temporary mapping is in. *)
Record vm := mkVm { tabs : gmap (Z * Z) Z; maps : gmap (Z * Z) Z; role : gmap Z use; temp : Z }.

Definition USER_PAGES : Z := 768 * 1024.

(** The tables in memory are those of the ghost state. *)
Record tables (s : machine) (g : vm) : Prop := {
  tb_words : words_ok s;
  tb_range : forall f u, role g !! f = Some u -> 0 <= f < 2 ^ 20;
  tb_role : forall t d i, role g !! t = Some (Tab d i) -> tabs g !! (d, i) = Some t;
  tb_tab : forall d i t, tabs g !! (d, i) = Some t ->
    role g !! t = Some (Tab d i) /\ role g !! d = Some Dir /\ 0 <= i < 768 /\
    present (load s (d * 1024 + i)) = true /\ load s (d * 1024 + i) / 4096 = t /\ Z.testbit (load s (d * 1024 + i)) 1 = true;
  tb_notab : forall d i, role g !! d = Some Dir -> 0 <= i < 768 -> tabs g !! (d, i) = None ->
    present (load s (d * 1024 + i)) = false;
  tb_map : forall d i t j, tabs g !! (d, i) = Some t -> 0 <= j < 1024 ->
    maps g !! (d, i * 1024 + j) = (if present (load s (t * 1024 + j)) then Some (load s (t * 1024 + j)) else None);
  tb_dom : forall d v e, maps g !! (d, v) = Some e -> is_Some (tabs g !! (d, v / 1024));
  tb_data : forall k e, maps g !! k = Some e -> role g !! (e / 4096) = Some Data;
  tb_user : forall d v e, maps g !! (d, v) = Some e -> Z.testbit e 2 = true -> Z.testbit (load s (d * 1024 + v / 1024)) 2 = true;
  tb_rec : forall d, role g !! d = Some Dir -> load s (d * 1024 + 1023) = d * 4096 + 3;
  tb_temp : forall d, role g !! d = Some Dir -> present (load s (d * 1024 + 896)) = true /\ load s (d * 1024 + 896) / 4096 = temp g;
  tb_kern : role g !! temp g = Some Kern;
  tb_free : present (load s (temp g * 1024)) = false
}.

(** The directory in CR3 is one of them. *)
Definition current (s : machine) (g : vm) (d : Z) : Prop := cr3 s = d * 4096 /\ role g !! d = Some Dir.

Lemma current_recursive s g d : tables s g -> current s g d -> recursive s d.
Proof. intros H [Hc Hd]. split; [done|by apply (tb_rec _ _ H)|apply (tb_words _ _ H)]. Qed.

(** Words of frames with different uses, or different words of one frame, do not
    meet. *)
Lemma word_ne f f' j j' : 0 <= j < 1024 -> 0 <= j' < 1024 -> f <> f' \/ j <> j' -> f * 1024 + j <> f' * 1024 + j'.
Proof. lia. Qed.

Lemma word_ne_role (g : vm) f f' u u' j j' : role g !! f = Some u -> role g !! f' = Some u' -> u <> u' -> 0 <= j < 1024 -> 0 <= j' < 1024 ->
  f * 1024 + j <> f' * 1024 + j'.
Proof. intros Hf Hf' Hne Hj Hj'. apply word_ne; try done. left. congruence. Qed.

(** Nothing changes for the tables when no word of theirs does. *)
Lemma tables_frame s s' g : tables s g -> words_ok s' ->
  (forall f u j, role g !! f = Some u -> u <> Data -> u <> Kern -> 0 <= j < 1024 -> load s' (f * 1024 + j) = load s (f * 1024 + j)) ->
  present (load s' (temp g * 1024)) = false -> tables s' g.
Proof.
  intros H Hw Hl Ht.
  assert (HD : forall d j, role g !! d = Some Dir -> 0 <= j < 1024 -> load s' (d * 1024 + j) = load s (d * 1024 + j)) by (intros; by eapply Hl).
  split; try done.
  - apply (tb_range _ _ H).
  - apply (tb_role _ _ H).
  - intros d i t Ht0. destruct (tb_tab _ _ H _ _ _ Ht0) as (? & Hd & Hi & ?). rewrite HD by (done || lia). done.
  - intros d i Hd Hi Hn. rewrite HD by (done || lia). by apply (tb_notab _ _ H).
  - intros d i t j Ht0 Hj. destruct (tb_tab _ _ H _ _ _ Ht0) as (Hr & _). rewrite (Hl t _ j Hr) by done. by apply (tb_map _ _ H).
  - apply (tb_dom _ _ H).
  - apply (tb_data _ _ H).
  - intros d v e Hm He. destruct (tb_dom _ _ H _ _ _ Hm) as [t Ht0]. destruct (tb_tab _ _ H _ _ _ Ht0) as (_ & Hd & Hi & _).
    rewrite HD by (done || lia). by apply (tb_user _ _ H _ _ _ Hm).
  - intros d Hd. rewrite HD by (done || lia). by apply (tb_rec _ _ H).
  - intros d Hd. rewrite HD by (done || lia). by apply (tb_temp _ _ H).
  - apply (tb_kern _ _ H).
Qed.

(** ** Changes of the tables *)

Definition set_map (g : vm) (k : Z * Z) (e : Z) : vm :=
  mkVm (tabs g) (if present e then <[k := e]> (maps g) else delete k (maps g)) (role g) (temp g).

Lemma set_map_lookup g k e k' : maps (set_map g k e) !! k' = if decide (k = k') then (if present e then Some e else None) else maps g !! k'.
Proof.
  unfold set_map. cbn. destruct (decide (k = k')) as [->|Hne]; case_match; by rewrite ?lookup_insert_eq, ?lookup_delete_eq, ?lookup_insert_ne, ?lookup_delete_ne.
Qed.

Lemma key_split (v : Z) : v = v / 1024 * 1024 + v mod 1024.
Proof. zlia. Qed.

(** Writing one entry of a table. *)
Lemma tables_set s g d v t e : tables s g -> tabs g !! (d, v / 1024) = Some t -> is_u32 e ->
  (present e = true -> role g !! (e / 4096) = Some Data) ->
  (present e = true -> Z.testbit e 2 = true -> Z.testbit (load s (d * 1024 + v / 1024)) 2 = true) ->
  tables (store s (t * 1024 + v mod 1024) e) (set_map g (d, v) e).
Proof.
  intros H Ht He Hdata Huser. destruct (tb_tab _ _ H _ _ _ Ht) as (Hrt & Hrd & Hi & _). assert (Hj : 0 <= v mod 1024 < 1024) by zlia.
  assert (HD : forall f u j, role g !! f = Some u -> u <> Tab d (v / 1024) -> 0 <= j < 1024 ->
    load (store s (t * 1024 + v mod 1024) e) (f * 1024 + j) = load s (f * 1024 + j)).
  { intros f u j Hf Hu Hj'. rewrite load_store. destruct (Z.eqb_spec (f * 1024 + j) (t * 1024 + v mod 1024)) as [E|]; [|done].
    exfalso. by apply (word_ne_role g f t u (Tab d (v / 1024)) j (v mod 1024)) in E. }
  split; try apply H; cbn [set_map tabs maps role temp].
  - apply words_store; [apply (tb_words _ _ H)|done].
  - intros d' i' t' Ht'. destruct (tb_tab _ _ H _ _ _ Ht') as (? & Hd' & Hi' & ?). rewrite (HD _ Dir) by (done || lia). done.
  - intros d' i' Hd' Hi' Hn. rewrite (HD _ Dir) by (done || lia). by apply (tb_notab _ _ H).
  - intros d' i' t' j' Ht' Hj'. destruct (tb_tab _ _ H _ _ _ Ht') as (Hr' & _).
    pose proof (set_map_lookup g (d, v) e (d', i' * 1024 + j')) as Hl. unfold set_map in Hl. cbn [maps] in Hl. rewrite Hl.
    rewrite load_store. destruct (decide ((d, v) = (d', i' * 1024 + j'))) as [E|Hne].
    + injection E as <- ->. assert (i' = (i' * 1024 + j') / 1024 /\ j' = (i' * 1024 + j') mod 1024) as [Ei Ej] by zlia.
      rewrite <- Ei, <- Ej in *. replace t' with t by congruence. by rewrite Z.eqb_refl.
    + destruct (Z.eqb_spec (t' * 1024 + j') (t * 1024 + v mod 1024)) as [E|]; [|by apply (tb_map _ _ H)].
      exfalso. apply Hne. assert (t' = t) as -> by lia. rewrite Hrt in Hr'. injection Hr' as <- <-. f_equal. zlia.
  - intros d' v' e' Hm. pose proof (set_map_lookup g (d, v) e (d', v')) as Hl. unfold set_map in Hl. cbn [maps] in Hl. rewrite Hl in Hm.
    case_decide as E; [injection E as <- <-; by exists t|]. by apply (tb_dom _ _ H _ _ _ Hm).
  - intros k e' Hm. pose proof (set_map_lookup g (d, v) e k) as Hl. unfold set_map in Hl. cbn [maps] in Hl. rewrite Hl in Hm.
    case_decide; [|by apply (tb_data _ _ H k)]. destruct (present e) eqn:Ep; [|done]. injection Hm as <-. by apply Hdata.
  - intros d' v' e' Hm Hu. pose proof (set_map_lookup g (d, v) e (d', v')) as Hl. unfold set_map in Hl. cbn [maps] in Hl. rewrite Hl in Hm.
    case_decide as E.
    + injection E as <- <-. destruct (present e) eqn:Ep; [|done]. injection Hm as <-. rewrite (HD _ Dir) by (done || lia). by apply Huser.
    + destruct (tb_dom _ _ H _ _ _ Hm) as [t' Ht']. destruct (tb_tab _ _ H _ _ _ Ht') as (_ & Hd' & Hi' & _).
      rewrite (HD _ Dir) by (done || lia). by apply (tb_user _ _ H _ _ _ Hm).
  - intros d' Hd'. rewrite (HD _ Dir) by (done || lia). by apply (tb_rec _ _ H).
  - intros d' Hd'. rewrite (HD _ Dir) by (done || lia). by apply (tb_temp _ _ H).
  - replace (temp g * 1024) with (temp g * 1024 + 0) by lia. rewrite (HD _ Kern) by (apply (tb_kern _ _ H) || done || lia). rewrite Z.add_0_r. apply (tb_free _ _ H).
Qed.

Definition add_role (g : vm) (f : Z) (u : use) : vm := mkVm (tabs g) (maps g) (<[f := u]> (role g)) (temp g).
Definition add_tab (g : vm) (d i t : Z) : vm := mkVm (<[(d, i) := t]> (tabs g)) (maps g) (<[t := Tab d i]> (role g)) (temp g).

(** A word of a frame in use. *)
Definition in_use (g : vm) (a : Z) : Prop := exists f u j, role g !! f = Some u /\ u <> Data /\ 0 <= j < 1024 /\ a = f * 1024 + j.

Lemma in_use_word g f u j : role g !! f = Some u -> u <> Data -> 0 <= j < 1024 -> in_use g (f * 1024 + j).
Proof. intros. by exists f, u, j. Qed.

Lemma no_maps s g d i v : tables s g -> tabs g !! (d, i) = None -> v / 1024 = i -> maps g !! (d, v) = None.
Proof.
  intros H Hn <-. destruct (maps g !! (d, v)) eqn:E; [|done]. apply (tb_dom _ _ H) in E as [? E]. congruence.
Qed.

Lemma ne_slot (g : vm) d i d' i' t' : tabs g !! (d, i) = None -> tabs g !! (d', i') = Some t' -> d' <> d \/ i' <> i.
Proof. intros Hn Ht. destruct (Z.eq_dec d' d) as [->|]; [right; congruence|by left]. Qed.

(** A new table, empty. *)
Lemma tables_add_tab s s' g d i t fl : tables s g -> role g !! d = Some Dir -> 0 <= i < 768 -> tabs g !! (d, i) = None ->
  role g !! t = None -> 0 <= t < 2 ^ 20 -> words_ok s' -> load s' (d * 1024 + i) = t * 4096 + fl -> fl = 3 \/ fl = 7 ->
  (forall j, 0 <= j < 1024 -> present (load s' (t * 1024 + j)) = false) ->
  (forall a, in_use g a -> a <> d * 1024 + i -> load s' a = load s a) -> tables s' (add_tab g d i t).
Proof.
  intros H Hd Hi Hn Hrt Ht Hw Hpde Hfl Hz Hl. assert (Htd : t <> d) by congruence.
  assert (HL : forall f u j, role g !! f = Some u -> u <> Data -> 0 <= j < 1024 -> (f <> d \/ j <> i) -> load s' (f * 1024 + j) = load s (f * 1024 + j)).
  { intros f u j Hf Hu Hj Hne. apply Hl; [by apply (in_use_word g f u)|]. by apply word_ne; (done || lia). }
  split; cbn [add_tab tabs maps role temp].
  - done.
  - intros f u Hf. apply lookup_insert_Some in Hf as [[<- _]|[_ Hf]]; [lia|]. by apply (tb_range _ _ H f u).
  - intros t' d' i' Hr. apply lookup_insert_Some in Hr as [[<- [= <- <-]]|[Hne Hr]]; [apply lookup_insert_eq|].
    apply (tb_role _ _ H) in Hr. rewrite lookup_insert_ne; [done|]. intros [= <- <-]. congruence.
  - intros d' i' t' Ht'. apply lookup_insert_Some in Ht' as [[[= <- <-] <-]|[Hne Ht']].
    + rewrite lookup_insert_eq, lookup_insert_ne by done. rewrite Hpde. assert (0 <= fl < 4096) by lia.
      rewrite present_entry, frame_of_entry, testbit_entry by lia. split_and!; try (done || lia); by destruct Hfl as [-> | ->].
    + destruct (tb_tab _ _ H _ _ _ Ht') as (Hr' & Hd' & Hi' & Hrest). rewrite !lookup_insert_ne by congruence.
      rewrite (HL d' Dir) by (done || lia || by eapply ne_slot). done.
  - intros d' i' Hd' Hi' Hn'. apply lookup_insert_Some in Hd' as [[<- [=]]|[_ Hd']]. apply lookup_insert_None in Hn' as [Hn' Hne].
    rewrite (HL d' Dir) by (done || lia || (destruct (Z.eq_dec d' d) as [->|]; [right; congruence|by left])). by apply (tb_notab _ _ H).
  - intros d' i' t' j Ht' Hj. apply lookup_insert_Some in Ht' as [[[= <- <-] <-]|[Hne Ht']].
    + rewrite Hz by done. apply (no_maps s g d i); [done..|zlia].
    + destruct (tb_tab _ _ H _ _ _ Ht') as (Hr' & Hd' & _). rewrite (HL t' (Tab d' i')) by (done || (left; congruence)).
      by apply (tb_map _ _ H).
  - intros d' v e Hm. destruct (tb_dom _ _ H _ _ _ Hm) as [t' Ht']. exists t'. rewrite lookup_insert_ne; [done|]. intros [= -> ->]. congruence.
  - intros k e Hm. rewrite lookup_insert_ne; [by apply (tb_data _ _ H k)|]. intros ->. pose proof (tb_data _ _ H _ _ Hm). congruence.
  - intros d' v e Hm Hu. destruct (tb_dom _ _ H _ _ _ Hm) as [t' Ht']. destruct (tb_tab _ _ H _ _ _ Ht') as (_ & Hd' & Hi' & _).
    rewrite (HL d' Dir) by (done || lia || by eapply ne_slot). by apply (tb_user _ _ H _ _ _ Hm).
  - intros d' Hd'. apply lookup_insert_Some in Hd' as [[<- [=]]|[_ Hd']]. rewrite (HL d' Dir) by (done || lia). by apply (tb_rec _ _ H).
  - intros d' Hd'. apply lookup_insert_Some in Hd' as [[<- [=]]|[_ Hd']]. rewrite (HL d' Dir) by (done || lia). by apply (tb_temp _ _ H).
  - pose proof (tb_kern _ _ H). rewrite lookup_insert_ne by congruence. done.
  - pose proof (tb_kern _ _ H) as Hk. rewrite <- (Z.add_0_r (temp g * 1024)). rewrite (HL _ Kern) by (done || lia || (left; congruence)).
    rewrite Z.add_0_r. apply (tb_free _ _ H).
Qed.

(** Opening a table to user pages. *)
Lemma tables_open s g d i t : tables s g -> tabs g !! (d, i) = Some t -> tables (store s (d * 1024 + i) (Z.lor (load s (d * 1024 + i)) 4)) g.
Proof.
  intros H Ht. destruct (tb_tab _ _ H _ _ _ Ht) as (Hrt & Hd & Hi & Hp & Hf & Hb). set (e := load s (d * 1024 + i)) in *.
  pose proof (tb_words _ _ H (d * 1024 + i)) as He. fold e in He.
  assert (Hbit : forall k, 0 <= k -> Z.testbit (Z.lor e 4) k = Z.testbit e k || (2 =? k)) by (intros k Hk; by apply (testbit_set e 2 k)).
  assert (Hfr : Z.lor e 4 / 4096 = e / 4096).
  { change 4096 with (2 ^ 12). rewrite <- !Z.shiftr_div_pow2 by lia. apply Z.bits_inj'. intros k Hk.
    rewrite !Z.shiftr_spec, Hbit by lia. destruct (Z.eqb_spec 2 (k + 12)); [lia|]. apply orb_false_r. }
  assert (HL : forall d' j, role g !! d' = Some Dir -> 0 <= j < 1024 ->
    load (store s (d * 1024 + i) (Z.lor e 4)) (d' * 1024 + j) = (if decide (d' = d /\ j = i) then Z.lor e 4 else load s (d' * 1024 + j))).
  { intros d' j Hd' Hj. rewrite load_store. case_decide as E; [destruct E as [-> ->]; by rewrite Z.eqb_refl|]. destruct (Z.eqb_spec (d' * 1024 + j) (d * 1024 + i)); [|done]. exfalso. apply E. lia. }
  assert (HT : forall f u j, role g !! f = Some u -> u <> Dir -> 0 <= j < 1024 -> load (store s (d * 1024 + i) (Z.lor e 4)) (f * 1024 + j) = load s (f * 1024 + j)).
  { intros f u j Hf' Hu Hj. rewrite load_store. destruct (Z.eqb_spec (f * 1024 + j) (d * 1024 + i)) as [E|]; [|done]. exfalso. by apply (word_ne_role g f d u Dir j i) in E; (done || lia). }
  split; try apply H.
  - apply words_store; [apply (tb_words _ _ H)|]. by apply (is_u32_set e 2).
  - intros d' i' t' Ht'. destruct (tb_tab _ _ H _ _ _ Ht') as (? & Hd' & Hi' & Hp' & Hf' & Hb'). rewrite HL by (done || lia).
    do 2 (split; [done|]). split; [lia|]. case_decide as E; [|done]. destruct E as [-> ->]. fold e in Hp', Hf', Hb'. split_and!.
    + by rewrite present_testbit, Hbit, <- present_testbit, Hp' by lia.
    + by rewrite Hfr.
    + by rewrite Hbit, Hb' by lia.
  - intros d' i' Hd' Hi' Hn. rewrite HL by (done || lia). case_decide as E; [destruct E as [-> ->]; congruence|]. by apply (tb_notab _ _ H).
  - intros d' i' t' j Ht' Hj. destruct (tb_tab _ _ H _ _ _ Ht') as (Hr' & _). rewrite (HT _ _ _ Hr') by done. by apply (tb_map _ _ H).
  - intros d' v e' Hm Hu. destruct (tb_dom _ _ H _ _ _ Hm) as [t' Ht']. destruct (tb_tab _ _ H _ _ _ Ht') as (_ & Hd' & Hi' & _).
    rewrite HL by (done || lia). case_decide as E; [rewrite Hbit by lia; apply orb_true_r|]. by apply (tb_user _ _ H _ _ _ Hm).
  - intros d' Hd'. rewrite HL by (done || lia). case_decide as E; [lia|]. by apply (tb_rec _ _ H).
  - intros d' Hd'. rewrite HL by (done || lia). case_decide as E; [lia|]. by apply (tb_temp _ _ H).
  - rewrite <- (Z.add_0_r (temp g * 1024)). rewrite (HT _ Kern) by (apply (tb_kern _ _ H) || done || lia). rewrite Z.add_0_r. apply (tb_free _ _ H).
Qed.

(** A frame that no table knows. *)
Lemma tables_add_data s g f : tables s g -> role g !! f = None -> 0 <= f < 2 ^ 20 -> tables s (add_role g f Data).
Proof.
  intros H Hf Hr.
  assert (HR : forall f' u, <[f := Data]> (role g) !! f' = Some u -> u <> Data -> role g !! f' = Some u)
    by (intros f' u Hl Hu; apply lookup_insert_Some in Hl as [[_ <-]|[_ Hl]]; done).
  assert (HR' : forall f' u, role g !! f' = Some u -> <[f := Data]> (role g) !! f' = Some u)
    by (intros f' u Hl; rewrite lookup_insert_ne; [done|congruence]).
  split; cbn [add_role tabs maps role temp]; try apply H.
  - intros f' u Hl. apply lookup_insert_Some in Hl as [[<- _]|[_ Hl]]; [lia|]. by apply (tb_range _ _ H f' u).
  - intros t d i Hl. by apply (tb_role _ _ H), HR.
  - intros d i t Ht. destruct (tb_tab _ _ H _ _ _ Ht) as (? & ? & ?). auto.
  - intros d i Hd. apply (tb_notab _ _ H). by apply HR.
  - intros k e Hm. by apply HR', (tb_data _ _ H k).
  - intros d Hd. by apply (tb_rec _ _ H), HR.
  - intros d Hd. by apply (tb_temp _ _ H), HR.
  - apply HR', (tb_kern _ _ H).
Qed.

Definition drop_role (g : vm) (f : Z) : vm := mkVm (tabs g) (maps g) (delete f (role g)) (temp g).

Lemma tables_drop_data s g f : tables s g -> role g !! f = Some Data -> (forall k e, maps g !! k = Some e -> e / 4096 <> f) -> tables s (drop_role g f).
Proof.
  intros H Hf Hm0.
  assert (HR : forall f' u, delete f (role g) !! f' = Some u -> role g !! f' = Some u) by (intros f' u Hl; by apply lookup_delete_Some in Hl as [_ Hl]).
  assert (HR' : forall f' u, role g !! f' = Some u -> u <> Data -> delete f (role g) !! f' = Some u)
    by (intros f' u Hl Hu; rewrite lookup_delete_ne; [done|congruence]).
  split; cbn [drop_role tabs maps role temp]; try apply H.
  - intros f' u Hl. by apply (tb_range _ _ H f' u), HR.
  - intros t d i Hl. by apply (tb_role _ _ H), HR.
  - intros d i t Ht. destruct (tb_tab _ _ H _ _ _ Ht) as (? & ? & ?). auto.
  - intros d i Hd. apply (tb_notab _ _ H). by apply HR.
  - intros k e Hm. rewrite lookup_delete_ne; [by apply (tb_data _ _ H k)|]. intros E. by apply (Hm0 k e Hm).
  - intros d Hd. by apply (tb_rec _ _ H), HR.
  - intros d Hd. by apply (tb_temp _ _ H), HR.
  - by apply HR'; [apply (tb_kern _ _ H)|].
Qed.

(** A new directory without user pages. *)
Lemma tables_add_dir s s' g d : tables s g -> role g !! d = None -> 0 <= d < 2 ^ 20 -> words_ok s' ->
  (forall i, 0 <= i < 768 -> present (load s' (d * 1024 + i)) = false) -> load s' (d * 1024 + 1023) = d * 4096 + 3 ->
  present (load s' (d * 1024 + 896)) = true -> load s' (d * 1024 + 896) / 4096 = temp g ->
  (forall a, in_use g a -> a <> temp g * 1024 -> load s' a = load s a) -> present (load s' (temp g * 1024)) = false ->
  tables s' (add_role g d Dir).
Proof.
  intros H Hf Hr Hw Hlow Hrec Htp Htf Hl Hfree.
  assert (HT : forall d i, tabs g !! (d, i) = None \/ role g !! d = Some Dir).
  { intros d0 i0. destruct (tabs g !! (d0, i0)) eqn:E; [right|by left]. by apply (tb_tab _ _ H) in E as (_ & ? & _). }
  assert (HL : forall f u j, role g !! f = Some u -> u <> Data -> u <> Kern -> 0 <= j < 1024 -> load s' (f * 1024 + j) = load s (f * 1024 + j)).
  { intros f u j Hfu Hu Hk Hj. apply Hl; [by apply (in_use_word g f u)|]. pose proof (tb_kern _ _ H).
    rewrite <- (Z.add_0_r (temp g * 1024)). by apply (word_ne_role g f (temp g) u Kern). }
  split; cbn [add_role tabs maps role temp]; try done.
  - intros f' u Hfu. apply lookup_insert_Some in Hfu as [[<- _]|[_ Hfu]]; [lia|]. by apply (tb_range _ _ H f' u).
  - intros t d' i Ht. apply lookup_insert_Some in Ht as [[_ [=]]|[_ Ht]]. by apply (tb_role _ _ H).
  - intros d' i t Ht. destruct (tb_tab _ _ H _ _ _ Ht) as (Hrt & Hd' & Hi & Hrest). rewrite !lookup_insert_ne by congruence.
    rewrite (HL d' Dir) by (done || lia). done.
  - intros d' i Hd' Hi Hn. apply lookup_insert_Some in Hd' as [[<- _]|[_ Hd']]; [by apply Hlow|].
    rewrite (HL d' Dir) by (done || lia). by apply (tb_notab _ _ H).
  - intros d' i t j Ht Hj. destruct (tb_tab _ _ H _ _ _ Ht) as (Hrt & _). rewrite (HL t (Tab d' i)) by done. by apply (tb_map _ _ H).
  - apply (tb_dom _ _ H).
  - intros k e Hm. rewrite lookup_insert_ne; [by apply (tb_data _ _ H k)|]. pose proof (tb_data _ _ H _ _ Hm). congruence.
  - intros d' v e Hm Hu. destruct (tb_dom _ _ H _ _ _ Hm) as [t Ht]. destruct (tb_tab _ _ H _ _ _ Ht) as (_ & Hd' & Hi & _).
    rewrite (HL d' Dir) by (done || lia). by apply (tb_user _ _ H _ _ _ Hm).
  - intros d' Hd'. apply lookup_insert_Some in Hd' as [[<- _]|[_ Hd']]; [done|]. rewrite (HL d' Dir) by (done || lia). by apply (tb_rec _ _ H).
  - intros d' Hd'. apply lookup_insert_Some in Hd' as [[<- _]|[_ Hd']]; [done|]. rewrite (HL d' Dir) by (done || lia). by apply (tb_temp _ _ H).
  - pose proof (tb_kern _ _ H). by rewrite lookup_insert_ne by congruence.
Qed.

(** The pages of one table. *)
Definition of_table (d i : Z) (k : Z * Z) : Prop := k.1 = d /\ k.2 / 1024 = i.
#[export] Instance of_table_dec d i k : Decision (of_table d i k).
Proof. unfold of_table. apply _. Defined.

Definition drop_tab (g : vm) (d i t : Z) : vm :=
  mkVm (delete (d, i) (tabs g)) (filter (fun ke => ~ of_table d i ke.1) (maps g)) (delete t (role g)) (temp g).

Lemma drop_tab_maps g d i t k e : maps (drop_tab g d i t) !! k = Some e <-> maps g !! k = Some e /\ ~ of_table d i k.
Proof. cbn. by rewrite map_lookup_filter_Some. Qed.

(** A table that is taken out of its directory. *)
Lemma tables_drop_tab s g d i t : tables s g -> tabs g !! (d, i) = Some t -> tables (store s (d * 1024 + i) 0) (drop_tab g d i t).
Proof.
  intros H Ht0. destruct (tb_tab _ _ H _ _ _ Ht0) as (Hrt & Hd & Hi & _).
  assert (HL : forall f u j, role g !! f = Some u -> 0 <= j < 1024 -> f <> d \/ j <> i -> load (store s (d * 1024 + i) 0) (f * 1024 + j) = load s (f * 1024 + j)).
  { intros f u j Hf Hj Hne. rewrite load_store. destruct (Z.eqb_spec (f * 1024 + j) (d * 1024 + i)); [|done]. lia. }
  assert (HR : forall f u, delete t (role g) !! f = Some u -> role g !! f = Some u /\ f <> t) by (intros f u Hl; by apply lookup_delete_Some in Hl as [? ?]).
  assert (HR' : forall f u, role g !! f = Some u -> u <> Tab d i -> delete t (role g) !! f = Some u)
    by (intros f u Hl Hu; rewrite lookup_delete_ne; [done|congruence]).
  split; cbn [drop_tab tabs role temp].
  - apply words_store; [apply (tb_words _ _ H)|done].
  - intros f u Hl. apply HR in Hl as [Hl _]. by apply (tb_range _ _ H f u).
  - intros t' d' i' Hl. apply HR in Hl as [Hl Hne]. apply (tb_role _ _ H) in Hl. rewrite lookup_delete_ne; [done|]. intros [= <- <-]. congruence.
  - intros d' i' t' Ht'. apply lookup_delete_Some in Ht' as [Hne Ht']. destruct (tb_tab _ _ H _ _ _ Ht') as (Hr' & Hd' & Hi' & Hrest).
    rewrite (HL d' Dir) by (done || lia || (destruct (Z.eq_dec d' d) as [->|]; [right; congruence|by left])).
    split; [apply HR'; [done|]; intros [= <- <-]; congruence|]. split; [by apply HR'|]. done.
  - intros d' i' Hd' Hi' Hn. apply HR in Hd' as [Hd' _]. destruct (decide ((d', i') = (d, i))) as [[= -> ->]|Hne].
    + by rewrite load_store, Z.eqb_refl.
    + rewrite lookup_delete_ne in Hn by congruence. rewrite (HL d' Dir) by (done || lia || (destruct (Z.eq_dec d' d) as [->|]; [right; congruence|by left])).
      by apply (tb_notab _ _ H).
  - intros d' i' t' j Ht' Hj. apply lookup_delete_Some in Ht' as [Hne Ht']. destruct (tb_tab _ _ H _ _ _ Ht') as (Hr' & Hd' & Hi' & _).
    rewrite (HL t' (Tab d' i')) by (done || (left; congruence)). rewrite <- (tb_map _ _ H d' i' t' j Ht' Hj). apply option_eq. intros e.
    rewrite drop_tab_maps. split; [by intros [? _]|]. intros Hm. split; [done|]. intros [E1 E2]. cbn in E1, E2. subst d'. apply Hne. f_equal. zlia.
  - intros d' v e Hm. apply drop_tab_maps in Hm as [Hm Hnot]. destruct (tb_dom _ _ H _ _ _ Hm) as [t' Ht']. exists t'.
    rewrite lookup_delete_ne; [done|]. intros [= <- ->]. by apply Hnot.
  - intros k e Hm. apply drop_tab_maps in Hm as [Hm _]. apply HR'; [by apply (tb_data _ _ H k)|done].
  - intros d' v e Hm Hu. apply drop_tab_maps in Hm as [Hm Hnot]. destruct (tb_dom _ _ H _ _ _ Hm) as [t' Ht'].
    destruct (tb_tab _ _ H _ _ _ Ht') as (_ & Hd' & Hi' & _). rewrite (HL d' Dir); [by apply (tb_user _ _ H _ _ _ Hm)|done|lia|].
    destruct (Z.eq_dec d' d) as [->|]; [|by left]. right. intros E. by apply Hnot.
  - intros d' Hd'. apply HR in Hd' as [Hd' _]. rewrite (HL d' Dir) by (done || lia). by apply (tb_rec _ _ H).
  - intros d' Hd'. apply HR in Hd' as [Hd' _]. rewrite (HL d' Dir) by (done || lia). by apply (tb_temp _ _ H).
  - by apply HR'; [apply (tb_kern _ _ H)|].
  - pose proof (tb_kern _ _ H) as Hk. rewrite <- (Z.add_0_r (temp g * 1024)). rewrite (HL _ Kern) by (done || lia || (left; congruence)).
    rewrite Z.add_0_r. apply (tb_free _ _ H).
Qed.

(** A directory without tables. *)
Lemma tables_drop_dir s g d : tables s g -> role g !! d = Some Dir -> (forall i, tabs g !! (d, i) = None) -> tables s (drop_role g d).
Proof.
  intros H Hd Hn.
  assert (HR : forall f u, delete d (role g) !! f = Some u -> role g !! f = Some u) by (intros f u Hl; by apply lookup_delete_Some in Hl as [_ Hl]).
  assert (HR' : forall f u, role g !! f = Some u -> u <> Dir -> delete d (role g) !! f = Some u)
    by (intros f u Hl Hu; rewrite lookup_delete_ne; [done|congruence]).
  split; cbn [drop_role tabs maps role temp]; try apply H.
  - intros f u Hl. by apply (tb_range _ _ H f u), HR.
  - intros t d' i Hl. by apply (tb_role _ _ H), HR.
  - intros d' i t Ht. destruct (tb_tab _ _ H _ _ _ Ht) as (Hrt & Hd' & ?). split; [by apply HR'|]. split; [|done].
    rewrite lookup_delete_ne; [done|]. intros <-. by rewrite Hn in Ht.
  - intros d' i Hd'. apply (tb_notab _ _ H). by apply HR.
  - intros k e Hm. by apply HR'; [apply (tb_data _ _ H k)|].
  - intros d' Hd'. by apply (tb_rec _ _ H), HR.
  - intros d' Hd'. by apply (tb_temp _ _ H), HR.
  - by apply HR'; [apply (tb_kern _ _ H)|].
Qed.

(** ** Owners *)

#[export] Instance use_eq_dec : EqDecision use.
Proof. solve_decision. Defined.

(** How many entries name a frame, and how often it stands in a list. *)
Definition refs (mp : gmap (Z * Z) Z) (f : Z) : Z := Z.of_nat (size (filter (fun ke => ke.2 / 4096 = f) mp)).
Definition cnt (l : list Z) (f : Z) : Z := Z.of_nat (length (filter (fun x => x = f) l)).

Definition one (P : Prop) `{Decision P} : Z := if decide P then 1 else 0.

Lemma refs_insert mp k e f : mp !! k = None -> refs (<[k := e]> mp) f = refs mp f + one (e / 4096 = f).
Proof.
  intros Hk. unfold refs, one. rewrite map_filter_insert. cbn [snd]. case_decide.
  - rewrite map_size_insert_None; [lia|]. apply map_lookup_filter_None. left. done.
  - rewrite delete_id by done. lia.
Qed.

Lemma refs_delete mp k e f : mp !! k = Some e -> refs (delete k mp) f = refs mp f - one (e / 4096 = f).
Proof. intros Hk. pose proof (refs_insert (delete k mp) k e f (lookup_delete_eq _ _)) as H. rewrite insert_delete_id in H by done. lia. Qed.

Lemma refs_replace mp k e e' f : mp !! k = Some e -> refs (<[k := e']> mp) f = refs mp f - one (e / 4096 = f) + one (e' / 4096 = f).
Proof. intros Hk. rewrite <- insert_delete_eq. rewrite refs_insert by apply lookup_delete_eq. by rewrite (refs_delete _ _ e). Qed.

Lemma refs_nonneg mp f : 0 <= refs mp f.
Proof. unfold refs. lia. Qed.

Lemma refs_pos mp k e : mp !! k = Some e -> 1 <= refs mp (e / 4096).
Proof. intros Hk. pose proof (refs_delete mp k e (e / 4096) Hk). pose proof (refs_nonneg (delete k mp) (e / 4096)). unfold one in *. case_decide; [lia|done]. Qed.

Lemma refs_zero mp f : (forall k e, mp !! k = Some e -> e / 4096 <> f) -> refs mp f = 0.
Proof.
  intros H. unfold refs. replace (filter _ mp) with (∅ : gmap (Z * Z) Z); [done|]. symmetry. apply map_empty. intros k. apply map_lookup_filter_None. right. intros e Hk. by apply (H k e).
Qed.

(** Two entries with one frame make two owners. *)
Lemma refs_two mp k k' e e' : k <> k' -> mp !! k = Some e -> mp !! k' = Some e' -> e / 4096 = e' / 4096 -> 2 <= refs mp (e / 4096).
Proof.
  intros Hne Hk Hk' E. pose proof (refs_delete mp k e (e / 4096) Hk) as H. pose proof (refs_pos (delete k mp) k' e' ltac:(by rewrite lookup_delete_ne)) as H'.
  rewrite <- E in H'. unfold one in H. case_decide; [lia|done].
Qed.

Lemma cnt_cons x l f : cnt (x :: l) f = cnt l f + one (x = f).
Proof. unfold cnt, one. rewrite filter_cons. case_decide; cbn [length]; lia. Qed.
Lemma cnt_nonneg l f : 0 <= cnt l f.
Proof. unfold cnt. lia. Qed.
Lemma cnt_app l l' f : cnt (l ++ l') f = cnt l f + cnt l' f.
Proof. unfold cnt. rewrite filter_app, length_app. lia. Qed.

(** The allocator's counts: one for every directory and table, and for a page the
    number of entries that name it, together with the owners that are still
    without an entry. *)
Record counts (m : gmap Z Z) (rl : gmap Z use) (mp : gmap (Z * Z) Z) (pend : list Z) : Prop := {
  ct_range : forall f u, rl !! f = Some u -> u <> Kern -> 256 <= f;
  ct_one : forall f u, rl !! f = Some u -> u <> Kern -> u <> Data -> m !! f = Some 1;
  ct_kern : forall f, rl !! f = Some Kern -> is_Some (m !! f);
  ct_data : forall f, rl !! f = Some Data -> m !! f = Some (refs mp f + cnt pend f);
  ct_maps : forall k e, mp !! k = Some e -> rl !! (e / 4096) = Some Data;
  ct_pend : forall f, f ∈ pend -> rl !! f = Some Data
}.

Lemma counts_used m rl mp pend f u : counts m rl mp pend -> rl !! f = Some u -> is_Some (m !! f).
Proof.
  intros H Hf. destruct u.
  1,2: rewrite (ct_one _ _ _ _ H _ _ Hf) by done; by eexists.
  - rewrite (ct_data _ _ _ _ H _ Hf). by eexists.
  - by apply (ct_kern _ _ _ _ H).
Qed.

Lemma counts_fresh m rl mp pend f : counts m rl mp pend -> m !! f = None -> rl !! f = None.
Proof. intros H Hf. destruct (rl !! f) eqn:E; [|done]. apply (counts_used _ _ _ _ _ _ H) in E as [? E]. congruence. Qed.

(** A frame from the allocator, for a table or for a page to come. *)
Lemma counts_alloc m rl mp pend f u : counts m rl mp pend -> m !! f = None -> 256 <= f -> u <> Kern ->
  counts (<[f := 1]> m) (<[f := u]> rl) mp (if decide (u = Data) then f :: pend else pend).
Proof.
  intros H Hf Hlow Hu. pose proof (counts_fresh _ _ _ _ _ H Hf) as Hr.
  assert (H0 : refs mp f = 0) by (apply refs_zero; intros k e Hk E; pose proof (ct_maps _ _ _ _ H _ _ Hk); congruence).
  assert (Hp : forall f', f' ∈ pend -> f' <> f) by (intros f' Hin ->; pose proof (ct_pend _ _ _ _ H _ Hin); congruence).
  assert (Hc : cnt pend f = 0).
  { unfold cnt. replace (filter _ pend) with (@nil Z); [done|]. symmetry.
    clear -Hp. induction pend as [|x pend IH]; [done|]. rewrite filter_cons_False by (apply Hp; set_solver). apply IH. intros. apply Hp. set_solver. }
  split.
  - intros f' u' Hl Hk. apply lookup_insert_Some in Hl as [[<- _]|[_ Hl]]; [done|]. by apply (ct_range _ _ _ _ H f' u').
  - intros f' u' Hl Hk Hd. apply lookup_insert_Some in Hl as [[<- _]|[Hne Hl]]; [apply lookup_insert_eq|]. rewrite lookup_insert_ne by done. by apply (ct_one _ _ _ _ H f' u').
  - intros f' Hl. apply lookup_insert_Some in Hl as [[<- ->]|[Hne Hl]]; [done|]. rewrite lookup_insert_ne by done. by apply (ct_kern _ _ _ _ H).
  - intros f' Hl. apply lookup_insert_Some in Hl as [[<- ->]|[Hne Hl]].
    + rewrite lookup_insert_eq, decide_True by done. rewrite cnt_cons, H0, Hc. unfold one. by rewrite decide_True.
    + rewrite lookup_insert_ne by done. rewrite (ct_data _ _ _ _ H _ Hl). do 2 f_equal. case_decide; [|done]. rewrite cnt_cons. unfold one. rewrite decide_False; [lia|done].
  - intros k e Hk. rewrite lookup_insert_ne; [by apply (ct_maps _ _ _ _ H k)|]. pose proof (ct_maps _ _ _ _ H _ _ Hk). congruence.
  - intros f' Hin. destruct (decide (f' = f)) as [->|Hne].
    + case_decide; [subst; apply lookup_insert_eq|]. by apply Hp in Hin.
    + rewrite lookup_insert_ne by done. case_decide; [|by apply (ct_pend _ _ _ _ H)]. apply elem_of_cons in Hin as [->|Hin]; [done|]. by apply (ct_pend _ _ _ _ H).
Qed.

(** The frame moves from the list into an entry. *)
Lemma counts_install m rl mp pend k e : counts m rl mp (e / 4096 :: pend) -> mp !! k = None -> counts m rl (<[k := e]> mp) pend.
Proof.
  intros H Hk. split; try apply H.
  - intros f Hf. rewrite (ct_data _ _ _ _ H _ Hf), refs_insert, cnt_cons by done. f_equal. lia.
  - intros k' e' Hk'. apply lookup_insert_Some in Hk' as [[<- <-]|[_ Hk']]; [apply (ct_pend _ _ _ _ H); set_solver|by apply (ct_maps _ _ _ _ H k')].
  - intros f Hf. apply (ct_pend _ _ _ _ H). set_solver.
Qed.

(** Out of an entry into the list. *)
Lemma counts_uninstall m rl mp pend k e : counts m rl mp pend -> mp !! k = Some e -> counts m rl (delete k mp) (e / 4096 :: pend).
Proof.
  intros H Hk. split; try apply H.
  - intros f Hf. rewrite (ct_data _ _ _ _ H _ Hf), (refs_delete _ _ e), cnt_cons by done. f_equal. lia.
  - intros k' e' Hk'. apply lookup_delete_Some in Hk' as [_ Hk']. by apply (ct_maps _ _ _ _ H k').
  - intros f Hf. apply elem_of_cons in Hf as [->|Hf]; [by apply (ct_maps _ _ _ _ H k)|by apply (ct_pend _ _ _ _ H)].
Qed.

(** A change of flags. *)
Lemma counts_flags m rl mp pend k e e' : counts m rl mp pend -> mp !! k = Some e -> e' / 4096 = e / 4096 -> counts m rl (<[k := e']> mp) pend.
Proof.
  intros H Hk E. rewrite <- insert_delete_eq. apply counts_install; [|apply lookup_delete_eq]. rewrite E. by apply counts_uninstall.
Qed.

(** One more owner. *)
Lemma counts_ref m rl mp pend f : counts m rl mp pend -> rl !! f = Some Data -> refs mp f + cnt pend f < 255 -> counts (ref_spec m f) rl mp (f :: pend).
Proof.
  intros H Hf Hlt. pose proof (ct_range _ _ _ _ H _ _ Hf ltac:(done)) as Hlow. pose proof (ct_data _ _ _ _ H _ Hf) as Hm.
  unfold ref_spec. change PMM_LOW_MEMORY_FRAMES with 256. destruct (Z.ltb_spec f 256); [lia|]. rewrite Hm. destruct (Z.eqb_spec (refs mp f + cnt pend f) 255); [lia|].
  split; try apply H.
  - intros f' u Hl Hk Hd. rewrite lookup_insert_ne by congruence. by apply (ct_one _ _ _ _ H f' u).
  - intros f' Hl. rewrite lookup_insert_ne by congruence. by apply (ct_kern _ _ _ _ H).
  - intros f' Hl. rewrite cnt_cons. unfold one. case_decide as E; [subst; rewrite lookup_insert_eq; f_equal; lia|].
    rewrite lookup_insert_ne by done. rewrite (ct_data _ _ _ _ H _ Hl). f_equal. lia.
  - intros f' Hin. apply elem_of_cons in Hin as [->|Hin]; [done|by apply (ct_pend _ _ _ _ H)].
Qed.

(** The frame goes back with its last owner. *)
Definition release (m : gmap Z Z) (rl : gmap Z use) (f : Z) : gmap Z use := if decide (m !! f = Some 1) then delete f rl else rl.

Lemma counts_free m rl mp pend f : counts m rl mp (f :: pend) -> counts (free_spec m f) (release m rl f) mp pend.
Proof.
  intros H. pose proof (ct_pend _ _ _ _ H f ltac:(set_solver)) as Hf. pose proof (ct_range _ _ _ _ H _ _ Hf ltac:(done)) as Hlow.
  pose proof (ct_data _ _ _ _ H _ Hf) as Hm. rewrite cnt_cons in Hm. unfold one in Hm. rewrite decide_True in Hm by done.
  pose proof (refs_nonneg mp f) as Hr. pose proof (cnt_nonneg pend f) as Hc.
  unfold free_spec, release. change PMM_LOW_MEMORY_FRAMES with 256. destruct (Z.ltb_spec f 256); [lia|]. rewrite Hm.
  assert (Hd : forall f', rl !! f' = Some Data -> f' <> f -> m !! f' = Some (refs mp f' + cnt pend f')).
  { intros f' Hl Hne. rewrite (ct_data _ _ _ _ H _ Hl), cnt_cons. unfold one. rewrite decide_False by done. f_equal. lia. }
  destruct (Z.ltb_spec 1 (refs mp f + (cnt pend f + 1))).
  - rewrite decide_False by (intros [=]; lia). split; try apply H.
    + intros f' u Hl Hk Hdd. rewrite lookup_insert_ne by congruence. by apply (ct_one _ _ _ _ H f' u).
    + intros f' Hl. rewrite lookup_insert_ne by congruence. by apply (ct_kern _ _ _ _ H).
    + intros f' Hl. destruct (Z.eq_dec f' f) as [->|Hne]; [rewrite lookup_insert_eq; f_equal; lia|]. rewrite lookup_insert_ne by done. by apply Hd.
    + intros f' Hin. apply (ct_pend _ _ _ _ H). set_solver.
  - assert (Hz : refs mp f = 0 /\ cnt pend f = 0) by lia. destruct Hz as [Hz1 Hz2]. rewrite decide_True by (f_equal; lia).
    assert (Hm0 : forall k e, mp !! k = Some e -> e / 4096 <> f) by (intros k e Hk E; pose proof (refs_pos _ _ _ Hk); rewrite E in *; lia).
    assert (Hp0 : f ∉ pend).
    { intros Hin. apply list_elem_of_split in Hin as (l & r & ->). rewrite cnt_app, cnt_cons in Hz2. pose proof (cnt_nonneg l f). pose proof (cnt_nonneg r f).
      unfold one in Hz2. rewrite decide_True in Hz2 by done. lia. }
    split.
    + intros f' u Hl Hk. apply lookup_delete_Some in Hl as [_ Hl]. by apply (ct_range _ _ _ _ H f' u).
    + intros f' u Hl Hk Hdd. apply lookup_delete_Some in Hl as [Hne Hl]. rewrite lookup_delete_ne by done. by apply (ct_one _ _ _ _ H f' u).
    + intros f' Hl. apply lookup_delete_Some in Hl as [Hne Hl]. rewrite lookup_delete_ne by done. by apply (ct_kern _ _ _ _ H).
    + intros f' Hl. apply lookup_delete_Some in Hl as [Hne Hl]. rewrite lookup_delete_ne by done. by apply Hd.
    + intros k e Hk. rewrite lookup_delete_ne by (intros E; by apply (Hm0 k e)). by apply (ct_maps _ _ _ _ H k).
    + intros f' Hin. rewrite lookup_delete_ne by (intros ->; done). apply (ct_pend _ _ _ _ H). set_solver.
Qed.

(** A table or a directory goes back. *)
Lemma counts_free_table m rl mp pend f u : counts m rl mp pend -> rl !! f = Some u -> u <> Kern -> u <> Data ->
  counts (free_spec m f) (delete f rl) mp pend.
Proof.
  intros H Hf Hk Hd. pose proof (ct_range _ _ _ _ H _ _ Hf Hk) as Hlow. pose proof (ct_one _ _ _ _ H _ _ Hf Hk Hd) as Hm.
  unfold free_spec. change PMM_LOW_MEMORY_FRAMES with 256. destruct (Z.ltb_spec f 256); [lia|]. rewrite Hm. cbn [Z.ltb Z.compare Pos.compare Pos.compare_cont].
  split.
  - intros f' u' Hl Hk'. apply lookup_delete_Some in Hl as [_ Hl]. by apply (ct_range _ _ _ _ H f' u').
  - intros f' u' Hl Hk' Hd'. apply lookup_delete_Some in Hl as [Hne Hl]. rewrite lookup_delete_ne by done. by apply (ct_one _ _ _ _ H f' u').
  - intros f' Hl. apply lookup_delete_Some in Hl as [Hne Hl]. rewrite lookup_delete_ne by done. by apply (ct_kern _ _ _ _ H).
  - intros f' Hl. apply lookup_delete_Some in Hl as [Hne Hl]. rewrite lookup_delete_ne by done. by apply (ct_data _ _ _ _ H).
  - intros k e Hke. pose proof (ct_maps _ _ _ _ H _ _ Hke) as He. rewrite lookup_delete_ne; [done|]. congruence.
  - intros f' Hin. pose proof (ct_pend _ _ _ _ H _ Hin) as Hp. rewrite lookup_delete_ne; [done|]. congruence.
Qed.

End PagingInv.
