(* ===== verification/PagingOps.v ===== *)
(** * The operations on the page tables

    Every operation of the paging code against the ghost state: what it does to the
    tables, to the owners of frames, and to what programs see. *)

From S2P Require Import Prelude Pmm Paging PagingInv.

Module PagingOps.
Import Pmm Paging PagingInv.

(** ** Loops over the words of a frame *)

Record filled (s0 : machine) (base : Z) (x : Z -> Z) (k : Z) (s : machine) : Prop := {
  fl_phys : phys s = phys s0;
  fl_cr3 : cr3 s = cr3 s0;
  fl_load : forall a, load s a = if (base <=? a) && (a <? base + k) then x (a - base) else load s0 a
}.

Lemma fill_loop s0 base n x body : 0 <= n ->
  (forall s k, 0 <= k < n -> filled s0 base x k s -> body s k = store s (base + k) (x k)) ->
  filled s0 base x n (for_range 0 n body s0).
Proof.
  intros Hn Hb. apply (for_range_ind (filled s0 base x)); [done| |].
  - split; [done|done|]. intros a. destruct (Z.leb_spec base a), (Z.ltb_spec a (base + 0)); cbn; (done || lia).
  - intros k s Hk Hs. rewrite (Hb s k Hk Hs). destruct Hs as [Hp Hc Hl]. split; [done|done|]. intros a. rewrite load_store, Hl.
    destruct (Z.eqb_spec a (base + k)) as [->|Hne].
    + destruct (Z.leb_spec base (base + k)), (Z.ltb_spec (base + k) (base + (k + 1))); try lia. cbn. f_equal. lia.
    + destruct (Z.leb_spec base a), (Z.ltb_spec a (base + k)), (Z.ltb_spec a (base + (k + 1))); cbn; (done || lia).
Qed.

Lemma filled_in s0 base x n s j : filled s0 base x n s -> 0 <= j < n -> load s (base + j) = x j.
Proof. intros H Hj. rewrite (fl_load _ _ _ _ _ H). destruct (Z.leb_spec base (base + j)), (Z.ltb_spec (base + j) (base + n)); try lia. cbn. f_equal. lia. Qed.

Lemma filled_out s0 base x n s a : filled s0 base x n s -> a < base \/ base + n <= a -> load s a = load s0 a.
Proof. intros H Ha. rewrite (fl_load _ _ _ _ _ H). destruct (Z.leb_spec base a), (Z.ltb_spec a (base + n)); cbn; (done || lia). Qed.

Lemma filled_words s0 base x n s : filled s0 base x n s -> words_ok s0 -> (forall j, 0 <= j < n -> is_u32 (x j)) -> words_ok s.
Proof. intros H Hw Hx a. rewrite (fl_load _ _ _ _ _ H). destruct (Z.leb_spec base a), (Z.ltb_spec a (base + n)); cbn; (apply Hw || (apply Hx; lia)). Qed.

(** ** The state as a whole *)

(** A page with two entries is writable through none. *)
Definition cow_ok (mp : gmap (Z * Z) Z) : Prop :=
  forall k k' e e', k <> k' -> mp !! k = Some e -> mp !! k' = Some e' -> e / 4096 = e' / 4096 -> Z.testbit e 1 = false.

(** No directory has a page twice. *)
Definition once (mp : gmap (Z * Z) Z) : Prop :=
  forall d v v' e e', mp !! (d, v) = Some e -> mp !! (d, v') = Some e' -> e / 4096 = e' / 4096 -> v = v'.

(** Only pages for programs are below the kernel. *)
Definition users (mp : gmap (Z * Z) Z) : Prop := forall k e, mp !! k = Some e -> Z.testbit e 2 = true.

Lemma users_insert mp k e : users mp -> Z.testbit e 2 = true -> users (<[k := e]> mp).
Proof. intros H He k' e' Hk. apply lookup_insert_Some in Hk as [[_ <-]|[_ Hk]]; [done|by apply (H k')]. Qed.

Record rep (s : machine) (g : vm) (pend : list Z) : Prop := {
  rp_counts : exists m, pmm_inv (phys s) m /\ counts m (role g) (maps g) pend;
  rp_tables : tables s g;
  rp_cow : cow_ok (maps g);
  rp_once : once (maps g);
  rp_user : users (maps g)
}.

(** What a step that changes no page keeps. *)
Record keeps (s : machine) (g : vm) (s' : machine) (g' : vm) : Prop := {
  kp_role : forall f u, role g !! f = Some u -> role g' !! f = Some u;
  kp_dir : forall d, role g' !! d = Some Dir -> role g !! d = Some Dir;
  kp_data : forall f j, role g !! f = Some Data -> 0 <= j < 1024 -> load s' (f * 1024 + j) = load s (f * 1024 + j);
  kp_cr3 : cr3 s' = cr3 s;
  kp_temp : temp g' = temp g
}.

Lemma keeps_refl s g : keeps s g s g.
Proof. by split. Qed.

Lemma keeps_trans s g s1 g1 s2 g2 : keeps s g s1 g1 -> keeps s1 g1 s2 g2 -> keeps s g s2 g2.
Proof.
  intros [R1 D1 L1 C1 T1] [R2 D2 L2 C2 T2]. split; [auto|auto| |congruence|congruence].
  intros f j Hf Hj. rewrite L2 by auto. by apply L1.
Qed.

(** What a program of directory [d] reads at word [w], and whether it may write
    there. *)
Definition view (s : machine) (g : vm) (d w : Z) : option (Z * bool) :=
  match maps g !! (d, w / 1024) with
  | Some e => if Z.testbit e 2 then Some (load s (e / 4096 * 1024 + w mod 1024), Z.testbit e 1 || Z.testbit e 9) else None
  | None => None
  end.

Lemma view_keeps s g s' g' : tables s g -> keeps s g s' g' -> maps g' = maps g -> forall d w, view s' g' d w = view s g d w.
Proof.
  intros Ht Hk Hm d w. unfold view. rewrite Hm. destruct (maps g !! (d, w / 1024)) as [e|] eqn:E; [|done]. case_match; [|done].
  rewrite (kp_data _ _ _ _ Hk); [done|by apply (tb_data _ _ Ht _ _ E)|zlia].
Qed.

(** ** Allocating *)

Lemma alloc_case s g pend : rep s g pend ->
  let '(r, p) := pmm_alloc_frame (phys s) in
  (r = 0xFFFFFFFF /\ rep (with_phys s p) g pend) \/
  exists f m, r = f * 4096 /\ 256 <= f < 2 ^ 20 /\ role g !! f = None /\ m !! f = None /\ pmm_inv p (<[f := 1]> m) /\ counts m (role g) (maps g) pend.
Proof.
  intros [(m & Hm & Hc) Ht Hcow Ho Hus]. pose proof (alloc_frame_inv _ _ Hm) as Ha. pose proof (frames_bound _ _ Hm) as Hb. destruct (pmm_alloc_frame (phys s)) as [r p].
  destruct Ha as (m' & Hm' & [(-> & -> & _)|(f & -> & Hf & Hnone & -> & _)] & _).
  - left. split; [done|]. split; [by exists m| |done|done|done]. destruct Ht; split; done.
  - right. exists f, m. change PMM_LOW_MEMORY_FRAMES with 256 in Hf. split_and!; try (done || lia). by apply (counts_fresh _ _ _ _ _ Hc).
Qed.

Lemma tables_phys s g p : tables s g -> tables (with_phys s p) g.
Proof. intros [H1 H2 H3 H4 H5 H6 H7 H8 H9 H10 H11 H12 H13]. split; done. Qed.

Lemma rep_current s g pend d : rep s g pend -> current s g d -> recursive s d.
Proof. intros H Hc. by apply (current_recursive s g), Hc; apply H. Qed.

Lemma land4 e : (Z.land e 4 =? 0) = negb (Z.testbit e 2).
Proof. by apply (bit32_test e 2). Qed.
Lemma land2 e : (Z.land e 2 =? 0) = negb (Z.testbit e 1).
Proof. by apply (bit32_test e 1). Qed.

Lemma entry_u32 f fl : 0 <= f < 2 ^ 20 -> 0 <= fl < 4096 -> is_u32 (f * 4096 + fl).
Proof. unfold is_u32. lia. Qed.

(** Emptying a fresh table. *)
Lemma clear_table s d i t fl : recursive s d -> 0 <= i < 768 -> t <> d -> load s (d * 1024 + i) = t * 4096 + fl -> fl = 3 \/ fl = 7 ->
  filled s (t * 1024) (fun _ => 0) 1024 (for_range 0 1024 (fun s k => kwrite s (pt_at i k) 0) s).
Proof.
  intros [Hc Hr Hw] Hi Hne Hpde Hfl. apply fill_loop; [lia|]. intros s' k Hk Hf. assert (H0 : 0 <= fl < 4096) by lia.
  assert (HD : forall j, 0 <= j < 1024 -> load s' (d * 1024 + j) = load s (d * 1024 + j)) by (intros j Hj; apply (filled_out _ _ _ _ _ _ Hf); lia).
  apply (kwrite_pt s' d i k t); try lia.
  - split; [by rewrite (fl_cr3 _ _ _ _ _ Hf)|by rewrite HD by lia|]. by apply (filled_words _ _ _ _ _ Hf).
  - rewrite HD, Hpde, present_entry by lia. by destruct Hfl as [-> | ->].
  - rewrite HD, Hpde by lia. by apply frame_of_entry.
Qed.

Lemma ensure_table_user s g pend d i flags : rep s g pend -> current s g d -> 0 <= i < 768 ->
  let '(r, s') := ensure_table s i flags in
  (r = E_NOMEM /\ rep s' g pend /\ keeps s g s' g) \/
  (r = E_OK /\ exists g' t, rep s' g' pend /\ keeps s g s' g' /\ maps g' = maps g /\ tabs g' !! (d, i) = Some t /\
     (Z.testbit flags 2 = true -> Z.testbit (load s' (d * 1024 + i)) 2 = true)).
Proof.
  intros H Hcur Hi. pose proof (rep_current _ _ _ _ H Hcur) as Hrec. destruct Hcur as [Hcr Hd]. pose proof (rp_tables _ _ _ H) as Ht.
  unfold ensure_table. rewrite (kread_pd s d i Hrec) by lia. destruct (present (load s (d * 1024 + i))) eqn:Ep; cbn [negb].
  - destruct (tabs g !! (d, i)) as [t|] eqn:Et; [|rewrite (tb_notab _ _ Ht d i Hd Hi Et) in Ep; done]. rewrite !land4, !negb_involutive.
    destruct (Z.testbit flags 2) eqn:Ef; cbn [andb]; [destruct (Z.testbit (load s (d * 1024 + i)) 2) eqn:Eb; cbn [negb]|].
    + right. split; [done|]. exists g, t. split_and!; try done.
    + right. split; [done|]. exists g, t. rewrite (kwrite_pd s d i _ Hrec) by lia. pose proof (tables_open s g d i t Ht Et) as Ho.
      split; [split; [apply H|done|apply H|apply H|apply H]|]. split.
      { split; try done. intros f j Hf Hj. rewrite load_store. destruct (Z.eqb_spec (f * 1024 + j) (d * 1024 + i)) as [E|]; [|done].
        exfalso. by apply (word_ne_role g f d Data Dir j i) in E; (done || lia). }
      split_and!; try done. intros _. rewrite load_store, Z.eqb_refl. rewrite (testbit_set _ 2 2) by lia. by rewrite orb_true_r.
    + right. split; [done|]. exists g, t. split_and!; done.
  - destruct (tabs g !! (d, i)) as [t|] eqn:Et; [destruct (tb_tab _ _ Ht _ _ _ Et) as (_ & _ & _ & E & _); congruence|].
    pose proof (alloc_case s g pend H) as Ha. destruct (pmm_alloc_frame (phys s)) as [r p].
    destruct Ha as [[-> Ha]|(t & m & -> & Htr & Hrt & Hmt & Hp & Hcn)].
    { left. split; [done|]. split; [done|]. by split. }
    destruct (Z.eqb_spec (t * 4096) 0xFFFFFFFF); [lia|]. assert (Htd : t <> d) by congruence.
    set (fl := if negb (Z.land flags 4 =? 0) then PAGE_USER_ACCESS else PAGE_KERNEL_ONLY).
    assert (Hfl : fl = 3 \/ fl = 7) by (unfold fl, PAGE_USER_ACCESS, PAGE_KERNEL_ONLY; case_match; lia). assert (Hfl' : 0 <= fl < 4096) by lia.
    assert (Hrec1 : recursive (with_phys s p) d) by (destruct Hrec; split; done).
    rewrite lor_flags, (kwrite_pd _ d i _ Hrec1) by lia. set (s2 := store (with_phys s p) (d * 1024 + i) (t * 4096 + fl)).
    assert (Hl2 : forall a, load s2 a = if a =? d * 1024 + i then t * 4096 + fl else load s a) by (intros a; unfold s2; by rewrite load_store).
    assert (Hw2 : words_ok s2) by (apply words_store; [apply (rc_words _ _ Hrec)|apply entry_u32; lia]).
    assert (Hrec2 : recursive s2 d).
    { split; [done| |done]. rewrite Hl2. destruct (Z.eqb_spec (d * 1024 + 1023) (d * 1024 + i)); [lia|]. apply (rc_slot _ _ Hrec). }
    assert (Hpde : load s2 (d * 1024 + i) = t * 4096 + fl) by (by rewrite Hl2, Z.eqb_refl).
    pose proof (clear_table s2 d i t fl Hrec2 Hi Htd Hpde Hfl) as Hfill. set (s3 := for_range 0 1024 _ s2) in *. clearbody s3.
    assert (Hl3 : forall f j, role g !! f <> None -> 0 <= j < 1024 -> load s3 (f * 1024 + j) = load s2 (f * 1024 + j)).
    { intros f j Hf Hj. apply (filled_out _ _ _ _ _ _ Hfill). assert (f <> t) by (intros ->; done). lia. }
    right. split; [done|]. exists (add_tab g d i t), t.
    assert (Ht3 : tables s3 (add_tab g d i t)).
    { apply (tables_add_tab s s3 g d i t fl); try done; try lia.
      - apply (filled_words _ _ _ _ _ Hfill); done.
      - rewrite Hl3 by (congruence || lia). done.
      - intros j Hj. by rewrite (filled_in _ _ _ _ _ j Hfill) by lia.
      - intros a (f & u & j & Hf & Hu & Hj & ->) Hne. rewrite Hl3 by (congruence || lia). rewrite Hl2. by destruct (Z.eqb_spec (f * 1024 + j) (d * 1024 + i)). }
    split; [split; [|done|apply H|apply H|apply H]|].
    { exists (<[t := 1]> m). rewrite (fl_phys _ _ _ _ _ Hfill). split; [done|]. apply (counts_alloc m (role g) (maps g) pend t (Tab d i) Hcn); (done || lia). }
    split.
    { split; cbn [add_tab role temp].
      - intros f u Hf. rewrite lookup_insert_ne; congruence.
      - intros d' Hd'. by apply lookup_insert_Some in Hd' as [[_ [=]]|[_ Hd']].
      - intros f j Hf Hj. rewrite Hl3 by (congruence || lia). rewrite Hl2. destruct (Z.eqb_spec (f * 1024 + j) (d * 1024 + i)) as [E|]; [|done].
        exfalso. by apply (word_ne_role g f d Data Dir j i) in E; (done || lia).
      - by rewrite (fl_cr3 _ _ _ _ _ Hfill).
      - done. }
    split; [done|]. split; [apply lookup_insert_eq|]. intros Hb. rewrite Hl3, Hpde, testbit_entry by (congruence || lia).
    unfold fl. by rewrite land4, Hb.
Qed.

(** ** Mapping a user page *)

Lemma index_split a : 0 <= a -> Z.shiftr a 22 = a / 4096 / 1024 /\ Z.land (Z.shiftr a 12) 0x3FF = a / 4096 mod 1024.
Proof.
  intros Ha. rewrite !Z.shiftr_div_pow2 by lia. change 0x3FF with (Z.ones 10). rewrite Z.land_ones by lia.
  change (2 ^ 22) with 4194304. change (2 ^ 12) with 4096. change (2 ^ 10) with 1024. split; [zlia|done].
Qed.

Lemma page_index v : 0 <= v -> Z.shiftr (v * 4096) 22 = v / 1024 /\ Z.land (Z.shiftr (v * 4096) 12) 0x3FF = v mod 1024.
Proof. intros Hv. destruct (index_split (v * 4096) ltac:(lia)) as [-> ->]. by rewrite Z.div_mul by lia. Qed.

(** The entry of a page, when its table is there. *)
Lemma entry_at s g d v t : tables s g -> current s g d -> tabs g !! (d, v / 1024) = Some t ->
  kread s (pt_at (v / 1024) (v mod 1024)) = load s (t * 1024 + v mod 1024) /\
  (forall x, kwrite s (pt_at (v / 1024) (v mod 1024)) x = store s (t * 1024 + v mod 1024) x) /\
  maps g !! (d, v) = if present (load s (t * 1024 + v mod 1024)) then Some (load s (t * 1024 + v mod 1024)) else None.
Proof.
  intros H Hc Ht. pose proof (current_recursive _ _ _ H Hc) as Hrec. destruct (tb_tab _ _ H _ _ _ Ht) as (_ & _ & Hi & Hp & Hf & _).
  assert (Hj : 0 <= v mod 1024 < 1024) by zlia. split; [apply (kread_pt s d); (done || lia)|]. split; [intros x; apply (kwrite_pt s d); (done || lia)|].
  rewrite <- (tb_map _ _ H d (v / 1024) t (v mod 1024) Ht Hj). do 2 f_equal. zlia.
Qed.

Lemma cow_insert mp k e : cow_ok mp -> mp !! k = None ->
  (forall k' e', mp !! k' = Some e' -> e' / 4096 = e / 4096 -> Z.testbit e' 1 = false /\ Z.testbit e 1 = false) -> cow_ok (<[k := e]> mp).
Proof.
  intros H Hk Hs k1 k2 e1 e2 Hne H1 H2 E. apply lookup_insert_Some in H1 as [[<- <-]|[? H1]], H2 as [[<- <-]|[? H2]].
  - done.
  - by apply (Hs _ _ H2).
  - by apply (Hs _ _ H1).
  - by apply (H k1 k2 e1 e2).
Qed.

Lemma once_insert mp d v e : once mp -> mp !! (d, v) = None -> (forall v' e', mp !! (d, v') = Some e' -> e' / 4096 <> e / 4096) -> once (<[(d, v) := e]> mp).
Proof.
  intros H Hk Hs d0 v1 v2 e1 e2 H1 H2 E. apply lookup_insert_Some in H1 as [[[= <- <-] <-]|[? H1]], H2 as [[[= <-] <-]|[? H2]]; subst; try done.
  - by destruct (Hs _ _ H2).
  - by destruct (Hs _ _ H1).
  - by apply (H d0 v1 v2 e1 e2).
Qed.

Lemma map_page_user s g pend d v f fl : rep s g (f :: pend) -> current s g d -> 0 <= v < USER_PAGES -> maps g !! (d, v) = None ->
  0 <= fl < 4096 -> Z.testbit fl 0 = true -> Z.testbit fl 2 = true ->
  (forall k e, maps g !! k = Some e -> e / 4096 = f -> Z.testbit e 1 = false /\ Z.testbit fl 1 = false) ->
  (forall v' e, maps g !! (d, v') = Some e -> e / 4096 <> f) ->
  let '(r, s') := map_page s (v * 4096) (f * 4096) fl in
  (r = E_NOMEM /\ rep s' g (f :: pend) /\ keeps s g s' g) \/
  (r = E_OK /\ exists g', rep s' g' pend /\ keeps s g s' g' /\ maps g' = <[(d, v) := f * 4096 + fl]> (maps g)).
Proof.
  intros H Hcur Hv Hn Hfl Hp Hp2 Hcow Honce. unfold USER_PAGES in Hv. unfold map_page. destruct (page_index v ltac:(lia)) as [-> ->].
  pose proof (ensure_table_user s g (f :: pend) d (v / 1024) fl H Hcur ltac:(zlia)) as He. destruct (ensure_table s (v / 1024) fl) as [r s1].
  destruct He as [(-> & H1 & K1)|(-> & g1 & t & H1 & K1 & Hm1 & Ht1 & Hu1)]; [by left|]. cbn [Z.eqb E_OK negb].
  assert (Hcur1 : current s1 g1 d) by (destruct Hcur as [Hc Hd]; split; [by rewrite (kp_cr3 _ _ _ _ K1)|by apply (kp_role _ _ _ _ K1)]).
  pose proof (rp_tables _ _ _ H1) as T1. destruct (entry_at s1 g1 d v t T1 Hcur1 Ht1) as (-> & Hw & Hme). rewrite Hm1, Hn in Hme.
  destruct (present (load s1 (t * 1024 + v mod 1024))) eqn:Ep; [done|]. cbn [andb]. right. split; [done|].
  assert (Hfd : role g1 !! f = Some Data) by (destruct H1 as [(m & _ & Hc) _ _ _ _]; apply (ct_pend _ _ _ _ Hc); set_solver).
  pose proof (tb_range _ _ T1 _ _ Hfd) as Hfr. rewrite frame_addr_eq by (unfold is_u32; lia). rewrite Z.div_mul, land_flags, (Z.mod_small fl), lor_flags, Hw by lia.
  pose proof (present_entry f fl Hfl) as Hpe. pose proof (frame_of_entry f fl Hfl) as Hfe.
  assert (T2 : tables (store s1 (t * 1024 + v mod 1024) (f * 4096 + fl)) (set_map g1 (d, v) (f * 4096 + fl))).
  { apply tables_set; try done.
    - apply entry_u32; lia.
    - intros _. by rewrite Hfe.
    - intros _ Hb. rewrite testbit_entry in Hb by lia. by apply Hu1. }
  exists (set_map g1 (d, v) (f * 4096 + fl)). unfold set_map in *. rewrite Hpe, Hp in *. cbn [maps role]. rewrite Hm1 in *.
  split; [|split].
  - split; cbn [maps role]; [|done| | |].
    + destruct H1 as [(m & Hm & Hc) _ _ _ _]. exists m. split; [done|]. rewrite Hm1 in Hc. apply counts_install; [by rewrite Hfe|done].
    + apply cow_insert; [rewrite <- Hm1; apply H1|done|]. intros k e Hk E. rewrite Hfe in E. rewrite testbit_entry by lia. by apply (Hcow k).
    + apply once_insert; [rewrite <- Hm1; apply H1|done|]. intros v' e Hk. rewrite Hfe. by apply (Honce v').
    + apply users_insert; [rewrite <- Hm1; apply H1|]. by rewrite testbit_entry by lia.
  - apply (keeps_trans s g s1 g1); [done|]. split; cbn [role temp]; try done. intros f' j Hf' Hj. rewrite load_store.
    destruct (Z.eqb_spec (f' * 1024 + j) (t * 1024 + v mod 1024)) as [E|]; [|done]. exfalso.
    destruct (tb_tab _ _ T1 _ _ _ Ht1) as (Hrt & _). by apply (word_ne_role g1 f' t Data (Tab d (v / 1024)) j (v mod 1024)) in E; (done || zlia).
  - done.
Qed.

(** ** The temporary mapping *)

Definition temp_ready (s : machine) (g : vm) (d f : Z) : Prop :=
  cr3 s = d * 4096 /\ words_ok s /\ load s (d * 1024 + 1023) = d * 4096 + 3 /\ present (load s (d * 1024 + 896)) = true /\
  load s (d * 1024 + 896) / 4096 = temp g /\ load s (temp g * 1024) = f * 4096 + 3.

Lemma map_temp s g d f : tables s g -> current s g d -> 0 <= f < 2 ^ 20 ->
  map_page s TEMP_MAP_VADDR (f * 4096) PAGE_KERNEL_ONLY = (E_OK, store s (temp g * 1024) (f * 4096 + 3)).
Proof.
  intros H Hc Hf. pose proof (current_recursive _ _ _ H Hc) as Hrec. destruct (tb_temp _ _ H d (proj2 Hc)) as [Hp Ht].
  unfold map_page. change (Z.shiftr TEMP_MAP_VADDR 22) with 896. change (Z.land (Z.shiftr TEMP_MAP_VADDR 12) 0x3FF) with 0.
  unfold ensure_table. rewrite (kread_pd s d 896 Hrec), Hp by lia. cbn [negb]. change (Z.land PAGE_KERNEL_ONLY 4 =? 0) with true. cbn [negb andb Z.eqb E_OK].
  rewrite (kread_pt s d 896 0 (temp g) Hrec) by (done || lia). rewrite Z.add_0_r, (tb_free _ _ H). cbn [andb].
  rewrite (kwrite_pt s d 896 0 (temp g) _ Hrec) by (done || lia). rewrite Z.add_0_r, frame_addr_eq by (unfold is_u32; lia).
  rewrite Z.div_mul by lia. change (Z.land PAGE_KERNEL_ONLY 0xFFF) with 3. by rewrite lor_flags by lia.
Qed.

Lemma temp_mapped s g d f : tables s g -> current s g d -> 0 <= f < 2 ^ 20 -> temp_ready (store s (temp g * 1024) (f * 4096 + 3)) g d f.
Proof.
  intros H [Hc Hd] Hf. destruct (tb_temp _ _ H d Hd) as [Hp Ht]. pose proof (tb_kern _ _ H) as Hk.
  assert (HD : forall j, 0 <= j < 1024 -> load (store s (temp g * 1024) (f * 4096 + 3)) (d * 1024 + j) = load s (d * 1024 + j)).
  { intros j Hj. rewrite load_store. destruct (Z.eqb_spec (d * 1024 + j) (temp g * 1024)) as [E|]; [|done]. exfalso. rewrite <- (Z.add_0_r (temp g * 1024)) in E.
    by apply (word_ne_role g d (temp g) Dir Kern j 0) in E; (done || lia). }
  unfold temp_ready. rewrite !HD, load_store, Z.eqb_refl by lia. split_and!; try done.
  - apply words_store; [apply (tb_words _ _ H)|apply entry_u32; lia].
  - by apply (tb_rec _ _ H).
Qed.

Lemma temp_translate s g d f i : temp_ready s g d f -> 0 <= i < 1024 ->
  translate s (TEMP_MAP_VADDR + 4 * i) = Some (load s (d * 1024 + 896), f * 4096 + 3, f * 1024 + i).
Proof.
  intros (Hc & Hw & Hr & Hp & Ht & Hf) Hi. rewrite (translate_eq s d) by (done || (unfold TEMP_MAP_VADDR; lia)). unfold TEMP_MAP_VADDR.
  replace ((0xE0000000 + 4 * i) / 4194304) with 896 by zlia. cbv zeta. rewrite Hp, Ht.
  replace ((0xE0000000 + 4 * i) / 4096 mod 1024) with 0 by zlia. rewrite Z.add_0_r, Hf, slot_present, frame_of_entry by lia.
  replace ((0xE0000000 + 4 * i) mod 4096 / 4) with i by zlia. done.
Qed.

(** Filling a frame through the temporary mapping leaves everything else alone. *)
Lemma temp_fill s g d f x body : tables s g -> current s g d -> 0 <= f < 2 ^ 20 -> f <> d -> f <> temp g -> (forall j, 0 <= j < 1024 -> is_u32 (x j)) ->
  (forall s' k, 0 <= k < 1024 -> filled (store s (temp g * 1024) (f * 4096 + 3)) (f * 1024) x k s' -> body s' k = kwrite s' (TEMP_MAP_VADDR + 4 * k) (x k)) ->
  let s3 := unmap_page (for_range 0 1024 body (store s (temp g * 1024) (f * 4096 + 3))) TEMP_MAP_VADDR in
  phys s3 = phys s /\ cr3 s3 = cr3 s /\ words_ok s3 /\
  forall a, load s3 a = if a =? temp g * 1024 then 0 else if (f * 1024 <=? a) && (a <? f * 1024 + 1024) then x (a - f * 1024) else load s a.
Proof.
  intros H Hc Hf Hfd Hft Hx Hb. pose proof (temp_mapped s g d f H Hc Hf) as Hr. set (s1 := store s (temp g * 1024) (f * 4096 + 3)) in *.
  assert (Hready : forall s' k, 0 <= k <= 1024 -> filled s1 (f * 1024) x k s' -> temp_ready s' g d f).
  { intros s' k Hk Hfl. destruct Hr as (Hc1 & Hw & Hrec & Hp & Ht & Hff). unfold temp_ready. rewrite (fl_cr3 _ _ _ _ _ Hfl).
    rewrite !(filled_out _ _ _ _ _ _ Hfl) by lia. split_and!; try done. apply (filled_words _ _ _ _ _ Hfl); [done|]. intros; apply Hx; lia. }
  assert (Hfl : filled s1 (f * 1024) x 1024 (for_range 0 1024 body s1)).
  { apply fill_loop; [lia|]. intros s' k Hk Hfl. rewrite (Hb s' k Hk Hfl). unfold kwrite. by rewrite (temp_translate s' g d f k (Hready s' k ltac:(lia) Hfl)). }
  set (s2 := for_range 0 1024 body s1) in *. clearbody s2. destruct (Hready s2 1024 ltac:(lia) Hfl) as (Hc2 & Hw2 & Hrec2 & Hp2 & Ht2 & Hf2).
  assert (Hrc : recursive s2 d) by (split; done).
  unfold unmap_page. change (Z.shiftr TEMP_MAP_VADDR 22) with 896. change (Z.land (Z.shiftr TEMP_MAP_VADDR 12) 0x3FF) with 0. cbv zeta.
  rewrite (kread_pd s2 d 896 Hrc), Hp2 by lia. rewrite (kwrite_pt s2 d 896 0 (temp g) _ Hrc) by (done || lia). rewrite Z.add_0_r.
  split; [apply (fl_phys _ _ _ _ _ Hfl)|]. split; [apply (fl_cr3 _ _ _ _ _ Hfl)|]. split; [by apply words_store|].
  intros a. rewrite load_store. destruct (Z.eqb_spec a (temp g * 1024)); [done|]. rewrite (fl_load _ _ _ _ _ Hfl). case_match; [done|].
  unfold s1. rewrite load_store. by destruct (Z.eqb_spec a (temp g * 1024)).
Qed.

(** ** A new directory *)

Lemma kernel_entry e : is_u32 e -> is_u32 (Z.lor (Z.land e (not32 4)) 3) /\ present (Z.lor (Z.land e (not32 4)) 3) = true /\
  Z.lor (Z.land e (not32 4)) 3 / 4096 = e / 4096.
Proof.
  intros He. assert (Hb : forall k, 0 <= k -> Z.testbit (Z.lor (Z.land e (not32 4)) 3) k = (Z.testbit e k && negb (2 =? k)) || Z.testbit 3 k).
  { intros k Hk. rewrite Z.lor_spec. f_equal. by apply (testbit_clear e 2 k). }
  assert (H3 : forall k, 2 <= k -> Z.testbit 3 k = false) by (intros k Hk; apply (testbit_above 3 k 2); lia). split_and!.
  - apply is_u32_bits; [rewrite Z.lor_nonneg, Z.land_nonneg; unfold is_u32 in He; lia|]. intros k Hk. rewrite Hb, testbit_u32_high, H3 by (done || lia). done.
  - by rewrite present_testbit, Hb by lia; rewrite orb_true_r.
  - change 4096 with (2 ^ 12). rewrite <- !Z.shiftr_div_pow2 by lia. apply Z.bits_inj'. intros k Hk. rewrite !Z.shiftr_spec, Hb, H3 by lia.
    destruct (Z.eqb_spec 2 (k + 12)); [lia|]. by rewrite orb_false_r, andb_true_r.
Qed.

Lemma clone_spec s g pend d : rep s g pend -> current s g d ->
  let '(r, s') := clone_page_directory s in
  (r = 0 /\ rep s' g pend /\ keeps s g s' g) \/
  exists f, r = f * 4096 /\ 256 <= f < 2 ^ 20 /\ role g !! f = None /\ rep s' (add_role g f Dir) pend /\ cr3 s' = cr3 s /\
    (forall f' j, role g !! f' = Some Data -> 0 <= j < 1024 -> load s' (f' * 1024 + j) = load s (f' * 1024 + j)).
Proof.
  intros H Hcur. unfold clone_page_directory. pose proof (alloc_case s g pend H) as Ha. destruct (pmm_alloc_frame (phys s)) as [r p].
  destruct Ha as [[-> Ha]|(f & m & -> & Hfr & Hrf & Hmf & Hp & Hcn)].
  { left. split; [done|]. split; [done|]. by split. }
  destruct (Z.eqb_spec (f * 4096) 0xFFFFFFFF); [lia|]. set (s1 := with_phys s p).
  pose proof (tables_phys s g p (rp_tables _ _ _ H)) as T1. fold s1 in T1. assert (Hcur1 : current s1 g d) by done. pose proof Hcur as [_ Hd].
  pose proof (tb_kern _ _ T1) as Hk. assert (Hfd : f <> d) by congruence. assert (Hft : f <> temp g) by congruence.
  rewrite (map_temp s1 g d f T1 Hcur1) by lia. cbn [Z.eqb E_OK negb]. right. exists f. split; [done|]. split; [done|]. split; [done|].
  set (x := fun i => if (768 <=? i) && (i <? 1023) then Z.lor (Z.land (load s (d * 1024 + i)) (not32 4)) 3 else if i =? 1023 then f * 4096 + 3 else 2).
  assert (Hx : forall j, 0 <= j < 1024 -> is_u32 (x j)).
  { intros j Hj. unfold x. case_match; [apply kernel_entry, (tb_words _ _ T1)|]. case_match; [apply entry_u32; lia|done]. }
  pose proof (temp_fill s1 g d f x (fun s i => kwrite s (TEMP_MAP_VADDR + 4 * i) (clone_entry s (f * 4096) i)) T1 Hcur1 ltac:(lia) Hfd Hft Hx) as Hfill.
  cbv zeta in Hfill. set (s3 := unmap_page _ TEMP_MAP_VADDR) in *. destruct Hfill as (Hph & Hcr & Hw & Hl).
  { intros s' k Hk' Hfl. f_equal. unfold clone_entry, x. assert (Hrc : recursive s' d).
    { pose proof (temp_mapped s1 g d f T1 Hcur1 ltac:(lia)) as (? & ? & Hr & _). split.
      - by rewrite (fl_cr3 _ _ _ _ _ Hfl).
      - rewrite (filled_out _ _ _ _ _ _ Hfl) by lia. done.
      - apply (filled_words _ _ _ _ _ Hfl); [done|]. intros; apply Hx; lia. }
    rewrite (kread_pd s' d k Hrc Hk'), (filled_out _ _ _ _ _ _ Hfl) by lia. unfold s1. rewrite load_store.
    destruct (Z.eqb_spec (d * 1024 + k) (temp g * 1024)) as [E|_].
    - exfalso. rewrite <- (Z.add_0_r (temp g * 1024)) in E. by apply (word_ne_role g d (temp g) Dir Kern k 0) in E; (done || lia).
    - unfold PAGE_KERNEL_ONLY, PAGE_NOT_PRESENT. by rewrite lor_flags by lia. }
  clearbody s3. assert (Hin : forall j, 0 <= j < 1024 -> load s3 (f * 1024 + j) = x j).
  { intros j Hj. rewrite Hl. destruct (Z.eqb_spec (f * 1024 + j) (temp g * 1024)); [lia|].
    destruct (Z.leb_spec (f * 1024) (f * 1024 + j)), (Z.ltb_spec (f * 1024 + j) (f * 1024 + 1024)); try lia. cbn. f_equal. lia. }
  assert (Hout : forall f' j, f' <> f -> 0 <= j < 1024 -> f' * 1024 + j <> temp g * 1024 -> load s3 (f' * 1024 + j) = load s (f' * 1024 + j)).
  { intros f' j Hne Hj Ht. rewrite Hl. destruct (Z.eqb_spec (f' * 1024 + j) (temp g * 1024)); [done|].
    destruct (Z.leb_spec (f * 1024) (f' * 1024 + j)), (Z.ltb_spec (f' * 1024 + j) (f * 1024 + 1024)); cbn; (done || lia). }
  split; [|split; [done|]].
  - split; [| |apply H|apply H|apply H].
    + exists (<[f := 1]> m). rewrite Hph. split; [done|]. apply (counts_alloc m (role g) (maps g) pend f Dir Hcn); (done || lia).
    + destruct (tb_temp _ _ T1 d Hd) as [Htp Htf].
      apply (tables_add_dir s1 s3 g f T1 Hrf ltac:(lia) Hw).
      * intros i Hi. rewrite Hin by lia. unfold x. destruct (Z.leb_spec 768 i), (Z.ltb_spec i 1023); try lia. cbn [andb]. by destruct (Z.eqb_spec i 1023); [lia|].
      * by rewrite Hin by lia.
      * rewrite Hin by lia. apply kernel_entry, (tb_words _ _ T1).
      * rewrite Hin by lia. change (x 896) with (Z.lor (Z.land (load s (d * 1024 + 896)) (not32 4)) 3).
        by rewrite (proj2 (proj2 (kernel_entry (load s (d * 1024 + 896)) (tb_words _ _ T1 _)))).
      * intros a (f' & u & j & Hf' & Hu & Hj & ->) Hne. apply Hout; [congruence|done|done].
      * by rewrite Hl, Z.eqb_refl.
  - intros f' j Hf' Hj. apply Hout; [congruence|done|]. rewrite <- (Z.add_0_r (temp g * 1024)). by apply (word_ne_role g f' (temp g) Data Kern j 0).
Qed.

(** ** What programs see *)

Lemma user_translate s g d a : tables s g -> current s g d -> 0 <= a < 0xC0000000 ->
  translate s a = match maps g !! (d, a / 4096) with
                  | Some e => Some (load s (d * 1024 + a / 4096 / 1024), e, e / 4096 * 1024 + a mod 4096 / 4)
                  | None => None
                  end.
Proof.
  intros H [Hc Hd] Ha. rewrite (translate_eq s d) by (apply (tb_words _ _ H) || done || lia). cbv zeta.
  replace (a / 4194304) with (a / 4096 / 1024) by zlia. set (v := a / 4096). assert (Hi : 0 <= v / 1024 < 768) by (unfold v; zlia).
  destruct (tabs g !! (d, v / 1024)) as [t|] eqn:Et.
  - destruct (tb_tab _ _ H _ _ _ Et) as (_ & _ & _ & -> & -> & _).
    replace (maps g !! (d, v)) with (maps g !! (d, v / 1024 * 1024 + v mod 1024)) by (do 2 f_equal; zlia).
    rewrite (tb_map _ _ H d (v / 1024) t (v mod 1024) Et) by zlia. by case_match.
  - rewrite (tb_notab _ _ H d _ Hd Hi Et). by rewrite (no_maps s g d (v / 1024) v H Et).
Qed.

Lemma needs_user x y : (Z.land (Z.land x y) 4 =? 4) = Z.testbit x 2 && Z.testbit y 2.
Proof.
  apply eq_true_iff_eq. rewrite Z.eqb_eq, andb_true_iff. split.
  - intros E. assert (H : Z.testbit (Z.land (Z.land x y) 4) 2 = true) by (by rewrite E). rewrite !Z.land_spec in H. change (Z.testbit 4 2) with true in H.
    rewrite andb_true_r in H. by apply andb_true_iff.
  - intros [Hx Hy]. apply Z.bits_inj'. intros k Hk. rewrite !Z.land_spec. change 4 with (bit32 2). rewrite testbit_bit32 by lia.
    destruct (Z.eqb_spec 2 k) as [<-|]; [by rewrite Hx, Hy|apply andb_false_r].
Qed.

Lemma needs_write x y : (Z.land (Z.land x y) 6 =? 6) = (Z.testbit x 1 && Z.testbit y 1) && (Z.testbit x 2 && Z.testbit y 2).
Proof.
  assert (H6 : forall k, 0 <= k -> Z.testbit 6 k = (1 =? k) || (2 =? k)).
  { intros k Hk. change 6 with (Z.lor (bit32 1) (bit32 2)). rewrite Z.lor_spec, !testbit_bit32 by lia. done. }
  apply eq_true_iff_eq. rewrite Z.eqb_eq, !andb_true_iff. split.
  - intros E. assert (H : forall k, 0 <= k -> Z.testbit (Z.land (Z.land x y) 6) k = Z.testbit 6 k) by (intros; by rewrite E).
    pose proof (H 1 ltac:(lia)) as H1. pose proof (H 2 ltac:(lia)) as H2. rewrite !Z.land_spec in H1, H2. change (Z.testbit 6 1) with true in H1. change (Z.testbit 6 2) with true in H2.
    rewrite andb_true_r in H1, H2. apply andb_true_iff in H1, H2. tauto.
  - intros [[H1 H1'] [H2 H2']]. apply Z.bits_inj'. intros k Hk. rewrite !Z.land_spec, H6 by done.
    destruct (Z.eqb_spec 1 k) as [<-|]; [by rewrite H1, H1'|]. destruct (Z.eqb_spec 2 k) as [<-|]; [by rewrite H2, H2'|]. apply andb_false_r.
Qed.

(** An access succeeds exactly as the page's own entry says. *)
Lemma user_access_spec s g d a w : tables s g -> current s g d -> 0 <= a < 0xC0000000 ->
  user_access s a w = match maps g !! (d, a / 4096) with
                      | Some e => if (if w then Z.testbit e 1 else true) && Z.testbit e 2 then Some (e / 4096 * 1024 + a mod 4096 / 4) else None
                      | None => None
                      end.
Proof.
  intros H Hc Ha. unfold user_access. rewrite (user_translate s g d a H Hc Ha). destruct (maps g !! (d, a / 4096)) as [e|] eqn:E; [|done].
  destruct (tb_dom _ _ H _ _ _ E) as [t Ht]. destruct (tb_tab _ _ H _ _ _ Ht) as (_ & _ & _ & _ & _ & Hb). pose proof (tb_user _ _ H _ _ _ E) as Hu.
  destruct w; cbv zeta; [rewrite needs_write, Hb|rewrite needs_user]; cbn [andb]; destruct (Z.testbit e 2); rewrite ?andb_true_r, ?andb_false_r; try done;
    rewrite Hu by done; by rewrite ?andb_true_r.
Qed.

Lemma user_read_view s g d a : tables s g -> current s g d -> 0 <= a < 0xC0000000 ->
  user_read s a = option_map fst (view s g d (a / 4)).
Proof.
  intros H Hc Ha. unfold user_read, view. rewrite (user_access_spec s g d a false H Hc Ha). replace (a / 4 / 1024) with (a / 4096) by zlia.
  replace (a / 4 mod 1024) with (a mod 4096 / 4) by zlia. destruct (maps g !! (d, a / 4096)) as [e|]; [|done]. cbn [andb]. by case_match.
Qed.

(** ** Splitting a shared page *)

Lemma refcount_eq p m f c : pmm_inv p m -> m !! f = Some c -> pmm_frame_refcount p (f * 4096) = c.
Proof.
  intros H Hf. apply (inv_map _ _ H) in Hf as (Hr & _ & ->). unfold pmm_frame_refcount, PAGE_SIZE. rewrite Z.div_mul by lia.
  by destruct (Z.leb_spec (pmm_frames_count p) f); [lia|].
Qed.

(** One flag cleared and another set. *)
Definition swap_flags (a b e : Z) : Z := Z.lor (Z.land (Z.land e 0xFFF) (not32 (bit32 a))) (bit32 b).

Lemma swap_flags_spec a b e : is_u32 e -> 0 <= a < 12 -> 0 <= b < 12 -> 0 <= swap_flags a b e < 4096 /\
  forall k, 0 <= k < 12 -> Z.testbit (swap_flags a b e) k = Z.testbit e k && negb (a =? k) || (b =? k).
Proof.
  intros He Ha Hb0. assert (Hu : is_u32 (Z.land e 0xFFF)) by (rewrite land_flags; unfold is_u32; zlia).
  assert (Hb : forall k, 0 <= k -> Z.testbit (swap_flags a b e) k = (k <? 12) && Z.testbit e k && negb (a =? k) || (b =? k)).
  { intros k Hk. unfold swap_flags. rewrite testbit_set, testbit_clear by (done || lia). f_equal. f_equal. rewrite land_flags. change 4096 with (2 ^ 12).
    destruct (Z.ltb_spec k 12); [by rewrite Z.mod_pow2_bits_low by lia|by rewrite Z.mod_pow2_bits_high by lia]. }
  split.
  - assert (H0 : 0 <= swap_flags a b e).
    { unfold swap_flags. rewrite Z.lor_nonneg, Z.land_nonneg. unfold is_u32 in Hu. unfold bit32 at 2. rewrite Z.shiftl_nonneg. lia. }
    split; [done|]. assert (E : swap_flags a b e = swap_flags a b e mod 2 ^ 12); [|rewrite E; apply Z.mod_pos_bound; lia].
    apply Z.bits_inj'. intros k Hk. destruct (Z.lt_ge_cases k 12).
    + by rewrite Z.mod_pow2_bits_low by lia.
    + rewrite Z.mod_pow2_bits_high, Hb by lia. destruct (Z.ltb_spec k 12), (Z.eqb_spec b k); (done || lia).
  - intros k Hk. rewrite Hb by lia. by destruct (Z.ltb_spec k 12); [|lia].
Qed.

(** The flags of a page that is private again. *)
Definition private_flags (e : Z) : Z := swap_flags 9 1 e.

Lemma private_flags_spec e : is_u32 e -> 0 <= private_flags e < 4096 /\
  forall k, 0 <= k < 12 -> Z.testbit (private_flags e) k = Z.testbit e k && negb (9 =? k) || (1 =? k).
Proof. intros He. apply swap_flags_spec; (done || lia). Qed.

End PagingOps.
