(* ===== verification/PagingFork.v ===== *)
(** * Sharing and splitting pages

    The write fault on a shared page, and fork: what programs see is as if every
    address space had memory of its own. *)

From S2P Require Import Prelude Pmm Paging PagingInv PagingOps.

Module PagingFork.
Import Pmm Paging PagingInv PagingOps.

Definition same_dirs (g g' : vm) : Prop := forall d, role g' !! d = Some Dir <-> role g !! d = Some Dir.

Lemma counts_perm m rl mp pend pend' : counts m rl mp pend -> pend ≡ₚ pend' -> counts m rl mp pend'.
Proof.
  intros H Hp. split; try apply H.
  - intros f Hf. rewrite (ct_data _ _ _ _ H _ Hf). unfold cnt. by rewrite Hp.
  - intros f Hf. apply (ct_pend _ _ _ _ H). by rewrite Hp.
Qed.

(** One entry is replaced by another with the same contents. *)
Lemma view_set s s' g g' d v e e' : maps g !! (d, v) = Some e -> maps g' = <[(d, v) := e']> (maps g) ->
  (forall j, 0 <= j < 1024 -> load s' (e' / 4096 * 1024 + j) = load s (e / 4096 * 1024 + j)) -> Z.testbit e' 2 = Z.testbit e 2 ->
  Z.testbit e' 1 || Z.testbit e' 9 = Z.testbit e 1 || Z.testbit e 9 ->
  (forall k x j, maps g !! k = Some x -> k <> (d, v) -> 0 <= j < 1024 -> load s' (x / 4096 * 1024 + j) = load s (x / 4096 * 1024 + j)) ->
  forall d' w, view s' g' d' w = view s g d' w.
Proof.
  intros He Hm Hl H2 Hw Ho d' w. unfold view. rewrite Hm. assert (Hj : 0 <= w mod 1024 < 1024) by zlia.
  destruct (decide ((d', w / 1024) = (d, v))) as [->|Hne].
  - rewrite lookup_insert_eq, He, H2, Hw. case_match; [|done]. by rewrite Hl.
  - rewrite lookup_insert_ne by congruence. destruct (maps g !! (d', w / 1024)) as [x|] eqn:E; [|done]. case_match; [|done]. by rewrite (Ho _ _ _ E Hne Hj).
Qed.

Lemma maps_set g k e : present e = true -> maps (set_map g k e) = <[k := e]> (maps g).
Proof. intros H. cbn. by rewrite H. Qed.

Lemma cow_replace mp k e e' : cow_ok mp -> mp !! k = Some e ->
  (forall k' x, k' <> k -> mp !! k' = Some x -> x / 4096 = e' / 4096 -> Z.testbit x 1 = false /\ Z.testbit e' 1 = false) -> cow_ok (<[k := e']> mp).
Proof.
  intros H Hk Hs. rewrite <- insert_delete_eq. apply cow_insert; [|apply lookup_delete_eq|].
  - intros k1 k2 e1 e2 Hne H1 H2. apply lookup_delete_Some in H1 as [_ H1], H2 as [_ H2]. by apply (H k1 k2).
  - intros k' x Hx E. apply lookup_delete_Some in Hx as [Hne Hx]. by apply (Hs k' x).
Qed.

Lemma once_replace mp d v e e' : once mp -> mp !! (d, v) = Some e ->
  (forall v' x, v' <> v -> mp !! (d, v') = Some x -> x / 4096 <> e' / 4096) -> once (<[(d, v) := e']> mp).
Proof.
  intros H Hk Hs. rewrite <- insert_delete_eq. apply once_insert; [|apply lookup_delete_eq|].
  - intros d0 v1 v2 e1 e2 H1 H2. apply lookup_delete_Some in H1 as [_ H1], H2 as [_ H2]. by apply (H d0 v1 v2).
  - intros v' x Hx. apply lookup_delete_Some in Hx as [Hne Hx]. apply (Hs v' x); [congruence|done].
Qed.

(** The entry a fault finds, and what a write to it does to the tables. *)
Lemma fault_entry s g d a e : tables s g -> current s g d -> 0 <= a < 0xC0000000 -> maps g !! (d, a / 4096) = Some e ->
  exists t, tabs g !! (d, a / 4096 / 1024) = Some t /\ role g !! t = Some (Tab d (a / 4096 / 1024)) /\
    kread s (pd_at (a / 4096 / 1024)) = load s (d * 1024 + a / 4096 / 1024) /\ present (load s (d * 1024 + a / 4096 / 1024)) = true /\
    kread s (pt_at (a / 4096 / 1024) (a / 4096 mod 1024)) = e /\ present e = true /\ is_u32 e /\ load s (t * 1024 + a / 4096 mod 1024) = e.
Proof.
  intros H Hc Ha He. destruct (tb_dom _ _ H _ _ _ He) as [t Ht]. exists t. destruct (tb_tab _ _ H _ _ _ Ht) as (Hr & _ & Hi & Hp & _).
  destruct (entry_at s g d (a / 4096) t H Hc Ht) as (Hk & _ & Hm). rewrite He in Hm. destruct (present (load s (t * 1024 + a / 4096 mod 1024))) eqn:Ep; [|done].
  injection Hm as Hm. split_and!; try done.
  - apply (kread_pd s d); [by apply (current_recursive s g)|lia].
  - by rewrite Hk.
  - by rewrite Hm.
  - rewrite Hm. apply (tb_words _ _ H).
Qed.

Lemma table_data_ne g d i t f j j' : role g !! t = Some (Tab d i) -> role g !! f = Some Data -> 0 <= j < 1024 -> 0 <= j' < 1024 ->
  (f * 1024 + j =? t * 1024 + j') = false.
Proof. intros Ht Hf Hj Hj'. apply Z.eqb_neq. by apply (word_ne_role g f t Data (Tab d i)). Qed.

(** The last owner takes the page back. *)
Lemma take_back s g d a e : rep s g [] -> current s g d -> 0 <= a < 0xC0000000 -> maps g !! (d, a / 4096) = Some e -> Z.testbit e 9 = true ->
  refs (maps g) (e / 4096) <= 1 ->
  let e' := e / 4096 * 4096 + private_flags e in
  let s' := kwrite s (pt_at (a / 4096 / 1024) (a / 4096 mod 1024)) e' in
  exists g', rep s' g' [] /\ same_dirs g g' /\ cr3 s' = cr3 s /\ (forall d' w, view s' g' d' w = view s g d' w) /\
    maps g' = <[(d, a / 4096) := e']> (maps g).
Proof.
  intros H Hc Ha He H9 Hr e' s'. pose proof (rp_tables _ _ _ H) as T. destruct (fault_entry s g d a e T Hc Ha He) as (t & Ht & Hrt & _ & _ & _ & Hp & Hu & _).
  destruct (entry_at s g d (a / 4096) t T Hc Ht) as (_ & Hw & _). unfold s'. rewrite Hw. destruct (private_flags_spec e Hu) as [Hfl Hbit].
  assert (Hb : forall k, 0 <= k < 12 -> Z.testbit e' k = Z.testbit e k && negb (9 =? k) || (1 =? k)).
  { intros k Hk. unfold e'. rewrite testbit_entry by lia. destruct (Z.ltb_spec k 12); [|lia]. by apply Hbit. }
  assert (Hf' : e' / 4096 = e / 4096) by (by apply frame_of_entry). assert (Hp' : present e' = true).
  { rewrite present_testbit, Hb, <- present_testbit, Hp by lia. done. }
  assert (Hj : 0 <= a / 4096 mod 1024 < 1024) by zlia. pose proof (tb_data _ _ T _ _ He) as Hdata.
  assert (Hsole : forall k x, maps g !! k = Some x -> x / 4096 = e / 4096 -> k = (d, a / 4096)).
  { intros k x Hx E. destruct (decide (k = (d, a / 4096))) as [->|Hne]; [done|]. pose proof (refs_two _ _ _ _ _ Hne Hx He E). rewrite E in *. lia. }
  exists (set_map g (d, a / 4096) e'). rewrite (maps_set g _ _ Hp'). split; [|split; [|split; [|split]]]; try done.
  - split; rewrite ?(maps_set g _ _ Hp').
    + destruct H as [(m & Hm & Hcn) _ _ _ _]. exists m. split; [done|]. by apply (counts_flags _ _ _ _ _ e).
    + apply tables_set; try done.
      * apply entry_u32; [|done]. pose proof (tb_range _ _ T _ _ Hdata). lia.
      * intros _. by rewrite Hf'.
      * intros _ Hb2. rewrite Hb in Hb2 by lia. cbn [Z.eqb Pos.eqb negb] in Hb2. rewrite orb_false_r, andb_true_r in Hb2. by apply (tb_user _ _ T _ _ _ He).
    + apply (cow_replace _ _ e); [apply H|done|]. intros k x Hne Hx E. rewrite Hf' in E. by destruct Hne; apply (Hsole k x).
    + apply (once_replace _ _ _ e); [apply H|done|]. intros v x Hne Hx E. rewrite Hf' in E. apply Hsole in Hx; [|done]. congruence.
    + apply users_insert; [apply H|]. rewrite Hb by lia. cbn [Z.eqb Pos.eqb negb]. by rewrite orb_false_r, andb_true_r, (rp_user _ _ _ H _ _ He).
  - apply (view_set s _ g _ d (a / 4096) e e' He); [by apply maps_set| | | |].
    + intros j Hj'. rewrite Hf', load_store, (table_data_ne g d (a / 4096 / 1024)) by done. done.
    + rewrite Hb by lia. cbn [Z.eqb Pos.eqb negb]. by rewrite orb_false_r, andb_true_r.
    + rewrite !Hb by lia. cbn [Z.eqb Pos.eqb negb]. by rewrite H9, !orb_true_r.
    + intros k x j Hx _ Hj'. rewrite load_store, (table_data_ne g d (a / 4096 / 1024)) by (done || by apply (tb_data _ _ T k)). done.
Qed.

(** The copy of a page through the temporary mapping. *)
Lemma copy_page s g d a e f1 : tables s g -> current s g d -> 0 <= a < 0xC0000000 -> maps g !! (d, a / 4096) = Some e ->
  role g !! f1 = None -> 0 <= f1 < 2 ^ 20 ->
  let page := Z.land a 0xFFFFF000 in
  let s3 := unmap_page (for_range 0 1024 (fun s i => kwrite s (TEMP_MAP_VADDR + 4 * i) (kread s (page + 4 * i)))
                         (store s (temp g * 1024) (f1 * 4096 + 3))) TEMP_MAP_VADDR in
  phys s3 = phys s /\ cr3 s3 = cr3 s /\ tables s3 (add_role g f1 Data) /\
  (forall j, 0 <= j < 1024 -> load s3 (f1 * 1024 + j) = load s (e / 4096 * 1024 + j)) /\
  (forall f u j, role g !! f = Some u -> u <> Kern -> 0 <= j < 1024 -> load s3 (f * 1024 + j) = load s (f * 1024 + j)).
Proof.
  intros H Hc Ha He Hr1 Hf1 page s3. pose proof Hc as [Hcr Hd]. destruct (fault_entry s g d a e H Hc Ha He) as (t & Ht & Hrt & _ & Hpd & _ & Hpe & Hu & Hle).
  pose proof (tb_data _ _ H _ _ He) as Hdata. pose proof (tb_kern _ _ H) as Hk. destruct (tb_tab _ _ H _ _ _ Ht) as (_ & _ & Hi & _ & Htf & _).
  assert (Hj : 0 <= a / 4096 mod 1024 < 1024) by zlia.
  assert (Hpage : page = a / 4096 * 4096) by (unfold page; fold (frame_addr a); apply frame_addr_eq; unfold is_u32; lia).
  set (x := fun i => load s (e / 4096 * 1024 + i)).
  pose proof (temp_fill s g d f1 x (fun s i => kwrite s (TEMP_MAP_VADDR + 4 * i) (kread s (page + 4 * i))) H Hc Hf1 ltac:(congruence) ltac:(congruence)
    ltac:(intros; apply (tb_words _ _ H))) as Hfill. fold s3 in Hfill. cbv zeta in Hfill. destruct Hfill as (Hph & Hcr3 & Hw & Hl).
  { intros s' k Hk' Hfl. f_equal. unfold kread.
    assert (Hsame : forall f u j, role g !! f = Some u -> u <> Kern -> 0 <= j < 1024 -> load s' (f * 1024 + j) = load s (f * 1024 + j)).
    { intros f u j Hf Hu' Hj'. rewrite (filled_out _ _ _ _ _ _ Hfl) by (assert (f <> f1) by congruence; lia). rewrite load_store.
      destruct (Z.eqb_spec (f * 1024 + j) (temp g * 1024)) as [E|]; [|done]. exfalso. rewrite <- (Z.add_0_r (temp g * 1024)) in E.
      by apply (word_ne_role g f (temp g) u Kern j 0) in E. }
    assert (Hw' : words_ok s').
    { apply (filled_words _ _ _ _ _ Hfl); [|intros; apply (tb_words _ _ H)]. apply words_store; [apply (tb_words _ _ H)|apply entry_u32; lia]. }
    rewrite Hpage, (translate_eq s' d); [|done|by rewrite (fl_cr3 _ _ _ _ _ Hfl)|zlia]. cbv zeta.
    replace ((a / 4096 * 4096 + 4 * k) / 4194304) with (a / 4096 / 1024) by zlia. rewrite (Hsame d Dir) by (done || lia). rewrite Hpd, Htf.
    replace ((a / 4096 * 4096 + 4 * k) / 4096 mod 1024) with (a / 4096 mod 1024) by zlia. rewrite (Hsame t (Tab d (a / 4096 / 1024))) by done. rewrite Hle, Hpe.
    replace ((a / 4096 * 4096 + 4 * k) mod 4096 / 4) with k by zlia. by rewrite (Hsame (e / 4096) Data). }
  clearbody s3.
  assert (Hsame : forall f u j, role g !! f = Some u -> u <> Kern -> 0 <= j < 1024 -> load s3 (f * 1024 + j) = load s (f * 1024 + j)).
  { intros f u j Hf Hu' Hj'. rewrite Hl. destruct (Z.eqb_spec (f * 1024 + j) (temp g * 1024)) as [E|].
    - exfalso. rewrite <- (Z.add_0_r (temp g * 1024)) in E. by apply (word_ne_role g f (temp g) u Kern j 0) in E.
    - assert (f <> f1) by congruence. destruct (Z.leb_spec (f1 * 1024) (f * 1024 + j)), (Z.ltb_spec (f * 1024 + j) (f1 * 1024 + 1024)); cbn; (done || lia). }
  split_and!; try done.
  - apply tables_add_data; [|done|lia]. apply (tables_frame s); [done|done| |].
    + intros f u j Hf Hnd Hnk Hj'. by apply (Hsame f u).
    + by rewrite Hl, Z.eqb_refl.
  - intros j Hj'. rewrite Hl. assert (f1 <> temp g) by congruence. destruct (Z.eqb_spec (f1 * 1024 + j) (temp g * 1024)); [lia|].
    destruct (Z.leb_spec (f1 * 1024) (f1 * 1024 + j)), (Z.ltb_spec (f1 * 1024 + j) (f1 * 1024 + 1024)); try lia. cbn [andb]. unfold x. f_equal. lia.
Qed.

(** Another owner keeps the page; the writer gets the copy. *)
Lemma swap_page s3 g d v e m f1 s0 : tables s3 (add_role g f1 Data) -> current s3 g d -> maps g !! (d, v) = Some e -> Z.testbit e 9 = true -> is_u32 e ->
  tables s0 g -> cow_ok (maps g) -> once (maps g) -> users (maps g) -> role g !! f1 = None -> m !! f1 = None -> 256 <= f1 < 2 ^ 20 -> counts m (role g) (maps g) [] -> pmm_inv (phys s3) (<[f1 := 1]> m) ->
  1 < refs (maps g) (e / 4096) ->
  (forall j, 0 <= j < 1024 -> load s3 (f1 * 1024 + j) = load s0 (e / 4096 * 1024 + j)) ->
  (forall f u j, role g !! f = Some u -> u <> Kern -> 0 <= j < 1024 -> load s3 (f * 1024 + j) = load s0 (f * 1024 + j)) ->
  let e' := f1 * 4096 + private_flags e in
  let s4 := kwrite s3 (pt_at (v / 1024) (v mod 1024)) e' in
  let s' := with_phys s4 (pmm_free_frame (phys s4) (e / 4096 * 4096)) in
  exists g', rep s' g' [] /\ same_dirs g g' /\ cr3 s' = cr3 s3 /\ (forall d' w, view s' g' d' w = view s0 g d' w) /\
    maps g' = <[(d, v) := e']> (maps g).
Proof.
  intros T3 Hc He H9 Hu T0 Hcow Hon Hus Hr1 Hm1 Hf1 Hcn Hp Hrefs Hcopy Hsame e' s4 s'. set (g1 := add_role g f1 Data) in *.
  destruct (private_flags_spec e Hu) as [Hfl Hbit].
  assert (Hc1 : current s3 g1 d) by (destruct Hc as [? Hd]; split; [done|]; cbn; rewrite lookup_insert_ne; congruence).
  destruct (tb_dom _ _ T0 _ _ _ He) as [t Ht]. destruct (tb_tab _ _ T0 _ _ _ Ht) as (Hrt & _).
  destruct (entry_at s3 g1 d v t T3 Hc1 Ht) as (_ & Hw & _). assert (E4 : s4 = store s3 (t * 1024 + v mod 1024) e') by apply Hw. unfold s'. rewrite E4. clear s' s4 Hw E4.
  assert (Hb : forall k, 0 <= k < 12 -> Z.testbit e' k = Z.testbit e k && negb (9 =? k) || (1 =? k)).
  { intros k Hk. unfold e'. rewrite testbit_entry by lia. destruct (Z.ltb_spec k 12); [|lia]. by apply Hbit. }
  assert (Hf' : e' / 4096 = f1) by (by apply frame_of_entry). assert (Hpe : present e = true).
  { pose proof (tb_map _ _ T0 d (v / 1024) t (v mod 1024) Ht ltac:(zlia)) as Hm. replace (v / 1024 * 1024 + v mod 1024) with v in Hm by zlia. rewrite He in Hm.
    destruct (present (load s0 (t * 1024 + v mod 1024))) eqn:E; [|done]. injection Hm as ->. done. }
  assert (Hp' : present e' = true) by (rewrite present_testbit, Hb, <- present_testbit, Hpe by lia; done).
  assert (Hj : 0 <= v mod 1024 < 1024) by zlia. assert (Hnew : forall k x, maps g !! k = Some x -> x / 4096 <> f1).
  { intros k x Hx E. pose proof (tb_data _ _ T0 _ _ Hx). congruence. }
  assert (T4 : tables (store s3 (t * 1024 + v mod 1024) e') (set_map g1 (d, v) e')).
  { apply tables_set; try done.
    - apply entry_u32; lia.
    - intros _. rewrite Hf'. apply lookup_insert_eq.
    - intros _ Hb2. rewrite Hb in Hb2 by lia. cbn [Z.eqb Pos.eqb negb] in Hb2. rewrite orb_false_r, andb_true_r in Hb2. by apply (tb_user _ _ T3 _ _ _ He). }
  pose proof (counts_alloc m (role g) (maps g) [] f1 Data Hcn Hm1 ltac:(lia) ltac:(done)) as C1. rewrite decide_True in C1 by done.
  pose proof (counts_uninstall _ _ _ _ _ _ C1 He) as C2. apply (counts_perm _ _ _ _ [f1; e / 4096]) in C2; [|by apply Permutation_swap].
  rewrite <- Hf' in C2 at 3. apply (counts_install _ _ _ _ (d, v)) in C2; [|apply lookup_delete_eq]. rewrite insert_delete_eq in C2.
  pose proof (ct_maps _ _ _ _ Hcn _ _ He) as Hdata. pose proof (ct_data _ _ _ _ Hcn _ Hdata) as Hmf. change (cnt [] (e / 4096)) with 0 in Hmf.
  apply counts_free in C2. unfold release in C2. assert (Hne : e / 4096 <> f1) by (by apply (Hnew (d, v))).
  rewrite (lookup_insert_ne m f1) in C2 by congruence. rewrite Hmf, decide_False in C2 by (intros [=]; lia).
  destruct (free_frame_inv _ _ (e / 4096 * 4096) Hp) as [Hfree _]. change PAGE_SIZE with 4096 in Hfree. rewrite Z.div_mul in Hfree by lia.
  exists (set_map g1 (d, v) e'). rewrite (maps_set g1 _ _ Hp'). change (maps g1) with (maps g).
  split; [|split; [|split; [|split]]]; try done.
  - split; rewrite ?(maps_set g1 _ _ Hp'); change (maps g1) with (maps g).
    + eexists. split; [exact Hfree|]. exact C2.
    + by apply tables_phys.
    + apply (cow_replace _ _ e); [done|done|]. intros k x _ Hx E. rewrite Hf' in E. by destruct (Hnew k x Hx).
    + apply (once_replace _ _ _ e); [done|done|]. intros v' x _ Hx E. rewrite Hf' in E. by destruct (Hnew (d, v') x Hx).
    + apply users_insert; [done|]. rewrite Hb by lia. cbn [Z.eqb Pos.eqb negb]. by rewrite orb_false_r, andb_true_r, (Hus _ _ He).
  - intros d'. cbn. destruct (decide (d' = f1)) as [->|Hd']; [rewrite lookup_insert_eq, Hr1; done|]. by rewrite lookup_insert_ne.
  - assert (Hl4 : forall f j, role g !! f = Some Data \/ f = f1 -> 0 <= j < 1024 -> load (store s3 (t * 1024 + v mod 1024) e') (f * 1024 + j) = load s3 (f * 1024 + j)).
    { intros f j Hf Hj'. rewrite load_store. assert (Hft : f <> t) by (destruct Hf; congruence). destruct (Z.eqb_spec (f * 1024 + j) (t * 1024 + v mod 1024)); [lia|done]. }
    apply (view_set s0 _ g _ d v e e' He); [by apply (maps_set g1)| | | |].
    + intros j Hj'. rewrite Hf'. change (load (with_phys ?s ?p) ?a) with (load s a). rewrite Hl4 by auto. by apply Hcopy.
    + rewrite Hb by lia. cbn [Z.eqb Pos.eqb negb]. by rewrite orb_false_r, andb_true_r.
    + rewrite !Hb by lia. cbn [Z.eqb Pos.eqb negb]. by rewrite H9, !orb_true_r.
    + intros k x j Hx _ Hj'. change (load (with_phys ?s ?p) ?a) with (load s a).
      pose proof (tb_data _ _ T0 _ _ Hx) as Hdx. rewrite Hl4 by auto. by apply (Hsame _ Data).
Qed.

Definition out_of_memory (s : machine) : Prop := fst (pmm_alloc_frame (phys s)) = 0xFFFFFFFF.

(** The fault handler changes nothing that a program can see. *)
Lemma cow_spec s g d a e : rep s g [] -> current s g d -> 0x400000 <= a < 0xC0000000 -> maps g !! (d, a / 4096) = Some e -> Z.testbit e 9 = true ->
  let '(r, s') := cow_handle_fault s a in
  exists g', rep s' g' [] /\ same_dirs g g' /\ cr3 s' = cr3 s /\ (forall d' w, view s' g' d' w = view s g d' w) /\
    (r = -1 /\ out_of_memory s \/
     r = 1 /\ exists e', maps g' !! (d, a / 4096) = Some e' /\ Z.testbit e' 1 = true /\ Z.testbit e' 2 = Z.testbit e 2).
Proof.
  intros H Hc Ha He H9. pose proof (rp_tables _ _ _ H) as T. unfold cow_handle_fault.
  destruct (Z.ltb_spec a 0x400000), (Z.leb_spec 0xC0000000 a); try lia. cbn [orb]. destruct (index_split a ltac:(lia)) as [-> ->].
  destruct (fault_entry s g d a e T Hc ltac:(lia) He) as (t & Ht & Hrt & -> & -> & -> & Hpe & Hu & Hle). rewrite Hpe. cbn [negb].
  change PAGE_COW with (bit32 9). rewrite bit32_test, H9 by lia. cbn [negb]. rewrite frame_addr_eq by done.
  change (Z.lor (Z.land (Z.land e 0xFFF) (not32 (bit32 9))) 2) with (private_flags e). destruct (private_flags_spec e Hu) as [Hfl Hbit].
  assert (Hpb : forall f, Z.testbit (f * 4096 + private_flags e) 1 = true /\ Z.testbit (f * 4096 + private_flags e) 2 = Z.testbit e 2).
  { intros f. rewrite !testbit_entry by lia. cbn [Z.ltb Z.compare Pos.compare Pos.compare_cont]. rewrite !Hbit by lia. cbn [Z.eqb Pos.eqb negb].
    by rewrite orb_true_r, orb_false_r, andb_true_r. }
  destruct (rp_counts _ _ _ H) as (m & Hm & Hcn). pose proof (ct_maps _ _ _ _ Hcn _ _ He) as Hdata. pose proof (ct_data _ _ _ _ Hcn _ Hdata) as Hmf.
  change (cnt [] (e / 4096)) with 0 in Hmf. rewrite Z.add_0_r in Hmf. rewrite (refcount_eq _ _ _ _ Hm Hmf).
  destruct (Z.leb_spec (refs (maps g) (e / 4096)) 1) as [Hone|Hmany].
  { rewrite lor_flags by done. destruct (take_back s g d a e H Hc ltac:(lia) He H9 Hone) as (g' & R & D & C & V & M). exists g'.
    split_and!; try done. right. split; [done|]. eexists. rewrite M, lookup_insert_eq. by split. }
  pose proof (alloc_case s g [] H) as Hal. unfold out_of_memory. destruct (pmm_alloc_frame (phys s)) as [r p].
  destruct Hal as [[-> Hal]|(f1 & m1 & -> & Hf1 & Hr1 & Hm1 & Hp1 & Hcn1)].
  { exists g. split_and!; try done. by left. }
  destruct (Z.eqb_spec (f1 * 4096) 0xFFFFFFFF); [lia|]. set (s1 := with_phys s p).
  pose proof (tables_phys s g p T) as T1. fold s1 in T1. assert (Hc1 : current s1 g d) by done.
  rewrite (map_temp s1 g d f1 T1 Hc1) by lia. cbn [Z.eqb E_OK negb].
  replace (user_range_is_valid (Z.land a 0xFFFFF000) PAGE_SIZE) with true.
  2:{ fold (frame_addr a). rewrite frame_addr_eq by (unfold is_u32; lia). unfold user_range_is_valid. change PAGE_SIZE with 4096. cbn [Z.eqb].
      destruct (Z.ltb_spec (a / 4096 * 4096) 0x400000), (Z.leb_spec 0xC0000000 (a / 4096 * 4096)), (Z.ltb_spec (0xBFFFFFFF - a / 4096 * 4096) (4096 - 1)); (done || zlia). }
  cbn [negb]. pose proof (copy_page s1 g d a e f1 T1 Hc1 ltac:(lia) He Hr1 ltac:(lia)) as Hcp. cbv zeta in Hcp.
  set (s3 := unmap_page _ TEMP_MAP_VADDR) in *. clearbody s3. destruct Hcp as (Hph & Hcr & T3 & Hcopy & Hsame). rewrite lor_flags by done.
  assert (Hmm : pmm_inv (phys s3) (<[f1 := 1]> m1)) by (by rewrite Hph).
  assert (Hc3 : current s3 g d) by (destruct Hc as [Hcc Hd]; split; [by rewrite Hcr|done]).
  destruct (swap_page s3 g d (a / 4096) e m1 f1 s1 T3 Hc3 He H9 Hu T1 (rp_cow _ _ _ H) (rp_once _ _ _ H) (rp_user _ _ _ H) Hr1 Hm1 Hf1 Hcn1 Hmm Hmany Hcopy Hsame) as (g' & R & D & C & V & M).
  cbn [Z.eqb E_OK negb]. exists g'. split_and!; try done; [by rewrite C, Hcr|]. right. split; [done|]. eexists. rewrite M, lookup_insert_eq. by split.
Qed.

(** A write through a writable entry. *)
Lemma store_spec s g d v j x e : rep s g [] -> maps g !! (d, v) = Some e -> Z.testbit e 1 = true -> Z.testbit e 2 = true -> 0 <= j < 1024 -> is_u32 x ->
  let s' := store s (e / 4096 * 1024 + j) x in
  rep s' g [] /\ forall d' w, view s' g d' w = if decide (d' = d /\ w = v * 1024 + j) then Some (x, true) else view s g d' w.
Proof.
  intros H He H1 H2 Hj Hx s'. pose proof (rp_tables _ _ _ H) as T. pose proof (tb_data _ _ T _ _ He) as Hdata.
  assert (Hl : forall a, load s' a = if a =? e / 4096 * 1024 + j then x else load s a) by (intros a; apply load_store). split.
  - split; [apply H| |apply H|apply H|apply H]. apply (tables_frame s); [done|by apply words_store; [apply (tb_words _ _ T)|]| |].
    + intros f u j' Hf Hu Hk Hj'. rewrite Hl. destruct (Z.eqb_spec (f * 1024 + j') (e / 4096 * 1024 + j)) as [E|]; [|done]. exfalso.
      by apply (word_ne_role g f (e / 4096) u Data j' j) in E.
    + rewrite Hl. destruct (Z.eqb_spec (temp g * 1024) (e / 4096 * 1024 + j)) as [E|]; [|apply (tb_free _ _ T)]. exfalso.
      rewrite <- (Z.add_0_r (temp g * 1024)) in E. by apply (word_ne_role g (temp g) (e / 4096) Kern Data 0 j) in E; [..|apply (tb_kern _ _ T)|done|done|lia|].
  - intros d' w. unfold view. assert (Hjw : 0 <= w mod 1024 < 1024) by zlia. destruct (decide ((d', w / 1024) = (d, v))) as [[= -> Ev]|Hne].
    + rewrite Ev, He, H2, H1, Hl. cbn [orb]. destruct (Z.eqb_spec (e / 4096 * 1024 + w mod 1024) (e / 4096 * 1024 + j)) as [E|E].
      * rewrite decide_True; [done|]. split; [done|]. zlia.
      * rewrite decide_False; [done|]. intros [_ ->]. apply E. zlia.
    + destruct (maps g !! (d', w / 1024)) as [e'|] eqn:E'; [|rewrite decide_False; [done|intros [-> ->]; apply Hne; f_equal; zlia]].
      rewrite Hl. destruct (Z.eqb_spec (e' / 4096 * 1024 + w mod 1024) (e / 4096 * 1024 + j)) as [E|E].
      * assert (Hf : e / 4096 = e' / 4096) by lia. rewrite (rp_cow _ _ _ H _ _ _ _ (not_eq_sym Hne) He E' Hf) in H1. done.
      * rewrite decide_False; [done|]. intros [-> ->]. apply Hne. f_equal. zlia.
Qed.

(** A page that is not shared is not the handler's business. *)
Lemma fault_refused s g d a e : rep s g [] -> current s g d -> 0x400000 <= a < 0xC0000000 -> maps g !! (d, a / 4096) = Some e -> Z.testbit e 9 = false ->
  cow_handle_fault s a = (0, s).
Proof.
  intros H Hc Ha E E9. unfold cow_handle_fault. destruct (Z.ltb_spec a 0x400000), (Z.leb_spec 0xC0000000 a); try lia. cbn [orb].
  destruct (index_split a ltac:(lia)) as [-> ->].
  destruct (fault_entry s g d a e (rp_tables _ _ _ H) Hc ltac:(lia) E) as (t & _ & _ & -> & -> & -> & Hpe & _). rewrite Hpe. cbn [negb].
  change PAGE_COW with (bit32 9). by rewrite bit32_test, E9 by lia.
Qed.

(** The write that is tried again finds a writable page. *)
Lemma fault_retry s g d a e : rep s g [] -> current s g d -> 0x400000 <= a < 0xC0000000 -> maps g !! (d, a / 4096) = Some e -> Z.testbit e 9 = true ->
  let '(r, s1) := cow_handle_fault s a in
  exists g1, rep s1 g1 [] /\ same_dirs g g1 /\ cr3 s1 = cr3 s /\ (forall d' w, view s1 g1 d' w = view s g d' w) /\
  ((r = -1 /\ out_of_memory s) \/
   (r = 1 /\ exists e', maps g1 !! (d, a / 4096) = Some e' /\ Z.testbit e' 1 = true /\ Z.testbit e' 2 = Z.testbit e 2 /\
     user_access s1 a true = if Z.testbit e' 2 then Some (e' / 4096 * 1024 + a mod 4096 / 4) else None)).
Proof.
  intros H Hc Ha E E9. pose proof (cow_spec s g d a e H Hc Ha E E9) as Hcow. destruct (cow_handle_fault s a) as [r s1].
  destruct Hcow as (g1 & R & D & C & V & Hr). exists g1. split_and!; try done. destruct Hr as [(-> & Ho)|(-> & e' & M & H1 & H2)]; [by left|]. right. split; [done|]. exists e'. split_and!; try done.
  assert (Hc1 : current s1 g1 d) by (destruct Hc as [Hcc Hd]; split; [by rewrite C|by apply D]).
  by rewrite (user_access_spec s1 g1 d a true (rp_tables _ _ _ R) Hc1), M, H1 by lia.
Qed.

(** A write of a program lands where it should and nowhere else; it is refused
    only when the page is not the program's to write, or without memory for the
    copy, and then nothing has changed. *)
Lemma user_write_spec s g d a x : rep s g [] -> current s g d -> 0x400000 <= a < 0xC0000000 -> is_u32 x ->
  let '(ok, s') := user_write s a x in
  exists g', rep s' g' [] /\ same_dirs g g' /\ cr3 s' = cr3 s /\
    if ok : bool then (exists old, view s g d (a / 4) = Some (old, true)) /\ forall d' w, view s' g' d' w = if decide (d' = d /\ w = a / 4) then Some (x, true) else view s g d' w
    else (forall d' w, view s' g' d' w = view s g d' w) /\ ((forall old, view s g d (a / 4) <> Some (old, true)) \/ out_of_memory s).
Proof.
  intros H Hc Ha Hx. pose proof (rp_tables _ _ _ H) as T. unfold user_write. rewrite (user_access_spec s g d a true T Hc), (user_translate s g d a T Hc) by lia.
  assert (Hv : view s g d (a / 4) = match maps g !! (d, a / 4096) with
     | Some e => if Z.testbit e 2 then Some (load s (e / 4096 * 1024 + a mod 4096 / 4), Z.testbit e 1 || Z.testbit e 9) else None | None => None end).
  { unfold view. replace (a / 4 / 1024) with (a / 4096) by zlia. by replace (a / 4 mod 1024) with (a mod 4096 / 4) by zlia. }
  rewrite Hv. destruct (maps g !! (d, a / 4096)) as [e|] eqn:E; [|exists g; split_and!; try done; by left]. assert (Hj : 0 <= a mod 4096 / 4 < 1024) by zlia.
  assert (Hwd : a / 4096 * 1024 + a mod 4096 / 4 = a / 4) by zlia.
  destruct (Z.testbit e 1 && Z.testbit e 2) eqn:E12.
  { apply andb_true_iff in E12 as [E1 E2]. rewrite E1, E2. destruct (store_spec s g d (a / 4096) _ x e H E E1 E2 Hj Hx) as [R V].
    rewrite Hwd in V. exists g. split_and!; try done. by eexists. }
  destruct (Z.testbit e 9) eqn:E9.
  - pose proof (fault_retry s g d a e H Hc Ha E E9) as Hr. destruct (cow_handle_fault s a) as [r s1].
    destruct Hr as (g1 & R & D & C & V & [(-> & Ho)|(-> & e' & M & H1 & H2 & ->)]); [exists g1; split_and!; try done; by right|]. rewrite H2. cbn [Z.eqb Pos.eqb].
    destruct (Z.testbit e 2) eqn:E2; [|exists g1; split_and!; try done; by left]. rewrite orb_true_r.
    destruct (store_spec s1 g1 d (a / 4096) _ x e' R M H1 ltac:(congruence) Hj Hx) as [R2 V2]. rewrite Hwd in V2. exists g1. split_and!; try done; [by eexists|]. intros d' w. by rewrite V2, V.
  - rewrite (fault_refused s g d a e H Hc Ha E E9). cbn [Z.eqb]. exists g. split_and!; try done. left. intros old. rewrite orb_false_r.
    destruct (Z.testbit e 2); [|done]. rewrite andb_true_r in E12. rewrite E12. by intros [=].
Qed.

End PagingFork.
