(* ===== verification/PagingShare.v ===== *)
(** * Copying and removing an address space

    The walks over the pages of an address space: the two passes of
    [copy_user_space], the end of a process, and fork as a whole. *)

From S2P Require Import Prelude Pmm Paging PagingInv PagingOps PagingFork.

Module PagingShare.
Import Pmm Paging PagingInv PagingOps PagingFork.

(** ** The walk over the pages *)

(** What the walk reads at a page. *)
Lemma page_entry s g d v : tables s g -> current s g d -> 0 <= v < USER_PAGES ->
  match maps g !! (d, v) with
  | Some e => present (kread s (pd_at (v / 1024))) = true /\ kread s (pt_at (v / 1024) (v mod 1024)) = e /\ present e = true /\ is_u32 e
  | None => present (kread s (pd_at (v / 1024))) = true -> present (kread s (pt_at (v / 1024) (v mod 1024))) = false
  end.
Proof.
  intros H Hc Hv. unfold USER_PAGES in Hv. pose proof (current_recursive _ _ _ H Hc) as Hrec. assert (Hi : 0 <= v / 1024 < 768) by zlia.
  rewrite (kread_pd s d) by (done || lia). destruct (tabs g !! (d, v / 1024)) as [t|] eqn:Et.
  - destruct (entry_at s g d v t H Hc Et) as (Hk & _ & ->). rewrite Hk. destruct (tb_tab _ _ H _ _ _ Et) as (_ & _ & _ & Hp & _).
    destruct (present (load s (t * 1024 + v mod 1024))) eqn:E; [|done]. split_and!; try done. apply (tb_words _ _ H).
  - rewrite (no_maps s g d (v / 1024) v H Et) by done. rewrite (tb_notab _ _ H d _ (proj2 Hc) Hi Et). done.
Qed.

Lemma absent_table s g d v : tables s g -> current s g d -> 0 <= v < USER_PAGES -> present (kread s (pd_at (v / 1024))) = false -> maps g !! (d, v) = None.
Proof. intros H Hc Hv Hp. pose proof (page_entry s g d v H Hc Hv) as He. destruct (maps g !! (d, v)); [destruct He as [He _]; congruence|done]. Qed.

Section Walk.
Context {St : Type} (dir : St -> machine) (f : St -> Z -> Z -> St) (d : Z) (P : Z -> St -> vm -> Prop).
Hypothesis walk_tables : forall n st g, P n st g -> tables (dir st) g /\ current (dir st) g d.
Hypothesis walk_skip : forall n st g, P n st g -> 0 <= n < USER_PAGES -> maps g !! (d, n) = None -> P (n + 1) st g.
Hypothesis walk_take : forall n st g e, P n st g -> 0 <= n < USER_PAGES -> maps g !! (d, n) = Some e ->
  exists g', P (n + 1) (f st (n / 1024) (n mod 1024)) g'.

Lemma walk_table st g i : 0 <= i < 768 -> P (i * 1024) st g -> present (kread (dir st) (pd_at i)) = false -> forall n : nat, (n <= 1024)%nat -> P (i * 1024 + Z.of_nat n) st g.
Proof.
  intros Hi H Hp. induction n as [|n IH]; intros Hn; [by rewrite Z.add_0_r|]. specialize (IH ltac:(lia)). destruct (walk_tables _ _ _ IH) as [T C].
  replace (i * 1024 + Z.of_nat (S n)) with (i * 1024 + Z.of_nat n + 1) by lia. assert (Hr : 0 <= i * 1024 + Z.of_nat n < USER_PAGES) by (unfold USER_PAGES; lia).
  apply walk_skip; [done|done|]. apply (absent_table _ _ _ _ T C Hr). by replace ((i * 1024 + Z.of_nat n) / 1024) with i by zlia.
Qed.

Lemma for_user_pages_ind st g : P 0 st g -> exists g', P USER_PAGES (for_user_pages dir f st) g'.
Proof.
  intros H. unfold for_user_pages. apply (for_range_ind (fun i st => exists g, P (i * 1024) st g)); [lia|by exists g|]. clear st g H.
  intros i st Hi [g H]. destruct (present (kread (dir st) (pd_at i))) eqn:Ep; cbn [negb].
  - replace ((i + 1) * 1024) with (i * 1024 + 1024) by lia.
    apply (for_range_ind (fun j st => exists g, P (i * 1024 + j) st g)); [lia|exists g; by rewrite Z.add_0_r|]. clear st g H Ep.
    intros j st Hj [g H]. destruct (walk_tables _ _ _ H) as [T C]. set (v := i * 1024 + j) in *. replace (i * 1024 + (j + 1)) with (v + 1) by lia.
    assert (Hv : 0 <= v < USER_PAGES) by (unfold v, USER_PAGES; lia). pose proof (page_entry _ _ d v T C Hv) as He.
    assert (E1 : v / 1024 = i) by (unfold v; zlia). assert (E2 : v mod 1024 = j) by (unfold v; zlia). rewrite E1, E2 in He.
    destruct (maps g !! (d, v)) as [e|] eqn:Em.
    + destruct He as (_ & -> & -> & _). cbn [negb]. rewrite <- E1, <- E2. by apply (walk_take v st g e).
    + exists g. destruct (present (kread (dir st) (pt_at i j))) eqn:Ej; cbn [negb]; [|by apply walk_skip].
      destruct (present (kread (dir st) (pd_at i))) eqn:Ep; [by specialize (He eq_refl)|]. exfalso. revert Ej.
      pose proof (current_recursive _ _ _ T C) as Hrec. unfold kread. rewrite (translate_pt _ d i j Hrec) by lia. cbv zeta.
      rewrite (kread_pd _ d i Hrec) in Ep by lia. by rewrite Ep.
  - exists g. replace ((i + 1) * 1024) with (i * 1024 + Z.of_nat 1024) by lia. by apply walk_table; [..|lia].
Qed.
End Walk.

(** ** The first pass: sharing *)

(** An entry that is shared may not be written, but says that it could. *)
Definition tight (e : Z) : Z := if Z.testbit e 1 then e / 4096 * 4096 + swap_flags 1 9 e else e.

Lemma tight_spec e : is_u32 e -> is_u32 (tight e) /\ tight e / 4096 = e / 4096 /\ present (tight e) = present e /\ Z.testbit (tight e) 1 = false /\
  Z.testbit (tight e) 2 = Z.testbit e 2 /\ Z.testbit (tight e) 1 || Z.testbit (tight e) 9 = Z.testbit e 1 || Z.testbit e 9.
Proof.
  intros He. unfold tight. destruct (Z.testbit e 1) eqn:E1; [|do 4 (split; [done|]); by rewrite E1]. destruct (swap_flags_spec 1 9 e He) as [Hf Hb]; [lia|lia|].
  assert (Ht : forall k, 0 <= k < 12 -> Z.testbit (e / 4096 * 4096 + swap_flags 1 9 e) k = Z.testbit e k && negb (1 =? k) || (9 =? k)).
  { intros k Hk. rewrite testbit_entry by lia. destruct (Z.ltb_spec k 12); [|lia]. by apply Hb. }
  rewrite !present_testbit, !Ht by lia. cbn [Z.eqb Pos.eqb negb]. rewrite !andb_true_r, !orb_false_r, andb_false_r, orb_true_r. split; [|split; [|done]].
  - apply entry_u32; [unfold is_u32 in He; zlia|done].
  - by apply frame_of_entry.
Qed.

(** A second owner of a page, and no more writing. *)
Lemma share_entry s g pend d v e : rep s g pend -> current s g d -> maps g !! (d, v) = Some e -> is_u32 e -> present e = true ->
  refs (maps g) (e / 4096) + cnt pend (e / 4096) < 255 ->
  let s1 := with_phys s (pmm_ref_frame (phys s) (e / 4096 * 4096)) in
  let s' := if Z.testbit e 1 then kwrite s1 (pt_at (v / 1024) (v mod 1024)) (tight e) else s1 in
  exists g', rep s' g' (e / 4096 :: pend) /\ role g' = role g /\ cr3 s' = cr3 s /\ maps g' = <[(d, v) := tight e]> (maps g) /\
    (forall f j, role g !! f = Some Data -> 0 <= j < 1024 -> load s' (f * 1024 + j) = load s (f * 1024 + j)).
Proof.
  intros H Hc He Hu Hp Hb s1 s'. pose proof (rp_tables _ _ _ H) as T. destruct (tight_spec e Hu) as (Tu & Tf & Tp & T1 & T2 & _).
  pose proof (tb_data _ _ T _ _ He) as Hdata. destruct (rp_counts _ _ _ H) as (m & Hm & Hcn).
  destruct (ref_frame_inv _ _ (e / 4096 * 4096) Hm) as [Hm1 _]. change PAGE_SIZE with 4096 in Hm1. rewrite Z.div_mul in Hm1 by lia.
  pose proof (counts_ref _ _ _ _ _ Hcn Hdata Hb) as Hcn1. unfold s'. clear s'. destruct (Z.testbit e 1) eqn:E1.
  - destruct (tb_dom _ _ T _ _ _ He) as [t Ht]. destruct (tb_tab _ _ T _ _ _ Ht) as (Hrt & _).
    assert (T0 : tables s1 g) by (by apply tables_phys). destruct (entry_at s1 g d v t T0 Hc Ht) as (_ & Hw & _).
    exists (set_map g (d, v) (tight e)). rewrite Hw, (maps_set g) by congruence. split; [|split; [|split; [|split]]]; try done.
    + split; rewrite ?(maps_set g) by congruence.
      * eexists. split; [exact Hm1|]. by apply (counts_flags _ _ _ _ _ e).
      * apply tables_set; try done; [by rewrite Tf|]. rewrite T2. intros _ Hb2. by apply (tb_user _ _ T0 _ _ _ He).
      * apply (cow_replace _ _ e); [apply H|done|]. intros k x Hne Hx E. rewrite Tf in E. split; [|done]. by apply (rp_cow _ _ _ H k (d, v) x e).
      * apply (once_replace _ _ _ e); [apply H|done|]. intros v' x Hne Hx E. rewrite Tf in E. apply Hne. by apply (rp_once _ _ _ H d v' v x e).
      * apply users_insert; [apply H|]. by rewrite T2, (rp_user _ _ _ H _ _ He).
    + intros f j Hf Hj. assert (0 <= v mod 1024 < 1024) by zlia. by rewrite load_store, (table_data_ne g d (v / 1024)) by done.
  - exists g. unfold tight. rewrite E1, insert_id by done. split_and!; try done. split; [|by apply tables_phys|apply H|apply H|apply H]. by eexists.
Qed.

(** Every directory counts once at most among the owners of a page. *)
Definition dirs (g : vm) : gset Z := dom (filter (fun fu => fu.2 = Dir) (role g)).

Lemma elem_dirs g d : d ∈ dirs g <-> role g !! d = Some Dir.
Proof.
  unfold dirs. rewrite elem_of_dom. split.
  - intros [u Hu]. apply map_lookup_filter_Some in Hu as [Hu E]. cbn in E. congruence.
  - intros Hd. exists Dir. by apply map_lookup_filter_Some.
Qed.

Lemma refs_dirs mp (D : gset Z) f : once mp -> (forall d v e, mp !! (d, v) = Some e -> d ∈ D) -> refs mp f <= Z.of_nat (size D).
Proof.
  intros Ho HD. unfold refs. apply Nat2Z.inj_le. set (mf := filter _ mp). rewrite <- (length_map_to_list mf). unfold size, set_size. cbn.
  rewrite <- (length_fmap (fun kv => kv.1.1)). apply submseteq_length, NoDup_submseteq.
  - apply NoDup_fmap_2_strong; [|apply NoDup_map_to_list]. intros [[d1 v1] e1] [[d2 v2] e2] H1 H2 E. cbn in E. subst d2.
    apply elem_of_map_to_list, map_lookup_filter_Some in H1 as [H1 F1]. apply elem_of_map_to_list, map_lookup_filter_Some in H2 as [H2 F2]. cbn in F1, F2.
    assert (v1 = v2) as -> by (apply (Ho d1 v1 v2 e1 e2); congruence). congruence.
  - intros d. rewrite list_elem_of_fmap. intros ([[d1 v1] e1] & -> & H1). apply elem_of_map_to_list, map_lookup_filter_Some in H1 as [H1 _].
    apply elem_of_elements. by apply (HD _ v1 e1).
Qed.

Lemma maps_dir s g d v e : tables s g -> maps g !! (d, v) = Some e -> role g !! d = Some Dir.
Proof. intros H He. destruct (tb_dom _ _ H _ _ _ He) as [t Ht]. by destruct (tb_tab _ _ H _ _ _ Ht) as (_ & Hd & _). Qed.

(** The pages of a directory below page [n], in order. *)
Definition pages_upto (g : vm) (d n : Z) : list Z := filter (fun v => is_Some (maps g !! (d, v))) (seqZ 0 n).

Lemma pages_upto_step g d n : 0 <= n -> pages_upto g d (n + 1) = pages_upto g d n ++ (if maps g !! (d, n) then [n] else []).
Proof.
  intros Hn. unfold pages_upto. rewrite seqZ_app, filter_app by lia. f_equal. cbn [seqZ]. replace (0 + n) with n by lia.
  change (seqZ n 1) with [0 + n]. rewrite Z.add_0_l, filter_cons, filter_nil. destruct (maps g !! (d, n)); case_decide as Hd; try done.
  by destruct Hd.
Qed.

Lemma pages_upto_elem g d n v : v ∈ pages_upto g d n <-> 0 <= v < n /\ is_Some (maps g !! (d, v)).
Proof. unfold pages_upto. rewrite list_elem_of_filter, elem_of_seqZ. intuition lia. Qed.

Lemma pages_upto_nodup g d n : NoDup (pages_upto g d n).
Proof. apply NoDup_filter, NoDup_seqZ. Qed.

Lemma pages_upto_more g d n : 0 <= n < USER_PAGES -> is_Some (maps g !! (d, n)) -> alen (pages_upto g d n) < alen (pages_upto g d USER_PAGES).
Proof.
  intros Hn [e He]. unfold pages_upto at 2. replace USER_PAGES with (n + (1 + (USER_PAGES - n - 1))) by lia. rewrite !(seqZ_app 0 n), filter_app by lia.
  fold (pages_upto g d n). rewrite alen_app, seqZ_cons, filter_cons_True by (lia || (rewrite Z.add_0_l; by eexists)). unfold alen. cbn [length]. lia.
Qed.

Lemma pages_upto_bound g d n : 0 <= n -> alen (pages_upto g d n) <= n.
Proof. intros Hn. unfold alen, pages_upto. pose proof (length_filter (fun v => is_Some (maps g !! (d, v))) (seqZ 0 n)) as H. rewrite length_seqZ in H. lia. Qed.

Lemma count_pages s g d : tables s g -> current s g d -> count_user_pages s = alen (pages_upto g d USER_PAGES).
Proof.
  intros H Hc. unfold count_user_pages.
  destruct (for_user_pages_ind fst (fun st (_ _ : Z) => (fst st, u32 (snd st + 1))) d
    (fun n st g' => 0 <= n <= USER_PAGES /\ fst st = s /\ g' = g /\ snd st = alen (pages_upto g d n))) with (st := (s, 0)) (g := g) as (g' & _ & _ & _ & ->); try done.
  - intros n st g' (_ & -> & -> & _). done.
  - intros n st g' (Hn & -> & -> & E) Hn' Hnone. split_and!; try lia; try done. rewrite pages_upto_step, Hnone, app_nil_r by lia. done.
  - intros n st g' e (Hn & -> & -> & E) Hn' He. exists g. cbn. split_and!; try lia; try done. rewrite pages_upto_step, He, alen_app, E by lia.
    pose proof (pages_upto_bound g d n ltac:(lia)). pose proof (alen_nonneg (pages_upto g d n)). unfold USER_PAGES in *. rewrite u32_small; [done|lia].
Qed.

Lemma vaddr_of v : 0 <= v -> Z.lor (Z.shiftl (v / 1024) 22) (Z.shiftl (v mod 1024) 12) = v * 4096.
Proof.
  intros Hv. change 22 with (12 + 10). change (Z.shiftl (v mod 1024) 12) with (Z.shiftl (v mod 1024) (2 + 10)).
  rewrite <- !Z.shiftl_shiftl, <- Z.shiftl_lor, !Z.shiftl_mul_pow2 by lia. change (2 ^ 12) with 4096. rewrite lor_flags by zlia. zlia.
Qed.

Definition entry_of (g : vm) (d v : Z) : Z := default 0 (maps g !! (d, v)).

(** The record of a page on the list. *)
Definition record_of (g : vm) (d v : Z) : copied_page :=
  let e := tight (entry_of g d v) in mkPage (v * 4096) (e / 4096 * 4096) (e mod 4096).

Lemma entry_of_eq g d v e : maps g !! (d, v) = Some e -> entry_of g d v = e.
Proof. unfold entry_of. by intros ->. Qed.

(** After the pages below [n]. *)
Record shared (s : machine) (g : vm) (d n : Z) (st : machine * list copied_page) (g' : vm) : Prop := {
  sh_range : 0 <= n <= USER_PAGES;
  sh_rep : rep st.1 g' ((fun v => entry_of g d v / 4096) <$> pages_upto g d n);
  sh_cr3 : cr3 st.1 = cr3 s;
  sh_role : role g' = role g;
  sh_maps : forall d' v, maps g' !! (d', v) = if decide (d' = d /\ v < n) then tight <$> maps g !! (d', v) else maps g !! (d', v);
  sh_pages : st.2 = record_of g d <$> pages_upto g d n;
  sh_data : forall f j, role g !! f = Some Data -> 0 <= j < 1024 -> load st.1 (f * 1024 + j) = load s (f * 1024 + j)
}.

Lemma cnt_none l f : f ∉ l -> cnt l f = 0.
Proof. intros H. unfold cnt. induction l as [|x l IH]; [done|]. apply not_elem_of_cons in H as [Hx Hl]. rewrite filter_cons_False by congruence. by apply IH. Qed.

Lemma tight_maps g g' d n k e : (forall d' v, maps g' !! (d', v) = if decide (d' = d /\ v < n) then tight <$> maps g !! (d', v) else maps g !! (d', v)) ->
  (forall k e, maps g !! k = Some e -> is_u32 e) -> maps g' !! k = Some e -> exists e0, maps g !! k = Some e0 /\ e0 / 4096 = e / 4096.
Proof.
  intros Hm Hu He. destruct k as [d' v]. rewrite Hm in He. case_decide; [|by exists e].
  destruct (maps g !! (d', v)) as [x|] eqn:Ex; [|done]. injection He as <-. exists x. split; [done|]. by destruct (tight_spec x (Hu _ _ Ex)) as (_ & -> & _).
Qed.

Lemma maps_u32 s g k e : tables s g -> maps g !! k = Some e -> is_u32 e /\ present e = true.
Proof.
  intros H He. destruct k as [d v]. destruct (tb_dom _ _ H _ _ _ He) as [t Ht]. pose proof (tb_map _ _ H d (v / 1024) t (v mod 1024) Ht ltac:(zlia)) as Hm.
  replace (v / 1024 * 1024 + v mod 1024) with v in Hm by zlia. rewrite He in Hm. destruct (present (load s (t * 1024 + v mod 1024))) eqn:E; [|done].
  injection Hm as ->. split; [apply (tb_words _ _ H)|done].
Qed.

Section SharePass.
Context (s : machine) (g : vm) (d : Z).
Hypothesis Hrep : rep s g [].
Hypothesis Hcur : current s g d.
Hypothesis Hdirs : (size (dirs g) < 255)%nat.
Notation all := (alen (pages_upto g d USER_PAGES)).

Lemma share_step n st g1 e : shared s g d n st g1 -> 0 <= n < USER_PAGES -> maps g1 !! (d, n) = Some e ->
  exists g', shared s g d (n + 1) (share_page all st (n / 1024) (n mod 1024)) g'.
Proof.
  intros [Hr R C Hro Hm Hp Hl] Hn He. destruct st as [s1 pages]. cbn [fst snd] in *. pose proof (rp_tables _ _ _ Hrep) as T. pose proof (rp_tables _ _ _ R) as T1.
  assert (Hc1 : current s1 g1 d) by (destruct Hcur; split; [congruence|by rewrite Hro]).
  assert (He0 : maps g !! (d, n) = Some e) by (rewrite Hm, decide_False in He by lia; done).
  pose proof (page_entry s1 g1 d n T1 Hc1 Hn) as Hpe. rewrite He in Hpe. destruct Hpe as (_ & Hk & Hpr & Hu). unfold share_page.
  subst pages. assert (El : alen (record_of g d <$> pages_upto g d n) = alen (pages_upto g d n)) by (unfold alen; by rewrite length_fmap).
  pose proof (pages_upto_more g d n Hn ltac:(by eexists)). rewrite El. destruct (Z.leb_spec all (alen (pages_upto g d n))); [lia|].
  rewrite Hk, vaddr_of, frame_addr_eq by (done || lia). destruct (tight_spec e Hu) as (_ & Tf & _).
  assert (Hno : e / 4096 ∉ (fun v => entry_of g d v / 4096) <$> pages_upto g d n).
  { rewrite list_elem_of_fmap. intros (v & E & Hv). apply pages_upto_elem in Hv as [Hv [x Hx]]. rewrite (entry_of_eq _ _ _ _ Hx) in E.
    pose proof (rp_once _ _ _ Hrep d n v e x He0 Hx E). lia. }
  pose proof (refs_dirs (maps g1) (dirs g) (e / 4096) (rp_once _ _ _ R)) as Hrf.
  pose proof (share_entry s1 g1 _ d n e R Hc1 He Hu Hpr) as Hsh. rewrite (cnt_none _ _ Hno) in Hsh.
  destruct Hsh as (g' & R' & Hro' & C' & Hm' & Hl').
  { assert (refs (maps g1) (e / 4096) <= Z.of_nat (size (dirs g))); [|lia]. apply Hrf. intros d' v x Hx. apply elem_dirs. rewrite <- Hro. by apply (maps_dir s1 g1 d' v x). }
  assert (Hrec : record_of g d n = mkPage (n * 4096) (e / 4096 * 4096) (tight e mod 4096)) by (unfold record_of; by rewrite (entry_of_eq _ _ _ _ He0), Tf).
  assert (Hif : forall fl, (if negb (Z.land (Z.land e 0xFFF) 2 =? 0) then
     (kwrite (with_phys s1 (pmm_ref_frame (phys s1) (e / 4096 * 4096))) (pt_at (n / 1024) (n mod 1024)) (Z.lor (e / 4096 * 4096) fl), fl)
     else (with_phys s1 (pmm_ref_frame (phys s1) (e / 4096 * 4096)), Z.land e 0xFFF)) = 
     if Z.testbit e 1 then (kwrite (with_phys s1 (pmm_ref_frame (phys s1) (e / 4096 * 4096))) (pt_at (n / 1024) (n mod 1024)) (Z.lor (e / 4096 * 4096) fl), fl)
     else (with_phys s1 (pmm_ref_frame (phys s1) (e / 4096 * 4096)), Z.land e 0xFFF)).
  { intros fl. rewrite <- Z.land_assoc. change (Z.land 0xFFF 2) with 2. by rewrite land2, negb_involutive. }
  cbv zeta. rewrite Hif. clear Hif. exists g'. change PAGE_COW with (bit32 9). change (not32 2) with (not32 (bit32 1)).
  change (Z.lor (Z.land (Z.land e 0xFFF) (not32 (bit32 1))) (bit32 9)) with (swap_flags 1 9 e).
  destruct (swap_flags_spec 1 9 e Hu) as [Hfl _]; [lia|lia|]. rewrite lor_flags by done.
  assert (Hstate : (let '(s2, fl) := if Z.testbit e 1 then (kwrite (with_phys s1 (pmm_ref_frame (phys s1) (e / 4096 * 4096))) (pt_at (n / 1024) (n mod 1024)) (e / 4096 * 4096 + swap_flags 1 9 e), swap_flags 1 9 e)
     else (with_phys s1 (pmm_ref_frame (phys s1) (e / 4096 * 4096)), Z.land e 0xFFF) in
     (s2, (record_of g d <$> pages_upto g d n) ++ [mkPage (n * 4096) (e / 4096 * 4096) fl])) =
     (if Z.testbit e 1 then kwrite (with_phys s1 (pmm_ref_frame (phys s1) (e / 4096 * 4096))) (pt_at (n / 1024) (n mod 1024)) (tight e)
      else with_phys s1 (pmm_ref_frame (phys s1) (e / 4096 * 4096)), record_of g d <$> pages_upto g d (n + 1))).
  { rewrite pages_upto_step, He0, fmap_app by lia. cbn [fmap list_fmap]. rewrite Hrec. unfold tight. rewrite land_flags.
    destruct (Z.testbit e 1); [|done]. do 4 f_equal. zlia. }
  rewrite Hstate. clear Hstate. split; cbn [fst snd]; try done; try lia; try congruence.
  - destruct R' as [(m & Hm1 & Hcn) ? ? ? ?]. split; try done. exists m. split; [done|]. apply (counts_perm _ _ _ _ _ Hcn).
    rewrite pages_upto_step, He0, fmap_app by lia. cbn [fmap list_fmap]. rewrite (entry_of_eq _ _ _ _ He0). by rewrite Permutation_app_comm.
  - intros d' v. rewrite Hm'. destruct (decide ((d', v) = (d, n))) as [[= -> ->]|Hne].
    + by rewrite lookup_insert_eq, decide_True, He0 by lia.
    + rewrite lookup_insert_ne by congruence. rewrite Hm. case_decide as H1; case_decide as H2; try done; [lia|]. destruct H1. destruct H2 as [-> H2]. split; [done|].
      assert (v <> n) by congruence. lia.
  - intros f j Hf Hj. rewrite Hl' by (by rewrite ?Hro). by apply Hl.
Qed.

Lemma share_pass : exists g', shared s g d USER_PAGES (for_user_pages fst (share_page all) (s, [])) g'.
Proof.
  apply (for_user_pages_ind _ _ d (fun n st g' => shared s g d n st g')) with (g := g).
  - intros n st g' H. split; [apply H|]. destruct Hcur, H. split; congruence.
  - intros n st g' [Hr R C Hro Hm Hp Hl] Hn Hnone. assert (Hn0 : maps g !! (d, n) = None) by (rewrite Hm, decide_False in Hnone by lia; done).
    assert (E : pages_upto g d (n + 1) = pages_upto g d n) by (by rewrite pages_upto_step, Hn0, app_nil_r by lia).
    split; rewrite ?E; try done; [lia|]. intros d' v. rewrite Hm. case_decide as H1; case_decide as H2; try done; [lia|].
    destruct H2 as [-> H2]. assert (v = n) as -> by lia. by rewrite Hn0.
  - intros n st g' e H Hn He. by apply (share_step n st g' e).
  - split; cbn [fst snd]; try done. intros d' v. case_decide as H1; [|done]. destruct H1 as [-> Hv]. destruct (maps g !! (d, v)) as [e|] eqn:E; [|done]. exfalso.
    pose proof (rp_tables _ _ _ Hrep) as T. destruct (tb_dom _ _ T _ _ _ E) as [t Ht]. destruct (tb_tab _ _ T _ _ _ Ht) as (_ & _ & Hi & _). zlia.
Qed.
End SharePass.

(** ** The second pass: the new directory *)

Section InstallPass.
Context (E : Z -> Z) (d : Z).

Definition page_of (v : Z) : copied_page := mkPage (v * 4096) (E v / 4096 * 4096) (E v mod 4096).

(** The pages that are still to come. *)
Record to_install (g : vm) (vs : list Z) : Prop := {
  ti_page : forall v, v ∈ vs -> 0 <= v < USER_PAGES /\ is_u32 (E v) /\ present (E v) = true /\ Z.testbit (E v) 1 = false /\ Z.testbit (E v) 2 = true /\ maps g !! (d, v) = None;
  ti_cow : forall v k x, v ∈ vs -> maps g !! k = Some x -> x / 4096 = E v / 4096 -> Z.testbit x 1 = false;
  ti_once : forall v v' x, v ∈ vs -> maps g !! (d, v') = Some x -> x / 4096 <> E v / 4096;
  ti_nodup : NoDup ((fun v => E v / 4096) <$> vs)
}.

Lemma to_install_tail g v vs g' : to_install g (v :: vs) -> maps g' = <[(d, v) := E v]> (maps g) -> to_install g' vs.
Proof.
  intros [Hp Hc Ho Hn] Hm. cbn [fmap list_fmap] in Hn. apply NoDup_cons in Hn as [Hnv Hn].
  assert (Hne : forall v', v' ∈ vs -> E v / 4096 <> E v' / 4096).
  { intros v' Hv' Eq. apply Hnv. rewrite list_elem_of_fmap. by exists v'. }
  split; [| | |done]; intros v' Hv'.
  - destruct (Hp v') as (H1 & H2 & H3 & H4 & H4' & H5); [set_solver|]. rewrite Hm, lookup_insert_ne; [done|]. intros [= <-]. by apply (Hne v).
  - intros x Hin Hx Eq. rewrite Hm in Hx. apply lookup_insert_Some in Hx as [[_ <-]|[_ Hx]]; [apply Hp; set_solver|]. apply (Hc v' Hv' x); [set_solver|done|done].
  - intros x Hin Hx. rewrite Hm in Hx. apply lookup_insert_Some in Hx as [[_ <-]|[_ Hx]]; [by apply Hne|]. apply (Ho v' Hv' x); [set_solver|done].
Qed.

Lemma install_spec vs : forall s g, rep s g ((fun v => E v / 4096) <$> vs) -> current s g d -> to_install g vs ->
  let '(s', missed) := install_pages s (page_of <$> vs) in
  exists g' made rest, vs = made ++ rest /\ missed = page_of <$> rest /\ rep s' g' ((fun v => E v / 4096) <$> rest) /\ keeps s g s' g' /\
    forall d' v, maps g' !! (d', v) = if decide (d' = d /\ v ∈ made) then Some (E v) else maps g !! (d', v).
Proof.
  induction vs as [|v vs IH]; intros s g H Hc Hi.
  { cbn. exists g, [], []. split_and!; try done. intros d' v. rewrite decide_False; [done|]. set_solver. }
  cbn [fmap list_fmap install_pages page_of cp_vaddr cp_frame cp_flags] in *. destruct (ti_page _ _ Hi v ltac:(set_solver)) as (Hv & Hu & Hp & H1 & H2 & Hn).
  assert (Hfl : 0 <= E v mod 4096 < 4096) by zlia. assert (Hb : forall k, 0 <= k < 12 -> Z.testbit (E v mod 4096) k = Z.testbit (E v) k).
  { intros k Hk. change 4096 with (2 ^ 12). by rewrite Z.mod_pow2_bits_low by lia. }
  pose proof (map_page_user s g _ d v (E v / 4096) (E v mod 4096) H Hc Hv Hn Hfl) as Hmap. destruct (map_page s _ _ _) as [r s1].
  destruct Hmap as [(-> & R & K)|(-> & g1 & R & K & Hm)].
  - by rewrite Hb, <- present_testbit by lia.
  - by rewrite Hb by lia.
  - intros k x Hx Eq. split; [apply (ti_cow _ _ Hi v k x); (done || set_solver)|by rewrite Hb by lia].
  - intros v' x Hx. apply (ti_once _ _ Hi v v' x); (done || set_solver).
  - cbn [Z.eqb E_NOMEM E_OK negb]. exists g, [], (v :: vs). split_and!; try done. intros d' v'. rewrite decide_False; [done|]. set_solver.
  - cbn [Z.eqb E_OK negb]. replace (E v / 4096 * 4096 + E v mod 4096) with (E v) in Hm by zlia.
    assert (Hc1 : current s1 g1 d) by (destruct Hc as [Hcr Hd]; split; [by rewrite (kp_cr3 _ _ _ _ K)|by apply (kp_role _ _ _ _ K)]).
    specialize (IH s1 g1 R Hc1 (to_install_tail _ _ _ _ Hi Hm)). destruct (install_pages s1 _) as [s' missed].
    destruct IH as (g' & made & rest & -> & -> & R' & K' & Hm'). exists g', (v :: made), rest. split_and!; try done; [by apply (keeps_trans s g s1 g1)|].
    intros d' v'. rewrite Hm', Hm. destruct (decide ((d', v') = (d, v))) as [[= -> ->]|Hne].
    + rewrite lookup_insert_eq, (decide_True (P := d = d /\ v ∈ v :: made)) by set_solver. by case_decide.
    + rewrite lookup_insert_ne by congruence. case_decide as D1; case_decide as D2; try done; set_solver.
Qed.
End InstallPass.

(** Frames that were taken in vain go back: another entry still owns them. *)
Lemma free_one s g f pend : rep s g (f :: pend) -> 1 <= refs (maps g) f -> rep (with_phys s (pmm_free_frame (phys s) (f * 4096))) g pend.
Proof.
  intros [(m & Hm & Hcn) T Hcow Hon Hus] Hr. destruct (free_frame_inv _ _ (f * 4096) Hm) as [Hm1 _]. change PAGE_SIZE with 4096 in Hm1. rewrite Z.div_mul in Hm1 by lia.
  split; [|by apply tables_phys|done|done|done]. exists (free_spec m f). split; [done|]. pose proof (counts_free _ _ _ _ _ Hcn) as C. unfold release in C.
  rewrite decide_False in C; [done|]. rewrite (ct_data _ _ _ _ Hcn f) by (apply (ct_pend _ _ _ _ Hcn); set_solver).
  rewrite cnt_cons. pose proof (cnt_nonneg pend f). unfold one. rewrite decide_True by done. intros [= Eq]. lia.
Qed.

Lemma free_many E g rest : forall s, rep s g ((fun v => E v / 4096) <$> rest) -> (forall v, v ∈ rest -> 1 <= refs (maps g) (E v / 4096)) ->
  rep (with_phys s (foldl (fun p c => pmm_free_frame p (cp_frame c)) (phys s) (page_of E <$> rest))) g [].
Proof.
  induction rest as [|v rest IH]; intros s H Hr; [by destruct s|]. cbn [fmap list_fmap foldl page_of cp_frame].
  change (pmm_free_frame (phys s) (E v / 4096 * 4096)) with (phys (with_phys s (pmm_free_frame (phys s) (E v / 4096 * 4096)))).
  change (with_phys s (foldl ?f ?p ?l)) with (with_phys (with_phys s (pmm_free_frame (phys s) (E v / 4096 * 4096))) (foldl f p l)).
  apply IH; [|intros v' Hv'; apply Hr; set_solver]. apply free_one; [done|]. apply Hr. set_solver.
Qed.

(** ** The copy as a whole *)

Lemma rep_cr3 s g pend x : rep s g pend -> rep (with_cr3 s x) g pend.
Proof. intros [H1 [] H3 H4 H5]. split; [done|split; done|done|done|done]. Qed.

(** The same entry, tightened or not, shows the same words. *)
Lemma view_same s s' g g' d d' w : tables s g ->
  (maps g' !! (d', w / 1024) = maps g !! (d, w / 1024) \/ maps g' !! (d', w / 1024) = tight <$> maps g !! (d, w / 1024)) ->
  (forall f j, role g !! f = Some Data -> 0 <= j < 1024 -> load s' (f * 1024 + j) = load s (f * 1024 + j)) -> view s' g' d' w = view s g d w.
Proof.
  intros H Hm Hl. unfold view. destruct (maps g !! (d, w / 1024)) as [e|] eqn:E; [|by destruct Hm as [-> | ->]].
  assert (Hj : 0 <= w mod 1024 < 1024) by zlia. pose proof (Hl _ _ (tb_data _ _ H _ _ E) Hj) as Hle. destruct Hm as [-> | ->]; cbn [fmap option_fmap option_map].
  - by rewrite Hle.
  - destruct (tight_spec e) as (_ & -> & _ & _ & -> & ->); [by apply (maps_u32 s g _ _ H E)|]. by rewrite Hle.
Qed.

Lemma copy_shared s g d d2 st g1 : rep s g [] -> role g !! d2 = Some Dir -> d2 <> d -> (forall v, maps g !! (d2, v) = None) ->
  shared s g d USER_PAGES st g1 -> to_install (fun v => tight (entry_of g d v)) d2 g1 (pages_upto g d USER_PAGES).
Proof.
  intros H Hd2 Hne Hn [_ R _ Hro Hm _ _]. pose proof (rp_tables _ _ _ H) as T.
  assert (Hin : forall v, v ∈ pages_upto g d USER_PAGES -> exists e, maps g !! (d, v) = Some e /\ entry_of g d v = e /\ is_u32 e /\ present e = true /\ 0 <= v < USER_PAGES).
  { intros v Hv. apply pages_upto_elem in Hv as [Hv [e He]]. exists e. destruct (maps_u32 s g _ _ T He). split; [done|]. split; [by apply entry_of_eq|done]. }
  assert (Hmd : forall v e, maps g !! (d, v) = Some e -> 0 <= v < USER_PAGES -> maps g1 !! (d, v) = Some (tight e)).
  { intros v e He Hv. by rewrite Hm, decide_True, He by lia. }
  split.
  - intros v Hv. destruct (Hin v Hv) as (e & He & -> & Hu & Hp & Hr). destruct (tight_spec e Hu) as (Tu & _ & Tp & T1 & T2 & _).
    pose proof (rp_user _ _ _ H _ _ He). do 5 (split; [done || congruence|]). rewrite Hm, decide_False, Hn by lia. done.
  - intros v k x Hv Hx Eq. destruct (Hin v Hv) as (e & He & Ee & Hu & Hp & Hr). rewrite Ee in Eq. pose proof (Hmd v e He Hr) as Ht.
    destruct (decide (k = (d, v))) as [->|Hk]; [|by apply (rp_cow _ _ _ R k (d, v) x (tight e))]. rewrite Ht in Hx. injection Hx as <-. apply (tight_spec e Hu).
  - intros v v' x Hv Hx. rewrite Hm, decide_False, Hn in Hx by lia. done.
  - apply NoDup_fmap_2_strong; [|apply pages_upto_nodup]. intros v v' Hv Hv' Eq. destruct (Hin v Hv) as (e & He & Ee & Hu & _). destruct (Hin v' Hv') as (e' & He' & Ee' & Hu' & _).
    rewrite Ee, Ee' in Eq. destruct (tight_spec e Hu) as (_ & Tf & _). destruct (tight_spec e' Hu') as (_ & Tf' & _). apply (rp_once _ _ _ H d v v' e e'); congruence.
Qed.

Lemma copy_spec s g d d2 listed : rep s g [] -> current s g d -> role g !! d2 = Some Dir -> d2 <> d -> (forall v, maps g !! (d2, v) = None) -> (size (dirs g) < 255)%nat ->
  let '(r, s') := copy_user_space s (d2 * 4096) listed in
  exists g', rep s' g' [] /\ same_dirs g g' /\ cr3 s' = cr3 s /\ (forall d' w, d' <> d2 -> view s' g' d' w = view s g d' w) /\
    (r = E_OK /\ (forall w, view s' g' d2 w = view s g d w) \/ r = E_NOMEM).
Proof.
  intros H Hc Hd2 Hne Hn Hsz. pose proof (rp_tables _ _ _ H) as T. unfold copy_user_space. assert (Hlow : 256 <= d2).
  { destruct H as [(m & _ & Hcn) _ _ _ _]. by apply (ct_range _ _ _ _ Hcn d2 Dir). }
  destruct (Z.eqb_spec (d2 * 4096) 0); [lia|]. rewrite (count_pages s g d T Hc). cbv zeta.
  assert (Hrange : forall v e, maps g !! (d, v) = Some e -> v ∈ pages_upto g d USER_PAGES).
  { intros v e He. apply pages_upto_elem. split; [|by eexists]. destruct (tb_dom _ _ T _ _ _ He) as [t Ht]. destruct (tb_tab _ _ T _ _ _ Ht) as (_ & _ & Hi & _). unfold USER_PAGES. zlia. }
  destruct (Z.eqb_spec (alen (pages_upto g d USER_PAGES)) 0) as [E0|_].
  { exists g. split_and!; try done. left. split; [done|]. intros w. unfold view. rewrite Hn. destruct (maps g !! (d, w / 1024)) as [e|] eqn:E; [|done]. apply Hrange in E.
    destruct (pages_upto g d USER_PAGES); [set_solver|done]. }
  destruct listed; cbn [negb]; [|exists g; split_and!; try done; by right].
  destruct (share_pass s g d H Hc Hsz) as [g1 Hsh]. pose proof (copy_shared s g d d2 _ g1 H Hd2 Hne Hn Hsh) as Hti.
  destruct (for_user_pages _ _ _) as [s1 pages]. destruct Hsh as [_ R C Hro Hm Hp Hl]. cbn [fst snd] in *. subst pages.
  set (E := fun v => tight (entry_of g d v)) in *. change (record_of g d) with (page_of E).
  assert (R1 : rep (with_cr3 s1 (d2 * 4096)) g1 ((fun v => E v / 4096) <$> pages_upto g d USER_PAGES)).
  { apply rep_cr3. replace ((fun v => E v / 4096) <$> pages_upto g d USER_PAGES) with ((fun v => entry_of g d v / 4096) <$> pages_upto g d USER_PAGES); [done|].
    apply list_fmap_ext. intros i v Hv. apply list_elem_of_lookup_2, pages_upto_elem in Hv as [_ [e He]]. unfold E. rewrite (entry_of_eq _ _ _ _ He).
    by destruct (tight_spec e (proj1 (maps_u32 s g _ _ T He))) as (_ & -> & _). }
  assert (Hc2 : current (with_cr3 s1 (d2 * 4096)) g1 d2) by (split; [done|by rewrite Hro]).
  pose proof (install_spec E d2 _ _ _ R1 Hc2 Hti) as Hin. destruct (install_pages _ _) as [s2 missed].
  destruct Hin as (g2 & made & rest & Hsplit & -> & R2 & K & Hm2).
  assert (Hother : forall d' v, d' <> d2 -> maps g2 !! (d', v) = maps g1 !! (d', v)) by (intros d' v Hd'; rewrite Hm2, decide_False by lia; done).
  assert (Hown : forall v, v ∈ rest -> 1 <= refs (maps g2) (E v / 4096)).
  { intros v Hv. assert (Hv' : v ∈ pages_upto g d USER_PAGES) by (rewrite Hsplit; set_solver). apply pages_upto_elem in Hv' as [Hr [e He]].
    assert (Ht : maps g2 !! (d, v) = Some (E v)); [|by apply (refs_pos _ _ _ Ht)]. rewrite Hother, Hm, decide_True, He by lia. unfold E. by rewrite (entry_of_eq _ _ _ _ He). }
  pose proof (free_many E g2 rest (with_cr3 s2 (cr3 s1)) ltac:(by apply rep_cr3) Hown) as R3. exists g2. split; [done|]. split.
  { intros d'. split; intros Hd'; [apply (kp_dir _ _ _ _ K) in Hd'; congruence|apply (kp_role _ _ _ _ K); congruence]. }
  split; [done|].
  assert (Hl2 : forall f j, role g !! f = Some Data -> 0 <= j < 1024 -> load s2 (f * 1024 + j) = load s (f * 1024 + j)).
  { intros f j Hf Hj. rewrite (kp_data _ _ _ _ K) by (congruence || done). by apply Hl. }
  split.
  - intros d' w Hd'. apply view_same; [done| |done]. rewrite Hother, Hm by done. case_decide; auto.
  - destruct (decide (page_of E <$> rest = [])) as [Er|Er]; [rewrite bool_decide_true by done; left|rewrite bool_decide_false by done; by right]. split; [done|].
    intros w. apply view_same; [done| |done]. right. apply fmap_nil_inv in Er as ->. rewrite app_nil_r in Hsplit. rewrite Hm2, <- Hsplit.
    destruct (maps g !! (d, w / 1024)) as [e|] eqn:Ee.
    + rewrite decide_True by (split; [done|by apply (Hrange _ e)]). unfold E. by rewrite (entry_of_eq _ _ _ _ Ee).
    + rewrite decide_False, Hm, decide_False, Hn by (lia || (intros [_ Hin]; apply pages_upto_elem in Hin as [_ [? ?]]; congruence)). done.
Qed.

End PagingShare.
