(* ===== verification/PagingExit.v ===== *)
(** * The end of an address space, and fork

    [cleanup_process_memory] gives back what a directory owned and nothing else;
    with it, fork as a whole either makes a copy or leaves no trace. *)

From S2P Require Import Prelude Pmm Paging PagingInv PagingOps PagingFork PagingShare.

Module PagingExit.
Import Pmm Paging PagingInv PagingOps PagingFork PagingShare.

(** ** Giving frames back *)

(** Some pages have lost their last owner. *)
Definition shrunk (rl rl' : gmap Z use) : Prop := forall f, rl' !! f = rl !! f \/ (rl !! f = Some Data /\ rl' !! f = None).

Lemma shrunk_refl rl : shrunk rl rl.
Proof. intros f. by left. Qed.

Lemma shrunk_trans rl rl1 rl2 : shrunk rl rl1 -> shrunk rl1 rl2 -> shrunk rl rl2.
Proof. intros H1 H2 f. destruct (H1 f) as [E1|[E1 E1']], (H2 f) as [E2|[E2 E2']]; try (left; congruence); right; split; congruence. Qed.

Lemma shrunk_back rl rl' f u : shrunk rl rl' -> rl' !! f = Some u -> rl !! f = Some u.
Proof. intros H Hf. destruct (H f) as [E|[_ E]]; congruence. Qed.

Lemma shrunk_keep rl rl' f u : shrunk rl rl' -> rl !! f = Some u -> u <> Data -> rl' !! f = Some u.
Proof. intros H Hf Hu. destruct (H f) as [E|[E _]]; congruence. Qed.

Lemma shrunk_delete rl rl' t : shrunk rl rl' -> shrunk (delete t rl) (delete t rl').
Proof. intros H f. destruct (decide (f = t)) as [->|Hne]; [left; by rewrite !lookup_delete_eq|]. rewrite !lookup_delete_ne by done. apply H. Qed.

Definition with_role (g : vm) (rl : gmap Z use) : vm := mkVm (tabs g) (maps g) rl (temp g).

Lemma tables_shrink s g rl' : tables s g -> shrunk (role g) rl' -> (forall k e, maps g !! k = Some e -> rl' !! (e / 4096) = Some Data) -> tables s (with_role g rl').
Proof.
  intros H Hs Hm. assert (HB : forall f u, rl' !! f = Some u -> role g !! f = Some u) by (intros; by apply (shrunk_back _ rl')).
  split; cbn [with_role tabs maps role temp]; try apply H.
  - intros f u Hf. by apply (tb_range _ _ H f u), HB.
  - intros t d i Hf. by apply (tb_role _ _ H), HB.
  - intros d i t Ht. destruct (tb_tab _ _ H _ _ _ Ht) as (H1 & H2 & Hrest). split; [by apply (shrunk_keep _ _ _ _ Hs H1)|]. split; [by apply (shrunk_keep _ _ _ _ Hs H2)|done].
  - intros d i Hd. by apply (tb_notab _ _ H), HB.
  - done.
  - intros d Hd. by apply (tb_rec _ _ H), HB.
  - intros d Hd. by apply (tb_temp _ _ H), HB.
  - apply (shrunk_keep _ _ _ _ Hs (tb_kern _ _ H)). done.
Qed.

(** An entry goes, and the page with it when it was the last. *)
Lemma free_entry p m rl mp pend k e : pmm_inv p m -> counts m rl mp pend -> mp !! k = Some e ->
  exists m' rl', pmm_inv (pmm_free_frame p (e / 4096 * 4096)) m' /\ counts m' rl' (delete k mp) pend /\ shrunk rl rl'.
Proof.
  intros Hp Hc Hk. destruct (free_frame_inv _ _ (e / 4096 * 4096) Hp) as [Hp' _]. change PAGE_SIZE with 4096 in Hp'. rewrite Z.div_mul in Hp' by lia.
  exists (free_spec m (e / 4096)), (release m rl (e / 4096)). split; [done|]. split; [by apply counts_free, counts_uninstall|].
  intros f. unfold release. case_decide; [|by left]. destruct (decide (f = e / 4096)) as [->|Hne]; [|left; by rewrite lookup_delete_ne].
  right. split; [by apply (ct_maps _ _ _ _ Hc k)|apply lookup_delete_eq].
Qed.

(** ** One table *)

Section DropTable.
Context (s : machine) (g : vm) (d i t : Z).
Hypothesis Hrep : rep s g [].
Hypothesis Hcur : current s g d.
Hypothesis Htab : tabs g !! (d, i) = Some t.

(** After the entries below [j]. *)
Definition freed_upto (j : Z) (s' : machine) : Prop := exists p m rl mp, s' = with_phys s p /\ pmm_inv p m /\ counts m rl mp [] /\ shrunk (role g) rl /\
  forall k, mp !! k = if decide (of_table d i k /\ k.2 < i * 1024 + j) then None else maps g !! k.

(** The table is read while its pages go. *)
Lemma release_pages_spec : exists p m rl mp, (release_pages s i) = with_phys s p /\ pmm_inv p m /\ counts m rl mp [] /\ shrunk (role g) rl /\
  forall k, mp !! k = if decide (of_table d i k) then None else maps g !! k.
Proof.
  pose proof (rp_tables _ _ _ Hrep) as T. destruct (tb_tab _ _ T _ _ _ Htab) as (Hrt & _ & Hi & _).
  assert (HP : freed_upto 1024 (release_pages s i)).
  { unfold release_pages. apply (for_range_ind freed_upto); [lia| |].
    - destruct (rp_counts _ _ _ Hrep) as (m & Hm & Hc). exists (phys s), m, (role g), (maps g). split; [by destruct s|]. split_and!; try done; [apply shrunk_refl|].
      intros k. rewrite decide_False; [done|]. intros [[_ Hk] Hlt]. zlia.
    - intros j s' Hj (p & m & rl & mp & -> & Hp & Hc & Hs & Hm). set (v := i * 1024 + j). assert (Ei : v / 1024 = i) by (unfold v; zlia). assert (Ej : v mod 1024 = j) by (unfold v; zlia).
      destruct (entry_at (with_phys s p) g d v t) as (Hk & _ & Hv); [by apply tables_phys|done|by rewrite Ei|]. rewrite Ei, Ej in Hk. rewrite Ej in Hv. cbv zeta. rewrite Hk.
      set (e := load (with_phys s p) (t * 1024 + j)) in *. destruct (present e) eqn:Ep.
      + assert (Hmv : mp !! (d, v) = Some e) by (rewrite Hm, decide_False; [done|]; cbn; lia).
        destruct (free_entry p m rl mp [] (d, v) e Hp Hc Hmv) as (m' & rl' & Hp' & Hc' & Hs'). exists (pmm_free_frame p (e / 4096 * 4096)), m', rl', (delete (d, v) mp).
        rewrite frame_addr_eq by apply (tb_words _ _ T). split_and!; try done; [by apply (shrunk_trans _ rl)|]. intros [d' v']. destruct (decide ((d', v') = (d, v))) as [[= -> ->]|Hne].
        * rewrite lookup_delete_eq, decide_True; [done|]. unfold of_table. cbn. lia.
        * rewrite lookup_delete_ne, Hm by congruence. unfold of_table. cbn. case_decide as D1; case_decide as D2; try done; [lia|].
          destruct D1. destruct D2 as [[-> D2] D3]. assert (v' <> v) by congruence. lia.
      + exists p, m, rl, mp. split_and!; try done. intros [d' v']. rewrite Hm. unfold of_table. cbn. case_decide as D1; case_decide as D2; try done; [lia|].
        destruct D2 as [[-> D2] D3]. assert (v' = v) as -> by lia. done. }
  destruct HP as (p & m & rl & mp & E & Hp & Hc & Hs & Hm). exists p, m, rl, mp. split; [exact E|]. clear E. split_and!; try done. intros k. rewrite Hm.
  case_decide as D1; case_decide as D2; try done; [tauto|]. destruct D1. split; [done|]. destruct D2 as [_ D2]. zlia.
Qed.

Lemma drop_table_spec :
  let s1 := with_phys (release_pages s i) (pmm_free_frame (phys (release_pages s i)) (frame_addr (kread (release_pages s i) (pd_at i)))) in
  let s' := kwrite s1 (pd_at i) 0 in
  exists g', rep s' g' [] /\ same_dirs g g' /\ cr3 s' = cr3 s /\ tabs g' = delete (d, i) (tabs g) /\ (forall d' w, d' <> d -> view s' g' d' w = view s g d' w).
Proof.
  intros s1 s'. pose proof (rp_tables _ _ _ Hrep) as T. destruct (tb_tab _ _ T _ _ _ Htab) as (Hrt & Hrd & Hi & _ & Htf & _).
  destruct release_pages_spec as (p & m & rl & mp & E & Hp & Hc & Hs & Hm). unfold s', s1. rewrite E. clear s' s1 E.
  pose proof (current_recursive _ _ _ T Hcur) as [Hcr Hslot Hw]. assert (Hr1 : forall q, recursive (with_phys s q) d) by (intros q; split; done).
  rewrite (kread_pd _ d i (Hr1 p)) by lia. change (load (with_phys s p) ?a) with (load s a). rewrite frame_addr_eq, Htf by apply Hw.
  change (with_phys (with_phys s ?a) ?b) with (with_phys s b). rewrite (kwrite_pd _ d i 0 (Hr1 _)) by lia. cbn [phys with_phys].
  assert (Hrt' : rl !! t = Some (Tab d i)) by (by apply (shrunk_keep _ _ _ _ Hs Hrt)).
  pose proof (counts_free_table _ _ _ _ _ _ Hc Hrt' ltac:(done) ltac:(done)) as Hc'.
  destruct (free_frame_inv _ _ (t * 4096) Hp) as [Hp' _]. change PAGE_SIZE with 4096 in Hp'. rewrite Z.div_mul in Hp' by lia.
  assert (Emp : mp = maps (drop_tab g d i t)).
  { apply map_eq. intros k. rewrite Hm. destruct (maps (drop_tab g d i t) !! k) as [e|] eqn:Ek.
    - apply drop_tab_maps in Ek as [Ek Hk]. by rewrite decide_False.
    - case_decide as D; [done|]. destruct (maps g !! k) as [e|] eqn:Eg; [|done]. assert (Hx : maps (drop_tab g d i t) !! k = Some e) by (by apply drop_tab_maps). congruence. }
  subst mp. assert (Hsub : forall k e, maps (drop_tab g d i t) !! k = Some e -> maps g !! k = Some e) by (intros k e He; by apply drop_tab_maps in He as [? ?]).
  exists (with_role (drop_tab g d i t) (delete t rl)). split; [|split; [|split; [|split]]]; try done.
  - split.
    + eexists. split; [exact Hp'|done].
    + apply tables_shrink; [by apply tables_drop_tab; [apply tables_phys|]|by apply shrunk_delete|]. intros k e He. by apply (ct_maps _ _ _ _ Hc' k).
    + intros k k' e e' Hne Hk Hk'. by apply (rp_cow _ _ _ Hrep k k'); try done; apply Hsub.
    + intros d' v v' e e' Hv Hv'. by apply (rp_once _ _ _ Hrep d'); apply Hsub.
    + intros k e He. by apply (rp_user _ _ _ Hrep k), Hsub.
  - intros d'. cbn [role with_role]. destruct (decide (d' = t)) as [->|Hne]; [rewrite lookup_delete_eq, Hrt; done|]. rewrite lookup_delete_ne by done.
    split; [by apply shrunk_back|]. intros Hd. by apply (shrunk_keep _ _ _ _ Hs Hd).
  - intros d' w Hd'. unfold view. cbn [with_role maps]. rewrite Hm, decide_False by (intros [? _]; done). destruct (maps g !! (d', w / 1024)) as [e|] eqn:Ee; [|done]. case_match; [|done].
    rewrite load_store. destruct (Z.eqb_spec (e / 4096 * 1024 + w mod 1024) (d * 1024 + i)) as [Eq|]; [|done]. exfalso.
    by apply (word_ne_role g (e / 4096) d Data Dir) in Eq; [..|apply (tb_data _ _ T _ _ Ee)|done|done|zlia|lia].
Qed.
End DropTable.

(** ** A whole directory *)

Section Cleanup.
Context (s : machine) (g : vm) (d d2 : Z).
Hypothesis Hrep : rep s g [].
Hypothesis Hcur : current s g d.
Hypothesis Hd2 : role g !! d2 = Some Dir.
Hypothesis Hne : d2 <> d.

(** After the tables below [i]. *)
Definition emptied_upto (i : Z) (s' : machine) : Prop := exists g', rep s' g' [] /\ current s' g' d2 /\ same_dirs g g' /\
  (forall i', 0 <= i' < i -> tabs g' !! (d2, i') = None) /\ forall d' w, d' <> d2 -> view s' g' d' w = view s g d' w.

Lemma empty_directory : emptied_upto 768 (release_tables (with_cr3 s (d2 * 4096))).
Proof.
  unfold release_tables. apply (for_range_ind emptied_upto); [lia| |].
  - exists g. split; [by apply rep_cr3|]. split_and!; try done. lia.
  - intros i s' Hi (g' & R & C & D & Hn & V). pose proof (rp_tables _ _ _ R) as T. unfold release_table. rewrite (kread_pd s' d2 i) by (lia || by apply (current_recursive s' g')).
    destruct (tabs g' !! (d2, i)) as [t|] eqn:Et.
    + destruct (tb_tab _ _ T _ _ _ Et) as (_ & _ & _ & -> & _). cbn [negb]. pose proof (drop_table_spec s' g' d2 i t R C Et) as Hdrop. cbv zeta in Hdrop |- *. set (s2 := kwrite _ (pd_at i) 0) in *. clearbody s2. destruct Hdrop as (g2 & R2 & D2 & C2 & T2 & V2). exists g2.
      split; [done|]. split; [|split; [|split]].
      * destruct C as [C Hd]. split; [by rewrite C2|by apply D2].
      * intros d'. rewrite (D2 d'). apply D.
      * intros i' Hi'. rewrite T2. destruct (decide (i' = i)) as [->|Hne']; [apply lookup_delete_eq|]. rewrite lookup_delete_ne by congruence. apply Hn. lia.
      * intros d' w Hd'. rewrite V2 by done. by apply V.
    + rewrite (tb_notab _ _ T d2 i (proj2 C) Hi Et). cbn [negb]. exists g'. split_and!; try done; try apply C. intros i' Hi'. destruct (decide (i' = i)) as [->|]; [done|]. apply Hn. lia.
Qed.

Lemma remove_directory s1 : emptied_upto 768 s1 ->
  let s' := with_phys (with_cr3 s1 (d * 4096)) (pmm_free_frame (phys (with_cr3 s1 (d * 4096))) (d2 * 4096)) in
  exists g', rep s' g' [] /\ cr3 s' = cr3 s /\ (forall d', role g' !! d' = Some Dir <-> role g !! d' = Some Dir /\ d' <> d2) /\
    forall d' w, d' <> d2 -> view s' g' d' w = view s g d' w.
Proof.
  intros (g' & R & [C Hd2'] & D & Hn & V) s'. pose proof (rp_tables _ _ _ R) as T1. assert (Hnt : forall i, tabs g' !! (d2, i) = None).
  { intros i. destruct (tabs g' !! (d2, i)) as [t|] eqn:Et; [|done]. destruct (tb_tab _ _ T1 _ _ _ Et) as (_ & _ & Hi & _). by rewrite Hn in Et. }
  destruct R as [(m & Hm & Hcn) _ Hcow Hon Hus]. destruct (free_frame_inv _ _ (d2 * 4096) Hm) as [Hm' _]. change PAGE_SIZE with 4096 in Hm'. rewrite Z.div_mul in Hm' by lia.
  exists (drop_role g' d2). split; [|split; [by rewrite (proj1 Hcur)|split]].
  - split; [| |done|done|done].
    + eexists. split; [exact Hm'|]. by apply (counts_free_table _ _ _ _ _ Dir).
    + apply tables_phys, tables_drop_dir; [|done|done]. destruct T1; split; done.
  - intros d'. cbn. rewrite lookup_delete_Some, (D d'). split; intros [? ?]; split; congruence.
  - intros d' w Hd'. by rewrite <- (V d' w Hd').
Qed.

Lemma cleanup_eq page_directory : Z.land page_directory 0xFFFFF000 <> d2 * 4096 ->
  cleanup_process_memory s page_directory (d2 * 4096) =
  let s1 := release_tables (with_cr3 s (d2 * 4096)) in with_phys (with_cr3 s1 (d * 4096)) (pmm_free_frame (phys (with_cr3 s1 (d * 4096))) (d2 * 4096)).
Proof.
  intros Hk. pose proof (rp_tables _ _ _ Hrep) as T. destruct Hcur as [Hcr Hd]. pose proof (tb_range _ _ T _ _ Hd) as Hrd. pose proof (tb_range _ _ T _ _ Hd2) as Hrd2.
  assert (256 <= d2) by (destruct Hrep as [(m & _ & Hcn) _ _ _ _]; by apply (ct_range _ _ _ _ Hcn d2 Dir)).
  unfold cleanup_process_memory. rewrite Hcr. fold (frame_addr (d * 4096)) (frame_addr (d2 * 4096)). rewrite !frame_addr_eq, !Z.div_mul by (unfold is_u32; lia).
  destruct (Z.eqb_spec (d2 * 4096) 0); [lia|]. destruct (Z.eqb_spec (d2 * 4096) (d * 4096)); [lia|].
  destruct (Z.eqb_spec (d2 * 4096) (Z.land page_directory 0xFFFFF000)); [congruence|reflexivity].
Qed.

Lemma cleanup_spec page_directory : Z.land page_directory 0xFFFFF000 <> d2 * 4096 ->
  exists g', rep (cleanup_process_memory s page_directory (d2 * 4096)) g' [] /\ cr3 (cleanup_process_memory s page_directory (d2 * 4096)) = cr3 s /\
    (forall d', role g' !! d' = Some Dir <-> role g !! d' = Some Dir /\ d' <> d2) /\
    forall d' w, d' <> d2 -> view (cleanup_process_memory s page_directory (d2 * 4096)) g' d' w = view s g d' w.
Proof. intros Hk. rewrite (cleanup_eq _ Hk). apply remove_directory, empty_directory. Qed.
End Cleanup.

(** ** Fork *)

Lemma view_none s g d w s' : tables s' g -> role g !! d <> Some Dir -> view s g d w = None.
Proof. intros H Hd. unfold view. destruct (maps g !! (d, w / 1024)) as [e|] eqn:E; [|done]. by apply (maps_dir s' g) in E. Qed.

Lemma view_add_dir s g s' f : tables s g -> (forall f' j, role g !! f' = Some Data -> 0 <= j < 1024 -> load s' (f' * 1024 + j) = load s (f' * 1024 + j)) ->
  forall d w, view s' (add_role g f Dir) d w = view s g d w.
Proof. intros H Hl d w. apply view_same; [done|by left|done]. Qed.

(** The part of fork that fails cleans up after itself. *)
Lemma undo_fork s g s2 g2 d c k : tables s g -> rep s2 g2 [] -> current s2 g2 d -> role g2 !! c = Some Dir -> role g !! c = None -> current s g d ->
  (forall d', role g2 !! d' = Some Dir <-> role g !! d' = Some Dir \/ d' = c) -> role g !! k = Some Dir ->
  (forall d' w, d' <> c -> view s2 g2 d' w = view s g d' w) ->
  let s' := cleanup_process_memory s2 (k * 4096) (c * 4096) in
  exists g', rep s' g' [] /\ cr3 s' = cr3 s2 /\ same_dirs g g' /\ forall d' w, view s' g' d' w = view s g d' w.
Proof.
  intros T R C Hc Hnone [Hcr Hd] D Hk V s'. pose proof (tb_range _ _ T _ _ Hk) as Hkr. assert (Hcd : c <> d) by congruence.
  destruct (cleanup_spec s2 g2 d c R C Hc Hcd (k * 4096)) as (g' & R' & C' & D' & V').
  { fold (frame_addr (k * 4096)). rewrite frame_addr_eq, Z.div_mul by (unfold is_u32; lia). assert (k <> c) by congruence. lia. }
  fold s' in R', C', V'. exists g'. split_and!; try done.
  - intros d'. rewrite (D' d'), (D d'). destruct (decide (d' = c)) as [->|]; [rewrite Hnone; naive_solver|naive_solver].
  - intros d' w. destruct (decide (d' = c)) as [->|Hne]; [|by rewrite V', V].
    rewrite (view_none _ g' c w s' (rp_tables _ _ _ R')), (view_none s g c w s T); [done|congruence|]. intros Hx. by apply D' in Hx as [_ ?].
Qed.

Lemma size_dirs_add g f : role g !! f = None -> size (dirs (add_role g f Dir)) = S (size (dirs g)).
Proof.
  intros Hf. assert (E : dirs (add_role g f Dir) = {[f]} ∪ dirs g).
  { apply set_eq. intros d. rewrite elem_of_union, elem_of_singleton, !elem_dirs. cbn. destruct (decide (d = f)) as [->|Hne]; [rewrite lookup_insert_eq; naive_solver|].
    rewrite lookup_insert_ne by done. naive_solver. }
  rewrite E, size_union, size_singleton; [done|]. intros d Hd1 Hd2. apply elem_of_singleton in Hd1 as ->. apply elem_dirs in Hd2. congruence.
Qed.

(** The child sees what the parent sees; or nothing has happened. *)
Lemma fork_spec s g d k listed child_pid : rep s g [] -> current s g d -> role g !! k = Some Dir -> (size (dirs g) < 254)%nat ->
  let '(r, child, s') := fork_memory s (k * 4096) listed child_pid in
  exists g', rep s' g' [] /\ cr3 s' = cr3 s /\
    ((0 <= r /\ exists c, child = c * 4096 /\ role g !! c = None /\ (forall d', role g' !! d' = Some Dir <-> role g !! d' = Some Dir \/ d' = c) /\
        (forall d' w, d' <> c -> view s' g' d' w = view s g d' w) /\ forall w, view s' g' c w = view s g d w) \/
     (r < 0 /\ child = 0 /\ same_dirs g g' /\ forall d' w, view s' g' d' w = view s g d' w)).
Proof.
  intros H Hc Hk Hsz. pose proof (rp_tables _ _ _ H) as T. unfold fork_memory. pose proof (clone_spec s g [] d H Hc) as Hcl. destruct (clone_page_directory s) as [r s1].
  destruct Hcl as [(-> & R & K)|(c & -> & Hcr & Hrc & R & C1 & Hl)].
  { cbn [Z.eqb]. exists g. split; [done|]. split; [apply K|]. right. split_and!; try done. intros d' w. by apply view_keeps. }
  destruct (Z.eqb_spec (c * 4096) 0); [lia|]. set (g1 := add_role g c Dir) in *.
  assert (Hcd : c <> d) by (destruct Hc; congruence). assert (Hc1 : current s1 g1 d) by (destruct Hc; split; [congruence|]; cbn; rewrite lookup_insert_ne; congruence).
  assert (Hcdir : role g1 !! c = Some Dir) by apply lookup_insert_eq.
  assert (Hnm : forall v, maps g1 !! (c, v) = None).
  { intros v. destruct (maps g1 !! (c, v)) as [e|] eqn:E; [|done]. apply (maps_dir s g c v e T) in E. congruence. }
  pose proof (copy_spec s1 g1 d c listed R Hc1 Hcdir Hcd Hnm) as Hcp. unfold g1 in Hcp at 1. rewrite size_dirs_add in Hcp by done. specialize (Hcp ltac:(lia)).
  destruct (copy_user_space s1 (c * 4096) listed) as [r s2]. destruct Hcp as (g2 & R2 & D2 & C2 & V2 & Hr).
  assert (Hadd : forall d', role g2 !! d' = Some Dir <-> role g !! d' = Some Dir \/ d' = c).
  { intros d'. rewrite (D2 d'). cbn. destruct (decide (d' = c)) as [->|Hx]; [rewrite lookup_insert_eq; naive_solver|rewrite lookup_insert_ne by done; naive_solver]. }
  assert (V : forall d' w, d' <> c -> view s2 g2 d' w = view s g d' w) by (intros d' w Hd'; rewrite V2 by done; by apply view_add_dir).
  assert (Hc2 : current s2 g2 d) by (destruct Hc1; split; [congruence|by apply D2]).
  destruct (undo_fork s g s2 g2 d c k T R2 Hc2 ltac:(by apply D2) Hrc Hc Hadd Hk V) as (g3 & R3 & C3 & D3 & V3).
  destruct Hr as [(-> & Vc)| ->]; cbn [Z.eqb E_OK E_NOMEM negb].
  - destruct (Z.ltb_spec child_pid 0).
    2:{ exists g2. split; [done|]. split; [congruence|]. left. split; [done|]. exists c. split_and!; try done. intros w. rewrite Vc. by apply view_add_dir. }
    exists g3. split; [done|]. split; [congruence|]. right. by split_and!.
  - exists g3. split; [done|]. split; [congruence|]. right. by split_and!.
Qed.

End PagingExit.
