(* ===== verification/PagingMem.v ===== *)
(** * Memory on request

    [sys_brk], [sys_mmap] and [sys_munmap]: fresh pages are zero, failure leaves no
    page behind, and nothing outside the caller's own range changes. *)

From S2P Require Import Prelude Pmm Paging PagingInv PagingOps PagingFork PagingShare PagingExit.

Module PagingMem.
Import Pmm Paging PagingInv PagingOps PagingFork PagingShare PagingExit.

(** The same machine for every other page: only the pages of [d] in [lo, hi)
    change. *)
Record changes (s : machine) (g : vm) (d lo hi : Z) (x : option (Z * bool)) (s' : machine) (g' : vm) : Prop := {
  ch_rep : rep s' g' [];
  ch_dirs : same_dirs g g';
  ch_cr3 : cr3 s' = cr3 s;
  ch_view : forall d' w, view s' g' d' w = if decide (d' = d /\ lo <= w / 1024 < hi) then x else view s g d' w
}.

Lemma changes_none s g d lo x : rep s g [] -> changes s g d lo lo x s g.
Proof. intros H. split; try done. intros d' w. rewrite decide_False by lia. done. Qed.

Lemma changes_current s g d lo hi x s' g' d0 : changes s g d lo hi x s' g' -> current s g d0 -> current s' g' d0.
Proof. intros [_ D C _] [Hc Hd]. split; [congruence|by apply D]. Qed.

Lemma changes_trans s g d lo mid hi x s1 g1 s2 g2 : changes s g d lo mid x s1 g1 -> changes s1 g1 d mid hi x s2 g2 -> lo <= mid <= hi -> changes s g d lo hi x s2 g2.
Proof.
  intros [R1 D1 C1 V1] [R2 D2 C2 V2] Hm. split; [done| |congruence|].
  - intros d'. rewrite (D2 d'). apply D1.
  - intros d' w. rewrite V2, V1. case_decide as E1; case_decide as E2; try case_decide as E3; try done; lia.
Qed.

(** A frame nobody took goes back. *)
Lemma free_pending s g f pend : rep s g (f :: pend) ->
  exists g', rep (with_phys s (pmm_free_frame (phys s) (f * 4096))) g' pend /\ shrunk (role g) (role g') /\ maps g' = maps g.
Proof.
  intros [(m & Hm & Hcn) T Hcow Hon Hus]. destruct (free_frame_inv _ _ (f * 4096) Hm) as [Hm1 _]. change PAGE_SIZE with 4096 in Hm1. rewrite Z.div_mul in Hm1 by lia.
  pose proof (counts_free _ _ _ _ _ Hcn) as C. exists (with_role g (release m (role g) f)). assert (Hs : shrunk (role g) (release m (role g) f)).
  { intros f'. unfold release. case_decide; [|by left]. destruct (decide (f' = f)) as [->|]; [|left; by rewrite lookup_delete_ne].
    right. split; [apply (ct_pend _ _ _ _ Hcn); set_solver|apply lookup_delete_eq]. }
  split; [|done]. split; [by eexists| |done|done|done]. apply tables_phys, tables_shrink; [done|done|]. intros k e He. by apply (ct_maps _ _ _ _ C k).
Qed.

Lemma shrunk_dirs rl rl' d : shrunk rl rl' -> rl' !! d = Some Dir <-> rl !! d = Some Dir.
Proof. intros H. split; [by apply shrunk_back|]. intros Hd. by apply (shrunk_keep _ _ _ _ H Hd). Qed.

(** ** A page more *)

Lemma alloc_data s g : rep s g [] ->
  let '(r, p) := pmm_alloc_frame (phys s) in
  (r = 0xFFFFFFFF /\ rep (with_phys s p) g []) \/ exists f, r = f * 4096 /\ 256 <= f < 2 ^ 20 /\ role g !! f = None /\ rep (with_phys s p) (add_role g f Data) [f].
Proof.
  intros H. pose proof (alloc_case s g [] H) as Ha. destruct (pmm_alloc_frame (phys s)) as [r p]. destruct Ha as [Ha|(f & m & -> & Hf & Hr & Hm & Hp & Hc)]; [by left|].
  right. exists f. split_and!; try done; try lia. split; [|apply tables_add_data; [apply tables_phys, H|done|lia]|apply H|apply H|apply H].
  exists (<[f := 1]> m). split; [done|]. pose proof (counts_alloc m (role g) (maps g) [] f Data Hc Hm ltac:(lia) ltac:(done)) as C. by rewrite decide_True in C.
Qed.

(** The words of a mapped page, cleared through its own address. *)
Lemma clear_page s g d v e : rep s g [] -> current s g d -> 0 <= v < USER_PAGES -> maps g !! (d, v) = Some e ->
  (forall k x, k <> (d, v) -> maps g !! k = Some x -> x / 4096 <> e / 4096) ->
  let s' := for_range 0 1024 (fun s i => kwrite s (v * 4096 + 4 * i) 0) s in
  filled s (e / 4096 * 1024) (fun _ => 0) 1024 s' /\ rep s' g [].
Proof.
  intros H Hc Hv He Hsole s'. pose proof (rp_tables _ _ _ H) as T. pose proof (tb_data _ _ T _ _ He) as Hdata.
  assert (HT : forall k s1, 0 <= k <= 1024 -> filled s (e / 4096 * 1024) (fun _ => 0) k s1 -> tables s1 g).
  { intros k s1 Hk Hf. assert (Hl : forall f u j, role g !! f = Some u -> u <> Data -> 0 <= j < 1024 -> load s1 (f * 1024 + j) = load s (f * 1024 + j)).
    { intros f u j Hfu Hu Hj. apply (filled_out _ _ _ _ _ _ Hf). assert (f <> e / 4096) by congruence. lia. }
    apply (tables_frame s); [done| | |].
    - apply (filled_words _ _ _ _ _ Hf); [apply (tb_words _ _ T)|done].
    - intros f u j Hfu Hu _ Hj. by apply (Hl f u).
    - pose proof (Hl (temp g) Kern 0 (tb_kern _ _ T) ltac:(done) ltac:(lia)) as E. rewrite Z.add_0_r in E. rewrite E. apply (tb_free _ _ T). }
  assert (HF : filled s (e / 4096 * 1024) (fun _ => 0) 1024 s').
  { apply fill_loop; [lia|]. intros s1 k Hk Hf. unfold kwrite. unfold USER_PAGES in Hv. rewrite (user_translate s1 g d); [|apply (HT k); [lia|done]|destruct Hc; split; [by rewrite (fl_cr3 _ _ _ _ _ Hf)|done]|lia].
    replace ((v * 4096 + 4 * k) / 4096) with v by zlia. rewrite He. by replace ((v * 4096 + 4 * k) mod 4096 / 4) with k by zlia. }
  clearbody s'. split; [done|]. destruct (rp_counts _ _ _ H) as (m & Hm & Hcn). split; [|by apply (HT 1024)|apply H|apply H|apply H].
  exists m. rewrite (fl_phys _ _ _ _ _ HF). done.
Qed.

Lemma map_zeroed_spec s g d v : rep s g [] -> current s g d -> 1024 <= v < USER_PAGES -> maps g !! (d, v) = None ->
  exists g', let '(r, s') := map_zeroed_page s (v * 4096) in
    (r = E_NOMEM /\ changes s g d v v None s' g') \/ (r = E_OK /\ changes s g d v (v + 1) (Some (0, true)) s' g').
Proof.
  intros H Hc Hv Hn. pose proof (rp_tables _ _ _ H) as T. unfold map_zeroed_page. pose proof (alloc_data s g H) as Ha. destruct (pmm_alloc_frame (phys s)) as [r p].
  destruct Ha as [(-> & R)|(f & -> & Hf & Hr & R)].
  { exists g. cbn [Z.eqb Pos.eqb]. left. split; [done|]. split; try done. intros d' w. by rewrite decide_False by lia. }
  destruct (Z.eqb_spec (f * 4096) 0xFFFFFFFF); [lia|]. set (g1 := add_role g f Data) in *. set (s1 := with_phys s p) in *.
  assert (Hc1 : current s1 g1 d) by (destruct Hc as [? Hd]; split; [done|]; cbn; rewrite lookup_insert_ne; congruence).
  assert (Hnew : forall k x, maps g !! k = Some x -> x / 4096 <> f) by (intros k x Hx <-; pose proof (tb_data _ _ T _ _ Hx); congruence).
  assert (Hdirs : same_dirs g g1) by (intros d'; cbn; destruct (decide (d' = f)) as [->|]; [by rewrite lookup_insert_eq, Hr|by rewrite lookup_insert_ne]).
  assert (V1 : forall s2 g2, keeps s1 g1 s2 g2 -> forall k e w, maps g !! k = Some e -> 0 <= w < 1024 -> load s2 (e / 4096 * 1024 + w) = load s (e / 4096 * 1024 + w)).
  { intros s2 g2 K k e w He Hw. rewrite (kp_data _ _ _ _ K); [done| |done]. cbn. pose proof (tb_data _ _ T _ _ He). rewrite lookup_insert_ne by congruence. done. }
  pose proof (map_page_user s1 g1 [] d v f 7 R Hc1 ltac:(lia) Hn ltac:(lia) eq_refl eq_refl) as Hmap. change PAGE_USER_ACCESS with 7. destruct (map_page s1 (v * 4096) (f * 4096) 7) as [r s2].
  destruct Hmap as [(-> & R2 & K)|(-> & g2 & R2 & K & Hm2)].
  { intros k e He E. by destruct (Hnew k e He). }
  { intros v' e He. by apply (Hnew (d, v')). }
  - cbn [Z.eqb E_NOMEM E_OK negb]. destruct (free_pending s2 g1 f [] R2) as (g3 & R3 & Hs & Hm3). exists g3. left. split; [done|]. split; [done| | |].
    + intros d'. rewrite <- (Hdirs d'). by apply shrunk_dirs.
    + apply (kp_cr3 _ _ _ _ K).
    + intros d' w. rewrite decide_False by lia. unfold view. rewrite Hm3. change (maps g1) with (maps g). destruct (maps g !! (d', w / 1024)) as [e|] eqn:E; [|done]. case_match; [|done].
      change (load (with_phys ?a _) ?b) with (load a b). rewrite (V1 s2 g1 K _ _ _ E) by zlia. done.
  - cbn [Z.eqb E_OK negb]. change (maps g1) with (maps g) in Hm2. replace (user_range_is_valid (v * 4096) PAGE_SIZE) with true.
    2:{ unfold user_range_is_valid, USER_PAGES in *. change PAGE_SIZE with 4096. cbn [Z.eqb].
        destruct (Z.ltb_spec (v * 4096) 0x400000), (Z.leb_spec 0xC0000000 (v * 4096)), (Z.ltb_spec (0xBFFFFFFF - v * 4096) (4096 - 1)); (done || lia). }
    cbn [negb]. assert (Hc2 : current s2 g2 d) by (destruct Hc1; split; [by rewrite (kp_cr3 _ _ _ _ K)|by apply (kp_role _ _ _ _ K)]).
    assert (Hfe : (f * 4096 + 7) / 4096 = f) by (apply frame_of_entry; lia).
    pose proof (clear_page s2 g2 d v (f * 4096 + 7) R2 Hc2 ltac:(lia)) as Hcl. rewrite Hm2, lookup_insert_eq, Hfe in Hcl. cbv zeta in Hcl. specialize (Hcl eq_refl).
    set (s3 := for_range 0 1024 _ s2) in *. clearbody s3. destruct Hcl as (HF & R3).
    { intros k x Hk Hx. rewrite lookup_insert_ne in Hx by congruence. by apply (Hnew k). }
    exists g2. right. split; [done|]. split; [done| | |].
    + intros d'. rewrite <- (Hdirs d'). split; intros Hd'; [by apply (kp_dir _ _ _ _ K)|by apply (kp_role _ _ _ _ K)].
    + rewrite (fl_cr3 _ _ _ _ _ HF). apply K.
    + intros d' w. unfold view. rewrite Hm2. assert (Hj : 0 <= w mod 1024 < 1024) by zlia. destruct (decide ((d', w / 1024) = (d, v))) as [[= -> E]|Hne].
      * rewrite E, lookup_insert_eq, decide_True, Hfe by lia. rewrite (filled_in _ _ _ _ _ _ HF Hj). by rewrite !testbit_entry by lia.
      * rewrite lookup_insert_ne by congruence. rewrite decide_False by (intros [-> ?]; apply Hne; f_equal; lia).
        destruct (maps g !! (d', w / 1024)) as [e|] eqn:E; [|done]. case_match; [|done]. pose proof (Hnew _ _ E). rewrite (filled_out _ _ _ _ _ _ HF) by lia.
        by rewrite (V1 s2 g2 K _ _ _ E).
Qed.

(** ** Pages less *)

Lemma release_step s g d v : rep s g [] -> current s g d -> 0 <= v < USER_PAGES -> exists g', changes s g d v (v + 1) None (release_user_page s (v * 4096)) g'.
Proof.
  intros H Hc Hv. pose proof (rp_tables _ _ _ H) as T. pose proof (current_recursive _ _ _ T Hc) as Hrec. unfold release_user_page, unmap_page.
  destruct (page_index v ltac:(lia)) as [-> ->]. unfold USER_PAGES in Hv. assert (Hi : 0 <= v / 1024 < 768) by zlia. rewrite (kread_pd s d _ Hrec) by lia.
  destruct (tabs g !! (d, v / 1024)) as [t|] eqn:Et.
  2:{ rewrite (tb_notab _ _ T d _ (proj2 Hc) Hi Et). cbn [negb]. exists g. split; try done. intros d' w. case_decide as E; [|done]. destruct E as [-> E].
      assert (w / 1024 = v) as Ew by lia. unfold view. by rewrite Ew, (no_maps s g d (v / 1024) v T Et). }
  destruct (tb_tab _ _ T _ _ _ Et) as (Hrt & _ & _ & Hp & _). rewrite Hp. cbn [negb]. destruct (entry_at s g d v t T Hc Et) as (-> & _ & Hm). set (e := load s (t * 1024 + v mod 1024)) in *.
  destruct (rp_counts _ _ _ H) as (m & Hpm & Hcn).
  assert (HX : exists p m' rl', pmm_inv p m' /\ counts m' rl' (delete (d, v) (maps g)) [] /\ shrunk (role g) rl' /\
    (if present e then with_phys s (pmm_free_frame (phys s) (frame_addr e)) else s) = with_phys s p).
  { destruct (present e).
    - rewrite frame_addr_eq by apply (tb_words _ _ T). destruct (free_entry _ _ _ _ _ _ _ Hpm Hcn Hm) as (m' & rl' & Hp' & Hc' & Hs'). by exists (pmm_free_frame (phys s) (e / 4096 * 4096)), m', rl'.
    - exists (phys s), m, (role g). rewrite delete_id by done. split_and!; try done; [apply shrunk_refl|by destruct s]. }
  destruct HX as (p & m' & rl' & Hp' & Hcn' & Hs & ->). rewrite (kread_pd (with_phys s p) d) by (lia || (destruct Hrec; split; done)). change (load (with_phys s p) ?a) with (load s a). rewrite Hp.
  destruct (entry_at (with_phys s p) g d v t (tables_phys _ _ _ T) Hc Et) as (_ & -> & _). assert (Hj : 0 <= v mod 1024 < 1024) by zlia.
  exists (with_role (set_map g (d, v) 0) rl'). change (maps (with_role (set_map g (d, v) 0) rl')) with (delete (d, v) (maps g)). split.
  - split; change (maps (with_role (set_map g (d, v) 0) rl')) with (delete (d, v) (maps g)).
    + by exists m'.
    + apply tables_shrink; [|done|intros k x Hx; by apply (ct_maps _ _ _ _ Hcn' k)]. apply tables_set; [by apply tables_phys|done|done|done|done].
    + intros k k' x x' Hne Hk Hk'. apply lookup_delete_Some in Hk as [_ Hk], Hk' as [_ Hk']. by apply (rp_cow _ _ _ H k k').
    + intros d' w w' x x' Hk Hk'. apply lookup_delete_Some in Hk as [_ Hk], Hk' as [_ Hk']. by apply (rp_once _ _ _ H d').
    + intros k x Hk. apply lookup_delete_Some in Hk as [_ Hk]. by apply (rp_user _ _ _ H k).
  - intros d'. by apply shrunk_dirs.
  - done.
  - intros d' w. unfold view. change (maps (with_role (set_map g (d, v) 0) rl')) with (delete (d, v) (maps g)). destruct (decide ((d', w / 1024) = (d, v))) as [[= -> E]|Hne].
    + rewrite E, lookup_delete_eq, decide_True by lia. done.
    + rewrite lookup_delete_ne by congruence. rewrite decide_False by (intros [-> ?]; apply Hne; f_equal; lia). destruct (maps g !! (d', w / 1024)) as [x|] eqn:Ex; [|done]. destruct (Z.testbit x 2); [|done].
      rewrite load_store, (table_data_ne g d (v / 1024)); [done|done|by apply (tb_data _ _ T _ _ Ex)|zlia|done].
Qed.

Lemma release_range s g d lo hi : rep s g [] -> current s g d -> 0 <= lo <= hi -> hi <= USER_PAGES ->
  exists g', changes s g d lo hi None (release_user_range s (lo * 4096) (hi * 4096)) g'.
Proof.
  intros H Hc Hl Hh. unfold release_user_range. change PAGE_SIZE with 4096. replace ((hi * 4096 - lo * 4096 + 4096 - 1) / 4096) with (hi - lo) by zlia.
  remember (hi - lo) as n eqn:En. assert (hi = lo + n) as -> by lia. clear En. apply (for_range_ind (fun k s' => exists g', changes s g d lo (lo + k) None s' g')); [lia| |].
  - exists g. rewrite Z.add_0_r. by apply changes_none.
  - intros k s' Hk [g' C]. replace (lo * 4096 + k * 4096) with ((lo + k) * 4096) by lia.
    destruct (release_step s' g' d (lo + k) (ch_rep _ _ _ _ _ _ _ _ C) (changes_current _ _ _ _ _ _ _ _ _ C Hc) ltac:(lia)) as [g2 C2].
    exists g2. rewrite Z.add_assoc. apply (changes_trans s g d lo (lo + k) (lo + k + 1) None s' g'); [done|done|lia].
Qed.

(** ** A run of pages *)

Lemma view_maps s g d v : rep s g [] -> (forall w, w / 1024 = v -> view s g d w = None) -> maps g !! (d, v) = None.
Proof.
  intros H Hv. destruct (maps g !! (d, v)) as [e|] eqn:E; [|done]. specialize (Hv (v * 1024) ltac:(zlia)). unfold view in Hv. rewrite Z.div_mul, E, (rp_user _ _ _ H _ _ E) in Hv by lia. done.
Qed.

Definition unmapped (s : machine) (g : vm) (d lo hi : Z) : Prop := forall w, lo <= w / 1024 < hi -> view s g d w = None.

Lemma unmapped_maps s g d lo hi v : rep s g [] -> unmapped s g d lo hi -> lo <= v < hi -> maps g !! (d, v) = None.
Proof. intros H Hu Hv. apply (view_maps s g d v H). intros w <-. by apply Hu. Qed.

Lemma map_run fuel : forall s g d v vt, rep s g [] -> current s g d -> 1024 <= v <= vt -> vt <= USER_PAGES -> vt - v < Z.of_nat fuel -> unmapped s g d v vt ->
  exists g' v', let '(s', page) := map_pages fuel s (v * 4096) (vt * 4096) in page = v' * 4096 /\ v <= v' <= vt /\ changes s g d v v' (Some (0, true)) s' g'.
Proof.
  induction fuel as [|fuel IH]; intros s g d v vt H Hc Hv Ht Hf Hu; [lia|]. cbn [map_pages]. change PAGE_SIZE with 4096.
  destruct (Z.ltb_spec (v * 4096) (vt * 4096)); [|exists g, v; split_and!; (done || lia || by apply changes_none)].
  destruct (map_zeroed_spec s g d v H Hc ltac:(lia)) as [g1 Hz]; [by apply (unmapped_maps s g d v vt); (done || lia)|]. destruct (map_zeroed_page s (v * 4096)) as [r s1].
  destruct Hz as [[-> C]|[-> C]]; cbn [Z.eqb E_OK E_NOMEM negb].
  - exists g1, v. split_and!; try (done || lia). destruct C as [R D C V]. split; try done. intros d' w. by rewrite V, !decide_False by lia.
  - assert (Hu1 : unmapped s1 g1 d (v + 1) vt) by (intros w Hw; rewrite (ch_view _ _ _ _ _ _ _ _ C), decide_False by lia; apply Hu; lia).
    destruct (IH s1 g1 d (v + 1) vt (ch_rep _ _ _ _ _ _ _ _ C) (changes_current _ _ _ _ _ _ _ _ _ C Hc) ltac:(lia) ltac:(lia) ltac:(lia) Hu1) as (g' & v' & Hm).
    replace (v * 4096 + 4096) with ((v + 1) * 4096) by lia. exists g', v'. destruct (map_pages fuel s1 _ _) as [s' page]. destruct Hm as (-> & Hv' & C').
    split_and!; try (done || lia). apply (changes_trans s g d v (v + 1) v' _ s1 g1); [done|done|lia].
Qed.

Lemma span_enough v vt : v <= vt -> vt - v < Z.of_nat (span_pages (v * 4096) (vt * 4096)).
Proof. intros H. unfold span_pages. change PAGE_SIZE with 4096. replace ((vt * 4096 - v * 4096) / 4096) with (vt - v) by zlia. lia. Qed.

(** Pages that were new and are gone again. *)
Lemma changes_undo s g d lo hi x s1 g1 s2 g2 : changes s g d lo hi x s1 g1 -> changes s1 g1 d lo hi None s2 g2 -> unmapped s g d lo hi -> changes s g d lo lo None s2 g2.
Proof.
  intros [R1 D1 C1 V1] [R2 D2 C2 V2] Hu. split; [done| |congruence|].
  - intros d'. rewrite (D2 d'). apply D1.
  - intros d' w. rewrite V2, V1, (decide_False (P := d' = d /\ lo <= w / 1024 < lo)) by lia. case_decide as E; [|done]. destruct E as [-> E]. by rewrite Hu.
Qed.

Lemma page_round_up x : is_u32 x -> Z.land (u32 (x + PAGE_SIZE - 1)) 0xFFFFF000 = u32 (x + 4095) / 4096 * 4096.
Proof. intros Hx. fold (frame_addr (u32 (x + PAGE_SIZE - 1))). rewrite frame_addr_eq by apply u32_range. unfold PAGE_SIZE. do 3 f_equal. lia. Qed.

(** ** The break *)

Definition FLOOR_PAGE : Z := USER_MMAP_FLOOR / 4096.
Definition TOP_PAGE : Z := USER_MMAP_TOP / 4096.

Lemma brk_spec s g d b0 b ebx : rep s g [] -> current s g d -> 1024 <= b0 <= b -> b <= FLOOR_PAGE -> is_u32 ebx -> unmapped s g d b FLOOR_PAGE ->
  exists g' b', let '(r, s', brk) := sys_brk s (b0 * 4096) (b * 4096) ebx in
    r = b' * 4096 /\ brk = b' * 4096 /\ b0 <= b' <= FLOOR_PAGE /\ (b' = b \/ b' * 4096 - 4096 < ebx <= b' * 4096) /\
    if b' <=? b then changes s g d b' b None s' g' else changes s g d b b' (Some (0, true)) s' g'.
Proof.
  intros H Hc Hb0 Hb Hx Hu. change FLOOR_PAGE with 655360 in *. unfold sys_brk. destruct (Z.eqb_spec (b0 * 4096) 0); [lia|]. rewrite page_round_up by done.
  change USER_MMAP_FLOOR with (655360 * 4096). set (t := u32 (ebx + 4095) / 4096).
  assert (Hstay : b * 4096 = b * 4096 /\ b * 4096 = b * 4096 /\ b0 <= b <= 655360 /\ (b = b \/ b * 4096 - 4096 < ebx <= b * 4096) /\
    (if b <=? b then changes s g d b b None s g else changes s g d b b (Some (0, true)) s g)).
  { rewrite Z.leb_refl. split_and!; try (done || lia). by apply changes_none. }
  destruct (Z.ltb_spec ebx (b0 * 4096)); [by exists g, b|]. destruct (Z.ltb_spec (t * 4096) (b0 * 4096)); [by exists g, b|].
  destruct (Z.ltb_spec (655360 * 4096) (t * 4096)); [by exists g, b|]. cbn [orb]. destruct (Z.eqb_spec (t * 4096) (b * 4096)); [by exists g, b|]. clear Hstay.
  assert (Hte : t * 4096 - 4096 < ebx <= t * 4096).
  { unfold is_u32 in Hx. unfold t in *. destruct (Z.lt_ge_cases (ebx + 4095) (2 ^ 32)); [rewrite u32_small in * by lia; zlia|]. exfalso.
    assert (E : u32 (ebx + 4095) = ebx + 4095 - 2 ^ 32) by (unfold u32; rewrite <- (Z.mod_unique (ebx + 4095) (2 ^ 32) 1 (ebx + 4095 - 2 ^ 32)); lia). rewrite E in *. zlia. }
  destruct (Z.ltb_spec (t * 4096) (b * 4096)).
  - destruct (release_range s g d t b H Hc ltac:(lia)) as [g' C]; [unfold USER_PAGES; lia|]. exists g', t. destruct (Z.leb_spec t b); [|lia]. split_and!; (done || lia).
  - destruct (map_run (span_pages (b * 4096) (t * 4096)) s g d b t H Hc ltac:(lia)) as (g1 & v & Hm); [unfold USER_PAGES; lia|apply span_enough; lia|intros w Hw; apply Hu; lia|].
    destruct (map_pages _ s _ _) as [s1 page]. destruct Hm as (-> & Hv & C). destruct (Z.ltb_spec (v * 4096) (t * 4096)).
    + destruct (release_range s1 g1 d b v (ch_rep _ _ _ _ _ _ _ _ C) (changes_current _ _ _ _ _ _ _ _ _ C Hc) ltac:(lia)) as [g2 C2]; [unfold USER_PAGES; lia|].
      exists g2, b. rewrite Z.leb_refl. split_and!; try (done || lia). apply (changes_undo s g d b v _ s1 g1 _ g2 C C2). intros w Hw. apply Hu. lia.
    + assert (v = t) as -> by lia. exists g1, t. destruct (Z.leb_spec t b); [lia|]. split_and!; (done || lia).
Qed.

(** ** Mappings *)

Lemma page_is_free_spec s g d v : tables s g -> current s g d -> 0 <= v < USER_PAGES -> page_is_free s (v * 4096) = bool_decide (maps g !! (d, v) = None).
Proof.
  intros H Hc Hv. unfold page_is_free. destruct (page_index v ltac:(lia)) as [-> ->]. pose proof (page_entry s g d v H Hc Hv) as He. destruct (maps g !! (d, v)) as [e|] eqn:E.
  - destruct He as (-> & -> & -> & _). by rewrite bool_decide_false.
  - rewrite bool_decide_true by done. destruct (present (kread s (pd_at (v / 1024)))) eqn:Ep; cbn [negb]; [|done]. by rewrite He.
Qed.

Definition free_pages (g : vm) (d lo hi : Z) : Prop := forall v, lo <= v < hi -> maps g !! (d, v) = None.

Lemma free_run_spec s g d base pages : tables s g -> current s g d -> 0 <= base -> base + pages <= USER_PAGES -> forall (n : nat) p, 0 <= p <= pages -> pages - p <= Z.of_nat n ->
  free_pages g d base (base + p) ->
  let p' := free_run n s (base * 4096) pages p in
  p <= p' <= pages /\ free_pages g d base (base + p') /\ (p' < pages -> maps g !! (d, base + p') <> None).
Proof.
  intros H Hc Hb He. induction n as [|n IH]; intros p Hp Hn Hf; cbn [free_run].
  { split_and!; try (done || lia). }
  destruct (Z.ltb_spec p pages); cbn [andb]; [|split_and!; (done || lia)]. change PAGE_SIZE with 4096. replace (base * 4096 + p * 4096) with ((base + p) * 4096) by lia.
  rewrite u32_small by (unfold USER_PAGES in He; lia).
  rewrite (page_is_free_spec s g d) by (done || lia). case_bool_decide as E; [|split_and!; (done || lia)]. destruct (IH (p + 1)) as (H1 & H2 & H3); [lia|lia| |split_and!; (done || lia)].
  intros v Hv. destruct (decide (v = base + p)) as [->|]; [done|]. apply Hf. lia.
Qed.

(** The search misses no run. *)
Lemma find_run_spec s g d pages : tables s g -> current s g d -> 0 < pages -> FLOOR_PAGE + pages < 2 ^ 20 -> forall (fuel : nat) top, top <= TOP_PAGE -> top - FLOOR_PAGE < Z.of_nat fuel ->
  let base := find_run fuel s pages (top * 4096) in
  (base = 0 /\ forall b, FLOOR_PAGE <= b -> b + pages <= top -> ~ free_pages g d b (b + pages)) \/
  exists b, base = b * 4096 /\ FLOOR_PAGE <= b /\ b + pages <= top /\ free_pages g d b (b + pages).
Proof.
  intros H Hc Hp. change FLOOR_PAGE with 655360. change TOP_PAGE with 720863. intros Hw. induction fuel as [|fuel IH]; intros top Ht Hf; cbn [find_run].
  { left. split; [done|]. lia. }
  change PAGE_SIZE with 4096. change USER_MMAP_FLOOR with (655360 * 4096). rewrite (u32_small (pages * 4096)), (u32_small (_ + _)) by lia. destruct (Z.leb_spec (655360 * 4096 + pages * 4096) (top * 4096)).
  2:{ left. split; [done|]. lia. }
  rewrite (u32_small (_ - _)) by lia. replace (top * 4096 - pages * 4096) with ((top - pages) * 4096) by lia.
  destruct (free_run_spec s g d (top - pages) pages H Hc ltac:(lia) ltac:(unfold USER_PAGES; lia) (Z.to_nat pages) 0 ltac:(lia) ltac:(lia)) as (Hr & Hfree & Hb); [intros v Hv; lia|].
  set (p := free_run _ s _ pages 0) in *. destruct (Z.eqb_spec p pages) as [E|].
  - right. exists (top - pages). rewrite E in Hfree. split_and!; (done || lia).
  - rewrite u32_small by lia. replace ((top - pages) * 4096 + p * 4096) with ((top - pages + p) * 4096) by lia. destruct (IH (top - pages + p) ltac:(lia) ltac:(lia)) as [[E Hno]|(b & E & H1 & H2 & H3)].
    + left. split; [done|]. intros b Hb1 Hb2 Hfr. destruct (Z.le_gt_cases (b + pages) (top - pages + p)); [by apply (Hno b)|]. apply Hb; [lia|]. apply Hfr. lia.
    + right. exists b. split_and!; (done || lia).
Qed.

Lemma find_free_run_spec s g d pages : tables s g -> current s g d -> 0 < pages -> FLOOR_PAGE + pages < 2 ^ 20 ->
  (find_free_run s pages = 0 /\ forall b, FLOOR_PAGE <= b -> b + pages <= TOP_PAGE -> ~ free_pages g d b (b + pages)) \/
  exists b, find_free_run s pages = b * 4096 /\ FLOOR_PAGE <= b /\ b + pages <= TOP_PAGE /\ free_pages g d b (b + pages).
Proof. intros H Hc Hp Hw. apply (find_run_spec s g d pages H Hc Hp Hw _ TOP_PAGE); [done|]. rewrite Z2Nat.id by done. done. Qed.

Lemma mmap_spec s g d len reserved : rep s g [] -> current s g d -> is_u32 len ->
  exists g', let '(r, s') := sys_mmap s len reserved in
    (r = 0xFFFFFFFF /\ changes s g d 0 0 None s' g') \/
    (0 < len /\ reserved = 0 /\ exists b, r = b * 4096 /\ let n := (len + 4095) / 4096 in FLOOR_PAGE <= b /\ b + n <= TOP_PAGE /\ unmapped s g d b (b + n) /\
       changes s g d b (b + n) (Some (0, true)) s' g').
Proof.
  intros H Hc Hl. unfold sys_mmap. assert (Hsame : 0xFFFFFFFF = 0xFFFFFFFF /\ changes s g d 0 0 None s g) by (split; [done|by apply changes_none]).
  destruct (Z.eqb_spec len 0) as [|Hl0]; [exists g; by left|]. destruct (Z.eqb_spec reserved 0); cbn [negb]; [|exists g; by left]. destruct (Z.ltb_spec (USER_MMAP_TOP - USER_MMAP_FLOOR) len); [exists g; by left|].
  change PAGE_SIZE with 4096. replace (len + 4096 - 1) with (len + 4095) by lia. set (n := (len + 4095) / 4096). unfold is_u32 in Hl. assert (Hn : 0 < n) by (unfold n; zlia).
  assert (Hw : FLOOR_PAGE + n < 2 ^ 20) by (change FLOOR_PAGE with 655360; change (USER_MMAP_TOP - USER_MMAP_FLOOR) with 268300288 in *; unfold n; zlia).
  destruct (find_free_run_spec s g d n (rp_tables _ _ _ H) Hc Hn Hw) as [[-> _]|(b & -> & Hb1 & Hb2 & Hf)]; [exists g; by left|].
  change FLOOR_PAGE with 655360 in *. change TOP_PAGE with 720863 in *. destruct (Z.eqb_spec (b * 4096) 0); [lia|]. replace (b * 4096 + n * 4096) with ((b + n) * 4096) by lia.
  assert (Hu : unmapped s g d b (b + n)) by (intros w Hw0; unfold view; by rewrite Hf).
  destruct (map_run (span_pages (b * 4096) ((b + n) * 4096)) s g d b (b + n) H Hc ltac:(lia)) as (g1 & v & Hm); [unfold USER_PAGES; lia|apply span_enough; lia|done|].
  destruct (map_pages _ s _ _) as [s1 page]. destruct Hm as (-> & Hv & C). destruct (Z.ltb_spec (v * 4096) ((b + n) * 4096)).
  - destruct (release_range s1 g1 d b v (ch_rep _ _ _ _ _ _ _ _ C) (changes_current _ _ _ _ _ _ _ _ _ C Hc) ltac:(lia)) as [g2 C2]; [unfold USER_PAGES; lia|].
    exists g2. left. split; [done|]. assert (C3 : changes s g d b b None (release_user_range s1 (b * 4096) (v * 4096)) g2).
    { apply (changes_undo s g d b v _ s1 g1 _ g2 C C2). intros w Hw0. apply Hu. lia. }
    destruct C3 as [R3 D3 C3 V3]. split; try done. intros d' w. by rewrite V3, !decide_False by lia.
  - assert (v = b + n) as -> by lia. exists g1. right. split; [lia|]. split; [done|]. by exists b.
Qed.

Lemma munmap_spec s g d addr len : rep s g [] -> current s g d -> is_u32 addr -> is_u32 len ->
  exists g', let '(r, s') := sys_munmap s addr len in
    (r = E_INVAL /\ s' = s /\ g' = g) \/
    (r = E_OK /\ exists lo hi, addr = lo * 4096 /\ hi * 4096 - 4096 < addr + len <= hi * 4096 /\ FLOOR_PAGE <= lo < hi /\ hi <= TOP_PAGE /\ changes s g d lo hi None s' g').
Proof.
  intros H Hc Ha Hl. unfold sys_munmap. destruct (Z.eqb_spec len 0) as [|Hl0]; cbn [orb]; [exists g; by left|]. destruct (Z.eqb_spec (Z.land addr 0xFFF) 0) as [E|]; cbn [negb]; [|exists g; by left].
  rewrite land_flags in E. rewrite page_round_up by done. set (n := u32 (len + 4095) / 4096). assert (Hn0 : is_u32 (u32 (len + 4095))) by apply u32_range. unfold is_u32 in Hn0.
  destruct (Z.leb_spec (u32 (addr + n * 4096)) addr) as [|Hlt]; [exists g; by left|].
  change USER_MMAP_FLOOR with (655360 * 4096). change USER_MMAP_TOP with (720863 * 4096). change FLOOR_PAGE with 655360. change TOP_PAGE with 720863.
  destruct (Z.ltb_spec addr (655360 * 4096)); [exists g; by left|]. destruct (Z.ltb_spec (720863 * 4096) (u32 (addr + n * 4096))); cbn [orb]; [exists g; by left|].
  assert (Hn : 0 <= n < 2 ^ 20) by (unfold n; zlia). unfold is_u32 in Ha, Hl. assert (Haw : u32 (addr + n * 4096) = addr + n * 4096).
  { destruct (Z.lt_ge_cases (addr + n * 4096) (2 ^ 32)); [by apply u32_small; lia|].
    assert (Ew : u32 (addr + n * 4096) = addr + n * 4096 - 2 ^ 32) by (unfold u32; rewrite <- (Z.mod_unique (addr + n * 4096) (2 ^ 32) 1 (addr + n * 4096 - 2 ^ 32)); lia). lia. }
  rewrite Haw in *. assert (Hw : u32 (len + 4095) = len + 4095).
  { destruct (Z.lt_ge_cases (len + 4095) (2 ^ 32)); [by apply u32_small; lia|].
    assert (Ew : u32 (len + 4095) = len + 4095 - 2 ^ 32) by (unfold u32; rewrite <- (Z.mod_unique (len + 4095) (2 ^ 32) 1 (len + 4095 - 2 ^ 32)); lia). unfold n in *. rewrite Ew in *. zlia. }
  set (lo := addr / 4096). assert (Elo : addr = lo * 4096) by (unfold lo; zlia). replace (addr + n * 4096) with ((lo + n) * 4096) by lia.
  destruct (release_range s g d lo (lo + n) H Hc ltac:(lia)) as [g' C]; [unfold USER_PAGES; lia|]. rewrite <- Elo in C. exists g'. right. split; [done|]. exists lo, (lo + n).
  split; [done|]. split; [|split_and!; (done || lia)]. unfold n in *. rewrite Hw in *. zlia.
Qed.

(** A range of whole pages in the region is not refused. *)
Lemma munmap_accepts s addr len : is_u32 addr -> 0 < len -> addr mod PAGE_SIZE = 0 -> USER_MMAP_FLOOR <= addr -> addr + len <= USER_MMAP_TOP ->
  (sys_munmap s addr len).1 = E_OK.
Proof.
  intros Ha Hl Hal Hlo Hhi. unfold is_u32 in Ha. change USER_MMAP_TOP with (720863 * 4096) in *. change USER_MMAP_FLOOR with (655360 * 4096) in *.
  change PAGE_SIZE with 4096 in *. unfold sys_munmap. destruct (Z.eqb_spec len 0) as [|Hl0]; [lia|]. rewrite land_flags, Hal. cbn [Z.eqb negb orb].
  change PAGE_SIZE with 4096. rewrite page_round_up by (unfold is_u32; lia). rewrite (u32_small (len + 4095)) by lia. set (n := (len + 4095) / 4096).
  assert (0 < n /\ addr + n * 4096 <= 720863 * 4096) by (unfold n; zlia). rewrite u32_small by lia.
  destruct (Z.leb_spec (addr + n * 4096) addr); [lia|]. change USER_MMAP_FLOOR with (655360 * 4096). change USER_MMAP_TOP with (720863 * 4096).
  destruct (Z.ltb_spec addr (655360 * 4096)); [lia|]. destruct (Z.ltb_spec (720863 * 4096) (addr + n * 4096)); [lia|done].
Qed.

End PagingMem.
