(* ===== verification/PagingInit.v ===== *)
(** * The kernel's own directory (init_paging of mm/paging.c)

    What [init_paging] builds: the kernel half with the first 16 MB of physical
    memory, the entries of the screen and the recursive slot.  The frames it takes
    are written through the window of boot.asm, so there have to be enough of them
    below 16 MB; [boot_needs_low_frames] shows what happens otherwise. *)

From S2P Require Import Prelude Pmm Paging PagingInv PagingOps PagingFork PagingShare.

Module PagingInit.
Import Pmm Paging PagingInv PagingOps PagingFork PagingShare.

(** ** The kernel's own directory *)

(** One directory, the table of the temporary mapping, no pages. *)
Definition first_vm (d t : Z) : vm := mkVm ∅ ∅ (<[d := Dir]> {[t := Kern]}) t.

Lemma first_rep s m d t c : pmm_inv (phys s) m -> m !! d = Some 1 -> m !! t = Some c -> t <> d -> 256 <= d < 2 ^ 20 -> 0 <= t < 2 ^ 20 -> words_ok s ->
  (forall j, 0 <= j < 768 -> present (load s (d * 1024 + j)) = false) -> load s (d * 1024 + 1023) = d * 4096 + 3 ->
  load s (d * 1024 + 896) = t * 4096 + 3 -> present (load s (t * 1024)) = false -> rep s (first_vm d t) [].
Proof.
  intros Hm Hmd Hmt Htd Hd Ht Hw Hz Hrec Htmp Hfree.
  assert (HR : forall f u, role (first_vm d t) !! f = Some u -> f = d /\ u = Dir \/ f = t /\ u = Kern).
  { intros f u Hf. cbn in Hf. apply lookup_insert_Some in Hf as [[<- <-]|[_ Hf]]; [by left|]. apply lookup_singleton_Some in Hf as [<- <-]. by right. }
  assert (HD : forall f, role (first_vm d t) !! f = Some Dir -> f = d) by (intros f Hf; destruct (HR f _ Hf) as [[? _]|[_ ?]]; done).
  split; cbn [first_vm maps]; [| |done|done|done].
  - exists m. split; [done|]. split; cbn [first_vm maps]; try done.
    + intros f u Hf Hk. destruct (HR f u Hf) as [[-> _]|[_ ?]]; [lia|done].
    + intros f u Hf Hk _. by destruct (HR f u Hf) as [[-> _]|[_ ?]].
    + intros f Hf. destruct (HR f _ Hf) as [[_ ?]|[-> _]]; [done|by eexists].
    + intros f Hf. by destruct (HR f _ Hf) as [[_ ?]|[_ ?]].
    + intros f Hf. set_solver.
  - split; cbn [first_vm maps tabs temp]; try done.
    + intros f u Hf. destruct (HR f u Hf) as [[-> _]|[-> _]]; lia.
    + intros f d' i Hf. by destruct (HR f _ Hf) as [[_ ?]|[_ ?]].
    + intros d' i Hd' Hi _. rewrite (HD _ Hd'). by apply Hz.
    + intros d' Hd'. by rewrite (HD _ Hd').
    + intros d' Hd'. rewrite (HD _ Hd'), Htmp. split; [apply slot_present|apply frame_of_entry; lia].
    + cbn. rewrite lookup_insert_ne by done. apply lookup_singleton_eq.
Qed.

(** Frames in use below [B]. *)
Definition low_used (B : Z) (m : gmap Z Z) : Z := Z.of_nat (size (filter (fun fc => fc.1 < B) m)).

Lemma low_used_insert B m f c : m !! f = None -> f < B -> low_used B (<[f := c]> m) = low_used B m + 1.
Proof.
  intros Hf Hb. unfold low_used. rewrite map_filter_insert_True by done. rewrite map_size_insert_None; [lia|].
  apply map_lookup_filter_None. by left.
Qed.

Lemma low_used_size B m : low_used B m <= Z.of_nat (size m).
Proof. unfold low_used. pose proof (map_subseteq_size _ _ (map_filter_subseteq (fun fc => fc.1 < B) m)). lia. Qed.

(** The lowest frame comes first: one below [B] as long as one is left there. *)
Lemma alloc_low B p m : pmm_inv p m -> B <= pmm_frames_count p -> low_used B m < B ->
  let '(r, p') := pmm_alloc_frame p in
  exists f, r = f * 4096 /\ 256 <= f < B /\ m !! f = None /\ pmm_inv p' (<[f := 1]> m) /\ pmm_frames_count p' = pmm_frames_count p.
Proof.
  intros Hm HB Hs. pose proof (alloc_frame_inv _ _ Hm) as Ha. destruct (pmm_alloc_frame p) as [r p'].
  assert (Hfull : (forall f, 0 <= f < B -> is_Some (m !! f)) -> False).
  { intros Hall. assert (Hsub : list_to_set (seqZ 0 B) ⊆ dom (filter (fun fc => fc.1 < B) m)).
    { intros f Hf%elem_of_list_to_set%elem_of_seqZ. destruct (Hall f ltac:(lia)) as [c Hc]. apply elem_of_dom. exists c. apply map_lookup_filter_Some. split; [done|cbn; lia]. }
    apply subseteq_size in Hsub. rewrite size_list_to_set, length_seqZ, size_dom in Hsub by apply NoDup_seqZ. unfold low_used in Hs. lia. }
  destruct Ha as (m' & Hm' & [(-> & -> & Hall)|(f & -> & Hf & Hnone & -> & Hlow)] & Hfc); [exfalso; apply Hfull; intros f Hf; apply Hall; lia|].
  exists f. change PMM_LOW_MEMORY_FRAMES with 256 in Hf. change PAGE_SIZE with 4096. split_and!; try (done || lia).
  destruct (Z.lt_ge_cases f B); [done|]. exfalso. apply Hfull. intros f' Hf'. apply Hlow. lia.
Qed.

Section Init.
Context (fb_pde : Z -> Z).
Hypothesis fb_words : forall i, is_u32 (fb_pde i).
Hypothesis fb_temp : fb_pde 896 = 0.
Context (used low : Z).
Hypothesis room : used + 256 <= low <= 4096.

(** The window reaches the frames below 16 MB. *)
Lemma boot_store_low s f i x : 0 <= f < 4096 -> 0 <= i < 1024 -> boot_store fb_pde (f * 4096) i x (Some s) = Some (store s (f * 1024 + i) x).
Proof.
  intros Hf Hi. unfold boot_store. rewrite (u32_small (_ + 0xC0000000)), u32_small by lia. unfold boot_address.
  destruct (Z.ltb_spec (f * 4096 + 0xC0000000 + 4 * i) 0x1000000); [lia|].
  destruct (Z.leb_spec 0xC0000000 (f * 4096 + 0xC0000000 + 4 * i)), (Z.ltb_spec (f * 4096 + 0xC0000000 + 4 * i) 0xC1000000); try lia. cbn [andb option_map].
  do 2 f_equal. zlia.
Qed.

Lemma boot_fill s f x : 0 <= f < 4096 ->
  exists s', for_range 0 1024 (fun st j => boot_store fb_pde (f * 4096) j (x j) st) (Some s) = Some s' /\ filled s (f * 1024) x 1024 s'.
Proof.
  intros Hf. exists (for_range 0 1024 (fun s j => store s (f * 1024 + j) (x j)) s). split; [|by apply fill_loop].
  apply (for_range_ind (fun k st => st = Some (for_range 0 k (fun s j => store s (f * 1024 + j) (x j)) s))); [lia|done|].
  intros k st Hk ->. rewrite boot_store_low by lia. by rewrite for_range_last by lia.
Qed.

Lemma init_entry_u32 i j : 0 <= i < 255 -> 0 <= j < 1024 -> is_u32 (init_entry i j).
Proof.
  intros Hi Hj. unfold init_entry. destruct (Z.ltb_spec i 4); [|done]. cbv zeta. case_match; [done|]. unfold PAGE_KERNEL_ONLY.
  change PAGE_SIZE with 4096. replace (i * 0x400000 + j * 4096) with ((i * 1024 + j) * 4096) by lia. rewrite lor_flags by lia. unfold is_u32. lia.
Qed.

(** Entry [k] of the kernel half: the screen's, or a table of its own. *)
Definition entry_built (m : gmap Z Z) (s : machine) (d k : Z) : Prop :=
  if decide (fb_pde (768 + k) = 0) then
    exists t c, m !! t = Some c /\ t <> d /\ 0 <= t < 2 ^ 20 /\ load s (d * 1024 + (768 + k)) = t * 4096 + 3 /\
      forall j, 0 <= j < 1024 -> load s (t * 1024 + j) = init_entry k j
  else load s (d * 1024 + (768 + k)) = fb_pde (768 + k).

(** After [i] entries. *)
Record built (d i : Z) (s : machine) (m : gmap Z Z) : Prop := {
  bu_pmm : pmm_inv (phys s) m;
  bu_count : low <= pmm_frames_count (phys s);
  bu_used : low_used low m <= used + 1 + i;
  bu_dir : m !! d = Some 1;
  bu_words : words_ok s;
  bu_user : forall j, 0 <= j < 768 -> load s (d * 1024 + j) = 2;
  bu_half : forall k, 0 <= k < i -> entry_built m s d k
}.
Definition building (d i : Z) (st : option machine) : Prop := exists s m, st = Some s /\ built d i s m.

(** An entry stays when other words of the directory and other frames change. *)
Lemma entry_frame m m' s s' d k : entry_built m s d k -> m ⊆ m' -> 0 <= k < 255 ->
  load s' (d * 1024 + (768 + k)) = load s (d * 1024 + (768 + k)) ->
  (forall t j, is_Some (m !! t) -> t <> d -> 0 <= j < 1024 -> load s' (t * 1024 + j) = load s (t * 1024 + j)) -> entry_built m' s' d k.
Proof.
  intros He Hsub Hk Hd Ht. unfold entry_built in *. case_decide; [|by rewrite Hd]. destruct He as (t & c & Hm & Htd & Hr & Hl & Hj).
  exists t, c. rewrite Hd. split_and!; try (done || lia); [by apply (lookup_weaken _ _ _ _ Hm Hsub)|]. intros j Hj'. rewrite Ht; [by apply Hj|by eexists|done|done].
Qed.

Lemma built_table d i s m s1 p f : 256 <= d < 4096 -> 0 <= i < 255 -> fb_pde (768 + i) = 0 -> built d i s m ->
  pmm_inv p (<[f := 1]> m) -> pmm_frames_count p = pmm_frames_count (phys s) -> m !! f = None -> 256 <= f < low ->
  filled (with_phys s p) (f * 1024) (init_entry i) 1024 s1 -> built d (i + 1) (store s1 (d * 1024 + (768 + i)) (f * 4096 + 3)) (<[f := 1]> m).
Proof.
  intros Hd Hi Ef [Hm Hcount Hused Hdir Hw Hz Hh] Hm' Hfc Hnone Hf HF. assert (Hfd : f <> d) by congruence. split.
  - cbn [store phys]. by rewrite (fl_phys _ _ _ _ _ HF).
  - cbn [store phys]. rewrite (fl_phys _ _ _ _ _ HF). cbn [with_phys phys]. lia.
  - rewrite low_used_insert by (done || lia). lia.
  - by rewrite lookup_insert_ne.
  - apply words_store; [|apply entry_u32; lia]. apply (filled_words _ _ _ _ _ HF); [done|]. intros j Hj. by apply init_entry_u32; [lia|].
  - intros j Hj. rewrite load_store. destruct (Z.eqb_spec (d * 1024 + j) (d * 1024 + (768 + i))); [lia|]. rewrite (filled_out _ _ _ _ _ _ HF) by lia. by apply Hz.
  - intros k Hk. destruct (decide (k = i)) as [->|Hne].
    + unfold entry_built. rewrite decide_True by done. exists f, 1. rewrite lookup_insert_eq, load_store, Z.eqb_refl. split_and!; try (done || lia).
      intros j Hj. rewrite load_store. destruct (Z.eqb_spec (f * 1024 + j) (d * 1024 + (768 + i))); [lia|]. by apply (filled_in _ _ _ _ _ j HF).
    + apply (entry_frame m _ s); [apply Hh; lia|by apply insert_subseteq|lia| |].
      * rewrite load_store. destruct (Z.eqb_spec (d * 1024 + (768 + k)) (d * 1024 + (768 + i))); [lia|]. by apply (filled_out _ _ _ _ _ _ HF); lia.
      * intros t j [c Ht] Htd Hj. assert (t <> f) by congruence. rewrite load_store. destruct (Z.eqb_spec (t * 1024 + j) (d * 1024 + (768 + i))); [lia|].
        by apply (filled_out _ _ _ _ _ _ HF); lia.
Qed.

Lemma built_screen d i s m : 0 <= i < 255 -> fb_pde (768 + i) <> 0 -> built d i s m ->
  built d (i + 1) (store s (d * 1024 + (768 + i)) (fb_pde (768 + i))) m.
Proof.
  intros Hi Ef [Hm Hcount Hused Hdir Hw Hz Hh]. split; try done; [lia|by apply words_store| |].
  - intros j Hj. rewrite load_store. destruct (Z.eqb_spec (d * 1024 + j) (d * 1024 + (768 + i))); [lia|]. by apply Hz.
  - intros k Hk. destruct (decide (k = i)) as [->|Hne].
    + unfold entry_built. rewrite decide_False by done. by rewrite load_store, Z.eqb_refl.
    + apply (entry_frame m _ s); [apply Hh; lia|done|lia| |].
      * rewrite load_store. by destruct (Z.eqb_spec (d * 1024 + (768 + k)) (d * 1024 + (768 + i))); [lia|].
      * intros t j _ Htd Hj. rewrite load_store. by destruct (Z.eqb_spec (t * 1024 + j) (d * 1024 + (768 + i))); [lia|].
Qed.

Lemma building_step d i st : 256 <= d < 4096 -> 0 <= i < 255 -> building d i st -> building d (i + 1) (init_kernel_table fb_pde (d * 4096) st i).
Proof.
  intros Hd Hi (s & m & -> & Hb). cbn [init_kernel_table]. destruct (Z.eqb_spec (fb_pde (768 + i)) 0) as [Ef|Ef]; cbn [negb].
  2:{ rewrite boot_store_low by lia. eexists _, m. split; [done|]. by apply built_screen. }
  pose proof (alloc_low low _ _ (bu_pmm _ _ _ _ Hb) (bu_count _ _ _ _ Hb) ltac:(pose proof (bu_used _ _ _ _ Hb); lia)) as Ha.
  destruct (pmm_alloc_frame (phys s)) as [r p]. destruct Ha as (f & -> & Hf & Hnone & Hm' & Hfc'). destruct (Z.eqb_spec (f * 4096) 0xFFFFFFFF); [lia|].
  destruct (boot_fill (with_phys s p) f (init_entry i) ltac:(lia)) as (s1 & -> & HF). rewrite boot_store_low by lia.
  change PAGE_KERNEL_ONLY with 3. rewrite lor_flags by lia. eexists _, _. split; [done|]. by apply (built_table d i s m s1 p f).
Qed.

(** The finished kernel half. *)
Definition kernel_half (s : machine) (d : Z) : Prop := exists m, forall k, 0 <= k < 255 -> entry_built m s d k.

Lemma init_rep s m : pmm_inv (phys s) m -> words_ok s -> low <= pmm_frames_count (phys s) -> low_used low m <= used ->
  exists s' d t, init_paging s fb_pde = Some s' /\ cr3 s' = d * 4096 /\ 256 <= d < low /\ t <> d /\ rep s' (first_vm d t) [] /\ kernel_half s' d.
Proof.
  intros Hm Hw Hcount Hused. unfold init_paging. pose proof (alloc_low low _ _ Hm Hcount ltac:(lia)) as Ha. destruct (pmm_alloc_frame (phys s)) as [r p].
  destruct Ha as (d & -> & Hd & Hnone & Hm' & Hfc'). destruct (Z.eqb_spec (d * 4096) 0xFFFFFFFF); [lia|]. cbv zeta.
  destruct (boot_fill (with_phys s p) d (fun _ => PAGE_NOT_PRESENT) ltac:(lia)) as (s1 & -> & HF).
  assert (HB : building d 255 (for_range 0 (1023 - 768) (init_kernel_table fb_pde (d * 4096)) (Some s1))).
  { apply (for_range_ind (building d)); [lia| |intros i st Hi; apply building_step; lia]. exists s1, (<[d := 1]> m). split; [done|]. split; [..|lia].
    - by rewrite (fl_phys _ _ _ _ _ HF).
    - rewrite (fl_phys _ _ _ _ _ HF). cbn [with_phys phys]. lia.
    - rewrite low_used_insert by (done || lia). lia.
    - by rewrite lookup_insert_eq.
    - by apply (filled_words _ _ _ _ _ HF).
    - intros j Hj. by rewrite (filled_in _ _ _ _ _ j HF) by lia. }
  destruct HB as (s2 & m2 & -> & [Hm2 _ _ Hdir Hw2 Hz Hh]). rewrite boot_store_low by lia. change PAGE_KERNEL_ONLY with 3. rewrite lor_flags by lia. cbn [option_map].
  set (s3 := store s2 (d * 1024 + 1023) (d * 4096 + 3)).
  assert (Hl : forall a, load s3 a = if a =? d * 1024 + 1023 then d * 4096 + 3 else load s2 a) by (intros; apply load_store).
  assert (Hh3 : forall k, 0 <= k < 255 -> entry_built m2 s3 d k).
  { intros k Hk. apply (entry_frame m2 _ s2); [by apply Hh|done|lia| |].
    - rewrite Hl. by destruct (Z.eqb_spec (d * 1024 + (768 + k)) (d * 1024 + 1023)); [lia|].
    - intros t j _ Htd Hj. rewrite Hl. by destruct (Z.eqb_spec (t * 1024 + j) (d * 1024 + 1023)); [lia|]. }
  pose proof (Hh3 128 ltac:(lia)) as Ht. unfold entry_built in Ht. rewrite decide_True in Ht by done. destruct Ht as (t & c & Hmt & Htd & Htr & Hl1 & Hl2).
  exists (with_cr3 s3 (d * 4096)), d, t. split_and!; try (done || lia); [|by exists m2]. apply rep_cr3. apply (first_rep _ m2 d t c); try (done || lia).
  - apply words_store; [done|apply entry_u32; lia].
  - intros j Hj. rewrite Hl. destruct (Z.eqb_spec (d * 1024 + j) (d * 1024 + 1023)); [lia|]. by rewrite Hz.
  - by rewrite Hl, Z.eqb_refl.
  - rewrite <- (Z.add_0_r (t * 1024)), Hl2 by lia. done.
Qed.
End Init.

(** ** What the directory maps *)

Section Half.
Context (fb_pde : Z -> Z) (s : machine) (d : Z).
Hypothesis words : words_ok s.
Hypothesis dir : cr3 s = d * 4096.
Hypothesis half : kernel_half fb_pde s d.

(** The walk through a table of the kernel half. *)
Lemma half_translate v : 0xC0000000 <= v < 0xFFC00000 -> fb_pde (v / 4194304) = 0 ->
  exists t, translate s v = let pte := init_entry (v / 4194304 - 768) (v / 4096 mod 1024) in
    if present pte then Some (t * 4096 + 3, pte, pte / 4096 * 1024 + v mod 4096 / 4) else None.
Proof.
  intros Hv Hfb. destruct half as [m Hm]. specialize (Hm (v / 4194304 - 768) ltac:(zlia)). unfold entry_built in Hm.
  replace (768 + (v / 4194304 - 768)) with (v / 4194304) in Hm by lia. rewrite decide_True in Hm by done.
  destruct Hm as (t & c & _ & _ & _ & Hl & Hj). exists t. rewrite (translate_eq s d) by (done || lia). cbv zeta. rewrite Hl, slot_present, frame_of_entry by lia.
  by rewrite Hj by zlia.
Qed.

Lemma low_memory v : (forall k, 0 <= k < 4 -> fb_pde (768 + k) = 0) -> 0xC0001000 <= v < 0xC1000000 ->
  exists pde pte, translate s v = Some (pde, pte, (v - 0xC0000000) / 4) /\ Z.land pde 4 = 0.
Proof.
  intros Hfb Hv. destruct (half_translate v ltac:(lia)) as [t Ht]; [replace (v / 4194304) with (768 + (v / 4194304 - 768)) by lia; apply Hfb; zlia|].
  cbv zeta in Ht. set (i := v / 4194304 - 768) in Ht. set (j := v / 4096 mod 1024) in Ht.
  assert (Hij : i * 1024 + j = v / 4096 - 786432 /\ 0 <= i < 4) by (subst i j; zlia). destruct Hij as [Hij Hi].
  assert (He : init_entry i j = (v / 4096 - 786432) * 4096 + 3).
  { unfold init_entry. destruct (Z.ltb_spec i 4); [|lia]. cbv zeta. change PAGE_SIZE with 4096. replace (i * 0x400000 + j * 4096) with ((v / 4096 - 786432) * 4096) by lia.
    destruct (Z.eqb_spec ((v / 4096 - 786432) * 4096) 0); [zlia|]. apply lor_flags. lia. }
  rewrite He, slot_present, frame_of_entry in Ht by lia. eexists _, _. split.
  - rewrite Ht. do 2 f_equal. zlia.
  - apply Z.bits_inj'. intros b Hb. rewrite Z.land_spec, testbit_entry, Z.bits_0 by lia. change 4 with (2 ^ 2). rewrite Z.pow2_bits_eqb by lia.
    destruct (Z.eqb_spec 2 b) as [<-|]; [done|apply andb_false_r].
Qed.

(** The first page, the tables above 16 MB. *)
Lemma nothing_else v : fb_pde (v / 4194304) = 0 -> 0xC0000000 <= v < 0xC0001000 \/ 0xC1000000 <= v < 0xFFC00000 -> translate s v = None.
Proof.
  intros Hfb Hv. destruct (half_translate v ltac:(lia) Hfb) as [t ->]. replace (init_entry _ _) with 2; [done|]. unfold init_entry.
  destruct (Z.ltb_spec (v / 4194304 - 768) 4); [|done]. destruct Hv as [Hv|Hv]; [|exfalso; zlia].
  replace (v / 4194304) with 768 by zlia. by replace (v / 4096 mod 1024) with 0 by zlia.
Qed.
End Half.

Lemma early_fb_low base pd k : 0 <= k < 132 -> early_fb_pde base pd (768 + k) = 0.
Proof.
  intros Hk. unfold early_fb_pde. case_match; [done|]. destruct (Z.leb_spec 1024 (768 + k)); [lia|].
  change (FB_WINDOW_BASE / PDE_SPAN) with 900. by destruct (Z.ltb_spec (768 + k) 900); [|lia].
Qed.

Lemma early_fb_u32 base pd i : (forall i, is_u32 (pd i)) -> is_u32 (early_fb_pde base pd i).
Proof. intros H. unfold early_fb_pde. by repeat case_match. Qed.

(** Nothing makes sure of the frames: when the lowest free one is above 16 MB, and
    no screen is mapped, the first write to it is a page fault. *)
Lemma boot_needs_low_frames s r p : pmm_alloc_frame (phys s) = (r, p) -> 0x1000000 <= r < 0x40000000 -> init_paging s (fun _ => 0) = None.
Proof.
  intros Ea Hr. unfold init_paging. rewrite Ea. destruct (Z.eqb_spec r 0xFFFFFFFF); [lia|]. cbv zeta.
  assert (Hnone : forall n, for_range n 1024 (fun st i => boot_store (fun _ => 0) r i PAGE_NOT_PRESENT st) None = None).
  { intros k. unfold for_range. by induction (seqZ k (1024 - k)) as [|x l IH]. }
  assert (Hfirst : boot_store (fun _ => 0) r 0 PAGE_NOT_PRESENT (Some (with_phys s p)) = None).
  { unfold boot_store, boot_address. rewrite (u32_small (r + 0xC0000000)), u32_small by lia. destruct (Z.ltb_spec (r + 0xC0000000 + 4 * 0) 0x1000000); [lia|].
    destruct (Z.ltb_spec (r + 0xC0000000 + 4 * 0) 0xC1000000); [lia|]. by rewrite andb_false_r. }
  rewrite (for_range_step 0 1024) by lia. rewrite Hfirst, Hnone. unfold for_range.
  assert (Hf : forall l, foldl (init_kernel_table (fun _ => 0) r) None l = None) by (induction l; done). by rewrite Hf.
Qed.

End PagingInit.
