(* ===== verification/PagingSpec.v ===== *)
(** * Every program has memory of its own

    What the paging code promises: a map from words to values for every address
    space, which only the program it belongs to changes.  The directory that
    [init_paging] builds is a starting point, and every operation on memory keeps to
    the promise. *)

From S2P Require Import Prelude Pmm Paging PagingInv PagingOps PagingFork PagingShare PagingExit PagingMem PagingInit.

Module PagingSpec.
Import Pmm Paging PagingInv PagingOps PagingFork PagingShare PagingExit PagingMem PagingInit.

(** ** The operations of programs and of the kernel on their memory *)

Definition MAX_TASKS : Z := 16.

(** The machine, and the two fields of the break of the task of every directory. *)
Record kstate := mkK { mach : machine; procs : gmap Z (Z * Z) }.

Inductive mem_op :=
| Write (a x : Z)
| Fork (listed : bool) (child_pid : Z)
| Exit (d : Z)
| Switch (d : Z)
| Brk (ebx : Z)
| Mmap (length reserved : Z)
| Munmap (addr length : Z).

(** Whether the allocator has no frame left. *)
Definition exhausted (s : machine) : bool := fst (pmm_alloc_frame (phys s)) =? 0xFFFFFFFF.

(** [kd] is the frame of the kernel's directory.  Only a task that is there can end
    or run, and the one that runs does not clean up after itself. *)
Definition kstep (kd : Z) (k : kstate) (op : mem_op) : Z * kstate :=
  let s := mach k in
  let cur := cr3 s / 4096 in
  match op with
  | Write a x => let '(ok, s) := user_write s a x in (if ok then E_OK else E_FAULT, mkK s (procs k))
  | Fork listed child_pid =>
      if MAX_TASKS <=? Z.of_nat (size (procs k)) then (E_AGAIN, k)
      else
        let '(r, child, s) := fork_memory s (kd * 4096) listed child_pid in
        (r, mkK s (if r <? 0 then procs k else <[child / 4096 := default (0, 0) (procs k !! cur)]> (procs k)))
  | Exit d =>
      if bool_decide (is_Some (procs k !! d)) && negb (d =? cur) && negb (d =? kd) then
        (E_OK, mkK (cleanup_process_memory s (kd * 4096) (d * 4096)) (delete d (procs k)))
      else (E_SRCH, k)
  | Switch d => if bool_decide (is_Some (procs k !! d)) then (E_OK, mkK (with_cr3 s (d * 4096)) (procs k)) else (E_SRCH, k)
  | Brk ebx =>
      let '(b0, b) := default (0, 0) (procs k !! cur) in
      let '(r, s, b) := sys_brk s b0 b ebx in (r, mkK s (<[cur := (b0, b)]> (procs k)))
  | Mmap length reserved => let '(r, s) := sys_mmap s length reserved in (r, mkK s (procs k))
  | Munmap addr length => let '(r, s) := sys_munmap s addr length in (r, mkK s (procs k))
  end.

(** The answers, with whether memory was short when the question came. *)
Fixpoint krun (kd : Z) (k : kstate) (ops : list mem_op) : list (Z * bool) * kstate :=
  match ops with
  | [] => ([], k)
  | op :: ops =>
      let full := exhausted (mach k) in
      let '(r, k) := kstep kd k op in
      let '(rs, k) := krun kd k ops in ((r, full) :: rs, k)
  end.

(** Words are written at word addresses of user memory. *)
Definition wf_op (op : mem_op) : Prop :=
  match op with
  | Write a x => 0x400000 <= a < 0xC0000000 /\ a mod 4 = 0 /\ is_u32 x
  | Brk ebx => is_u32 ebx
  | Mmap length _ => is_u32 length
  | Munmap addr length => is_u32 addr /\ is_u32 length
  | _ => True
  end.

(** ** Private memories *)

(** The words of every address space with whether they may be written, the breaks,
    and who runs. *)
Record amem := mkA { mem : Z -> Z -> option (Z * bool); spaces : gmap Z (Z * Z); running : Z }.

(** The pages [lo, hi) of [d] become [x]. *)
Definition patch (m : Z -> Z -> option (Z * bool)) (d lo hi : Z) (x : option (Z * bool)) (d' w : Z) : option (Z * bool) :=
  if decide (d' = d /\ lo <= w / 1024 < hi) then x else m d' w.
Definition put (m : Z -> Z -> option (Z * bool)) (d w x d' w' : Z) : option (Z * bool) := if decide (d' = d /\ w' = w) then Some (x, true) else m d' w'.
Definition copy (m : Z -> Z -> option (Z * bool)) (d c d' w : Z) : option (Z * bool) := if decide (d' = c) then m d w else m d' w.
Definition wipe (m : Z -> Z -> option (Z * bool)) (d d' w : Z) : option (Z * bool) := if decide (d' = d) then None else m d' w.

Definition same (m m' : Z -> Z -> option (Z * bool)) : Prop := forall d w, m d w = m' d w.

Inductive astep (kd : Z) (full : bool) (A : amem) : mem_op -> Z -> amem -> Prop :=
| a_write a x m old : mem A (running A) (a / 4) = Some (old, true) -> same m (put (mem A) (running A) (a / 4) x) ->
    astep kd full A (Write a x) E_OK (mkA m (spaces A) (running A))
| a_refused a x m : (forall old, mem A (running A) (a / 4) <> Some (old, true)) \/ full = true -> same m (mem A) ->
    astep kd full A (Write a x) E_FAULT (mkA m (spaces A) (running A))
| a_fork listed child_pid r m c : 0 <= r -> spaces A !! c = None -> same m (copy (mem A) (running A) c) ->
    astep kd full A (Fork listed child_pid) r (mkA m (<[c := default (0, 0) (spaces A !! running A)]> (spaces A)) (running A))
| a_no_fork listed child_pid r m : r < 0 -> same m (mem A) -> astep kd full A (Fork listed child_pid) r (mkA m (spaces A) (running A))
| a_exit d m : is_Some (spaces A !! d) -> d <> running A -> d <> kd -> same m (wipe (mem A) d) ->
    astep kd full A (Exit d) E_OK (mkA m (delete d (spaces A)) (running A))
| a_switch d : is_Some (spaces A !! d) -> astep kd full A (Switch d) E_OK (mkA (mem A) (spaces A) d)
| a_nobody op : (exists d, op = Exit d /\ (spaces A !! d = None \/ d = running A \/ d = kd)) \/ (exists d, op = Switch d /\ spaces A !! d = None) ->
    astep kd full A op E_SRCH A
| a_no_heap ebx b : spaces A !! running A = Some (0, b) -> astep kd full A (Brk ebx) 0 A
| a_grow ebx p0 p p' m : spaces A !! running A = Some (p0 * 4096, p * 4096) -> 0 < p0 <= p -> p < p' <= FLOOR_PAGE -> p' * 4096 - 4096 < ebx <= p' * 4096 ->
    same m (patch (mem A) (running A) p p' (Some (0, true))) ->
    astep kd full A (Brk ebx) (p' * 4096) (mkA m (<[running A := (p0 * 4096, p' * 4096)]> (spaces A)) (running A))
| a_shrink ebx p0 p p' m : spaces A !! running A = Some (p0 * 4096, p * 4096) -> 0 < p0 <= p' -> p' <= p <= FLOOR_PAGE -> p' = p \/ p' * 4096 - 4096 < ebx <= p' * 4096 ->
    same m (patch (mem A) (running A) p' p None) ->
    astep kd full A (Brk ebx) (p' * 4096) (mkA m (<[running A := (p0 * 4096, p' * 4096)]> (spaces A)) (running A))
| a_map length b m : 0 < length -> FLOOR_PAGE <= b -> b + (length + 4095) / 4096 <= TOP_PAGE ->
    (forall w, b <= w / 1024 < b + (length + 4095) / 4096 -> mem A (running A) w = None) ->
    same m (patch (mem A) (running A) b (b + (length + 4095) / 4096) (Some (0, true))) ->
    astep kd full A (Mmap length 0) (b * 4096) (mkA m (spaces A) (running A))
| a_no_map length reserved m : same m (mem A) -> astep kd full A (Mmap length reserved) 0xFFFFFFFF (mkA m (spaces A) (running A))
| a_unmap length lo hi m : FLOOR_PAGE <= lo < hi -> hi <= TOP_PAGE -> hi * 4096 - 4096 < lo * 4096 + length <= hi * 4096 ->
    same m (patch (mem A) (running A) lo hi None) -> astep kd full A (Munmap (lo * 4096) length) E_OK (mkA m (spaces A) (running A))
| a_no_unmap addr length : astep kd full A (Munmap addr length) E_INVAL A.

Inductive aruns (kd : Z) : amem -> list mem_op -> list (Z * bool) -> amem -> Prop :=
| aruns_nil A : aruns kd A [] [] A
| aruns_cons A op r full A1 ops rs A2 : astep kd full A op r A1 -> aruns kd A1 ops rs A2 -> aruns kd A (op :: ops) ((r, full) :: rs) A2.

(** Between the break and the mappings nothing is mapped. *)
Definition layout (A : amem) : Prop := forall d b0 b, spaces A !! d = Some (b0, b) -> b0 = 0 \/
  exists p0 p, b0 = p0 * 4096 /\ b = p * 4096 /\ 1024 <= p0 <= p /\ p <= FLOOR_PAGE /\ forall w, p <= w / 1024 < FLOOR_PAGE -> mem A d w = None.

(** The machine has exactly those memories. *)
Record related (kd : Z) (k : kstate) (A : amem) (g : vm) : Prop := {
  re_rep : rep (mach k) g [];
  re_cur : current (mach k) g (running A);
  re_dirs : forall d, role g !! d = Some Dir <-> is_Some (spaces A !! d);
  re_mem : forall d w, mem A d w = view (mach k) g d w;
  re_procs : procs k = spaces A;
  re_kd : is_Some (spaces A !! kd);
  re_size : Z.of_nat (size (spaces A)) <= MAX_TASKS;
  re_layout : layout A
}.

(** One address space with nothing in it. *)
Lemma first_related s d t : rep s (first_vm d t) [] -> cr3 s = d * 4096 -> t <> d ->
  related d (mkK s {[d := (0, 0)]}) (mkA (fun _ _ => None) {[d := (0, 0)]} d) (first_vm d t).
Proof.
  intros R Hc Htd. split; cbn [mach procs mem spaces running]; try done.
  - split; [done|]. cbn. apply lookup_insert_eq.
  - intros d'. destruct (decide (d' = d)) as [->|Hne].
    + rewrite lookup_singleton_eq. cbn. rewrite lookup_insert_eq. split; [by eexists|done].
    + rewrite lookup_singleton_ne by done. cbn. rewrite lookup_insert_ne by done. split; [|by intros [? ?]]. intros Hd. by apply lookup_singleton_Some in Hd as [_ ?].
  - rewrite lookup_singleton_eq. by eexists.
  - rewrite map_size_singleton. done.
  - intros d' b0 b Hd. cbn [spaces] in Hd. apply lookup_singleton_Some in Hd as [_ [= <- <-]]. by left.
Qed.

Lemma layout_mem A m sp r : layout A -> (forall d, sp !! d = spaces A !! d \/ exists b, sp !! d = Some (0, b)) ->
  (forall d w, is_Some (sp !! d) -> mem A d w = None -> w / 1024 < FLOOR_PAGE -> m d w = None) -> layout (mkA m sp r).
Proof.
  intros HL Hsp Hm d b0 b Hd. cbn in *. destruct (Hsp d) as [E|[b' E]]; [|left; congruence]. rewrite E in Hd.
  destruct (HL d b0 b Hd) as [?|(p0 & p & H1 & H2 & H3 & H4 & H5)]; [by left|]. right. exists p0, p. split_and!; try (done || lia). intros w Hw. apply Hm; [rewrite E; by eexists|by apply H5|lia].
Qed.

(** The programs' memories keep to the layout. *)
Lemma astep_layout kd full A op r A' : astep kd full A op r A' -> layout A -> layout A'.
Proof.
  intros Hs HL. destruct Hs as [a x m old Ho Hm|a x m Hr Hm|listed child_pid r m c Hr Hc Hm|listed child_pid r m Hr Hm|d m Hd Hne Hk Hm|d Hd|op Hop|ebx b Hb|ebx p0 p p' m Hb Hp Hp' He Hm
    |ebx p0 p p' m Hb Hp Hp' He Hm|length b m Hl Hb1 Hb2 Hf Hm|length reserved m Hm|length lo hi m Hlo Hhi Hl Hm|addr length]; try done.
  - apply (layout_mem A); [done|by left|]. intros d w _ Hn _. rewrite Hm. unfold put. case_decide as E; [|done]. destruct E as [-> ->]. congruence.
  - apply (layout_mem A); [done|by left|]. intros d w _ Hn _. by rewrite Hm.
  - intros d b0 b Hd. cbn in *. destruct (decide (d = c)) as [->|Hne].
    + rewrite lookup_insert_eq in Hd. injection Hd as Hd. destruct (spaces A !! running A) as [[b0' b']|] eqn:E; cbn in Hd; [|left; congruence]. injection Hd as -> ->.
      destruct (HL _ _ _ E) as [?|(p0 & p & H1 & H2 & H3 & H4 & H5)]; [by left|]. right. exists p0, p. split_and!; try (done || lia). intros w Hw. rewrite Hm. unfold copy. rewrite decide_True by done. by apply H5.
    + rewrite lookup_insert_ne in Hd by done. destruct (HL _ _ _ Hd) as [?|(p0 & p & H1 & H2 & H3 & H4 & H5)]; [by left|]. right. exists p0, p. split_and!; try (done || lia).
      intros w Hw. rewrite Hm. unfold copy. rewrite decide_False by done. by apply H5.
  - apply (layout_mem A); [done|by left|]. intros d w _ Hn _. by rewrite Hm.
  - intros d' b0 b Hd'. cbn in *. apply lookup_delete_Some in Hd' as [Hne' Hd']. destruct (HL _ _ _ Hd') as [?|(p0 & p & H1 & H2 & H3 & H4 & H5)]; [by left|]. right. exists p0, p.
    split_and!; try (done || lia). intros w Hw. rewrite Hm. unfold wipe. case_decide; [done|]. by apply H5.
  - intros d b0 b Hd. cbn in *. destruct (HL _ _ _ Hb) as [?|(q0 & q & H1 & H2 & H3 & H4 & H5)]; [lia|]. destruct (decide (d = running A)) as [->|Hne].
    + rewrite lookup_insert_eq in Hd. injection Hd as <- <-. right. exists p0, p'. split_and!; try (done || lia). intros w Hw. rewrite Hm. unfold patch. rewrite decide_False by lia. apply H5. lia.
    + rewrite lookup_insert_ne in Hd by done. destruct (HL _ _ _ Hd) as [?|(r0 & r & ?)]; [by left|]. right. exists r0, r. split_and!; try (tauto || lia). intros w Hw. rewrite Hm. unfold patch.
      rewrite decide_False by tauto. by apply H.
  - intros d b0 b Hd. cbn in *. destruct (HL _ _ _ Hb) as [?|(q0 & q & H1 & H2 & H3 & H4 & H5)]; [lia|]. destruct (decide (d = running A)) as [->|Hne].
    + rewrite lookup_insert_eq in Hd. injection Hd as <- <-. right. exists p0, p'. split_and!; try (done || lia). intros w Hw. rewrite Hm. unfold patch. case_decide as E; [done|]. apply H5. lia.
    + rewrite lookup_insert_ne in Hd by done. destruct (HL _ _ _ Hd) as [?|(r0 & r & ?)]; [by left|]. right. exists r0, r. split_and!; try (tauto || lia). intros w Hw. rewrite Hm. unfold patch.
      rewrite decide_False by tauto. by apply H.
  - apply (layout_mem A); [done|by left|]. intros d w _ Hn Hw. rewrite Hm. unfold patch. rewrite decide_False by lia. done.
  - apply (layout_mem A); [done|by left|]. intros d w _ Hn _. by rewrite Hm.
  - apply (layout_mem A); [done|by left|]. intros d w _ Hn Hw. rewrite Hm. unfold patch. rewrite decide_False by lia. done.
Qed.

Lemma related_same kd k A g s' g' m sp : related kd k A g -> rep s' g' [] -> same_dirs g g' -> cr3 s' = cr3 (mach k) -> same m (view s' g') ->
  (forall d, is_Some (sp !! d) <-> is_Some (spaces A !! d)) -> layout (mkA m sp (running A)) -> related kd (mkK s' sp) (mkA m sp (running A)) g'.
Proof.
  intros [R C D M P K S L] R' D' C' V Hsp HL. split; cbn [mach procs mem spaces running]; try done.
  - destruct C as [C Hd]. split; [congruence|by apply D'].
  - intros d. by rewrite (D' d), Hsp.
  - by apply Hsp.
  - rewrite <- size_dom. replace (dom sp) with (dom (spaces A)); [by rewrite size_dom|]. apply set_eq. intros d. by rewrite !elem_of_dom, Hsp.
Qed.

Section Step.
Context (kd : Z) (k : kstate) (A : amem) (g : vm).
Hypothesis HR : related kd k A g.

Lemma running_eq : cr3 (mach k) / 4096 = running A.
Proof. destruct (re_cur _ _ _ _ HR) as [-> _]. by rewrite Z.div_mul. Qed.

Lemma changes_same d lo hi x s' g' : changes (mach k) g d lo hi x s' g' -> same (patch (mem A) d lo hi x) (view s' g').
Proof. intros C d' w. rewrite (ch_view _ _ _ _ _ _ _ _ C). unfold patch. by rewrite (re_mem _ _ _ _ HR). Qed.

Lemma step_next op r s' g' m sp : astep kd (exhausted (mach k)) A op r (mkA m sp (running A)) -> rep s' g' [] -> same_dirs g g' -> cr3 s' = cr3 (mach k) -> same m (view s' g') ->
  (forall d, is_Some (sp !! d) <-> is_Some (spaces A !! d)) ->
  exists A' g', astep kd (exhausted (mach k)) A op r A' /\ related kd (mkK s' sp) A' g'.
Proof.
  intros Hs R D C V Hsp. exists (mkA m sp (running A)), g'. split; [done|]. apply (related_same kd k A g); try done. by apply (astep_layout _ _ _ _ _ _ Hs), (re_layout _ _ _ _ HR).
Qed.

Lemma step_changes op r lo hi x s' g' sp : changes (mach k) g (running A) lo hi x s' g' ->
  astep kd (exhausted (mach k)) A op r (mkA (patch (mem A) (running A) lo hi x) sp (running A)) -> (forall d, is_Some (sp !! d) <-> is_Some (spaces A !! d)) ->
  exists A' g', astep kd (exhausted (mach k)) A op r A' /\ related kd (mkK s' sp) A' g'.
Proof. intros C Hs Hsp. apply (step_next op r s' g' (patch (mem A) (running A) lo hi x)); try apply C; try done. by apply changes_same. Qed.

Lemma step_write a x : wf_op (Write a x) ->
  exists A' g', astep kd (exhausted (mach k)) A (Write a x) (kstep kd k (Write a x)).1 A' /\ related kd (kstep kd k (Write a x)).2 A' g'.
Proof.
  intros (Ha & _ & Hx). cbn [kstep]. pose proof (user_write_spec _ _ _ a x (re_rep _ _ _ _ HR) (re_cur _ _ _ _ HR) Ha Hx) as Hw. destruct (user_write (mach k) a x) as [ok s'].
  destruct Hw as (g' & R & D & C & Hv). rewrite (re_procs _ _ _ _ HR). destruct ok; destruct Hv as [Ho V]; cbn [fst snd].
  - destruct Ho as [old Ho]. apply (step_next _ _ s' g' (put (mem A) (running A) (a / 4) x)); try done.
    + apply (a_write _ _ _ _ _ _ old); [by rewrite (re_mem _ _ _ _ HR)|done].
    + intros d w. rewrite V. unfold put. by rewrite (re_mem _ _ _ _ HR).
  - apply (step_next _ _ s' g' (mem A)); try done.
    + apply a_refused; [|done]. destruct V as [V|V]; [left; intros old; by rewrite (re_mem _ _ _ _ HR)|right]. unfold exhausted. unfold out_of_memory in V. by rewrite V.
    + intros d w. by rewrite (re_mem _ _ _ _ HR).
Qed.

Lemma size_dirs : size (dirs g) = size (spaces A).
Proof.
  rewrite <- size_dom. f_equal. apply set_eq. intros d. by rewrite elem_dirs, (re_dirs _ _ _ _ HR), elem_of_dom.
Qed.

Lemma step_fork listed child_pid :
  exists A' g', astep kd (exhausted (mach k)) A (Fork listed child_pid) (kstep kd k (Fork listed child_pid)).1 A' /\ related kd (kstep kd k (Fork listed child_pid)).2 A' g'.
Proof.
  cbn [kstep]. rewrite running_eq, (re_procs _ _ _ _ HR). destruct (Z.leb_spec MAX_TASKS (Z.of_nat (size (spaces A)))) as [|Hlt]; cbn [fst snd].
  { exists (mkA (mem A) (spaces A) (running A)), g. split; [by apply a_no_fork|]. destruct k, A, HR. by split. }
  pose proof (fork_spec (mach k) g (running A) kd listed child_pid (re_rep _ _ _ _ HR) (re_cur _ _ _ _ HR)) as Hf. unfold MAX_TASKS in Hlt.
  assert (Hkd : role g !! kd = Some Dir) by (apply (re_dirs _ _ _ _ HR), (re_kd _ _ _ _ HR)). specialize (Hf Hkd ltac:(rewrite size_dirs; lia)).
  destruct (fork_memory (mach k) (kd * 4096) listed child_pid) as [[r child] s']. cbn [fst snd] in *. destruct Hf as (g' & R & C & [(Hr & c & -> & Hc & D & V & Vc)|(Hr & -> & D & V)]).
  - destruct (Z.ltb_spec r 0); [lia|]. rewrite Z.div_mul by lia. assert (Hn : spaces A !! c = None).
    { destruct (spaces A !! c) as [b|] eqn:E; [|done]. assert (Hx : role g !! c = Some Dir) by (apply (re_dirs _ _ _ _ HR); by eexists). congruence. }
    set (sp := <[c := default (0, 0) (spaces A !! running A)]> (spaces A)). set (m := copy (mem A) (running A) c).
    assert (Hst : astep kd (exhausted (mach k)) A (Fork listed child_pid) r (mkA m sp (running A))) by (by apply a_fork).
    exists (mkA m sp (running A)), g'. split; [done|]. split; cbn [mach procs mem spaces running]; try done.
    + destruct (re_cur _ _ _ _ HR) as [Hcr' Hd]. split; [congruence|]. apply D. by left.
    + intros d. rewrite (D d), (re_dirs _ _ _ _ HR). unfold sp. destruct (decide (d = c)) as [->|]; [rewrite lookup_insert_eq; split; [by eexists|by right]|rewrite lookup_insert_ne by done; naive_solver].
    + intros d w. unfold m, copy. case_decide as E; [subst d; by rewrite Vc, (re_mem _ _ _ _ HR)|by rewrite V, (re_mem _ _ _ _ HR)].
    + unfold sp. destruct (decide (kd = c)) as [->|]; [rewrite lookup_insert_eq; by eexists|rewrite lookup_insert_ne by done; apply (re_kd _ _ _ _ HR)].
    + unfold sp. rewrite map_size_insert_None by done. unfold MAX_TASKS. lia.
    + by apply (astep_layout _ _ _ _ _ _ Hst), (re_layout _ _ _ _ HR).
  - destruct (Z.ltb_spec r 0); [|lia]. apply (step_next _ _ s' g' (mem A)); try done; [by apply a_no_fork|]. intros d w. by rewrite V, (re_mem _ _ _ _ HR).
Qed.

Lemma exit_guard d : bool_decide (is_Some (procs k !! d)) && negb (d =? cr3 (mach k) / 4096) && negb (d =? kd) = true <-> is_Some (spaces A !! d) /\ d <> running A /\ d <> kd.
Proof.
  rewrite running_eq, (re_procs _ _ _ _ HR). rewrite !andb_true_iff, !negb_true_iff, !Z.eqb_neq, bool_decide_eq_true. tauto.
Qed.

Lemma step_exit d : exists A' g', astep kd (exhausted (mach k)) A (Exit d) (kstep kd k (Exit d)).1 A' /\ related kd (kstep kd k (Exit d)).2 A' g'.
Proof.
  cbn [kstep]. pose proof (exit_guard d) as Hg. destruct (bool_decide _ && _ && _); cbn [fst snd].
  - destruct Hg as [Hg _]. specialize (Hg eq_refl). destruct Hg as (Hd & Hne & Hk). assert (Hdir : role g !! d = Some Dir) by (by apply (re_dirs _ _ _ _ HR)).
    assert (Hkr : 0 <= kd < 2 ^ 20) by (apply (tb_range _ _ (rp_tables _ _ _ (re_rep _ _ _ _ HR)) kd Dir), (re_dirs _ _ _ _ HR), (re_kd _ _ _ _ HR)).
    destruct (cleanup_spec (mach k) g (running A) d (re_rep _ _ _ _ HR) (re_cur _ _ _ _ HR) Hdir Hne (kd * 4096)) as (g' & R & C & D & V).
    { fold (frame_addr (kd * 4096)). rewrite frame_addr_eq, Z.div_mul by (unfold is_u32; lia). lia. }
    set (s' := cleanup_process_memory _ _ _) in *. clearbody s'. rewrite (re_procs _ _ _ _ HR).
    assert (Hst : astep kd (exhausted (mach k)) A (Exit d) E_OK (mkA (wipe (mem A) d) (delete d (spaces A)) (running A))) by (by apply a_exit).
    exists (mkA (wipe (mem A) d) (delete d (spaces A)) (running A)), g'. split; [done|]. split; cbn [mach procs mem spaces running]; try done.
    + destruct (re_cur _ _ _ _ HR) as [Hcr Hc]. split; [congruence|]. by apply D.
    + intros d'. rewrite (D d'), (re_dirs _ _ _ _ HR). destruct (decide (d' = d)) as [->|Hn]; [rewrite lookup_delete_eq; split; [tauto|by intros [? ?]]|rewrite lookup_delete_ne by done; tauto].
    + intros d' w. unfold wipe. case_decide as E; [|by rewrite V, (re_mem _ _ _ _ HR)]. subst d'. symmetry. apply (view_none _ g' d w s' (rp_tables _ _ _ R)). intros Hx. by apply D in Hx as [_ ?].
    + rewrite lookup_delete_ne by done. apply (re_kd _ _ _ _ HR).
    + pose proof (re_size _ _ _ _ HR). assert (size (delete d (spaces A)) <= size (spaces A))%nat by (apply map_subseteq_size, delete_subseteq). lia.
    + by apply (astep_layout _ _ _ _ _ _ Hst), (re_layout _ _ _ _ HR).
  - exists A, g. split; [|done]. apply a_nobody. left. exists d. split; [done|]. destruct (decide (d = running A)); [tauto|]. destruct (decide (d = kd)); [tauto|]. left.
    destruct (spaces A !! d) eqn:E; [|done]. destruct Hg as [_ Hg]. assert (Hx : false = true); [|done]. apply Hg. split; [by eexists|done].
Qed.

Lemma step_switch d : exists A' g', astep kd (exhausted (mach k)) A (Switch d) (kstep kd k (Switch d)).1 A' /\ related kd (kstep kd k (Switch d)).2 A' g'.
Proof.
  cbn [kstep]. rewrite (re_procs _ _ _ _ HR). case_bool_decide as Hd; cbn [fst snd].
  - exists (mkA (mem A) (spaces A) d), g. split; [by apply a_switch|]. destruct HR as [R C D M P K S L]. split; cbn [mach procs mem spaces running]; try done.
    + by apply rep_cr3.
    + split; [done|by apply D].
  - exists A, g. split; [|done]. apply a_nobody. right. exists d. split; [done|]. by apply eq_None_not_Some.
Qed.

Lemma step_brk ebx : is_u32 ebx -> exists A' g', astep kd (exhausted (mach k)) A (Brk ebx) (kstep kd k (Brk ebx)).1 A' /\ related kd (kstep kd k (Brk ebx)).2 A' g'.
Proof.
  intros Hx. cbn [kstep]. rewrite running_eq, (re_procs _ _ _ _ HR). assert (Hr : is_Some (spaces A !! running A)) by (apply (re_dirs _ _ _ _ HR), (re_cur _ _ _ _ HR)).
  destruct Hr as [[b0 b] Hb]. rewrite Hb. change (default (0, 0) (Some (b0, b))) with (b0, b). cbv iota beta. assert (Hsp : forall x d, is_Some (<[running A := x]> (spaces A) !! d) <-> is_Some (spaces A !! d)).
  { intros x d. destruct (decide (d = running A)) as [->|]; [rewrite lookup_insert_eq, Hb; split; by eexists|by rewrite lookup_insert_ne]. }
  destruct (re_layout _ _ _ _ HR _ _ _ Hb) as [-> | (p0 & p & -> & -> & H1 & H2 & H3)].
  - unfold sys_brk. cbn [Z.eqb fst snd]. rewrite insert_id by done. exists A, g. split; [by apply (a_no_heap _ _ _ _ b)|]. rewrite <- (re_procs _ _ _ _ HR). by destruct k.
  - destruct (brk_spec (mach k) g (running A) p0 p ebx (re_rep _ _ _ _ HR) (re_cur _ _ _ _ HR) ltac:(lia) H2 Hx) as (g' & p' & Hs).
    { intros w Hw. rewrite <- (re_mem _ _ _ _ HR). by apply H3. }
    destruct (sys_brk _ _ _ _) as [[r s'] b']. destruct Hs as (-> & -> & Hp' & He & Hc). cbn [fst snd]. destruct (Z.leb_spec p' p).
    + apply (step_changes _ _ _ _ _ _ _ _ Hc); [|done]. apply (a_shrink _ _ _ _ p0 p); (done || lia).
    + apply (step_changes _ _ _ _ _ _ _ _ Hc); [|done]. apply (a_grow _ _ _ _ p0 p); (done || lia).
Qed.

Lemma step_mmap length reserved : is_u32 length ->
  exists A' g', astep kd (exhausted (mach k)) A (Mmap length reserved) (kstep kd k (Mmap length reserved)).1 A' /\ related kd (kstep kd k (Mmap length reserved)).2 A' g'.
Proof.
  intros Hl. cbn [kstep]. destruct (mmap_spec (mach k) g (running A) length reserved (re_rep _ _ _ _ HR) (re_cur _ _ _ _ HR) Hl) as [g' Hm]. rewrite (re_procs _ _ _ _ HR).
  destruct (sys_mmap _ _ _) as [r s']. cbn [fst snd]. destruct Hm as [(-> & C)|(Hl0 & -> & b & -> & H1 & H2 & Hu & C)]; apply (step_changes _ _ _ _ _ _ _ _ C); try done.
  - apply a_no_map. intros d w. unfold patch. by rewrite decide_False by lia.
  - apply a_map; try done. intros w Hw. rewrite (re_mem _ _ _ _ HR). by apply Hu.
Qed.

Lemma step_munmap addr length : is_u32 addr -> is_u32 length ->
  exists A' g', astep kd (exhausted (mach k)) A (Munmap addr length) (kstep kd k (Munmap addr length)).1 A' /\ related kd (kstep kd k (Munmap addr length)).2 A' g'.
Proof.
  intros Ha Hl. cbn [kstep]. destruct (munmap_spec (mach k) g (running A) addr length (re_rep _ _ _ _ HR) (re_cur _ _ _ _ HR) Ha Hl) as [g' Hm].
  destruct (sys_munmap _ _ _) as [r s']. cbn [fst snd]. destruct Hm as [(-> & -> & ->)|(-> & lo & hi & -> & H1 & H2 & H3 & C)].
  - exists A, g. split; [apply a_no_unmap|]. by destruct k.
  - rewrite (re_procs _ _ _ _ HR). apply (step_changes _ _ _ _ _ _ _ _ C); [|done]. by apply (a_unmap _ _ _ _ lo hi).
Qed.

Lemma step_refines op : wf_op op -> exists A' g', astep kd (exhausted (mach k)) A op (kstep kd k op).1 A' /\ related kd (kstep kd k op).2 A' g'.
Proof.
  destruct op; intros Hw; [by apply step_write|apply step_fork|apply step_exit|apply step_switch|by apply step_brk|by apply step_mmap|by apply step_munmap; apply Hw].
Qed.

End Step.

Lemma run_refines kd ops : forall k A g, related kd k A g -> Forall wf_op ops ->
  exists A' g', aruns kd A ops (krun kd k ops).1 A' /\ related kd (krun kd k ops).2 A' g'.
Proof.
  induction ops as [|op ops IH]; intros k A g HR Hw; [exists A, g; split; [constructor|done]|]. apply Forall_cons in Hw as [Hw Hws]. cbn [krun].
  destruct (step_refines kd k A g HR op Hw) as (A1 & g1 & Hs & HR1). destruct (kstep kd k op) as [r k1]. cbn [fst snd] in *.
  destruct (IH k1 A1 g1 HR1 Hws) as (A2 & g2 & Hr & HR2). destruct (krun kd k1 ops) as [rs k2]. cbn [fst snd] in *. exists A2, g2. split; [by apply (aruns_cons _ _ _ _ _ A1)|done].
Qed.

(** What a program reads is what its memory holds. *)
Lemma read_refines kd k A g a : related kd k A g -> 0 <= a < 0xC0000000 -> user_read (mach k) a = option_map fst (mem A (running A) (a / 4)).
Proof. intros HR Ha. rewrite (re_mem _ _ _ _ HR). apply user_read_view; [apply (rp_tables _ _ _ (re_rep _ _ _ _ HR))|apply (re_cur _ _ _ _ HR)|done]. Qed.

(** ** Theorems *)

(** C2: every program has memory of its own.  Writes through copy-on-write pages,
    forks, ends of processes, context switches and the calls [brk], [mmap] and
    [munmap], in any order and with any arguments, act on the page tables, the
    reference counts and the physical memory exactly as if every address space were
    a separate map from words to values: a write changes one word of the writer, a
    fork gives the child a copy, fresh pages are zero, what fails changes nothing,
    and whatever is read afterwards is what the map holds.  A write to a writable
    word is refused only when no frame is left. *)
Theorem memory_refines kd k A g ops : related kd k A g -> Forall wf_op ops ->
  let '(rs, k') := krun kd k ops in
  exists A' g', aruns kd A ops rs A' /\ related kd k' A' g' /\
    forall a, 0 <= a < 0xC0000000 -> user_read (mach k') a = option_map fst (mem A' (running A') (a / 4)).
Proof.
  intros HR Hw. destruct (run_refines kd ops k A g HR Hw) as (A' & g' & Hr & HR'). destruct (krun kd k ops) as [rs k']. exists A', g'. split_and!; try done.
  intros a Ha. by apply (read_refines kd k' A' g').
Qed.

(** C38: boot ends with a kernel that is mapped and with private memories.  With
    256 free frames among those the window of boot.asm reaches, below 16 MB,
    [init_paging] neither panics nor faults.  In the directory it loads every byte
    of the first 16 MB of physical memory but the first page is at 0xC0000000 plus
    its address, out of reach of programs; the screen's entries are those of the
    boot directory; nothing else is mapped below the recursive slot; and it is a
    state from which programs have memory of their own: one address space, with
    nothing mapped in it. *)
Theorem init_paging_establishes s m base boot_pd : pmm_inv (phys s) m -> words_ok s -> (forall i, is_u32 (boot_pd i)) ->
  let low := Z.min 4096 (pmm_frames_count (phys s)) in
  low_used low m + 256 <= low ->
  exists s' d g, init_paging s (early_fb_pde base boot_pd) = Some s' /\
    (forall v, 0xC0001000 <= v < 0xC1000000 -> exists pde pte, translate s' v = Some (pde, pte, (v - 0xC0000000) / 4) /\ Z.land pde 4 = 0) /\
    (forall i, 768 <= i < 1023 -> early_fb_pde base boot_pd i <> 0 -> load s' (cr3 s' / 4 + i) = early_fb_pde base boot_pd i) /\
    (forall v, 0xC0000000 <= v < 0xC0001000 \/ 0xC1000000 <= v < 0xFFC00000 -> early_fb_pde base boot_pd (v / 0x400000) = 0 -> translate s' v = None) /\
    related d (mkK s' {[d := (0, 0)]}) (mkA (fun _ _ => None) {[d := (0, 0)]} d) g.
Proof.
  intros Hm Hw Hb low Hroom. pose proof (early_fb_low base boot_pd) as Hfb.
  destruct (init_rep (early_fb_pde base boot_pd) (fun i => early_fb_u32 base boot_pd i Hb) (Hfb 128 ltac:(lia)) (low_used low m) low ltac:(lia) s m Hm Hw ltac:(lia) ltac:(lia))
    as (s' & d & t & Hs & Hc & Hd & Htd & R & Hh). pose proof (tb_words _ _ (rp_tables _ _ _ R)) as Hw'. exists s', d, (first_vm d t). split_and!; [done|..].
  - intros v Hv. apply (low_memory _ s' d Hw' Hc Hh); [|done]. intros k Hk. apply Hfb. lia.
  - intros i Hi Hne. destruct Hh as [m' Hh]. specialize (Hh (i - 768) ltac:(lia)). unfold entry_built in Hh. replace (768 + (i - 768)) with i in Hh by lia.
    rewrite decide_False in Hh by done. rewrite Hc. by replace (d * 4096 / 4) with (d * 1024) by zlia.
  - intros v Hv Hz. by apply (nothing_else _ s' d Hw' Hc Hh).
  - by apply first_related.
Qed.

(** C39: [munmap] keeps to the mappings.  Whatever address and length a program
    passes, and however they wrap, the call is accepted exactly when the address is
    that of a page and the range is not empty and lies between [USER_MMAP_FLOOR] and
    [USER_MMAP_TOP]; any other request is refused and changes nothing at all.  An
    accepted one takes exactly the pages the range covers from the caller: nothing
    below the floor or from the top on - text, heap and stack - changes, and nothing
    of any other program. *)
Theorem munmap_confined s g d addr length : rep s g [] -> current s g d -> is_u32 addr -> is_u32 length ->
  exists g', let '(r, s') := sys_munmap s addr length in
    (r = E_OK <-> 0 < length /\ addr mod PAGE_SIZE = 0 /\ USER_MMAP_FLOOR <= addr /\ addr + length <= USER_MMAP_TOP) /\
    (r <> E_OK -> r = E_INVAL /\ s' = s) /\
    rep s' g' [] /\
    (forall d' w, view s' g' d' w =
       if decide (r = E_OK /\ d' = d /\ addr <= w / 1024 * 4096 < addr + length) then None else view s g d' w) /\
    (forall d' w, d' <> d \/ 4 * w < USER_MMAP_FLOOR \/ USER_MMAP_TOP <= 4 * w -> view s' g' d' w = view s g d' w).
Proof.
  intros H Hc Ha Hl. pose proof (munmap_accepts s addr length Ha) as Hacc. destruct (munmap_spec s g d addr length H Hc Ha Hl) as [g' Hm].
  exists g'. destruct (sys_munmap s addr length) as [r s']. cbn [fst] in Hacc. unfold is_u32 in Hl.
  change USER_MMAP_TOP with (720863 * 4096) in *. change USER_MMAP_FLOOR with (655360 * 4096) in *. change PAGE_SIZE with 4096 in *.
  destruct Hm as [(-> & -> & ->)|(-> & lo & hi & -> & H1 & H2 & H3 & C)].
  - split; [split; [done|intros (? & ? & ? & ?); by rewrite Hacc]|]. split; [done|]. split; [done|]. split; [|done].
    intros d' w. by rewrite decide_False by (intros [? _]; done).
  - change FLOOR_PAGE with 655360 in *. change TOP_PAGE with 720863 in *. split; [split; [intros _; split_and!; zlia|done]|].
    split; [done|]. split; [apply C|]. split; intros d' w; rewrite (ch_view _ _ _ _ _ _ _ _ C); [case_decide; case_decide; try done; lia|].
    intros Hout. rewrite decide_False; [done|]. zlia.
Qed.

(** C40: the search of [mmap] misses nothing.  It ends, and it answers 0 only when
    no run of that many free pages lies in the region; otherwise it answers the
    address of such a run, whole in the region and wholly free.  The number of pages
    is any for which the arithmetic does not wrap, which [sys_mmap] sees to. *)
Theorem mmap_search_complete s g d pages : tables s g -> current s g d -> 0 < pages -> FLOOR_PAGE + pages < 2 ^ 20 ->
  (forall b, FLOOR_PAGE <= b -> b + pages <= TOP_PAGE -> free_pages g d b (b + pages) -> find_free_run s pages <> 0) /\
  (find_free_run s pages <> 0 ->
   exists b, find_free_run s pages = b * PAGE_SIZE /\ FLOOR_PAGE <= b /\ b + pages <= TOP_PAGE /\ free_pages g d b (b + pages)).
Proof.
  intros H Hc Hp Hw. change PAGE_SIZE with 4096. destruct (find_free_run_spec s g d pages H Hc Hp Hw) as [[E Hno]|Hyes].
  - split; [|done]. intros b H1 H2 H3. by destruct (Hno b H1 H2).
  - split; [|done]. intros _ _ _ _. destruct Hyes as (b & -> & Hb & _). change FLOOR_PAGE with 655360 in Hb. lia.
Qed.

(** A machine whose kernel directory is frame 256 and whose temporary mapping is in
    frame 1. *)
Definition small_machine (p : pmm) : machine := mkMachine p {[256 * 1024 + 896 := 0x1003; 256 * 1024 + 1023 := 0x100003]} 0x100000.
Definition small_kstate (p : pmm) : kstate := mkK (small_machine p) {[256 := (0, 0)]}.
Definition small_mem : amem := mkA (fun _ _ => None) {[256 := (0, 0)]} 256.

Lemma small_load p a : load (small_machine p) a = if a =? 256 * 1024 + 896 then 0x1003 else if a =? 256 * 1024 + 1023 then 0x100003 else 0.
Proof.
  unfold load, small_machine. cbn [ram]. destruct (Z.eqb_spec a (256 * 1024 + 896)) as [->|]; [by rewrite lookup_insert_eq|]. rewrite lookup_insert_ne by done.
  destruct (Z.eqb_spec a (256 * 1024 + 1023)) as [->|]; [by rewrite lookup_singleton_eq|]. by rewrite lookup_singleton_ne.
Qed.

Lemma small_related p m : pmm_inv p m -> m !! 256 = Some 1 -> related 256 (small_kstate p) small_mem (first_vm 256 1).
Proof.
  intros Hm H256. apply (inv_map _ _ Hm) in H256 as Hk. destruct Hk as (Hk & _). assert (H1 : m !! 1 = Some (pmm_refcount p).[1]).
  { apply (inv_map _ _ Hm). split; [lia|]. split; [|done]. apply (inv_low _ _ Hm); [change PMM_LOW_MEMORY_FRAMES with 256|]; lia. }
  apply first_related; [|done|done]. apply (first_rep (small_machine p) m 256 1 (pmm_refcount p).[1] Hm H256 H1); try lia; try by rewrite small_load.
  - intros a. rewrite small_load. by repeat case_match.
  - intros j Hj. rewrite small_load. destruct (Z.eqb_spec (256 * 1024 + j) (256 * 1024 + 896)), (Z.eqb_spec (256 * 1024 + j) (256 * 1024 + 1023)); (done || lia).
Qed.

(** The same machine with a page at 0xAFFDE000, which is frame 258 in the table of
    frame 257. *)
Definition page_machine (p : pmm) : machine :=
  store (store (small_machine p) (256 * 1024 + 703) (257 * 4096 + 7)) (257 * 1024 + 990) (258 * 4096 + 7).
Definition page_vm : vm := set_map (add_role (add_tab (first_vm 256 1) 256 703 257) 258 Data) (256, 720862) (258 * 4096 + 7).
Definition page_mem (p : pmm) : amem := mkA (view (page_machine p) page_vm) {[256 := (0, 0)]} 256.

Lemma page_rep p q m : pmm_inv p m -> m !! 256 = Some 1 -> m !! 257 = None -> m !! 258 = None -> pmm_inv q (<[258 := 1]> (<[257 := 1]> m)) ->
  rep (page_machine q) page_vm [].
Proof.
  intros Hm H256 H257 H258 Hq. pose proof (re_rep _ _ _ _ (small_related p m Hm H256)) as R. change (mach (small_kstate p)) with (small_machine p) in R.
  assert (Hc0 : counts m (role (first_vm 256 1)) ∅ []).
  { destruct (rp_counts _ _ _ R) as (m' & Hm' & Hc'). replace m with m'; [done|].
    apply map_eq. intros f. apply option_eq. intros c. by rewrite (inv_map _ _ Hm), (inv_map _ _ Hm'). }
  assert (Hc : counts (<[258 := 1]> (<[257 := 1]> m)) (<[258 := Data]> (<[257 := Tab 256 703]> (role (first_vm 256 1)))) ∅ [258]).
  { apply (counts_alloc (<[257 := 1]> m) _ ∅ [] 258 Data); [|by rewrite lookup_insert_ne|done|done].
    by apply (counts_alloc m _ ∅ [] 257 (Tab 256 703)). }
  split.
  - exists (<[258 := 1]> (<[257 := 1]> m)). split; [done|]. by apply (counts_install _ _ ∅ [] (256, 720862) (258 * 4096 + 7)).
  - apply (tables_set _ (add_role (add_tab (first_vm 256 1) 256 703 257) 258 Data) 256 720862 257 (258 * 4096 + 7)); try done.
    apply tables_add_data; [|done|done]. apply (tables_add_tab (small_machine q) _ (first_vm 256 1) 256 703 257 7); try done; try lia.
    + apply (tables_phys (small_machine p) (first_vm 256 1) q). apply R.
    + apply words_store; [apply (tables_phys (small_machine p) (first_vm 256 1) q (rp_tables _ _ _ R))|apply entry_u32; lia].
    + intros j Hj. rewrite load_store, small_load. by repeat (case_match; try lia).
    + intros a _ Hne. rewrite load_store. by destruct (Z.eqb_spec a (256 * 1024 + 703)).
  - intros k k' e e' Hne Hk Hk'. cbn in Hk, Hk'. apply lookup_singleton_Some in Hk as [<- _]. by apply lookup_singleton_Some in Hk' as [<- _].
  - intros d v v' e e' Hk Hk' _. cbn in Hk, Hk'. apply lookup_singleton_Some in Hk as [[= <- <-] _]. by apply lookup_singleton_Some in Hk' as [[= <-] _].
  - intros k e Hk. cbn in Hk. by apply lookup_singleton_Some in Hk as [_ <-].
Qed.

(** The allocator once the two frames are taken. *)
Definition page_pmm : pmm := snd (pmm_alloc_frame (snd (pmm_alloc_frame boot_pmm))).

Lemma page_frames : exists m, pmm_inv boot_pmm m /\ m !! 256 = Some 1 /\ m !! 257 = None /\ m !! 258 = None /\ pmm_inv page_pmm (<[258 := 1]> (<[257 := 1]> m)).
Proof.
  destruct boot_pmm_kernel as (m & Hm & H256). exists m. unfold page_pmm. pose proof (alloc_frame_inv _ _ Hm) as Ha.
  assert (E1 : fst (pmm_alloc_frame boot_pmm) = 0x101000) by (vm_compute; reflexivity).
  assert (E2 : fst (pmm_alloc_frame (snd (pmm_alloc_frame boot_pmm))) = 0x102000) by (vm_compute; reflexivity).
  destruct (pmm_alloc_frame boot_pmm) as [r p1]. cbn [fst snd] in *. subst r.
  destruct Ha as (m1 & Hm1 & [(E & _)|(f & E & _ & Hf & -> & _)] & _); [done|]. unfold PAGE_SIZE in E. assert (f = 257) as -> by lia.
  pose proof (alloc_frame_inv _ _ Hm1) as Ha. destruct (pmm_alloc_frame p1) as [r p2]. cbn [fst snd] in *. subst r.
  destruct Ha as (m2 & Hm2 & [(E' & _)|(f & E' & _ & Hf' & -> & _)] & _); [done|]. unfold PAGE_SIZE in E'. assert (f = 258) as -> by lia.
  rewrite lookup_insert_ne in Hf' by done. done.
Qed.

Lemma page_related : related 256 (mkK (page_machine page_pmm) {[256 := (0, 0)]}) (page_mem page_pmm) page_vm.
Proof.
  destruct page_frames as (m & Hm & H256 & H257 & H258 & Hq). pose proof (small_related _ _ Hm H256) as HR.
  apply (related_same 256 (small_kstate boot_pmm) small_mem (first_vm 256 1)); try done.
  - by apply (page_rep boot_pmm page_pmm m).
  - intros d. cbn. rewrite lookup_insert_Some, lookup_insert_Some. naive_solver.
  - intros d b0 b Hd. left. cbn in Hd. by apply lookup_singleton_Some in Hd as [_ [= <- _]].
Qed.

(** A write to a writable word is seen, as long as a frame is left. *)
Lemma write_seen kd A a x r full A' old : aruns kd A [Write a x] [(r, full)] A' -> full = false -> mem A (running A) (a / 4) = Some (old, true) ->
  mem A' (running A') (a / 4) = Some (x, true).
Proof.
  intros Hr Hfull Hm. inversion Hr as [|? ? ? ? A1 ? ? ? Hs Hr']; subst. inversion Hr'; subst.
  inversion Hs as [? ? m ? _ Hsame|? ? m [Hno|Hno] _| | | | |op' [(? & ? & _)|(? & ? & _)]| | | | | | |]; subst; try done.
  - cbn [mem running]. rewrite Hsame. unfold put. by rewrite decide_True.
  - by destruct (Hno old).
Qed.

(** A write to the page is read back; and a longer run with a fork keeps to its
    map. *)
Lemma memory_refines_witness :
  let k := mkK (page_machine page_pmm) {[256 := (0, 0)]} in
  let ops := [Write 0xAFFDE000 7; Fork true 3; Write 0xAFFDE000 8; Mmap 8192 0; Munmap 0xAFFDE000 4096] in
  user_read (mach (krun 256 k [Write 0xAFFDE000 7]).2) 0xAFFDE000 = Some 7 /\
  exists A' g' rs k', krun 256 k ops = (rs, k') /\ aruns 256 (page_mem page_pmm) ops rs A' /\ related 256 k' A' g'.
Proof.
  cbv zeta. set (k := mkK _ _). pose proof page_related as HR. fold k in HR.
  assert (Hfull : exhausted (mach k) = false) by (vm_compute; reflexivity).
  assert (Hmem : mem (page_mem page_pmm) (running (page_mem page_pmm)) (0xAFFDE000 / 4) = Some (0, true)) by (vm_compute; reflexivity).
  clearbody k. set (A := page_mem page_pmm) in *. clearbody A. split.
  - pose proof (memory_refines 256 k A page_vm [Write 0xAFFDE000 7] HR) as H.
    cbn [krun] in *. destruct (kstep 256 k (Write 0xAFFDE000 7)) as [r k1]. destruct H as (A' & g' & Hr & _ & Hread); [repeat constructor; unfold is_u32; lia|].
    cbn [snd]. rewrite Hread by lia. by rewrite (write_seen _ _ _ _ _ _ _ _ Hr Hfull Hmem).
  - pose proof (memory_refines 256 k A page_vm [Write 0xAFFDE000 7; Fork true 3; Write 0xAFFDE000 8; Mmap 8192 0; Munmap 0xAFFDE000 4096] HR) as H.
    destruct (krun _ _ _) as [rs k']. destruct H as (A' & g' & Hr & HR' & _); [repeat constructor; unfold is_u32; lia|]. exists A', g', rs, k'. done.
Defined.

(** A range inside the region, and one that reaches over its top. *)
Lemma munmap_confined_witness :
  (sys_munmap (small_machine boot_pmm) 0xAFFD0000 0xF000).1 = E_OK /\
  (sys_munmap (small_machine boot_pmm) 0xAFFD0000 0x10000).1 = E_INVAL /\
  exists g', rep (sys_munmap (small_machine boot_pmm) 0xAFFD0000 0xF000).2 g' [].
Proof.
  destruct boot_pmm_kernel as (m & Hm & H256). pose proof (small_related _ _ Hm H256) as HR.
  destruct (munmap_confined (small_machine boot_pmm) (first_vm 256 1) 256 0xAFFD0000 0xF000 (re_rep _ _ _ _ HR) (re_cur _ _ _ _ HR)) as [g' H]; [done|done|].
  destruct (munmap_confined (small_machine boot_pmm) (first_vm 256 1) 256 0xAFFD0000 0x10000 (re_rep _ _ _ _ HR) (re_cur _ _ _ _ HR)) as [g2 H2]; [done|done|].
  split_and!.
  - destruct (sys_munmap _ _ 0xF000). apply H. by vm_compute.
  - destruct (sys_munmap _ _ 0x10000). destruct H2 as (H3 & H4 & _). apply H4. intros E. apply H3 in E. by vm_compute in E; destruct E as (_ & _ & _ & ?).
  - exists g'. destruct (sys_munmap _ _ 0xF000). apply H.
Defined.

Lemma mmap_search_complete_witness : exists b, find_free_run (small_machine boot_pmm) 3 = b * PAGE_SIZE /\ FLOOR_PAGE <= b /\ b + 3 <= TOP_PAGE.
Proof.
  destruct boot_pmm_kernel as (m & Hm & H256). pose proof (small_related _ _ Hm H256) as HR.
  destruct (mmap_search_complete (small_machine boot_pmm) (first_vm 256 1) 256 3 (rp_tables _ _ _ (re_rep _ _ _ _ HR)) (re_cur _ _ _ _ HR)) as [H1 H2]; [done|done|].
  destruct H2 as (b & E & Hb1 & Hb2 & _); [|by exists b]. by apply (H1 FLOOR_PAGE).
Defined.

(** A machine of 3 MB before paging. *)
Definition larger_mb : option multiboot_info := Some (mk_multiboot_info 1 2048 0 0).
Definition larger_pmm : pmm := default (mk_pmm [] 0 0 0 0 [] 0) (init_pmm 0xC0000000 larger_mb no_mmap).

Lemma larger_inv : exists m, pmm_inv larger_pmm m /\ Z.of_nat (size m) + 256 <= pmm_frames_count larger_pmm /\ pmm_frames_count larger_pmm = 768.
Proof.
  destruct (init_pmm_ok 0xC0000000 larger_mb no_mmap) as (found & detected & Hdet & Hinit); [intros mb [= <-]; repeat split; simpl in *; lia|].
  injection Hdet as <- <-. destruct Hinit as (s & m & Hs & Hinv & _).
  - unfold kernel_fits. vm_compute. intuition congruence.
  - exists m. unfold larger_pmm. rewrite Hs. change (default _ (Some s)) with s. split; [done|]. pose proof (inv_used _ _ Hinv) as Hu.
    assert (E : option_map (fun s => (used_memory s, pmm_frames_count s)) (init_pmm 0xC0000000 larger_mb no_mmap) = Some (1052672, 768)) by (vm_compute; reflexivity).
    rewrite Hs in E. injection E as E1 E2. unfold PAGE_SIZE in *. lia.
Qed.

Lemma init_paging_establishes_witness : exists s' d g, init_paging (mkMachine larger_pmm ∅ 0) (early_fb_pde 0 (fun _ => 0)) = Some s' /\
  (exists pde pte, translate s' 0xC0100000 = Some (pde, pte, 0x100000 / 4)) /\
  related d (mkK s' {[d := (0, 0)]}) (mkA (fun _ _ => None) {[d := (0, 0)]} d) g.
Proof.
  destruct larger_inv as (m & Hm & Hr & Hf). destruct (init_paging_establishes (mkMachine larger_pmm ∅ 0) m 0 (fun _ => 0) Hm) as (s' & d & g & Hs & Hlow & _ & _ & HR).
  - clear Hf Hr. intros a. unfold load. cbn [ram]. rewrite lookup_empty. unfold is_u32. cbn. lia.
  - intros i. unfold is_u32. lia.
  - cbn [phys]. rewrite Hf in *. pose proof (low_used_size (Z.min 4096 768) m). lia.
  - exists s', d, g. split; [exact Hs|]. split; [|exact HR]. destruct (Hlow 0xC0100000 ltac:(lia)) as (pde & pte & E & _). exists pde, pte. exact E.
Defined.

End PagingSpec.
